(* ===== verification/_CoqProject ===== *)
-Q . S2P
Prelude.v
Endian.v
Message.v
Buffer.v
RpcMessage.v
NetConn.v
External.v
NetConf.v
RpcInstance.v
Service.v
XtraTaskService.v
Executor.v
Dispatcher.v
Demo.v
Answering.v
Decode.v
ServerConn.v
ServerSend.v
ServerRead.v
Pending.v
ServerSystem.v
ServerInv.v
RpcProps.v
ServiceProps.v
ServerProps.v
ServerRace.v
NetServer.v
NetServerProps.v
World.v
WorldInv.v
WorldProps.v
ClientConf.v
ClientAsync.v
ClientSync.v
ClientImpl.v
ClientRead.v
ClientCall.v
Link.v
Session.v
Course.v
ServerAnswer.v
EndToEnd.v
ClientTimer.v
ClientAsyncRead.v
ClientAsyncSend.v
ClientRace.v
ClientAsyncSystem.v
ClientAsyncInv.v
ClientAsyncProps.v
ClientAsyncCalls.v
ClientAsyncTimer.v
Exchange.v
ExchangeCourse.v
AsyncEndToEnd.v
RpcClient.v
Captain.v
Main.v
ProgramProps.v
