(* ===== verification/Prelude.v ===== *)
(** * A verification of tzrpc

    tzrpc is a client/server RPC framework over TCP. A client puts an RPC request, a
    16-byte header and a payload, into a transport message, another 16-byte header and
    the request, and writes it to a connection. The server reads the byte stream, cuts it
    into messages, hands each to the Dispatcher, which checks the RPC header and queues the
    request with the Executor of the service it names; threads of the Executor run the
    service's handler, which answers on the connection the request came from.

    ** The parts and their files

    - [Prelude]: lists of bytes measured in Z, machine integers, the monad of operations
      that may fail an assertion, be undefined or run out of fuel, tactics and hints.
    - [Endian], [Message], [Buffer], [RpcMessage]: Core/Message.h, Core/Buffer.h,
      RPC/RpcRequestMessage.h, RPC/RpcResponseMessage.h. Structs are moved through their
      memory images; the host's byte order is a parameter.
    - [NetConn]: Network/NetConn.h. A socket is the log of the calls made on it and its
      outstanding asynchronous operations.
    - [External]: the interfaces of libconfig, boost::algorithm, steady_timer and roo's
      EQueue, their documented laws as separate classes, and instances that show the laws
      can hold.
    - [NetConf]: Network/NetConf.h with its part of NetServer.cpp.
    - [RpcInstance], [Service], [XtraTaskService], [Executor], [Dispatcher]: the RPC
      layer, RPC/ and Protocol/ServiceImpl/. A connection is seen through the class
      [MsgSink], a service through the class [Service].
    - [Demo]: concrete environments for the worked examples.
    - [Answering]: what a service promises the server (one answer to each request, a
      configuration, surviving an update); the two services of the program implement it.
    - [Decode]: what the byte stream of a connection means: the abstract reader that cuts
      a stream into messages, and its state after any prefix.
    - [ServerConn]: Network/TcpConnAsync.{h,cpp}, every operation. [ServerSend] and
      [ServerRead] are the contracts of its write and read halves, [ServerSystem] the
      transition system of a connection: its events are completed reads and writes,
      time-outs, and answers sent by pool threads, in any order asio allows.
      [ServerInv] is the invariant of the reachable states, [ServerProps] the theorems.
    - [Pending]: the requests waiting in all the services' queues together.
    - [ServerRace]: two pool threads in [async_send_message] by atomic steps; [ClientRace]:
      the user's thread in [send_net_message] and the io_service's in [write_handler] of
      the client's connection, likewise.
    - [NetServer], [NetServerProps]: Network/NetServer.{h,cpp}.
    - [World]: the running server, the listener with its connections, the Dispatcher, the
      queues and the requests in the hands of pool threads; its events are those of all
      the threads, in any order the environment allows: accepts, completions, time-outs,
      answers, the feed timer, adjustments of the pools, updates. [WorldInv] is its
      invariant, [WorldProps] the theorems.
    - [ClientConf]: Client/include/. [ClientSync]: Client/TcpConnSync.{h,cpp}, and of
      Client/RpcClientImpl.{h,cpp} the state, the call timer that both kinds of call share
      and the synchronous calls, over the class [AsioSync] of blocking operations.
      [ClientRead] is the contract of its reading loops, [ClientCall] of a whole call,
      [ClientTimer] follows the call timer.
    - [ClientAsync]: Client/TcpConnAsync.{h,cpp} and the half of RpcClientImpl that belongs
      to the asynchronous calls; [ClientImpl] these calls, and closing, of the whole
      RpcClientImpl. [ClientAsyncRead] and [ClientAsyncSend] are the contracts of the
      connection's halves, [ClientAsyncSystem] its transition system, [ClientAsyncInv] the
      invariant, [ClientAsyncProps] the theorems on a connection, [ClientAsyncCalls] those
      on calls, [ClientAsyncTimer] on their timer. The write half is related to the
      server's, which does the same.
    - [Link], [Session]: a connection of the running server as the peer of a synchronous
      client, and the calls made over it one after the other. While the client waits, a
      list of events is played, those that are impossible passed over: events of [World],
      the expiry of the client's call timer, a failure of its socket operation.
      [Course] constructs such lists: reads, then the pool threads' work, then writes.
    - [Exchange]: an RpcClientImpl making asynchronous calls over a connection of the
      running server. Its events are calls, the call timer whenever it is armed, completions
      on the client's socket and the events of [World], in any order. [ExchangeCourse]
      constructs a course after which every call is answered.
    - [ServerAnswer], [EndToEnd], [AsyncEndToEnd]: a server connection alone as the peer of
      a client of either kind, with the echo service behind it.
    - [RpcClient]: Client/RpcClient.cpp, construction and forwarding of calls.
    - [Captain]: Captain.{h,cpp}, start-up and shutdown.
    - [Main]: main.cpp and setup.cpp, the command line, exit statuses and signals.
      [ProgramProps] are its theorems.

    Definitions carry the names of the source. Operations are functions in the monad [M]
    of [Prelude]: the state is the object, [AssertFailed] a SAFE_ASSERT, or an
    exception that nobody catches, that stops the process, [Undefined] undefined behaviour (a null pointer, a division by zero), and
    [OutOfFuel] a fuel that was too small. Where a failed assertion only logs, the class
    [AssertMode] lets the code go on; theorems hold in both modes unless they say so.

    ** What the theorems show

    - A program that starts answers every request of every connection exactly once, with
      the answer of its service, and sends nothing else ([program_answers] from the start
      of [main], [every_request_answered_once] from a server ready to accept,
      [idle_connection_answered] for all that was sent to a peer that waits). No event
      traps it ([world_never_traps]), as long as an update does not switch the time-outs
      off, which does trap ([timeout_disabled_traps]); pool threads run out of work
      ([service_work_terminates]); the settings stay in range, whatever the updates
      ([settings_stay_valid]).
    - The server's connection refines the abstract reader: whatever the sizes of the
      reads, the dispatcher has received the messages of the stream so far, in order, and
      the connection waits for the rest of the next one ([server_dispatches_stream],
      [server_delivers_messages], and [chunking_irrelevant] for two ways to cut one
      stream); a bad header ends the connection
      ([server_refuses_bad_header]) and an ended connection stays so: it writes nothing
      more, and takes at most what the read outstanding at its end still brings
      ([server_end_is_final]). What is written is the messages sent, whole and in order
      ([server_wire_in_order]) and all of them in the end, since sending never stalls on a
      live connection ([server_drains]). No reachable
      handler traps ([server_never_traps]). This treats a handler as one step; without
      that the order is lost ([do_write_race]).
    - A synchronous call returns ([call_returns]), returns OK only with the payload
      of an answer that came over the connection for that service and opcode
      ([call_ok_is_genuine]), and returns it when the peer answers ([call_answered]). The
      first two exclude one case, a client without a receive limit below 4 GiB whose peer
      announces a body so near 4 GiB that the length of the buffer wraps ([reading_huge]).
      Against the running server each call of a session is answered with what the service
      gives to its own request, whatever else the server does meanwhile,
      as long as it got round to the request and wrote what it owes, and neither the
      client's call timer nor a failing socket ended the wait
      ([session_answered]), for the echo service with what was sent ([result_of_reply],
      [echo_call_end_to_end]). No state of the server keeps it from answering
      ([calls_can_be_answered]).
    - An asynchronous connection refines the same abstract reader
      ([async_upcalls_stream], [async_answers_delivered]), writes what was accepted whole and in
      order ([async_wire_in_order]) and does not trap ([async_never_traps]).
      [async_call_status] gives what a call yields on every branch. Against the running
      server, whatever the two do and whatever fails, the user's handler is told for each
      request at most once, and only what the service answered to it, and nothing traps
      but the call timer of a call that was refused ([async_upcalls_genuine]); while both ends are open there is a course of events after
      which it was told of every request ([async_calls_can_be_answered]). The echo
      service's answer is handed over as it was sent ([async_echo_end_to_end]).
    - A client is built exactly from the sections that are in order ([client_from_section]);
      the program starts exactly when its steps succeed, and an address that is none or
      cannot be listened on ends it, as does an invalid thread setting where assertions
      stop ([captain_init_spec], [main_exit_status]).
    - The RPC layer: validation accepts what clients send, the dispatcher routes or
      rejects, executors serve in order, the demo service answers once, configuration is
      accepted exactly when in range, pool sizes stay in theirs.
    - The listening server: admission in the order of its tests, the token bucket, the
      count of connections over a whole run ([concurrency_limit_plus_one]), the runtime
      update.
    - What the code gets wrong, as theorems: the limit that lets one more in, two
      writes at once ([do_write_race], [client_do_write_race]), the feed
      storm after a change of speed, the invalid executor configuration that is taken, the
      lost status of a rejected call, asynchronous calls lost after a failed write, the
      timer that outlives its call ([failed_call_timer_undefined],
      [failed_async_call_timer_undefined], [async_timer_outlives_answer]) or is taken away from it ([sync_call_takes_timer]),
      a time-out that is reported again ([stale_timeout_reported]), reads beyond a buffer,
      a file name that loses its terminator, signals that come before there is anything to
      update ([early_signal_traps]).

    ** Fuel

    [do_read] and [do_read_msg] call each other once per buffered message; every second
    call takes at least the 16 bytes of a header, and [read_fuel] is the number of
    buffered bytes plus two. The client's header loop gains a byte a round (fuel 17), the
    body loop too (the length in the header), the write loop empties at least a byte a
    round. The theorems state [Done] results: the fuel is proved enough. Buffers are
    assumed to stay below 4 GiB where [get_length] would wrap; the theorems say so.

    ** What is not modelled

    An event of [World] runs a handler from start to end. That is what the strands of
    asio give the handlers of a connection, not the pool threads that send on it:
    [ServerRace] shows what their interleaving breaks. Likewise an event of
    [ClientAsyncSystem], and of [Exchange], runs [send_net_message] or [write_handler] of the
    client from start to end, although the user's thread and the io_service's can meet in
    [do_write]: [ClientRace] shows what that breaks. The theorems on [World],
    [ServerSystem], [ClientAsyncSystem] and [Exchange] hold of the runs without such a
    meeting. A client's address that is no address makes the connecting call throw in the
    user's program; the model's connecting succeeds or fails. A pool is adjusted
    in [World] only while its step is positive; an update can set it to zero, which is
    fatal ([executor_adjust_zero_step]). The shutdown ([service_graceful]) is no event of
    [World]: it stops the io_services, and no handler runs after it. An update reaches the
    listener before the Dispatcher; the order is the roo library's, and the two change
    different state. [Exchange] follows one connection of a client: after a call that was
    refused the next one opens another ([async_call_status]). A connection
    with no limit on the size of a message is assumed to receive less than 4 GiB
    ([sized_b]), where [get_length] would wrap.

    Logging, [dump], the start time and the lock-freedom message are printed and nothing
    depends on them. The tests and benchmarks are programs of their own.

    The scheduler, sockets and timers of asio are its documented behaviour: an operation
    completes with an error or with the bytes it was asked for. *)

From Stdlib Require Import ZArith Lia Init.Byte Strings.Byte.
From stdpp Require Import base list option.

#[global] Open Scope Z_scope.

(** ** Notations and tactics of the development *)

Declare Scope tz_scope.
Delimit Scope tz_scope with tz.
#[global] Open Scope tz_scope.

Create HintDb tz discriminated.
Create Rewrite HintDb tz_len.

(** [std::string] payloads and [std::vector<char>] contents. *)
Abbreviation bytes := (list Byte.byte).

Definition zlen {A} (l : list A) : Z := Z.of_nat (length l).
Notation "'len' l" := (zlen l) (at level 9, l at level 8) : tz_scope.

(** [take]/[drop] by a C++ unsigned count. *)
Definition ztake {A} (n : Z) (l : list A) : list A := take (Z.to_nat n) l.
Definition zdrop {A} (n : Z) (l : list A) : list A := drop (Z.to_nat n) l.

(** Split on the innermost [if]/[match] of the goal or of a hypothesis. *)
Ltac split_cases :=
  repeat (case_decide || case_match); simplify_eq/=.

(** Turn boolean tests of the code into propositions for [lia]. *)
Ltac bool_prop :=
  repeat match goal with
  | H : (_ && _)%bool = true |- _ => apply andb_prop in H as [? ?]
  | H : (_ || _)%bool = false |- _ => apply orb_false_elim in H as [? ?]
  | H : negb _ = true |- _ => apply negb_true_iff in H
  | H : negb _ = false |- _ => apply negb_false_iff in H
  | H : (_ <? _) = true |- _ => apply Z.ltb_lt in H
  | H : (_ <? _) = false |- _ => apply Z.ltb_ge in H
  | H : (_ <=? _) = true |- _ => apply Z.leb_le in H
  | H : (_ <=? _) = false |- _ => apply Z.leb_gt in H
  | H : (_ =? _) = true |- _ => apply Z.eqb_eq in H
  | H : (_ =? _) = false |- _ => apply Z.eqb_neq in H
  end.

(** ** Machine integers *)

(** Conversion to an unsigned type of [w] bits. *)
Definition uwrap (w z : Z) : Z := z mod 2 ^ w.

(** Conversion to a signed type of [w] bits (two's complement). *)
Definition swrap (w z : Z) : Z := (z + 2 ^ (w - 1)) mod 2 ^ w - 2 ^ (w - 1).

Notation "'uint8_t' ( z )" := (uwrap 8 z) (at level 0, z at level 200) : tz_scope.
Notation "'uint16_t' ( z )" := (uwrap 16 z) (at level 0, z at level 200) : tz_scope.
Notation "'uint32_t' ( z )" := (uwrap 32 z) (at level 0, z at level 200) : tz_scope.
Notation "'size_t' ( z )" := (uwrap 64 z) (at level 0, z at level 200) : tz_scope.
Notation "'int32_t' ( z )" := (swrap 32 z) (at level 0, z at level 200) : tz_scope.

(** The value fits in an unsigned (signed) type of [w] bits. *)
Definition fits_u (w z : Z) : Prop := 0 <= z < 2 ^ w.
Definition fits_s (w z : Z) : Prop := - 2 ^ (w - 1) <= z < 2 ^ (w - 1).

Lemma uwrap_small w z : fits_u w z -> uwrap w z = z.
Proof. apply Z.mod_small. Qed.

Lemma uwrap_fits w z : 0 <= w -> fits_u w (uwrap w z).
Proof. intros. apply Z.mod_pos_bound, Z.pow_pos_nonneg; lia. Qed.

Lemma uwrap_idemp w z : uwrap w (uwrap w z) = uwrap w z.
Proof. apply Z.mod_mod_divide. by exists 1; lia. Qed.

Lemma swrap_small w z : 0 < w -> fits_s w z -> swrap w z = z.
Proof.
  intros Hw [Hl Hu]. unfold swrap.
  assert (2 ^ w = 2 * 2 ^ (w - 1)) as E.
  { replace w with (Z.succ (w - 1)) at 1 by lia. apply Z.pow_succ_r. lia. }
  rewrite Z.mod_small; lia.
Qed.

(** ** Lengths, prefixes and splits *)

Lemma zlen_nonneg {A} (l : list A) : 0 <= zlen l.
Proof. unfold zlen. lia. Qed.

Lemma zlen_app {A} (l k : list A) : zlen (l ++ k) = zlen l + zlen k.
Proof. unfold zlen. rewrite length_app. lia. Qed.

Lemma zlen_nil_inv {A} (l : list A) : zlen l = 0 -> l = [].
Proof. destruct l; [done | unfold zlen; simpl; lia]. Qed.

Lemma zlen_ztake {A} n (l : list A) :
  0 <= n -> n <= zlen l -> zlen (ztake n l) = n.
Proof. unfold zlen, ztake. rewrite length_take. lia. Qed.

Lemma zlen_ztake_min {A} n (l : list A) :
  0 <= n -> zlen (ztake n l) = Z.min n (zlen l).
Proof. unfold zlen, ztake. rewrite length_take. lia. Qed.

Lemma zlen_zdrop {A} n (l : list A) :
  0 <= n -> zlen (zdrop n l) = Z.max 0 (zlen l - n).
Proof. unfold zlen, zdrop. rewrite length_drop. lia. Qed.

Lemma ztake_zdrop {A} n (l : list A) : ztake n l ++ zdrop n l = l.
Proof. apply take_drop. Qed.

Lemma ztake_all {A} n (l : list A) : zlen l <= n -> ztake n l = l.
Proof. intros. apply take_ge. unfold zlen in *. lia. Qed.

Lemma zdrop_all {A} n (l : list A) : zlen l <= n -> zdrop n l = [].
Proof. intros. apply drop_ge. unfold zlen in *. lia. Qed.

Lemma ztake_prefix {A} k n (l : list A) : 0 <= k <= n -> ztake k l `prefix_of` ztake n l.
Proof.
  intros. exists (drop (Z.to_nat k) (ztake n l)). unfold ztake.
  replace (take (Z.to_nat k) l) with (take (Z.to_nat k) (take (Z.to_nat n) l)).
  - by rewrite take_drop.
  - rewrite take_take. f_equal. lia.
Qed.

Lemma zdrop_zdrop {A} a b (l : list A) : 0 <= a -> 0 <= b -> zdrop b (zdrop a l) = zdrop (a + b) l.
Proof. intros. unfold zdrop. rewrite drop_drop. f_equal. lia. Qed.

Lemma ztake_app_le {A} n (l k : list A) : n <= zlen l -> ztake n (l ++ k) = ztake n l.
Proof. intros. apply take_app_le. unfold zlen in *. lia. Qed.

Lemma zdrop_app_le {A} n (l k : list A) :
  n <= zlen l -> zdrop n (l ++ k) = zdrop n l ++ k.
Proof. intros. apply drop_app_le. unfold zlen in *. lia. Qed.

Lemma ztake_app_length {A} n (l k : list A) : n = zlen l -> ztake n (l ++ k) = l.
Proof. intros ->. unfold ztake, zlen. rewrite Nat2Z.id. apply take_app_length. Qed.

Lemma zdrop_app_length {A} n (l k : list A) : n = zlen l -> zdrop n (l ++ k) = k.
Proof. intros ->. unfold zdrop, zlen. rewrite Nat2Z.id. apply drop_app_length. Qed.

Lemma prefix_app_of_ztake {A} n (l : list A) : ztake n l `prefix_of` l.
Proof. exists (zdrop n l). by rewrite ztake_zdrop. Qed.

#[export] Hint Resolve zlen_nonneg : tz.
#[export] Hint Rewrite @zlen_app : tz_len.
#[export] Hint Rewrite @zlen_ztake @zlen_zdrop using lia : tz_len.

(** ** Bytes and multi-byte integers *)

#[export] Instance byte_eq_dec : EqDecision Byte.byte := Byte.byte_eq_dec.

Definition byte_to_Z (b : Byte.byte) : Z := Z.of_N (Byte.to_N b).
Definition byte_of_Z (z : Z) : Byte.byte :=
  default Byte.x00 (Byte.of_N (Z.to_N (z mod 256))).

Lemma byte_to_Z_range b : 0 <= byte_to_Z b < 256.
Proof. unfold byte_to_Z. pose proof (Byte.to_N_bounded b). lia. Qed.

Lemma byte_of_to_Z b : byte_of_Z (byte_to_Z b) = b.
Proof.
  unfold byte_of_Z. rewrite Z.mod_small by apply byte_to_Z_range.
  unfold byte_to_Z. by rewrite N2Z.id, Byte.of_to_N.
Qed.

Lemma byte_to_of_Z z : byte_to_Z (byte_of_Z z) = z mod 256.
Proof.
  unfold byte_of_Z, byte_to_Z.
  pose proof (Z.mod_pos_bound z 256 eq_refl) as Hb.
  destruct (Byte.of_N (Z.to_N (z mod 256))) as [b|] eqn:E; simpl.
  - apply Byte.to_of_N in E. rewrite E. lia.
  - apply Byte.of_N_None_iff in E. lia.
Qed.

(** Little-endian digits: [le_bytes n z] are the [n] low bytes of [z]. *)
Fixpoint le_bytes (n : nat) (z : Z) : bytes :=
  match n with
  | O => []
  | S n => byte_of_Z z :: le_bytes n (z / 256)
  end.

Fixpoint le_val (bs : bytes) : Z :=
  match bs with
  | [] => 0
  | b :: bs => byte_to_Z b + 256 * le_val bs
  end.

(** Network (big-endian) order. *)
Definition be_bytes (n : nat) (z : Z) : bytes := reverse (le_bytes n z).
Definition be_val (bs : bytes) : Z := le_val (reverse bs).

Lemma length_le_bytes n z : length (le_bytes n z) = n.
Proof. revert z. induction n; intros; simpl; auto. Qed.

Lemma length_be_bytes n z : length (be_bytes n z) = n.
Proof. unfold be_bytes. by rewrite length_reverse, length_le_bytes. Qed.

Lemma le_val_le_bytes n z : le_val (le_bytes n z) = z mod 2 ^ (8 * Z.of_nat n).
Proof.
  revert z. induction n as [|n IH]; intros z.
  { simpl. by rewrite Z.mod_1_r. }
  cbn [le_bytes le_val]. rewrite IH, byte_to_of_Z.
  replace (8 * Z.of_nat (S n)) with (8 + 8 * Z.of_nat n) by lia.
  rewrite Z.pow_add_r by lia. change (2 ^ 8) with 256.
  by rewrite Z.rem_mul_r by lia.
Qed.

Lemma le_val_range bs : 0 <= le_val bs < 2 ^ (8 * Z.of_nat (length bs)).
Proof.
  induction bs as [|b bs IH]; cbn [le_val length]; [done|].
  replace (8 * Z.of_nat (S (length bs))) with (8 + 8 * Z.of_nat (length bs)) by lia.
  rewrite Z.pow_add_r by lia. change (2 ^ 8) with 256.
  pose proof (byte_to_Z_range b). nia.
Qed.

Lemma le_bytes_le_val bs : le_bytes (length bs) (le_val bs) = bs.
Proof.
  induction bs as [|b bs IH]; cbn [le_val length le_bytes]; [done|].
  pose proof (byte_to_Z_range b).
  rewrite (Z.add_comm (byte_to_Z b)), (Z.mul_comm 256).
  rewrite Z.div_add_l, Z.div_small, Z.add_0_r, IH by lia. f_equal.
  unfold byte_of_Z. rewrite Z.add_comm, Z.mod_add by lia.
  apply byte_of_to_Z.
Qed.

Lemma be_val_be_bytes n z : be_val (be_bytes n z) = z mod 2 ^ (8 * Z.of_nat n).
Proof. unfold be_val, be_bytes. by rewrite reverse_involutive, le_val_le_bytes. Qed.

Lemma be_bytes_be_val n bs : length bs = n -> be_bytes n (be_val bs) = bs.
Proof.
  intros <-. unfold be_val, be_bytes.
  rewrite <-(length_reverse bs), le_bytes_le_val. apply reverse_involutive.
Qed.

#[global] Arguments le_bytes : simpl never.
#[global] Arguments be_bytes : simpl never.

(** ** Outcomes and the state monad

    [Undefined] stands for behaviour the C++ standard leaves undefined (null
    dereference, out-of-bounds [memcpy], division by zero); [AssertFailed] for
    the process stopping, in [SAFE_ASSERT] or by an exception that nothing catches;
    [OutOfFuel] for a recursion the model cut off (theorems exclude it). *)
Inductive outcome (A : Type) : Type :=
| Done (a : A)
| AssertFailed
| Undefined
| OutOfFuel.
Arguments Done {A} a.
Arguments AssertFailed {A}.
Arguments Undefined {A}.
Arguments OutOfFuel {A}.

Definition M (S A : Type) : Type := S -> outcome (A * S).

#[export] Instance M_ret S : MRet (M S) := fun A a s => Done (a, s).
#[export] Instance M_bind S : MBind (M S) := fun A B k m s =>
  match m s with
  | Done (a, s') => k a s'
  | AssertFailed => AssertFailed
  | Undefined => Undefined
  | OutOfFuel => OutOfFuel
  end.

Section Monad.
Context {S : Type}.

Definition gets {A} (f : S -> A) : M S A := fun s => Done (f s, s).
Definition modify (f : S -> S) : M S unit := fun s => Done (tt, f s).
Definition undefined {A} : M S A := fun _ => Undefined.
Definition out_of_fuel {A} : M S A := fun _ => OutOfFuel.

(** [when c m]: [if (c) m;] *)
Definition when (c : bool) (m : M S unit) : M S unit := if c then m else mret tt.
End Monad.

(** Run an operation of a component inside a larger state. *)
Definition zoom {S T A} (get : T -> S) (put : S -> T -> T) (m : M S A) : M T A :=
  fun t => match m (get t) with
  | Done (a, s') => Done (a, put s' t)
  | AssertFailed => AssertFailed
  | Undefined => Undefined
  | OutOfFuel => OutOfFuel
  end.

(** [SAFE_ASSERT] is a macro of the external header xtra_rhel.h: whether a
    failing assertion stops the process (debug builds) or is only reported is a
    parameter. *)
Class AssertMode := assert_stops : bool.

Definition safe_assert `{AssertMode} {S} (c : bool) : M S unit := fun s =>
  if c then Done (tt, s) else if assert_stops then AssertFailed else Done (tt, s).

(** An exception that nothing catches ends the process, whatever [SAFE_ASSERT] does. *)
Definition throw {S A} : M S A := fun _ => AssertFailed.

(** [wp m Q s]: from [s], [m] terminates without a failed assertion or
    undefined behaviour, in a state and with a result that satisfy [Q]. *)
Definition wp {S A} (m : M S A) (Q : A -> S -> Prop) (s : S) : Prop :=
  match m s with Done (a, s') => Q a s' | _ => False end.

Section Wp.
Context {S : Type}.
Implicit Types s : S.

Lemma wp_ret {A} (a : A) Q s : Q a s -> wp (mret a : M S A) Q s.
Proof. done. Qed.

Lemma wp_bind {A B} (m : M S A) (k : A -> M S B) Q s :
  wp m (fun a s' => wp (k a) Q s') s -> wp (m ≫= k) Q s.
Proof. unfold wp, mbind, M_bind. by destruct (m s) as [[? ?]| | |]. Qed.

Lemma wp_gets {A} (f : S -> A) Q s : Q (f s) s -> wp (gets f) Q s.
Proof. done. Qed.

Lemma wp_modify f Q s : Q tt (f s) -> wp (modify f) Q s.
Proof. done. Qed.

Lemma wp_safe_assert `{AssertMode} c Q s :
  c = true -> Q tt s -> wp (safe_assert c) Q s.
Proof. by intros ->. Qed.

Lemma wp_when c m Q s :
  (c = true -> wp m Q s) -> (c = false -> Q tt s) -> wp (when c m) Q s.
Proof. destruct c; intros Ht Hf; [by apply Ht | by apply wp_ret, Hf]. Qed.

Lemma wp_mono {A} (m : M S A) (Q R : A -> S -> Prop) s :
  wp m Q s -> (forall a s', Q a s' -> R a s') -> wp m R s.
Proof. unfold wp. destruct (m s) as [[? ?]| | |]; auto. Qed.

Lemma wp_and {A} (m : M S A) (Q R : A -> S -> Prop) s :
  wp m Q s -> wp m R s -> wp m (fun a s' => Q a s' /\ R a s') s.
Proof. unfold wp. destruct (m s) as [[? ?]| | |]; auto. Qed.

Lemma wp_done {A} (m : M S A) Q s :
  wp m Q s <-> exists a s', m s = Done (a, s') /\ Q a s'.
Proof.
  unfold wp. split.
  - destruct (m s) as [[a s']| | |]; naive_solver.
  - intros (a & s' & -> & HQ). done.
Qed.
End Wp.

Lemma wp_zoom {S T A} (get : T -> S) put (m : M S A) Q t :
  wp m (fun a s' => Q a (put s' t)) (get t) -> wp (zoom get put m) Q t.
Proof. unfold wp, zoom. by destruct (m (get t)) as [[? ?]| | |]. Qed.

(** ** Threads in steps

    Threads that run the same code over one shared state, each at its own place in it, and
    take turns as a schedule says. *)

Section Threads.
Context {PC C : Type} (step : PC -> M C PC).

(** One step of thread [i]. *)
Definition step_thread (i : nat) (st : list PC * C) : outcome (list PC * C) :=
  match fst st !! i with
  | None => Done st
  | Some p =>
      match step p (snd st) with
      | Done (p', c') => Done (<[i:=p']> (fst st), c')
      | AssertFailed => AssertFailed
      | Undefined => Undefined
      | OutOfFuel => OutOfFuel
      end
  end.

Fixpoint run_threads (schedule : list nat) (st : list PC * C) : outcome (list PC * C) :=
  match schedule with
  | [] => Done st
  | i :: schedule =>
      match step_thread i st with
      | Done st' => run_threads schedule st'
      | e => e
      end
  end.

Lemma run_threads_step i schedule ps c p p' c' :
  ps !! i = Some p -> step p c = Done (p', c') ->
  run_threads (i :: schedule) (ps, c) = run_threads schedule (<[i:=p']> ps, c').
Proof. intros Ei Ep. cbn [run_threads]. unfold step_thread. cbn [fst snd]. by rewrite Ei, Ep. Qed.
End Threads.

(** One step of symbolic execution. *)
Ltac wp_step :=
  lazymatch goal with
  | |- wp (_ ≫= _) _ _ => apply wp_bind
  | |- wp (mbind _ _) _ _ => apply wp_bind
  | |- wp (mret _) _ _ => apply wp_ret
  | |- wp (gets _) _ _ => apply wp_gets; cbn beta
  | |- wp (modify _) _ _ => apply wp_modify; cbn beta
  | |- wp (zoom _ _ _) _ _ => apply wp_zoom; cbn beta
  | |- wp (if ?c then _ else _) _ _ => destruct c eqn:?
  end.
Ltac wp_run := repeat wp_step.
