(* ===== verification/Endian.v ===== *)
(** * Byte order: the in-memory form of integers and the <endian.h> conversions

    Structs of the program are packed and are moved to and from strings with
    [memcpy]/[reinterpret_cast], so what goes on the wire is the host's memory.
    The host's byte order is a parameter ([Host]); [htobe]/[betoh] are the
    [htobe16/32] and [be16toh/32toh] of <endian.h> at [n] bytes. *)

From Stdlib Require Import ZArith Lia Init.Byte.
From stdpp Require Import base list.
From S2P Require Import Prelude.

Inductive endianness := little_endian | big_endian.

Class Host := host_order : endianness.

Section Endian.
Context `{Host}.

(** An [n]-byte integer as it lies in memory, and back. *)
Definition store_int (n : nat) (z : Z) : bytes :=
  match host_order with
  | little_endian => le_bytes n z
  | big_endian => be_bytes n z
  end.

Definition load_int (bs : bytes) : Z :=
  match host_order with
  | little_endian => le_val bs
  | big_endian => be_val bs
  end.

Definition bswap (n : nat) (z : Z) : Z := le_val (reverse (le_bytes n z)).

Definition htobe (n : nat) (z : Z) : Z :=
  match host_order with little_endian => bswap n z | big_endian => z end.

Definition betoh (n : nat) (z : Z) : Z :=
  match host_order with little_endian => bswap n z | big_endian => z end.

Lemma length_store_int n z : length (store_int n z) = n.
Proof.
  unfold store_int. destruct host_order; auto using length_le_bytes, length_be_bytes.
Qed.

(** Storing a converted integer writes its network-order bytes. *)
Lemma store_htobe n z : store_int n (htobe n z) = be_bytes n z.
Proof.
  unfold store_int, htobe, bswap, be_bytes. destruct host_order; [|done].
  rewrite <-(length_le_bytes n z) at 1. rewrite <-length_reverse.
  apply le_bytes_le_val.
Qed.

Lemma betoh_load n bs : length bs = n -> betoh n (load_int bs) = be_val bs.
Proof.
  intros <-. unfold betoh, load_int, bswap. destruct host_order; [|done].
  by rewrite le_bytes_le_val.
Qed.

Lemma load_store n z : fits_u (8 * Z.of_nat n) z -> load_int (store_int n z) = z.
Proof.
  intros Hz. unfold load_int, store_int.
  destruct host_order; [rewrite le_val_le_bytes|rewrite be_val_be_bytes];
    by apply uwrap_small.
Qed.

Lemma load_int_fits n bs : length bs = n -> fits_u (8 * Z.of_nat n) (load_int bs).
Proof.
  intros <-. unfold load_int, be_val, fits_u.
  destruct host_order; [apply le_val_range|].
  rewrite <-(length_reverse bs). apply le_val_range.
Qed.

Lemma be_val_fits n bs : length bs = n -> fits_u (8 * Z.of_nat n) (be_val bs).
Proof.
  intros <-. unfold be_val, fits_u. rewrite <-(length_reverse bs). apply le_val_range.
Qed.

Lemma store_load n bs : length bs = n -> store_int n (load_int bs) = bs.
Proof.
  intros <-. unfold load_int, store_int.
  destruct host_order; [apply le_bytes_le_val | by apply be_bytes_be_val].
Qed.
End Endian.

(** Bytes [i .. i+n-1] of a struct's memory. *)
Definition field_at (i n : nat) (bs : bytes) : bytes := take n (drop i bs).

Lemma length_field_at i n bs : (i + n <= length bs)%nat -> length (field_at i n bs) = n.
Proof. unfold field_at. rewrite length_take, length_drop. lia. Qed.

Lemma field_at_app_l i n (bs cs : bytes) :
  (i + n <= length bs)%nat -> field_at i n (bs ++ cs) = field_at i n bs.
Proof.
  intros. unfold field_at. rewrite drop_app_le by lia.
  apply take_app_le. rewrite length_drop. lia.
Qed.

Lemma field_at_here n (bs cs : bytes) : length bs = n -> field_at 0 n (bs ++ cs) = bs.
Proof. intros <-. unfold field_at. rewrite drop_0. apply take_app_length. Qed.

Lemma field_at_skip k i n (bs cs : bytes) :
  length bs = k -> field_at (k + i) n (bs ++ cs) = field_at i n cs.
Proof.
  intros <-. unfold field_at. by rewrite drop_app_add.
Qed.

Lemma field_at_split i n m (bs : bytes) :
  field_at i (n + m) bs = field_at i n bs ++ field_at (i + n) m bs.
Proof.
  unfold field_at. rewrite <-drop_drop. symmetry. apply take_take_drop.
Qed.

Lemma field_at_full n (bs : bytes) : length bs = n -> field_at 0 n bs = bs.
Proof. intros <-. unfold field_at. by rewrite drop_0, take_ge by lia. Qed.
