(* ===== verification/Message.v ===== *)
(** * Core/Message.h: the transport header and message

    A [Message] is a 16-byte packed [Header] and a payload. [net_str] is what the
    program puts on the wire for it. *)

From Stdlib Require Import ZArith Lia Init.Byte.
From stdpp Require Import base list.
From S2P Require Import Prelude Endian.

Definition kHeaderMagic : Z := 0x746b.
Definition kHeaderVersion : Z := 0x01.

Record Header := mkHeader {
  magic : Z;      (* uint16_t *)
  version : Z;    (* uint16_t *)
  length_ : Z;    (* uint32_t, payload length *)
  rev1 : Z;       (* uint32_t *)
  rev2 : Z        (* uint32_t *)
}.

#[export] Instance Header_eq_dec : EqDecision Header.
Proof. solve_decision. Defined.

(** sizeof(Header), the struct being packed. *)
Definition sizeof_Header : Z := 16.

(** [header_({ })]: value-initialised. *)
Definition zero_Header : Header := mkHeader 0 0 0 0 0.

Definition header_wf (h : Header) : Prop :=
  fits_u 16 (magic h) /\ fits_u 16 (version h) /\ fits_u 32 (length_ h) /\
  fits_u 32 (rev1 h) /\ fits_u 32 (rev2 h).

Section Header.
Context `{Host}.

Definition from_net_endian (h : Header) : Header :=
  mkHeader (betoh 2 (magic h)) (betoh 2 (version h)) (betoh 4 (length_ h))
           (rev1 h) (rev2 h).

Definition to_net_endian (h : Header) : Header :=
  mkHeader (htobe 2 (magic h)) (htobe 2 (version h)) (htobe 4 (length_ h))
           (rev1 h) (rev2 h).

(** [reinterpret_cast<char*>(&header)], [sizeof(Header)] bytes. *)
Definition header_mem (h : Header) : bytes :=
  store_int 2 (magic h) ++ store_int 2 (version h) ++ store_int 4 (length_ h) ++
  store_int 4 (rev1 h) ++ store_int 4 (rev2 h).

(** [memcpy(&header, s, sizeof(Header))]. *)
Definition header_of_mem (bs : bytes) : Header :=
  mkHeader (load_int (field_at 0 2 bs)) (load_int (field_at 2 2 bs))
           (load_int (field_at 4 4 bs)) (load_int (field_at 8 4 bs))
           (load_int (field_at 12 4 bs)).
End Header.

Record Message := mkMessage {
  header_ : Header;
  payload_ : bytes
}.

(** [Message()] *)
Definition Message_default : Message := mkMessage zero_Header [].

(** [Message(data)]; the [size_t] size is narrowed to the 32-bit field. *)
Definition Message_of_data (data : bytes) : Message :=
  mkMessage (mkHeader kHeaderMagic kHeaderVersion (uint32_t(len data)) 0 0) data.

Section Message.
Context `{Host}.

Definition net_str (m : Message) : bytes :=
  let header := to_net_endian (header_ m) in
  header_mem header ++ payload_ m.

(** The 16 bytes of a received header, decoded. *)
Definition parse_wire_header (bs : bytes) : Header := from_net_endian (header_of_mem bs).

Lemma length_header_mem h : length (header_mem h) = 16%nat.
Proof. unfold header_mem. rewrite !length_app, !length_store_int. lia. Qed.

Lemma zlen_net_str m : len (net_str m) = sizeof_Header + len (payload_ m).
Proof.
  unfold net_str. rewrite zlen_app. unfold zlen at 1. by rewrite length_header_mem.
Qed.

(** The memory image field by field. *)
Lemma header_of_mem_app h bs : header_wf h -> header_of_mem (header_mem h ++ bs) = h.
Proof.
  intros (? & ? & ? & ? & ?). destruct h as [m v l r1 r2]; simpl in *.
  unfold header_of_mem, header_mem; simpl. rewrite <-!app_assoc.
  rewrite (field_at_skip 2 0), (field_at_skip 2 2), (field_at_skip 2 6),
    (field_at_skip 2 10), (field_at_skip 2 0), (field_at_skip 2 4),
    (field_at_skip 2 8), (field_at_skip 4 0), (field_at_skip 4 4),
    (field_at_skip 4 0) by apply length_store_int.
  rewrite !field_at_here by apply length_store_int.
  by rewrite !load_store.
Qed.

(** On the wire the converted fields are in network order whatever the host. *)
Lemma net_str_wire m :
  net_str m =
    be_bytes 2 (magic (header_ m)) ++ be_bytes 2 (version (header_ m)) ++
    be_bytes 4 (length_ (header_ m)) ++ store_int 4 (rev1 (header_ m)) ++
    store_int 4 (rev2 (header_ m)) ++ payload_ m.
Proof.
  unfold net_str, header_mem, to_net_endian; simpl.
  by rewrite !store_htobe, <-!app_assoc.
Qed.

Lemma parse_wire_header_wf bs :
  (16 <= length bs)%nat -> header_wf (parse_wire_header bs).
Proof.
  intros Hl. unfold parse_wire_header, from_net_endian, header_of_mem; simpl.
  repeat split; simpl; rewrite ?betoh_load;
    try (by apply length_field_at; lia);
    match goal with
    | |- _ <= be_val (field_at ?i ?n ?b) =>
        apply (be_val_fits n (field_at i n b)), length_field_at; lia
    | |- be_val (field_at ?i ?n ?b) < _ =>
        apply (be_val_fits n (field_at i n b)), length_field_at; lia
    | |- _ <= load_int (field_at ?i ?n ?b) =>
        apply (load_int_fits n (field_at i n b)), length_field_at; lia
    | |- load_int (field_at ?i ?n ?b) < _ =>
        apply (load_int_fits n (field_at i n b)), length_field_at; lia
    end.
Qed.
End Message.

(** ** Exchange between two hosts *)

Section Interop.
Context (H1 H2 : Host).

Lemma load_store_zero : @load_int H2 (@store_int H1 4 0) = 0.
Proof. by destruct H1, H2. Qed.

Lemma betoh_be_bytes n z bs :
  length bs = n -> fits_u (8 * Z.of_nat n) z -> bs = be_bytes n z ->
  @betoh H2 n (@load_int H2 bs) = z.
Proof.
  intros Hl Hz ->. rewrite betoh_load by done.
  rewrite be_val_be_bytes. by apply uwrap_small.
Qed.

(** What [H2] decodes from the bytes [H1] sent, the reserved words kept apart. *)
Lemma parse_net_str m tail :
  header_wf (header_ m) ->
  @parse_wire_header H2 (@net_str H1 m ++ tail) =
    mkHeader (magic (header_ m)) (version (header_ m)) (length_ (header_ m))
      (@load_int H2 (@store_int H1 4 (rev1 (header_ m))))
      (@load_int H2 (@store_int H1 4 (rev2 (header_ m)))).
Proof.
  intros (Hm & Hv & Hlen & _ & _). destruct m as [[mg v l r1 r2] p].
  rewrite net_str_wire. unfold parse_wire_header, from_net_endian, header_of_mem.
  cbn [magic version length_ rev1 rev2 header_ payload_] in *.
  rewrite <-!app_assoc.
  rewrite (field_at_skip 2 0), (field_at_skip 2 2), (field_at_skip 2 6),
    (field_at_skip 2 10), (field_at_skip 2 0), (field_at_skip 2 4),
    (field_at_skip 2 8), (field_at_skip 4 0), (field_at_skip 4 4),
    (field_at_skip 4 0)
    by (apply length_be_bytes || apply length_store_int).
  rewrite !field_at_here by (apply length_be_bytes || apply length_store_int).
  rewrite (betoh_be_bytes 2 mg), (betoh_be_bytes 2 v), (betoh_be_bytes 4 l)
    by (done || apply length_be_bytes). done.
Qed.
End Interop.

(** On one host every header survives the trip, reserved words included. *)
Lemma parse_net_str_same `{Host} m tail :
  header_wf (header_ m) -> parse_wire_header (net_str m ++ tail) = header_ m.
Proof.
  intros Hwf. rewrite parse_net_str by done. destruct Hwf as (_ & _ & _ & ? & ?).
  rewrite !load_store by done. by destruct m as [[] ?].
Qed.

Lemma Message_of_data_wf data : header_wf (header_ (Message_of_data data)).
Proof.
  repeat split; simpl; try done; apply (uwrap_fits 32); lia.
Qed.

Lemma Message_of_data_length data :
  len data < 2 ^ 32 -> length_ (header_ (Message_of_data data)) = len data.
Proof. intros. apply uwrap_small. split; [apply zlen_nonneg|done]. Qed.

(** A message the program builds is encoded alike on every host. *)
Lemma net_str_host (H1 H2 : Host) data :
  @net_str H1 (Message_of_data data) = @net_str H2 (Message_of_data data).
Proof.
  unfold Message_of_data. rewrite !net_str_wire. by destruct H1, H2.
Qed.

#[export] Hint Resolve Message_of_data_wf : tz.

(** ** Properties *)

(** Whatever the byte order of the two machines, the header a peer decodes from
    the bytes of a message the program built is the header that was sent, at the
    front of any longer stream. *)
Lemma message_header_interop (H1 H2 : Host) (data tail : bytes) :
  @parse_wire_header H2 (@net_str H1 (Message_of_data data) ++ tail)
  = header_ (Message_of_data data).
Proof.
  rewrite parse_net_str by apply Message_of_data_wf. simpl.
  by rewrite load_store_zero.
Qed.

(** The reserved words are not converted: sent by a little-endian host and read
    by a big-endian one, a header whose [rev1] is 1 arrives with another value. *)
Lemma rev_words_not_interop :
  rev1 (@parse_wire_header big_endian
         (@net_str little_endian (mkMessage (mkHeader kHeaderMagic kHeaderVersion 0 1 0) [])))
  = 2 ^ 24.
Proof. reflexivity. Qed.
