(* ===== verification/Buffer.v ===== *)
(** * Core/Buffer.h: the byte queue between the sockets and the messages

    [data_] is the vector's contents. Lengths are returned as [uint32_t] while the
    comparisons inside use the full [size()], as in the source. *)

From Stdlib Require Import ZArith Lia Init.Byte.
From stdpp Require Import base list.
From S2P Require Import Prelude Endian Message.

Record Buffer := mkBuffer { data_ : bytes }.

#[export] Instance Buffer_eq_dec : EqDecision Buffer.
Proof. solve_decision. Defined.

Definition Buffer_empty : Buffer := mkBuffer [].
Definition Buffer_of_string (data : bytes) : Buffer := mkBuffer data.

(** The queue of the source is the list of its bytes. *)
Definition append_internal (data : bytes) (b : Buffer) : Z * Buffer :=
  let b' := mkBuffer (data_ b ++ data) in (uint32_t(len (data_ b')), b').

Section Append.
Context `{Host}.

Definition append (msg : Message) (b : Buffer) : Z * Buffer :=
  let header := to_net_endian (header_ msg) in
  let header_str := header_mem header in
  let '(_, b) := append_internal header_str b in
  let '(_, b) := append_internal (payload_ msg) b in
  (uint32_t(len (data_ b)), b).

(** [Buffer(msg)] *)
Definition Buffer_of_message (msg : Message) : Buffer :=
  let header := to_net_endian (header_ msg) in
  let header_str := header_mem header in
  let '(_, b) := append_internal header_str Buffer_empty in
  let '(_, b) := append_internal (payload_ msg) b in b.
End Append.

Definition front_erase (sz : Z) (b : Buffer) : Buffer :=
  if len (data_ b) <=? sz then mkBuffer [] else mkBuffer (zdrop sz (data_ b)).

(** [bool consume(std::string& store, uint32_t sz)]: result, store, buffer. *)
Definition consume (store : bytes) (sz : Z) (b : Buffer) : bool * bytes * Buffer :=
  if (sz =? 0) || bool_decide (data_ b = []) then (false, store, b)
  else if len (data_ b) <=? sz then (true, data_ b, mkBuffer [])
  else (true, ztake sz (data_ b), mkBuffer (zdrop sz (data_ b))).

(** [memcpy(store, data_.data(), sz)] into an array: undefined past either end. *)
Definition memcpy_front (store : bytes) (sz : Z) (data : bytes) : outcome bytes :=
  if (sz <=? len data) && (sz <=? len store)
  then Done (ztake sz data ++ zdrop sz store) else Undefined.

(** [bool consume(char* store, uint32_t sz)]; [store] is [None] for a null pointer. *)
Definition consume_raw (store : option bytes) (sz : Z) (b : Buffer)
    : outcome (bool * option bytes * Buffer) :=
  match store with
  | None => Done (false, None, b)
  | Some st =>
      if (sz =? 0) || bool_decide (data_ b = []) then Done (false, Some st, b)
      else match memcpy_front st sz (data_ b) with
           | Done st' => Done (true, Some st', front_erase sz b)
           | _ => Undefined
           end
  end.

Definition get_data (b : Buffer) : option bytes :=
  if bool_decide (data_ b = []) then None else Some (data_ b).

Definition get_length (b : Buffer) : Z := uint32_t(len (data_ b)).

(** ** Facts used by the connections *)

Section Facts.
Context `{Host}.

Lemma append_data msg b : data_ (append msg b).2 = data_ b ++ net_str msg.
Proof. unfold append, net_str; simpl. by rewrite app_assoc. Qed.

Lemma append_eq msg b :
  append msg b = (get_length (mkBuffer (data_ b ++ net_str msg)), mkBuffer (data_ b ++ net_str msg)).
Proof. unfold append, net_str, get_length; simpl. by rewrite <-app_assoc. Qed.
End Facts.

Lemma front_erase_data sz b : 0 <= sz -> data_ (front_erase sz b) = zdrop sz (data_ b).
Proof.
  intros. unfold front_erase. case_match; bool_prop; [|done].
  simpl. by rewrite zdrop_all.
Qed.

Lemma get_length_small b : len (data_ b) < 2 ^ 32 -> get_length b = len (data_ b).
Proof. intros. apply uwrap_small. split; [apply zlen_nonneg|done]. Qed.

Lemma get_length_le b : 0 <= get_length b <= len (data_ b).
Proof.
  unfold get_length, uwrap. pose proof (zlen_nonneg (data_ b)). split.
  - apply Z.mod_pos_bound. lia.
  - apply Z.mod_le; lia.
Qed.

Lemma consume_some store sz b :
  0 < sz -> data_ b <> [] ->
  consume store sz b = (true, ztake sz (data_ b), mkBuffer (zdrop sz (data_ b))).
Proof.
  intros Hsz Hne. unfold consume.
  rewrite (proj2 (Z.eqb_neq _ _)), bool_decide_false by (done || lia). simpl.
  case_match; bool_prop; [|done]. by rewrite ztake_all, zdrop_all by done.
Qed.

Lemma consume_zero store b : consume store 0 b = (false, store, b).
Proof. done. Qed.

Lemma consume_raw_some st sz b :
  0 < sz -> sz <= len (data_ b) -> sz <= len st ->
  consume_raw (Some st) sz b =
    Done (true, Some (ztake sz (data_ b) ++ zdrop sz st), mkBuffer (zdrop sz (data_ b))).
Proof.
  intros Hsz Hd Hst. unfold consume_raw, memcpy_front.
  assert (data_ b <> []) as Hne by (intros E; rewrite E in Hd; change (len (@nil Byte.byte)) with 0 in Hd; lia).
  rewrite (proj2 (Z.eqb_neq _ _)), bool_decide_false by (done || lia). simpl.
  rewrite !(proj2 (Z.leb_le _ _)) by lia. simpl. do 2 f_equal.
  unfold front_erase. case_match; bool_prop; [|done]. by rewrite zdrop_all.
Qed.

(** ** Properties *)

(** [consume] into a string is a FIFO read: bytes leave in order, none is lost or
    duplicated, at most [sz] are taken, and it returns true exactly when it takes some. *)
Lemma consume_fifo (store : bytes) (sz : Z) (b : Buffer) :
  0 <= sz ->
  let '(ok, out, b') := consume store sz b in
  (ok = true -> out ++ data_ b' = data_ b /\ len out = Z.min sz (len (data_ b)) /\ out <> []) /\
  (ok = false -> (sz = 0 \/ data_ b = []) /\ out = store /\ b' = b).
Proof.
  intros Hsz. destruct (decide (sz = 0 \/ data_ b = [])) as [Hz|Hnz].
  - unfold consume. destruct Hz as [-> | E]; [naive_solver|].
    rewrite E, bool_decide_true, orb_true_r by done. naive_solver.
  - assert (sz <> 0 /\ data_ b <> []) as [? ?] by tauto.
    rewrite consume_some by (done || lia). split; [intros _|done]. simpl.
    rewrite ztake_zdrop, zlen_ztake_min by lia. split; [done|]. split; [done|].
    intros E. apply (f_equal zlen) in E. rewrite zlen_ztake_min in E by lia.
    destruct (data_ b) eqn:Eb; [naive_solver|]. unfold zlen in E; simpl in E. lia.
Qed.

(** The raw [consume] never checks its size against the buffer: asked for more bytes
    than are queued it reads past the end of the vector, whatever the destination. *)
Lemma consume_raw_overread (st : bytes) (sz : Z) (b : Buffer) :
  data_ b <> [] -> len (data_ b) < sz -> consume_raw (Some st) sz b = Undefined.
Proof.
  intros Hne Hlt. unfold consume_raw, memcpy_front. pose proof (zlen_nonneg (data_ b)).
  rewrite (proj2 (Z.eqb_neq sz 0)), bool_decide_false by (done || lia). simpl.
  by rewrite (proj2 (Z.leb_gt sz _)).
Qed.

