(* ===== verification/RpcMessage.v ===== *)
(** * RPC/RpcRequestMessage.h and RPC/RpcResponseMessage.h

    The RPC layer's headers (16 and 17 packed bytes), messages, serialisation and
    parsers. The parsers are static functions shared by the clients; the server
    parses requests in RpcInstance. *)

From Stdlib Require Import ZArith Lia Init.Byte.
From stdpp Require Import base list.
From S2P Require Import Prelude Endian Message.

Definition kRpcHeaderMagic : Z := 0x7472.
Definition kRpcHeaderVersion : Z := 0x01.

(** ** Requests *)

Record RpcRequestHeader := mkRpcRequestHeader {
  rq_magic : Z;        (* uint16_t *)
  rq_version : Z;      (* uint16_t *)
  rq_service_id : Z;   (* uint16_t *)
  rq_opcode : Z;       (* uint16_t *)
  rq_rev1 : Z;         (* uint32_t *)
  rq_rev2 : Z          (* uint32_t *)
}.

Definition sizeof_RpcRequestHeader : Z := 16.

Definition zero_RpcRequestHeader : RpcRequestHeader := mkRpcRequestHeader 0 0 0 0 0 0.

Section RequestHeader.
Context `{Host}.

Definition RpcRequestHeader_from_net_endian (h : RpcRequestHeader) : RpcRequestHeader :=
  mkRpcRequestHeader (betoh 2 (rq_magic h)) (betoh 2 (rq_version h))
    (betoh 2 (rq_service_id h)) (betoh 2 (rq_opcode h)) (rq_rev1 h) (rq_rev2 h).

Definition RpcRequestHeader_to_net_endian (h : RpcRequestHeader) : RpcRequestHeader :=
  mkRpcRequestHeader (htobe 2 (rq_magic h)) (htobe 2 (rq_version h))
    (htobe 2 (rq_service_id h)) (htobe 2 (rq_opcode h)) (rq_rev1 h) (rq_rev2 h).

Definition RpcRequestHeader_mem (h : RpcRequestHeader) : bytes :=
  store_int 2 (rq_magic h) ++ store_int 2 (rq_version h) ++
  store_int 2 (rq_service_id h) ++ store_int 2 (rq_opcode h) ++
  store_int 4 (rq_rev1 h) ++ store_int 4 (rq_rev2 h).

Definition RpcRequestHeader_of_mem (bs : bytes) : RpcRequestHeader :=
  mkRpcRequestHeader (load_int (field_at 0 2 bs)) (load_int (field_at 2 2 bs))
    (load_int (field_at 4 2 bs)) (load_int (field_at 6 2 bs))
    (load_int (field_at 8 4 bs)) (load_int (field_at 12 4 bs)).
End RequestHeader.

Record RpcRequestMessage := mkRpcRequestMessage {
  rq_header_ : RpcRequestHeader;
  rq_payload_ : bytes
}.

Definition RpcRequestMessage_default : RpcRequestMessage :=
  mkRpcRequestMessage zero_RpcRequestHeader [].

(** [RpcRequestMessage(serviceid, opcd, data)] *)
Definition RpcRequestMessage_new (serviceid opcd : Z) (data : bytes) : RpcRequestMessage :=
  mkRpcRequestMessage
    (mkRpcRequestHeader kRpcHeaderMagic kRpcHeaderVersion serviceid opcd 0 0) data.

Section Request.
Context `{Host} `{AssertMode}.

Definition RpcRequestMessage_net_str (m : RpcRequestMessage) : bytes :=
  let header := RpcRequestHeader_to_net_endian (rq_header_ m) in
  RpcRequestHeader_mem header ++ rq_payload_ m.

(** [RpcRequestMessageParse]: the state is the out-parameter. *)
Definition RpcRequestMessageParse (str : bytes) : M RpcRequestMessage bool :=
  _ ← safe_assert (sizeof_RpcRequestHeader <=? len str);
  if len str <? sizeof_RpcRequestHeader then mret false
  else
    _ ← modify (fun _ => mkRpcRequestMessage
      (RpcRequestHeader_from_net_endian (RpcRequestHeader_of_mem str))
      (zdrop sizeof_RpcRequestHeader str));
    mret true.
End Request.

(** ** Responses *)

(** The enumerators; a received status byte may be any [uint8_t], so the field of the
    header holds the number. *)
Inductive RpcResponseStatus :=
| Resp_OK
| Resp_SERVICE_SPECIFIC_ERROR
| Resp_INVALID_VERSION
| Resp_INVALID_SERVICE
| Resp_INVALID_REQUEST
| Resp_SYSTEM_ERROR.

#[export] Instance RpcResponseStatus_eq_dec : EqDecision RpcResponseStatus.
Proof. solve_decision. Defined.

Definition response_code (s : RpcResponseStatus) : Z :=
  match s with
  | Resp_OK => 0
  | Resp_SERVICE_SPECIFIC_ERROR => 1
  | Resp_INVALID_VERSION => 2
  | Resp_INVALID_SERVICE => 3
  | Resp_INVALID_REQUEST => 4
  | Resp_SYSTEM_ERROR => 5
  end.

Record RpcResponseHeader := mkRpcResponseHeader {
  rs_status : Z;       (* RpcResponseStatus : uint8_t *)
  rs_magic : Z;        (* uint16_t *)
  rs_version : Z;      (* uint16_t *)
  rs_service_id : Z;   (* uint16_t *)
  rs_opcode : Z;       (* uint16_t *)
  rs_rev1 : Z;         (* uint32_t *)
  rs_rev2 : Z          (* uint32_t *)
}.

Definition sizeof_RpcResponseHeader : Z := 17.

Definition zero_RpcResponseHeader : RpcResponseHeader := mkRpcResponseHeader 0 0 0 0 0 0 0.

Section ResponseHeader.
Context `{Host}.

Definition RpcResponseHeader_from_net_endian (h : RpcResponseHeader) : RpcResponseHeader :=
  mkRpcResponseHeader (rs_status h) (betoh 2 (rs_magic h)) (betoh 2 (rs_version h))
    (betoh 2 (rs_service_id h)) (betoh 2 (rs_opcode h)) (rs_rev1 h) (rs_rev2 h).

Definition RpcResponseHeader_to_net_endian (h : RpcResponseHeader) : RpcResponseHeader :=
  mkRpcResponseHeader (rs_status h) (htobe 2 (rs_magic h)) (htobe 2 (rs_version h))
    (htobe 2 (rs_service_id h)) (htobe 2 (rs_opcode h)) (rs_rev1 h) (rs_rev2 h).

Definition RpcResponseHeader_mem (h : RpcResponseHeader) : bytes :=
  store_int 1 (rs_status h) ++ store_int 2 (rs_magic h) ++ store_int 2 (rs_version h) ++
  store_int 2 (rs_service_id h) ++ store_int 2 (rs_opcode h) ++
  store_int 4 (rs_rev1 h) ++ store_int 4 (rs_rev2 h).

Definition RpcResponseHeader_of_mem (bs : bytes) : RpcResponseHeader :=
  mkRpcResponseHeader (load_int (field_at 0 1 bs)) (load_int (field_at 1 2 bs))
    (load_int (field_at 3 2 bs)) (load_int (field_at 5 2 bs)) (load_int (field_at 7 2 bs))
    (load_int (field_at 9 4 bs)) (load_int (field_at 13 4 bs)).
End ResponseHeader.

Record RpcResponseMessage := mkRpcResponseMessage {
  rs_header_ : RpcResponseHeader;
  rs_payload_ : bytes
}.

Definition RpcResponseMessage_default : RpcResponseMessage :=
  mkRpcResponseMessage zero_RpcResponseHeader [].

(** [RpcResponseMessage(serviceid, opcd, data)] *)
Definition RpcResponseMessage_new (serviceid opcd : Z) (data : bytes) : RpcResponseMessage :=
  mkRpcResponseMessage
    (mkRpcResponseHeader (response_code Resp_OK) kRpcHeaderMagic kRpcHeaderVersion
       serviceid opcd 0 0) data.

(** [RpcResponseMessage(status)]: service and opcode stay zero. *)
Definition RpcResponseMessage_of_status (status : RpcResponseStatus) : RpcResponseMessage :=
  mkRpcResponseMessage
    (mkRpcResponseHeader (response_code status) kRpcHeaderMagic kRpcHeaderVersion 0 0 0 0) [].

Section Response.
Context `{Host} `{AssertMode}.

Definition RpcResponseMessage_net_str (m : RpcResponseMessage) : bytes :=
  let header := RpcResponseHeader_to_net_endian (rs_header_ m) in
  RpcResponseHeader_mem header ++ rs_payload_ m.

Definition RpcResponseMessageParse (str : bytes) : M RpcResponseMessage bool :=
  _ ← safe_assert (sizeof_RpcResponseHeader <=? len str);
  if len str <? sizeof_RpcResponseHeader then mret false
  else
    _ ← modify (fun _ => mkRpcResponseMessage
      (RpcResponseHeader_from_net_endian (RpcResponseHeader_of_mem str))
      (zdrop sizeof_RpcResponseHeader str));
    mret true.
End Response.

(** ** Lengths and exchange between hosts *)

Lemma zlen_RpcRequestMessage_net_str `{Host} m :
  len (RpcRequestMessage_net_str m) = sizeof_RpcRequestHeader + len (rq_payload_ m).
Proof.
  unfold RpcRequestMessage_net_str, RpcRequestHeader_mem.
  unfold zlen. rewrite !length_app, !length_store_int. unfold sizeof_RpcRequestHeader. lia.
Qed.

Lemma zlen_RpcResponseMessage_net_str `{Host} m :
  len (RpcResponseMessage_net_str m) = sizeof_RpcResponseHeader + len (rs_payload_ m).
Proof.
  unfold RpcResponseMessage_net_str, RpcResponseHeader_mem.
  unfold zlen. rewrite !length_app, !length_store_int. unfold sizeof_RpcResponseHeader. lia.
Qed.

Ltac solve_field_len := apply length_be_bytes || apply length_store_int.

Section Interop.
Context (H1 H2 : Host).

Lemma store_int_1 n z : @store_int H1 1 z = @store_int n 1 z.
Proof. by destruct H1, n. Qed.

(** The request header a host decodes from the front of what another sent. *)
Lemma decode_RpcRequest serviceid opcd data :
  fits_u 16 serviceid -> fits_u 16 opcd ->
  let str := @RpcRequestMessage_net_str H1 (RpcRequestMessage_new serviceid opcd data) in
  @RpcRequestHeader_from_net_endian H2 (@RpcRequestHeader_of_mem H2 str)
    = rq_header_ (RpcRequestMessage_new serviceid opcd data) /\
  zdrop sizeof_RpcRequestHeader str = data.
Proof.
  intros Hs Ho str. subst str. split.
  - unfold RpcRequestMessage_net_str, RpcRequestHeader_mem, RpcRequestHeader_to_net_endian,
      RpcRequestMessage_new, RpcRequestHeader_from_net_endian, RpcRequestHeader_of_mem.
    cbn [rq_magic rq_version rq_service_id rq_opcode rq_rev1 rq_rev2 rq_header_ rq_payload_].
    rewrite !store_htobe, <-!app_assoc.
    rewrite (field_at_skip 2 0), (field_at_skip 2 2), (field_at_skip 2 4),
      (field_at_skip 2 6), (field_at_skip 2 10), (field_at_skip 2 0), (field_at_skip 2 2),
      (field_at_skip 2 4), (field_at_skip 2 8), (field_at_skip 2 0), (field_at_skip 2 2),
      (field_at_skip 2 6), (field_at_skip 2 0), (field_at_skip 2 4), (field_at_skip 4 0)
      by solve_field_len.
    rewrite !field_at_here by solve_field_len.
    rewrite (betoh_be_bytes H2 2 kRpcHeaderMagic), (betoh_be_bytes H2 2 kRpcHeaderVersion),
      (betoh_be_bytes H2 2 serviceid), (betoh_be_bytes H2 2 opcd)
      by (done || apply length_be_bytes).
    by rewrite load_store_zero.
  - apply zdrop_app_length. unfold zlen, RpcRequestHeader_mem.
    by rewrite !length_app, !length_store_int.
Qed.

Lemma decode_RpcResponse code serviceid opcd data :
  fits_u 8 code -> fits_u 16 serviceid -> fits_u 16 opcd ->
  let h := mkRpcResponseHeader code kRpcHeaderMagic kRpcHeaderVersion serviceid opcd 0 0 in
  let str := @RpcResponseMessage_net_str H1 (mkRpcResponseMessage h data) in
  @RpcResponseHeader_from_net_endian H2 (@RpcResponseHeader_of_mem H2 str) = h /\
  zdrop sizeof_RpcResponseHeader str = data.
Proof.
  intros Hc Hs Ho h str. subst h str. split.
  - unfold RpcResponseMessage_net_str, RpcResponseHeader_mem, RpcResponseHeader_to_net_endian,
      RpcResponseHeader_from_net_endian, RpcResponseHeader_of_mem.
    cbn [rs_status rs_magic rs_version rs_service_id rs_opcode rs_rev1 rs_rev2 rs_header_ rs_payload_].
    rewrite !store_htobe, <-!app_assoc.
    rewrite (field_at_skip 1 0), (field_at_skip 1 2), (field_at_skip 1 4),
      (field_at_skip 1 6), (field_at_skip 1 8), (field_at_skip 1 12) by solve_field_len.
    rewrite (field_at_skip 2 0), (field_at_skip 2 2), (field_at_skip 2 4),
      (field_at_skip 2 6), (field_at_skip 2 10), (field_at_skip 2 0), (field_at_skip 2 2),
      (field_at_skip 2 4), (field_at_skip 2 8), (field_at_skip 2 0), (field_at_skip 2 2),
      (field_at_skip 2 6), (field_at_skip 2 0), (field_at_skip 2 4), (field_at_skip 4 0)
      by solve_field_len.
    rewrite !field_at_here by solve_field_len.
    rewrite (betoh_be_bytes H2 2 kRpcHeaderMagic), (betoh_be_bytes H2 2 kRpcHeaderVersion),
      (betoh_be_bytes H2 2 serviceid), (betoh_be_bytes H2 2 opcd)
      by (done || apply length_be_bytes).
    rewrite load_store_zero, (store_int_1 H2), load_store; done.
  - apply zdrop_app_length. unfold zlen, RpcResponseHeader_mem.
    by rewrite !length_app, !length_store_int.
Qed.
End Interop.

Lemma response_code_fits s : fits_u 8 (response_code s).
Proof. by destruct s. Qed.

#[export] Hint Resolve response_code_fits : tz.

(** What the parser does on each side of the length test. *)
Lemma RpcResponseMessageParse_ok `{Host} `{AssertMode} str m :
  sizeof_RpcResponseHeader <= len str ->
  RpcResponseMessageParse str m =
    Done (true, mkRpcResponseMessage
      (RpcResponseHeader_from_net_endian (RpcResponseHeader_of_mem str))
      (zdrop sizeof_RpcResponseHeader str)).
Proof.
  intros Hl. unfold RpcResponseMessageParse, mbind, M_bind, safe_assert.
  rewrite (proj2 (Z.leb_le _ _)), (proj2 (Z.ltb_ge _ _)) by done. done.
Qed.

Lemma RpcRequestMessageParse_ok `{Host} `{AssertMode} str m :
  sizeof_RpcRequestHeader <= len str ->
  RpcRequestMessageParse str m =
    Done (true, mkRpcRequestMessage
      (RpcRequestHeader_from_net_endian (RpcRequestHeader_of_mem str))
      (zdrop sizeof_RpcRequestHeader str)).
Proof.
  intros Hl. unfold RpcRequestMessageParse, mbind, M_bind, safe_assert.
  rewrite (proj2 (Z.leb_le _ _)), (proj2 (Z.ltb_ge _ _)) by done. done.
Qed.

(** ** Properties *)

(** A response serialised by one host and parsed by another, of either byte order,
    comes back whole: status, ids and payload. *)
Lemma rpc_response_roundtrip (H1 H2 : Host) (am : AssertMode)
    (serviceid opcd : Z) (data : bytes) (old : RpcResponseMessage) :
  fits_u 16 serviceid -> fits_u 16 opcd ->
  @RpcResponseMessageParse H2 am
    (@RpcResponseMessage_net_str H1 (RpcResponseMessage_new serviceid opcd data)) old
  = Done (true, RpcResponseMessage_new serviceid opcd data).
Proof.
  intros Hs Ho. rewrite RpcResponseMessageParse_ok.
  - destruct (decode_RpcResponse H1 H2 0 serviceid opcd data) as [E1 E2]; [done..|].
    unfold RpcResponseMessage_new; simpl response_code. by rewrite E1, E2.
  - rewrite zlen_RpcResponseMessage_net_str. unfold zlen. lia.
Qed.

(** The same for a request. *)
Lemma rpc_request_roundtrip (H1 H2 : Host) (am : AssertMode)
    (serviceid opcd : Z) (data : bytes) (old : RpcRequestMessage) :
  fits_u 16 serviceid -> fits_u 16 opcd ->
  @RpcRequestMessageParse H2 am
    (@RpcRequestMessage_net_str H1 (RpcRequestMessage_new serviceid opcd data)) old
  = Done (true, RpcRequestMessage_new serviceid opcd data).
Proof.
  intros Hs Ho. rewrite RpcRequestMessageParse_ok.
  - destruct (decode_RpcRequest H1 H2 serviceid opcd data) as [E1 E2]; [done..|].
    by rewrite E1, E2.
  - rewrite zlen_RpcRequestMessage_net_str. unfold zlen. lia.
Qed.

(** A response shorter than its header reaches the [SAFE_ASSERT] before the length
    test: where the assertion stops the process the peer's bytes stop it, and elsewhere the
    parser returns false with the out-parameter unchanged. *)
Lemma rpc_response_parse_short (H : Host) (str : bytes) (m : RpcResponseMessage) :
  len str < sizeof_RpcResponseHeader ->
  @RpcResponseMessageParse H true str m = AssertFailed /\
  @RpcResponseMessageParse H false str m = Done (false, m).
Proof.
  intros Hl. unfold RpcResponseMessageParse, mbind, M_bind, safe_assert.
  rewrite (proj2 (Z.leb_gt _ _)), (proj2 (Z.ltb_lt _ _)) by done. done.
Qed.

