(* ===== verification/NetConn.v ===== *)
(** * Network/NetConn.h: the connection base class and its I/O areas

    boost::asio is not part of the repository. The model keeps, in [Socket], what the
    program asks of it: the calls it made and the asynchronous operations it started
    and that have not completed. What asio answers is an input of the models that run
    connections (error codes, bytes). *)

From Stdlib Require Import ZArith Lia Init.Byte.
From stdpp Require Import base list.
From S2P Require Import Prelude Endian Message Buffer.

Inductive ConnStat := kWorking | kPending | kError | kClosed.

Inductive ShutdownType := Shut_kSend | Shut_kRecv | Shut_kBoth.

#[export] Instance ConnStat_eq_dec : EqDecision ConnStat.
Proof. solve_decision. Defined.
#[export] Instance ShutdownType_eq_dec : EqDecision ShutdownType.
Proof. solve_decision. Defined.

(** boost::system::error_code, up to the values the program distinguishes. *)
Inductive error_code :=
| ec_success
| ec_connection_reset
| ec_timed_out
| ec_bad_descriptor
| ec_eof
| ec_operation_aborted
| ec_other (value : Z).

#[export] Instance error_code_eq_dec : EqDecision error_code.
Proof. solve_decision. Defined.

(** [if (ec)] *)
Definition ec_failed (ec : error_code) : bool :=
  match ec with ec_success => false | _ => true end.

(** The member function bound as completion handler of an [async_read]. *)
Inductive read_tag := on_read_handler | on_read_msg_handler.

#[export] Instance read_tag_eq_dec : EqDecision read_tag.
Proof. solve_decision. Defined.

Inductive sock_call :=
| CallShutdown (s : ShutdownType)
| CallClose
| CallCancel
| CallNonBlocking (set_value : bool)
| CallNoDelay (set_value : bool)
| CallKeepAlive (set_value : bool).

Record Socket := mkSocket {
  sk_calls : list sock_call;
  sk_reads : list (Z * read_tag);   (* outstanding async_read: transfer_at_least, handler *)
  sk_writes : list Z                (* outstanding async_write: transfer_exactly *)
}.

Definition Socket_new : Socket := mkSocket [] [] [].

Definition sock_call_add (c : sock_call) (s : Socket) : Socket :=
  mkSocket (sk_calls s ++ [c]) (sk_reads s) (sk_writes s).

Record NetConn := mkNetConn {
  conn_stat_ : ConnStat;
  socket_ : Socket
}.

Definition set_conn_stat (st : ConnStat) (c : NetConn) : NetConn := mkNetConn st (socket_ c).
Definition get_conn_stat (c : NetConn) : ConnStat := conn_stat_ c.
Definition upd_socket (f : Socket -> Socket) (c : NetConn) : NetConn :=
  mkNetConn (conn_stat_ c) (f (socket_ c)).

(** [async_read(socket_, buffer(io_block_), transfer_at_least(n), handler)] *)
Definition async_read (n : Z) (h : read_tag) (c : NetConn) : NetConn :=
  upd_socket (fun s => mkSocket (sk_calls s) (sk_reads s ++ [(n, h)]) (sk_writes s)) c.

(** [async_write(socket_, buffer(io_block_, n), transfer_exactly(n), handler)] *)
Definition async_write (n : Z) (c : NetConn) : NetConn :=
  upd_socket (fun s => mkSocket (sk_calls s) (sk_reads s) (sk_writes s ++ [n])) c.

Definition set_tcp_nonblocking (set_value : bool) : M NetConn bool :=
  _ ← modify (upd_socket (sock_call_add (CallNonBlocking set_value)));
  mret true.

(** [option_value] is what [get_option] answers. *)
Definition set_tcp_nodelay (set_value option_value : bool) : M NetConn bool :=
  _ ← modify (upd_socket (sock_call_add (CallNoDelay set_value)));
  mret (bool_decide (option_value = set_value)).

Definition set_tcp_keepalive (set_value option_value : bool) : M NetConn bool :=
  _ ← modify (upd_socket (sock_call_add (CallKeepAlive set_value)));
  mret (bool_decide (option_value = set_value)).

(** [explicit NetConn(sock)] *)
Definition NetConn_new (sock : Socket) : NetConn :=
  upd_socket (sock_call_add (CallNonBlocking false)) (mkNetConn kPending sock).

Definition sock_shutdown_and_close (s : ShutdownType) : M NetConn unit :=
  st ← gets conn_stat_;
  if bool_decide (st = kClosed) then mret tt
  else
    _ ← modify (upd_socket (sock_call_add (CallShutdown s)));
    _ ← modify (upd_socket (sock_call_add CallClose));
    modify (set_conn_stat kClosed).

Definition sock_cancel : M NetConn unit :=
  modify (upd_socket (sock_call_add CallCancel)).

Definition sock_close : M NetConn unit :=
  st ← gets conn_stat_;
  if bool_decide (st = kClosed) then mret tt
  else
    _ ← modify (upd_socket (sock_call_add CallClose));
    modify (set_conn_stat kClosed).

(** ** I/O areas *)

Definition kFixedIoBufferSize : Z := 2048.

Record IOBound := mkIOBound {
  io_block_ : bytes;       (* char[kFixedIoBufferSize] *)
  ib_header_ : Header;
  buffer_ : Buffer
}.

Definition IOBound_new : IOBound :=
  mkIOBound (replicate (Z.to_nat kFixedIoBufferSize) x00) zero_Header Buffer_empty.

Definition set_io_block (b : bytes) (io : IOBound) : IOBound :=
  mkIOBound b (ib_header_ io) (buffer_ io).
Definition set_ib_header (h : Header) (io : IOBound) : IOBound :=
  mkIOBound (io_block_ io) h (buffer_ io).
Definition set_buffer (b : Buffer) (io : IOBound) : IOBound :=
  mkIOBound (io_block_ io) (ib_header_ io) b.

(** What asio stores for a read: the received bytes at the front of [io_block_]. *)
Definition fill_io_block (data : bytes) (io : IOBound) : IOBound :=
  set_io_block (data ++ zdrop (len data) (io_block_ io)) io.

Inductive SendStatus := Send_kSend | Send_kDone.
Inductive RecvStatus := kRecvHead | kRecvBody | Recv_kDone.

#[export] Instance SendStatus_eq_dec : EqDecision SendStatus.
Proof. solve_decision. Defined.

(** ** Facts *)

Lemma sock_shutdown_and_close_spec s c :
  exists c', sock_shutdown_and_close s c = Done (tt, c') /\ conn_stat_ c' = kClosed /\
    sk_reads (socket_ c') = sk_reads (socket_ c) /\
    sk_writes (socket_ c') = sk_writes (socket_ c).
Proof.
  unfold sock_shutdown_and_close, mbind, M_bind, gets, modify.
  case_bool_decide; eauto 10.
Qed.

(** ** Properties *)

(** Closing a connection is idempotent and final for its status: the first call shuts
    the socket down in the requested direction and closes it, any later close of either
    kind makes no further socket call. *)
Lemma close_once (s s' : ShutdownType) (c : NetConn) :
  conn_stat_ c <> kClosed ->
  exists c', sock_shutdown_and_close s c = Done (tt, c') /\
    conn_stat_ c' = kClosed /\
    sk_calls (socket_ c') = sk_calls (socket_ c) ++ [CallShutdown s; CallClose] /\
    sock_shutdown_and_close s' c' = Done (tt, c') /\ sock_close c' = Done (tt, c').
Proof.
  intros Hs. eexists. unfold sock_shutdown_and_close, sock_close, mbind, M_bind, gets, modify.
  rewrite bool_decide_false by done. split; [done|]. simpl. by rewrite <-app_assoc.
Qed.

