(* ===== verification/External.v ===== *)
(** * Interfaces of the code that is not in the repository

    libconfig, boost::algorithm, boost::asio::steady_timer and the roo library's
    EQueue and protobuf helpers are third-party. Each is a class of the operations the
    program calls; what the program relies on is a second class of documented laws,
    assumed only by the theorems that need it. A concrete instance of each shows that
    the laws can hold; the witnesses use them. *)

From Stdlib Require Import ZArith Lia Init.Byte Ascii.
From stdpp Require Import base list strings.
From S2P Require Import Prelude.

(** ** libconfig *)

(** [lookup_*] is the value at a path when it is there with a convertible type;
    [lookup_setting] is [Config::lookup] ([None]: SettingNotFoundException);
    [items] gives [getLength()] and [operator[]]. *)
Class LibConfig := {
  Config : Type;
  Setting : Type;
  lookup_int : Config -> string -> option Z;
  lookup_bool : Config -> string -> option bool;
  lookup_string : Config -> string -> option string;
  lookup_setting : Config -> string -> option Setting;
  items : Setting -> list Setting;
  setting_int : Setting -> string -> option Z;
  setting_uint : Setting -> string -> option Z;   (* lookupValue(path, unsigned int&) *)
  setting_string : Setting -> string -> option string
}.

(** A libconfig integer read into an [int] is an [int]; into an [unsigned int], one of those. *)
Class LibConfigLaws `{LibConfig} := {
  lookup_int_fits c p z : lookup_int c p = Some z -> fits_s 32 z;
  setting_int_fits s p z : setting_int s p = Some z -> fits_s 32 z;
  setting_uint_fits s p z : setting_uint s p = Some z -> fits_u 32 z
}.

Section LookupValue.
Context `{LibConfig}.

(** [lookupValue(path, var)] leaves [var] alone when the lookup fails. *)
Definition lookupValue_int (c : Config) (path : string) (var : Z) : Z :=
  default var (lookup_int c path).
Definition lookupValue_bool (c : Config) (path : string) (var : bool) : bool :=
  default var (lookup_bool c path).
Definition lookupValue_string (c : Config) (path : string) (var : string) : string :=
  default var (lookup_string c path).
Definition setting_lookupValue_int (s : Setting) (path : string) (var : Z) : Z :=
  default var (setting_int s path).
Definition setting_lookupValue_string (s : Setting) (path : string) (var : string) : string :=
  default var (setting_string s path).
End LookupValue.

(** ** boost::algorithm *)

(** [split_any s delims]: [boost::split(_, s, boost::is_any_of(delims))]. *)
Class BoostString := {
  split_any : string -> string -> list string;
  trim_copy : string -> string
}.

(** ** boost::asio::steady_timer *)

(** [expires_from_now] and [cancel] return, as asio's do, the number of asynchronous
    waits they cancelled; destroying a timer cancels its waits. A cancelled wait's
    handler is run by the io_service with [operation_aborted]. [timer_fired]: the timer
    after a wait of it was over. *)
Class SteadyTimer := {
  steady_timer : Type;
  timer_new : steady_timer;
  expires_from_now : Z -> steady_timer -> nat * steady_timer;
  timer_async_wait : steady_timer -> steady_timer;
  timer_cancel : steady_timer -> nat * steady_timer;
  timer_fired : steady_timer -> steady_timer;
  timer_destroy : steady_timer -> nat
}.

Class SteadyTimerLaws `{SteadyTimer} := {
  waiting : steady_timer -> nat;
  waiting_new : waiting timer_new = 0%nat;
  expires_cancels s t : (expires_from_now s t).1 = waiting t;
  waiting_expires s t : waiting (expires_from_now s t).2 = 0%nat;
  waiting_async_wait t : waiting (timer_async_wait t) = S (waiting t);
  cancel_cancels t : (timer_cancel t).1 = waiting t;
  waiting_cancel t : waiting (timer_cancel t).2 = 0%nat;
  waiting_fired t : waiting (timer_fired t) = pred (waiting t);
  destroy_cancels t : timer_destroy t = waiting t
}.

(** ** roo::EQueue *)

Class EQueue (A : Type) := {
  equeue : Type;
  EQ_new : equeue;
  PUSH : A -> equeue -> equeue;
  POP : equeue -> option A * equeue;   (* [None]: the wait timed out *)
  SIZE : equeue -> Z
}.
Arguments equeue A {_}.

Class EQueueLaws (A : Type) `{EQueue A} := {
  queued : equeue A -> list A;
  queued_new : queued EQ_new = [];
  queued_PUSH x q : queued (PUSH x q) = queued q ++ [x];
  POP_item q : (POP q).1 = head (queued q);
  queued_POP q : queued (POP q).2 = tail (queued q);
  SIZE_queued q : SIZE q = len (queued q)
}.

(** ** Concrete instances *)

Module Concrete.

(** Timers as the number of waits they hold. *)
#[export] Instance timer : SteadyTimer := {|
  steady_timer := nat;
  timer_new := 0%nat;
  expires_from_now := fun _ t => (t, 0%nat);
  timer_async_wait := S;
  timer_cancel := fun t => (t, 0%nat);
  timer_fired := pred;
  timer_destroy := fun t => t
|}.

#[export] Instance timer_laws : SteadyTimerLaws.
Proof. by refine {| waiting := fun t : @steady_timer timer => t |}. Defined.

(** Queues as lists. *)
#[export] Instance queue A : EQueue A := {|
  equeue := list A;
  EQ_new := [];
  PUSH := fun x q => q ++ [x];
  POP := fun q => (head q, tail q);
  SIZE := fun q => len q
|}.

#[export] Instance queue_laws A : EQueueLaws A.
Proof. by refine {| queued := fun q : @equeue A (queue A) => q |}. Defined.

(** A configuration as association lists of its scalar values, and a list of
    sections for every path that names one. *)
Inductive scalar := VInt (z : Z) | VBool (b : bool) | VString (s : string).
Definition scalars := list (string * scalar).
Record config := mkConfig {
  cfg_scalars : scalars;
  cfg_sections : list (string * list scalars)
}.

Fixpoint assoc {B} (k : string) (l : list (string * B)) : option B :=
  match l with
  | [] => None
  | (k', v) :: l => if bool_decide (k = k') then Some v else assoc k l
  end.

(** Integers outside [int] do not parse. *)
Definition as_int (v : scalar) : option Z :=
  match v with
  | VInt z => if (- 2 ^ 31 <=? z) && (z <? 2 ^ 31) then Some z else None
  | _ => None
  end.
(** Negative integers read as zero into an unsigned variable. *)
Definition as_uint (v : scalar) : option Z := Z.max 0 <$> as_int v.
Definition as_bool (v : scalar) : option bool :=
  match v with VBool b => Some b | _ => None end.
Definition as_string (v : scalar) : option string :=
  match v with VString s => Some s | _ => None end.

(** A setting is a group (its scalars) or a list of groups. *)
Inductive setting := SGroup (l : scalars) | SList (l : list scalars).

#[export] Instance libconfig : LibConfig := {|
  Config := config;
  Setting := setting;
  lookup_int := fun c p => assoc p (cfg_scalars c) ≫= as_int;
  lookup_bool := fun c p => assoc p (cfg_scalars c) ≫= as_bool;
  lookup_string := fun c p => assoc p (cfg_scalars c) ≫= as_string;
  lookup_setting := fun c p => SList <$> assoc p (cfg_sections c);
  items := fun s => match s with SGroup _ => [] | SList l => SGroup <$> l end;
  setting_int := fun s p => match s with SGroup l => assoc p l ≫= as_int | _ => None end;
  setting_uint := fun s p => match s with SGroup l => assoc p l ≫= as_uint | _ => None end;
  setting_string := fun s p =>
    match s with SGroup l => assoc p l ≫= as_string | _ => None end
|}.

Lemma as_int_fits o z : o ≫= as_int = Some z -> fits_s 32 z.
Proof.
  destruct o as [[z'| |]|]; simpl; try done.
  destruct (_ && _) eqn:E; intros; simplify_eq. bool_prop. done.
Qed.

#[export] Instance libconfig_laws : LibConfigLaws.
Proof.
  constructor; simpl.
  - intros c p z. apply as_int_fits.
  - intros [l|l] p z; [apply as_int_fits | done].
  - intros [l|l] p z; [|done]. destruct (assoc p l) as [v|]; [|done]. simpl. unfold as_uint.
    destruct (as_int v) as [y|] eqn:E; [|done]. intros [= <-].
    pose proof (as_int_fits (Some v) y E) as [Hl Hu]. unfold fits_u. simpl in *. lia.
Defined.

(** Splitting and trimming on characters. *)
Definition is_space (c : Ascii.ascii) : bool :=
  bool_decide (c ∈ ([" "; "009"; "010"; "013"])%char).

Fixpoint mem_char (c : Ascii.ascii) (s : string) : bool :=
  match s with
  | EmptyString => false
  | String d s => bool_decide (c = d) || mem_char c s
  end.

Fixpoint split_chars (s delims : string) : list string :=
  match s with
  | EmptyString => [EmptyString]
  | String c s =>
      if mem_char c delims then EmptyString :: split_chars s delims
      else match split_chars s delims with
           | [] => [String c EmptyString]
           | w :: ws => String c w :: ws
           end
  end.

Fixpoint ltrim (s : string) : string :=
  match s with
  | String c s' => if is_space c then ltrim s' else s
  | EmptyString => s
  end.

#[export] Instance boost_string : BoostString := {|
  split_any := split_chars;
  trim_copy := fun s => String.rev (ltrim (String.rev (ltrim s)))
|}.
End Concrete.
