(* ===== verification/NetConf.v ===== *)
(** * Network/NetConf.h and the NetConf part of Network/NetServer.cpp

    The server's settings, their loading and validation, the address white list and
    the token bucket that limits new connections per second. Accesses the source
    guards with [lock_] are atomic here. *)

From Stdlib Require Import ZArith Lia Init.Byte.
From stdpp Require Import base list strings gmap.
From S2P Require Import Prelude NetConn External.

Section NetConf.
Context `{SteadyTimer} `{LibConfig} `{BoostString}.

Record NetConf := mkNetConf {
  service_enabled_ : bool   (* bool *);
  service_speed_ : Z   (* int32_t, per second; 0: no limit *);
  service_token_ : Z   (* int32_t *);
  service_concurrency_ : Z   (* int32_t, 0: no limit *);
  session_cancel_time_out_ : Z   (* int32_t *);
  ops_cancel_time_out_ : Z   (* int32_t, seconds; 0: none *);
  send_max_msg_size_ : Z   (* int32_t, 0: no limit *);
  recv_max_msg_size_ : Z   (* int32_t, 0: no limit *);
  bind_addr_ : string;
  bind_port_ : Z   (* int32_t *);
  safe_ip_ : gset string   (* std::set<std::string> *);
  backlog_size_ : Z   (* int32_t *);
  io_thread_number_ : Z   (* int32_t *);
  timed_feed_token_ : option steady_timer   (* std::shared_ptr, None when null *)
}.

Definition set_service_enabled_ (v : bool) (c : NetConf) : NetConf :=
  let '(mkNetConf _ f1 f2 f3 f4 f5 f6 f7 f8 f9 f10 f11 f12 f13) := c in
  mkNetConf v f1 f2 f3 f4 f5 f6 f7 f8 f9 f10 f11 f12 f13.
Definition set_service_speed_ (v : Z) (c : NetConf) : NetConf :=
  let '(mkNetConf f0 _ f2 f3 f4 f5 f6 f7 f8 f9 f10 f11 f12 f13) := c in
  mkNetConf f0 v f2 f3 f4 f5 f6 f7 f8 f9 f10 f11 f12 f13.
Definition set_service_token_ (v : Z) (c : NetConf) : NetConf :=
  let '(mkNetConf f0 f1 _ f3 f4 f5 f6 f7 f8 f9 f10 f11 f12 f13) := c in
  mkNetConf f0 f1 v f3 f4 f5 f6 f7 f8 f9 f10 f11 f12 f13.
Definition set_service_concurrency_ (v : Z) (c : NetConf) : NetConf :=
  let '(mkNetConf f0 f1 f2 _ f4 f5 f6 f7 f8 f9 f10 f11 f12 f13) := c in
  mkNetConf f0 f1 f2 v f4 f5 f6 f7 f8 f9 f10 f11 f12 f13.
Definition set_session_cancel_time_out_ (v : Z) (c : NetConf) : NetConf :=
  let '(mkNetConf f0 f1 f2 f3 _ f5 f6 f7 f8 f9 f10 f11 f12 f13) := c in
  mkNetConf f0 f1 f2 f3 v f5 f6 f7 f8 f9 f10 f11 f12 f13.
Definition set_ops_cancel_time_out_ (v : Z) (c : NetConf) : NetConf :=
  let '(mkNetConf f0 f1 f2 f3 f4 _ f6 f7 f8 f9 f10 f11 f12 f13) := c in
  mkNetConf f0 f1 f2 f3 f4 v f6 f7 f8 f9 f10 f11 f12 f13.
Definition set_send_max_msg_size_ (v : Z) (c : NetConf) : NetConf :=
  let '(mkNetConf f0 f1 f2 f3 f4 f5 _ f7 f8 f9 f10 f11 f12 f13) := c in
  mkNetConf f0 f1 f2 f3 f4 f5 v f7 f8 f9 f10 f11 f12 f13.
Definition set_recv_max_msg_size_ (v : Z) (c : NetConf) : NetConf :=
  let '(mkNetConf f0 f1 f2 f3 f4 f5 f6 _ f8 f9 f10 f11 f12 f13) := c in
  mkNetConf f0 f1 f2 f3 f4 f5 f6 v f8 f9 f10 f11 f12 f13.
Definition set_bind_addr_ (v : string) (c : NetConf) : NetConf :=
  let '(mkNetConf f0 f1 f2 f3 f4 f5 f6 f7 _ f9 f10 f11 f12 f13) := c in
  mkNetConf f0 f1 f2 f3 f4 f5 f6 f7 v f9 f10 f11 f12 f13.
Definition set_bind_port_ (v : Z) (c : NetConf) : NetConf :=
  let '(mkNetConf f0 f1 f2 f3 f4 f5 f6 f7 f8 _ f10 f11 f12 f13) := c in
  mkNetConf f0 f1 f2 f3 f4 f5 f6 f7 f8 v f10 f11 f12 f13.
Definition set_safe_ip_ (v : gset string) (c : NetConf) : NetConf :=
  let '(mkNetConf f0 f1 f2 f3 f4 f5 f6 f7 f8 f9 _ f11 f12 f13) := c in
  mkNetConf f0 f1 f2 f3 f4 f5 f6 f7 f8 f9 v f11 f12 f13.
Definition set_backlog_size_ (v : Z) (c : NetConf) : NetConf :=
  let '(mkNetConf f0 f1 f2 f3 f4 f5 f6 f7 f8 f9 f10 _ f12 f13) := c in
  mkNetConf f0 f1 f2 f3 f4 f5 f6 f7 f8 f9 f10 v f12 f13.
Definition set_io_thread_number_ (v : Z) (c : NetConf) : NetConf :=
  let '(mkNetConf f0 f1 f2 f3 f4 f5 f6 f7 f8 f9 f10 f11 _ f13) := c in
  mkNetConf f0 f1 f2 f3 f4 f5 f6 f7 f8 f9 f10 f11 v f13.
Definition set_timed_feed_token_ (v : option steady_timer) (c : NetConf) : NetConf :=
  let '(mkNetConf f0 f1 f2 f3 f4 f5 f6 f7 f8 f9 f10 f11 f12 _) := c in
  mkNetConf f0 f1 f2 f3 f4 f5 f6 f7 f8 f9 f10 f11 f12 v.

(** [NetConf()]: the defaults. *)
Definition NetConf_new : NetConf :=
  mkNetConf true 0 0 0 0 0 0 0 "" 0 ∅ 10 1 None.

(** The white list of [ip_list]: split, trimmed, empty items dropped. *)
Definition parse_safe_ip (ip_list : string) : gset string :=
  list_to_set (filter (fun s => s <> "") (trim_copy <$> split_any ip_list ";")).

(** [load_conf(const libconfig::Config&)]: fields are assigned as they are read, and
    the first invalid one ends the function with the earlier ones already changed. *)
Definition load_conf (conf : Config) : M NetConf bool :=
  _ ← modify (fun c => set_bind_addr_ (lookupValue_string conf "rpc.network.bind_addr" (bind_addr_ c)) c);
  _ ← modify (fun c => set_bind_port_ (lookupValue_int conf "rpc.network.bind_port" (bind_port_ c)) c);
  addr ← gets bind_addr_; port ← gets bind_port_;
  if bool_decide (addr = "") || (port <=? 0) then mret false else
  let ip_list := lookupValue_string conf "rpc.network.safe_ip" "" in
  _ ← when (negb (bool_decide (ip_list = ""))) (modify (set_safe_ip_ (parse_safe_ip ip_list)));
  _ ← modify (fun c => set_backlog_size_ (lookupValue_int conf "rpc.network.backlog_size" (backlog_size_ c)) c);
  backlog ← gets backlog_size_;
  if backlog <? 0 then mret false else
  _ ← modify (fun c => set_io_thread_number_ (lookupValue_int conf "rpc.network.io_thread_pool_size" (io_thread_number_ c)) c);
  threads ← gets io_thread_number_;
  if threads <? 0 then mret false else
  _ ← modify (fun c => set_ops_cancel_time_out_ (lookupValue_int conf "rpc.network.ops_cancel_time_out" (ops_cancel_time_out_ c)) c);
  ops ← gets ops_cancel_time_out_;
  if ops <? 0 then mret false else
  _ ← modify (fun c => set_session_cancel_time_out_ (lookupValue_int conf "rpc.network.session_cancel_time_out" (session_cancel_time_out_ c)) c);
  session ← gets session_cancel_time_out_;
  if session <? 0 then mret false else
  _ ← modify (fun c => set_service_enabled_ (lookupValue_bool conf "rpc.network.service_enable" (service_enabled_ c)) c);
  _ ← modify (fun c => set_service_speed_ (lookupValue_int conf "rpc.network.service_speed" (service_speed_ c)) c);
  speed ← gets service_speed_;
  if speed <? 0 then mret false else
  _ ← modify (fun c => set_service_concurrency_ (lookupValue_int conf "rpc.network.service_concurrency" (service_concurrency_ c)) c);
  concurrency ← gets service_concurrency_;
  if concurrency <? 0 then mret false else
  _ ← modify (fun c => set_send_max_msg_size_ (lookupValue_int conf "rpc.network.send_max_msg_size" (send_max_msg_size_ c)) c);
  _ ← modify (fun c => set_recv_max_msg_size_ (lookupValue_int conf "rpc.network.recv_max_msg_size" (recv_max_msg_size_ c)) c);
  smax ← gets send_max_msg_size_; rmax ← gets recv_max_msg_size_;
  if (negb (smax =? 0) && (smax <=? 32)) || (negb (rmax =? 0) && (rmax <=? 32)) then mret false else
  mret true.

(** [load_conf(std::shared_ptr<Config>)]: dereferences its pointer. *)
Definition load_conf_ptr (conf_ptr : option Config) : M NetConf bool :=
  match conf_ptr with Some conf => load_conf conf | None => undefined end.

Definition check_safe_ip (ip : string) (c : NetConf) : bool :=
  bool_decide (safe_ip_ c = ∅) || bool_decide (ip ∈ safe_ip_ c).

Definition get_service_token : M NetConf bool :=
  enabled ← gets service_enabled_;
  if negb enabled then mret false else
  speed ← gets service_speed_;
  if speed =? 0 then mret true else
  token ← gets service_token_;
  if token <=? 0 then mret false else
  _ ← modify (set_service_token_ (token - 1));
  mret true.

Definition withdraw_service_token : M NetConf unit :=
  modify (fun c => set_service_token_ (service_token_ c + 1) c).

Definition feed_service_token : M NetConf unit :=
  modify (fun c => set_service_token_ (service_speed_ c) c).

(** [timed_feed_token_handler(ec)]. The result is the number of waits whose handlers the
    io_service now runs with [operation_aborted]: those [expires_from_now] cancelled, or
    those of the destroyed timer. *)
Definition timed_feed_token_handler (ec : error_code) : M NetConf nat :=
  speed ← gets service_speed_;
  timer ← gets timed_feed_token_;
  if speed =? 0 then
    _ ← modify (set_timed_feed_token_ None);
    mret (match timer with Some t => timer_destroy t | None => 0%nat end)
  else
    _ ← feed_service_token;
    match timer with
    | None => undefined
    | Some t =>
        let '(cancelled, t) := expires_from_now 1 t in
        _ ← modify (set_timed_feed_token_ (Some (timer_async_wait t)));
        mret cancelled
    end.

(** ** The specification of [load_conf] *)

(** What the configuration says, over the values already there. *)
Definition merge_conf (conf : Config) (c : NetConf) : NetConf :=
  let ip_list := lookupValue_string conf "rpc.network.safe_ip" "" in
  mkNetConf
    (lookupValue_bool conf "rpc.network.service_enable" (service_enabled_ c))
    (lookupValue_int conf "rpc.network.service_speed" (service_speed_ c))
    (service_token_ c)
    (lookupValue_int conf "rpc.network.service_concurrency" (service_concurrency_ c))
    (lookupValue_int conf "rpc.network.session_cancel_time_out" (session_cancel_time_out_ c))
    (lookupValue_int conf "rpc.network.ops_cancel_time_out" (ops_cancel_time_out_ c))
    (lookupValue_int conf "rpc.network.send_max_msg_size" (send_max_msg_size_ c))
    (lookupValue_int conf "rpc.network.recv_max_msg_size" (recv_max_msg_size_ c))
    (lookupValue_string conf "rpc.network.bind_addr" (bind_addr_ c))
    (lookupValue_int conf "rpc.network.bind_port" (bind_port_ c))
    (if bool_decide (ip_list = "") then safe_ip_ c else parse_safe_ip ip_list)
    (lookupValue_int conf "rpc.network.backlog_size" (backlog_size_ c))
    (lookupValue_int conf "rpc.network.io_thread_pool_size" (io_thread_number_ c))
    (timed_feed_token_ c).

(** A message-size limit: none, or large enough for any RPC header. *)
Definition size_limit_ok (z : Z) : Prop := z = 0 \/ 32 < z.

Definition conf_ok (c : NetConf) : Prop :=
  bind_addr_ c <> "" /\ 0 < bind_port_ c /\ 0 <= backlog_size_ c /\ 0 <= io_thread_number_ c /\
  0 <= ops_cancel_time_out_ c /\ 0 <= session_cancel_time_out_ c /\ 0 <= service_speed_ c /\
  0 <= service_concurrency_ c /\
  size_limit_ok (send_max_msg_size_ c) /\ size_limit_ok (recv_max_msg_size_ c).

End NetConf.

(** ** Correctness of loading *)

Section LoadConf.
Context `{SteadyTimer} `{LibConfig} `{BoostString}.

Ltac reject :=
  eexists _, _; split; [reflexivity|];
  split; [|done]; split; [done|];
  unfold conf_ok, size_limit_ok; simpl; intros; destruct_and?; exfalso;
  (congruence || lia).

Lemma load_conf_spec (conf : Config) (c : NetConf) :
  exists b c', load_conf conf c = Done (b, c') /\
    (b = true <-> conf_ok (merge_conf conf c)) /\ (b = true -> c' = merge_conf conf c).
Proof.
  destruct c as [f0 f1 f2 f3 f4 f5 f6 f7 f8 f9 f10 f11 f12 f13].
  unfold load_conf, mbind, M_bind, gets, modify, when, merge_conf; cbn -[Z.ltb Z.leb Z.eqb].
  case_bool_decide as Haddr; cbn -[Z.ltb Z.leb Z.eqb]; [reject|].
  destruct (_ <=? 0) eqn:Hport; bool_prop; cbn -[Z.ltb Z.leb Z.eqb]; [reject|].
  case_bool_decide; cbn -[Z.ltb Z.leb Z.eqb];
  (repeat lazymatch goal with
  | |- context [ (if ?z <? 0 then _ else _) _ ] =>
      destruct (z <? 0) eqn:?; bool_prop; cbn -[Z.ltb Z.leb Z.eqb]; [reject|]
  end);
  (destruct (_ || _) eqn:Hsize;
   [ apply orb_prop in Hsize as [Hs|Hs]; apply andb_prop in Hs as [Hs1 Hs2]; bool_prop; reject
   | apply orb_false_elim in Hsize as [Hs1 Hs2];
     apply andb_false_iff in Hs1; apply andb_false_iff in Hs2;
     eexists _, _; split; [reflexivity|]; split; [|done]; split; [intros _|done];
     unfold conf_ok, size_limit_ok; simpl;
     assert (forall z, negb (z =? 0) = false \/ (z <=? 32) = false -> z = 0 \/ 32 < z) as Hz
       by (intros z [Hz|Hz]; bool_prop; lia);
     split_and!; (done || lia || auto) ]).
Qed.

(** Attempts to open a connection between two feeds; how many got a token. *)
Fixpoint grants (n : nat) : M NetConf nat :=
  match n with
  | O => mret 0%nat
  | S n => ok ← get_service_token; k ← grants n; mret (Nat.b2n ok + k)%nat
  end.

Lemma get_service_token_limited c :
  service_enabled_ c = true -> service_speed_ c <> 0 ->
  get_service_token c =
    if service_token_ c <=? 0 then Done (false, c)
    else Done (true, set_service_token_ (service_token_ c - 1) c).
Proof.
  intros He Hs. unfold get_service_token, mbind, M_bind, gets, modify.
  rewrite He; simpl. rewrite (proj2 (Z.eqb_neq _ _) Hs). by case_match.
Qed.

Lemma grants_limited n c :
  service_enabled_ c = true -> service_speed_ c <> 0 ->
  grants n c = Done (Nat.min n (Z.to_nat (service_token_ c)),
    set_service_token_ (service_token_ c - Z.min (Z.of_nat n) (Z.max 0 (service_token_ c))) c).
Proof.
  revert c. induction n as [|n IH]; intros c He Hs.
  - destruct c; simpl in *. unfold mret, M_ret. do 3 f_equal. lia.
  - cbn [grants]. unfold mbind at 1, M_bind at 1. rewrite get_service_token_limited by done.
    destruct (_ <=? 0) eqn:Ht; bool_prop; unfold mbind, M_bind; rewrite IH by (by destruct c).
    all: destruct c; cbn [service_token_ set_service_token_ Nat.b2n] in *;
      unfold mret, M_ret; do 2 f_equal; [lia|]; f_equal; lia.
Qed.

(** ** Properties *)


(** Between two feeds a limited, enabled server grants exactly the tokens it holds:
    of [n] attempts the first min(n, token) succeed and every later one fails. *)
Lemma token_bucket_exact (n : nat) (c : NetConf) :
  service_enabled_ c = true -> service_speed_ c <> 0 ->
  exists c', grants n c = Done (Nat.min n (Z.to_nat (service_token_ c)), c') /\
    service_token_ c' = service_token_ c - Z.min (Z.of_nat n) (Z.max 0 (service_token_ c)).
Proof. intros He Hs. rewrite grants_limited by done. eexists. split; [done|]. by destruct c. Qed.

End LoadConf.

