(* ===== verification/RpcInstance.v ===== *)
(** * RPC/RpcInstance.h, RPC/RpcInstance.cpp: one received request

    An instance holds the request's bytes until [validate_request] splits them, and a
    weak pointer to the connection the answer goes to. What it needs of a connection is
    the [MsgSink] interface; the state of [reject] and [reply_rpc_message] is the
    connection the weak pointer refers to, [None] once it was released. The members
    [start_], [response_] and [rpc_response_message_] are never read and left out. *)

From Stdlib Require Import ZArith Lia Init.Byte.
From stdpp Require Import base list.
From S2P Require Import Prelude Endian Message Buffer RpcMessage.

(** What a connection promises to the RPC layer: [async_send_message]. *)
Class MsgSink (C : Type) := sink_send : Message -> M C Z.

Record RpcInstance := mkRpcInstance {
  full_socket_ : nat;                        (* weak_ptr: which connection *)
  request_ : Buffer;
  rpc_request_message_ : RpcRequestMessage;
  msg_size_ : Z;                             (* int *)
  service_id_ : Z;                           (* uint16_t *)
  opcode_ : Z                                (* uint16_t *)
}.

(** [RpcInstance(str_request, socket, msg_size)] *)
Definition RpcInstance_new (str_request : bytes) (socket : nat) (msg_size : Z) : RpcInstance :=
  mkRpcInstance socket (Buffer_of_string str_request) RpcRequestMessage_default
    (int32_t(msg_size)) (uint16_t(-1)) (uint16_t(-1)).

Definition get_service_id (i : RpcInstance) : Z := service_id_ i.
Definition get_opcode (i : RpcInstance) : Z := opcode_ i.
Definition get_rpc_request_message (i : RpcInstance) : RpcRequestMessage :=
  rpc_request_message_ i.

Definition set_request (b : Buffer) (i : RpcInstance) : RpcInstance :=
  mkRpcInstance (full_socket_ i) b (rpc_request_message_ i) (msg_size_ i) (service_id_ i) (opcode_ i).
Definition set_ids (s o : Z) (i : RpcInstance) : RpcInstance :=
  mkRpcInstance (full_socket_ i) (request_ i) (rpc_request_message_ i) (msg_size_ i) s o.
Definition set_request_message (m : RpcRequestMessage) (i : RpcInstance) : RpcInstance :=
  mkRpcInstance (full_socket_ i) (request_ i) m (msg_size_ i) (service_id_ i) (opcode_ i).

(** [request_.consume(str, sz)] on the member buffer; returns the string. *)
Definition request_consume (str : bytes) (sz : Z) : M RpcInstance bytes :=
  b ← gets request_;
  let '(_, str', b') := consume str sz b in
  _ ← modify (set_request b');
  mret str'.

Section RpcInstance.
Context `{Host}.

Definition validate_request : M RpcInstance bool :=
  n ← gets (fun i => get_length (request_ i));
  if n <? sizeof_RpcRequestHeader then mret false else
  head_str ← request_consume [] sizeof_RpcRequestHeader;
  let header := RpcRequestHeader_from_net_endian (RpcRequestHeader_of_mem head_str) in
  if negb (rq_magic header =? kRpcHeaderMagic) || negb (rq_version header =? kRpcHeaderVersion)
  then mret false else
  _ ← modify (set_ids (rq_service_id header) (rq_opcode header));
  size ← gets msg_size_;
  msg_str ← request_consume []
    (uint32_t(size_t(size_t(size) - sizeof_RpcRequestHeader)));
  if bool_decide (msg_str = []) then mret false else
  _ ← modify (set_request_message (mkRpcRequestMessage header msg_str));
  mret true.

(** [full_socket_.lock()] and, when the connection is alive, [async_send_message]. *)
Definition send_if_alive {C} `{MsgSink C} (net_msg : Message) : M (option C) unit := fun sock =>
  match sock with
  | None => Done (tt, None)
  | Some c =>
      match sink_send net_msg c with
      | Done (_, c') => Done (tt, Some c')
      | AssertFailed => AssertFailed
      | Undefined => Undefined
      | OutOfFuel => OutOfFuel
      end
  end.

(** The transport messages the two answers send. *)
Definition reply_message (i : RpcInstance) (msg : bytes) : Message :=
  Message_of_data (RpcResponseMessage_net_str
    (RpcResponseMessage_new (service_id_ i) (opcode_ i) msg)).
Definition reject_message (status : RpcResponseStatus) : Message :=
  Message_of_data (RpcResponseMessage_net_str (RpcResponseMessage_of_status status)).

Definition reply_rpc_message {C} `{MsgSink C} (i : RpcInstance) (msg : bytes) : M (option C) unit :=
  send_if_alive (reply_message i msg).

Definition reject {C} `{MsgSink C} (status : RpcResponseStatus) : M (option C) unit :=
  send_if_alive (reject_message status).

(** ** What validation does *)

(** The header at the front of a request. *)
Definition request_header (p : bytes) : RpcRequestHeader :=
  RpcRequestHeader_from_net_endian (RpcRequestHeader_of_mem p).

Definition request_header_ok (p : bytes) : Prop :=
  sizeof_RpcRequestHeader <= len p /\
  rq_magic (request_header p) = kRpcHeaderMagic /\
  rq_version (request_header p) = kRpcHeaderVersion.

(** A request the server accepts: a good header and a non-empty body. *)
Definition request_ok (p : bytes) : Prop :=
  request_header_ok p /\ sizeof_RpcRequestHeader < len p.

#[export] Instance request_header_ok_dec p : Decision (request_header_ok p).
Proof. apply _. Defined.
#[export] Instance request_ok_dec p : Decision (request_ok p).
Proof. apply _. Defined.

Lemma request_header_front p : 16 <= len p ->
  RpcRequestHeader_of_mem (ztake 16 p) = RpcRequestHeader_of_mem p.
Proof.
  intros Hp. rewrite <-(ztake_zdrop 16 p) at 2.
  assert (length (ztake 16 p) = 16%nat) as El
    by (unfold ztake; rewrite length_take; unfold zlen in Hp; lia).
  unfold RpcRequestHeader_of_mem. by rewrite !field_at_app_l by (rewrite El; lia).
Qed.

(** The narrowing of the size to [int] and back is harmless below 4 GiB. *)
Lemma body_size n : 0 <= n < 2 ^ 32 ->
  uint32_t(size_t(size_t(int32_t(n)) - 16)) = (n - 16) mod 2 ^ 32.
Proof.
  intros Hn. unfold uwrap, swrap.
  change (2 ^ (32 - 1)) with 2147483648. change (2 ^ 32) with 4294967296 in *.
  change (2 ^ 64) with 18446744073709551616.
  Z.div_mod_to_equations. lia.
Qed.

(** [validate_request] on a fresh instance, branch by branch. *)
Lemma validate_request_spec p sock :
  len p < 2 ^ 32 ->
  let i := RpcInstance_new p sock (len p) in
  let h := request_header p in
  exists i', validate_request i = Done (bool_decide (request_ok p), i') /\
    full_socket_ i' = sock /\
    (request_ok p -> i' = mkRpcInstance sock Buffer_empty
       (mkRpcRequestMessage h (zdrop 16 p)) (msg_size_ i) (rq_service_id h) (rq_opcode h)) /\
    (~ request_header_ok p ->
       service_id_ i' = 65535 /\ opcode_ i' = 65535) /\
    (request_header_ok p ->
       service_id_ i' = rq_service_id h /\ opcode_ i' = rq_opcode h).
Proof.
  intros Hp i h. subst i. pose proof (zlen_nonneg p).
  unfold validate_request, request_consume, mbind, M_bind, gets, modify, mret, M_ret; cbn [request_ RpcInstance_new].
  rewrite get_length_small by done. cbn [data_ Buffer_of_string].
  destruct (len p <? sizeof_RpcRequestHeader) eqn:Hlen; bool_prop.
  { assert (~ request_header_ok p) by (unfold request_header_ok; lia).
    rewrite bool_decide_false by (unfold request_ok; tauto).
    eexists. split; [done|]. unfold request_ok. split_and!; tauto || done. }
  change sizeof_RpcRequestHeader with 16 in *.
  assert (p <> []) as Hne by (intros ->; unfold zlen in Hlen; simpl in Hlen; lia).
  rewrite consume_some by done.
  cbn [request_ set_request data_ Buffer_of_string RpcInstance_new msg_size_].
  rewrite request_header_front by done.
  change (RpcRequestHeader_from_net_endian (RpcRequestHeader_of_mem p)) with h.
  destruct (_ || _) eqn:Hhd.
  { assert (~ request_header_ok p) as Hno.
    { unfold request_header_ok. fold h. intros (_ & Hm & Hv). rewrite Hm, Hv in Hhd. done. }
    rewrite bool_decide_false by (unfold request_ok; tauto).
    eexists. split; [done|]. unfold request_ok. split_and!; tauto || done. }
  bool_prop. assert (request_header_ok p) as Hok by (split; [done|]; fold h; lia).
  cbn [set_ids msg_size_ request_ set_request RpcInstance_new full_socket_ rpc_request_message_
    service_id_ opcode_].
  rewrite body_size, Z.mod_small by lia.
  destruct (decide (len p = 16)) as [E16|N16].
  { rewrite E16. change (16 - 16) with 0. rewrite consume_zero.
    rewrite (bool_decide_true (@nil Byte.byte = [])) by done.
    rewrite (bool_decide_false (request_ok p)) by (unfold request_ok, sizeof_RpcRequestHeader; lia).
    eexists. split; [done|]. unfold request_ok, sizeof_RpcRequestHeader.
    split_and!; [done|lia|tauto|done]. }
  assert (data_ (mkBuffer (zdrop 16 p)) <> []) as Hd.
  { simpl. intros E. apply (f_equal zlen) in E. rewrite zlen_zdrop in E by lia.
    unfold zlen at 2 in E; simpl in E. lia. }
  rewrite consume_some by (done || lia). cbn [data_ set_request request_].
  rewrite (ztake_all (len p - 16)), (zdrop_all (len p - 16)) by (rewrite zlen_zdrop; lia).
  rewrite bool_decide_false by done.
  rewrite bool_decide_true by (split; [done | unfold sizeof_RpcRequestHeader; lia]).
  eexists. split; [done|]. split_and!; done || tauto.
Qed.
End RpcInstance.
