(* ===== verification/Service.v ===== *)
(** * RPC/Service.h and Protocol/ServiceImpl/RpcServiceBase.h

    The interface a service implements towards its Executor, as a class, and the
    configuration handling services inherit. *)

From Stdlib Require Import ZArith Lia Init.Byte.
From stdpp Require Import base list strings pretty.
From S2P Require Import Prelude External RpcInstance.

Record ExecutorConf := mkExecutorConf {
  exec_thread_number_ : Z;        (* int *)
  exec_thread_number_hard_ : Z;   (* int *)
  exec_thread_step_size_ : Z      (* int *)
}.

#[export] Instance ExecutorConf_eq_dec : EqDecision ExecutorConf.
Proof. solve_decision. Defined.

(** The virtual functions of [Service] that the framework calls. A handler's state is
    the service and the connection its instance answers to. *)
Class Service `{LibConfig} (S : Type) := {
  svc_handle_RPC : forall {C : Type} `{MsgSink C}, RpcInstance -> M (S * option C) unit;
  svc_instance_name : S -> string;
  svc_get_executor_conf : M S ExecutorConf;
  svc_module_runtime : Config -> M S Z;
  svc_module_status : S -> string      (* what it leaves in [val] *)
}.

(** ** Status texts *)

(** What [<<] prints for an integer, a bool and [std::endl]. *)
Definition endl : string := String (Ascii.ascii_of_nat 10) EmptyString.
Definition shown (z : Z) : string := pretty z.
Definition shown_bool (b : bool) : string := if b then "true" else "false".

(** A line of a status text. *)
Definition status_line (key value : string) : string :=
  (String (Ascii.ascii_of_nat 9) EmptyString +:+ key +:+ ": " +:+ value +:+ endl)%string.
Definition blank_line : string := (String (Ascii.ascii_of_nat 9) EmptyString +:+ endl)%string.

(** What the configuration check accepts. *)
Definition executor_conf_ok (c : ExecutorConf) : Prop :=
  0 < exec_thread_number_ c /\ exec_thread_number_ c <= exec_thread_number_hard_ c /\
  exec_thread_number_hard_ c <= 100 /\ 0 <= exec_thread_step_size_ c.

#[export] Instance executor_conf_ok_dec c : Decision (executor_conf_ok c).
Proof. apply _. Defined.

Section RpcServiceBase.
Context `{LibConfig}.

(** [RpcServiceBase::module_status] leaves [val] as it is. *)
Definition base_module_status : string := "".

(** [RpcServiceBase::handle_rpc_service_conf(setting, conf)]: the state is [conf]. *)
Definition base_handle_rpc_service_conf (setting : Setting) : M ExecutorConf Z :=
  _ ← modify (fun c => mkExecutorConf
    (setting_lookupValue_int setting "exec_thread_pool_size" (exec_thread_number_ c))
    (setting_lookupValue_int setting "exec_thread_pool_size_hard" (exec_thread_number_hard_ c))
    (setting_lookupValue_int setting "exec_thread_pool_step_size" (exec_thread_step_size_ c)));
  c ← gets id;
  _ ← when (exec_thread_number_hard_ c <? exec_thread_number_ c)
        (modify (fun c => mkExecutorConf (exec_thread_number_ c) (exec_thread_number_ c)
                            (exec_thread_step_size_ c)));
  c ← gets id;
  if (exec_thread_number_ c <=? 0) || (100 <? exec_thread_number_ c) ||
     (100 <? exec_thread_number_hard_ c) ||
     (exec_thread_number_hard_ c <? exec_thread_number_ c)
  then mret (-1)
  else if exec_thread_step_size_ c <? 0 then mret (-1)
  else mret 0.

(** What the setting says over [c], with the hard limit raised to the thread number. *)
Definition merged_executor_conf (setting : Setting) (c : ExecutorConf) : ExecutorConf :=
  let n := setting_lookupValue_int setting "exec_thread_pool_size" (exec_thread_number_ c) in
  let h := setting_lookupValue_int setting "exec_thread_pool_size_hard" (exec_thread_number_hard_ c) in
  mkExecutorConf n (Z.max n h)
    (setting_lookupValue_int setting "exec_thread_pool_step_size" (exec_thread_step_size_ c)).

Lemma base_handle_rpc_service_conf_spec setting c :
  base_handle_rpc_service_conf setting c =
    Done (if bool_decide (executor_conf_ok (merged_executor_conf setting c)) then 0 else -1,
          merged_executor_conf setting c).
Proof.
  unfold base_handle_rpc_service_conf, merged_executor_conf, mbind, M_bind, gets, modify, when.
  cbn -[Z.ltb Z.leb].
  set (n := setting_lookupValue_int _ _ (exec_thread_number_ c)).
  set (h := setting_lookupValue_int _ _ (exec_thread_number_hard_ c)).
  set (s := setting_lookupValue_int _ _ (exec_thread_step_size_ c)).
  destruct (h <? n) eqn:Hh; bool_prop; cbn -[Z.ltb Z.leb];
    [rewrite Z.max_l by lia | rewrite Z.max_r by lia];
    (destruct (_ || _) eqn:E;
     [ rewrite bool_decide_false; [done|]; unfold executor_conf_ok; simpl;
       repeat (apply orb_prop in E as [E|E]); bool_prop; lia
     | bool_prop; destruct (s <? 0) eqn:Es; bool_prop; simpl;
       [ rewrite bool_decide_false; [done|]; unfold executor_conf_ok; simpl; lia
       | rewrite bool_decide_true; [done|]; unfold executor_conf_ok; simpl; lia ] ]).
Qed.
End RpcServiceBase.
