(* ===== verification/XtraTaskService.v ===== *)
(** * Protocol/ServiceImpl/XtraTaskService.{h,cpp}: the demo service

    Configuration (start-up and runtime) and the request handlers. protobuf's
    generated code is a parameter: [unmarshal_request] and [marshal_response]; the
    message types are those of XtraTask.proto. Locals declared without an initialiser
    start from an arbitrary value, the [stack] argument. [sleep] only delays. *)

From Stdlib Require Import ZArith Lia Init.Byte.
From stdpp Require Import base list strings.
From S2P Require Import Prelude Endian Message Buffer RpcMessage External RpcInstance Service.

(** ** XtraTask.proto *)

Definition CMD_READ : Z := 1.
Definition CMD_WRITE : Z := 2.

Record XtraReadOps_Request := mkReadRequest {
  rq_ping : option bytes;        (* Ping.msg *)
  rq_gets : option bytes;        (* Get.key *)
  rq_echo : option bytes;        (* Echo.msg *)
  rq_timeout : option Z          (* Timeout.timeout *)
}.

Record XtraReadOps_Response := mkReadResponse {
  rp_code : option Z;
  rp_msg : option bytes;
  rp_ping : option bytes;
  rp_gets : option bytes;
  rp_echo : option bytes;
  rp_timeout : option bytes
}.

Class ProtoBuf := {
  unmarshal_request : bytes -> option XtraReadOps_Request;
  marshal_response : XtraReadOps_Response -> bytes
}.

Definition str_bytes (s : string) : bytes := String.list_byte_of_string s.

Definition set_code (z : Z) (r : XtraReadOps_Response) : XtraReadOps_Response :=
  mkReadResponse (Some z) (rp_msg r) (rp_ping r) (rp_gets r) (rp_echo r) (rp_timeout r).
Definition set_msg (m : bytes) (r : XtraReadOps_Response) : XtraReadOps_Response :=
  mkReadResponse (rp_code r) (Some m) (rp_ping r) (rp_gets r) (rp_echo r) (rp_timeout r).
Definition set_ping (m : bytes) (r : XtraReadOps_Response) : XtraReadOps_Response :=
  mkReadResponse (rp_code r) (rp_msg r) (Some m) (rp_gets r) (rp_echo r) (rp_timeout r).
Definition set_gets (m : bytes) (r : XtraReadOps_Response) : XtraReadOps_Response :=
  mkReadResponse (rp_code r) (rp_msg r) (rp_ping r) (Some m) (rp_echo r) (rp_timeout r).
Definition set_echo (m : bytes) (r : XtraReadOps_Response) : XtraReadOps_Response :=
  mkReadResponse (rp_code r) (rp_msg r) (rp_ping r) (rp_gets r) (Some m) (rp_timeout r).
Definition set_timeout (m : bytes) (r : XtraReadOps_Response) : XtraReadOps_Response :=
  mkReadResponse (rp_code r) (rp_msg r) (rp_ping r) (rp_gets r) (rp_echo r) (Some m).

(** ** Configuration *)

Record XtraTaskService := mkXtraTaskService {
  xt_instance_name_ : string;
  conf_ptr_ : option ExecutorConf      (* shared_ptr<ServiceConf>, its executor_conf_ *)
}.

Definition XtraTaskService_new (instance_name : string) : XtraTaskService :=
  mkXtraTaskService instance_name None.

Definition set_conf_ptr (p : option ExecutorConf) (s : XtraTaskService) : XtraTaskService :=
  mkXtraTaskService (xt_instance_name_ s) p.

(** [new ServiceConf()] value-initialises. *)
Definition ServiceConf_new : ExecutorConf := mkExecutorConf 0 0 0.

(** An [int] returned by a function of type [bool], and the way back. *)
Definition bool_of_int (z : Z) : bool := negb (z =? 0).
Definition int_of_bool (b : bool) : Z := if b then 1 else 0.

Section Conf.
Context `{LibConfig} `{AssertMode}.

Definition handle_rpc_service_conf (stack : ExecutorConf) (setting : Setting)
    : M XtraTaskService bool :=
  p ← gets conf_ptr_;
  _ ← when (bool_decide (p = None)) (modify (set_conf_ptr (Some ServiceConf_new)));
  match base_handle_rpc_service_conf setting stack with
  | Done (ret, conf) =>
      if bool_of_int ret then mret (bool_of_int (-1))
      else _ ← modify (set_conf_ptr (Some conf)); mret true
  | _ => undefined
  end.

Definition handle_rpc_service_runtime_conf (stack : ExecutorConf) (setting : Setting)
    : M XtraTaskService bool :=
  match base_handle_rpc_service_conf setting stack with
  | Done (ret, conf) =>
      if bool_of_int ret then mret (bool_of_int (-1))
      else
        p ← gets conf_ptr_;
        match p with
        | None => undefined
        | Some _ => _ ← modify (set_conf_ptr (Some conf)); mret (bool_of_int 0)
        end
  | _ => undefined
  end.

(** The loop over the service entries: the first non-empty matching name decides. *)
Fixpoint init_loop (stack : ExecutorConf) (services : list Setting) : M XtraTaskService bool :=
  match services with
  | [] => mret false
  | service :: services =>
      name ← gets xt_instance_name_;
      let instance_name := setting_lookupValue_string service "instance_name" "" in
      if bool_decide (instance_name = "") then init_loop stack services
      else if bool_decide (instance_name = name) then handle_rpc_service_conf stack service
      else init_loop stack services
  end.

(** [setting_ptr]: what [get_setting()] returned. *)
Definition XtraTaskService_init (stack : ExecutorConf) (setting_ptr : option Config)
    : M XtraTaskService bool :=
  match setting_ptr with
  | None => mret false
  | Some conf =>
      match lookup_setting conf "rpc.services" with
      | None => mret false     (* SettingNotFoundException *)
      | Some rpc_services => init_loop stack (items rpc_services)
      end
  end.

Definition get_executor_conf : M XtraTaskService ExecutorConf :=
  p ← gets conf_ptr_;
  _ ← safe_assert (negb (bool_decide (p = None)));
  match p with Some c => mret c | None => undefined end.

Fixpoint runtime_loop (stack : ExecutorConf) (services : list Setting) : M XtraTaskService Z :=
  match services with
  | [] => mret (-1)
  | service :: services =>
      name ← gets xt_instance_name_;
      let instance_name := setting_lookupValue_string service "instance_name" "" in
      if bool_decide (instance_name = name) then
        b ← handle_rpc_service_runtime_conf stack service; mret (int_of_bool b)
      else runtime_loop stack services
  end.

Definition XtraTaskService_module_runtime (stack : ExecutorConf) (conf : Config)
    : M XtraTaskService Z :=
  match lookup_setting conf "rpc_services" with
  | None => mret (-1)          (* SettingNotFoundException *)
  | Some rpc_services => runtime_loop stack (items rpc_services)
  end.
(** [module_status]: nothing to report. *)
Definition XtraTaskService_module_status (s : XtraTaskService) : string := "".
End Conf.

(** ** Handlers *)

Section Handlers.
Context `{Host} `{ProtoBuf} {C : Type} `{MsgSink C}.

(** The body of the [do { } while (0)]: [None] when it rejects and returns. *)
Definition read_ops_body (payload : bytes) (response : XtraReadOps_Response)
    : option XtraReadOps_Response :=
  match unmarshal_request payload with
  | None => Some (set_msg (str_bytes "参数错误") (set_code (-1) response))
  | Some request =>
      match rq_ping request with
      | Some _ => Some (set_ping (str_bytes "[[[pong]]]") response)
      | None =>
      match rq_gets request with
      | Some _ => Some (set_gets (str_bytes "[[[pong]]]") response)
      | None =>
      match rq_echo request with
      | Some real_msg => Some (set_echo (str_bytes "echo:" ++ real_msg) response)
      | None =>
      match rq_timeout request with
      | Some _ => Some (set_timeout (str_bytes "you should not see this.") response)
      | None => None
      end end end end
  end.

Definition read_ops_impl (rpc_instance : RpcInstance) : M (option C) unit :=
  let rpc_request_message := get_rpc_request_message rpc_instance in
  if negb (rq_opcode (rq_header_ rpc_request_message) =? CMD_READ)
  then reject Resp_INVALID_REQUEST
  else
    let response := set_msg (str_bytes "OK") (set_code 0
      (mkReadResponse None None None None None None)) in
    match read_ops_body (rq_payload_ rpc_request_message) response with
    | None => reject Resp_INVALID_REQUEST
    | Some response => reply_rpc_message rpc_instance (marshal_response response)
    end.

Definition write_ops_impl (rpc_instance : RpcInstance) : M (option C) unit :=
  reply_rpc_message rpc_instance (str_bytes "nicol_write_reply").

Definition XtraTaskService_handle_RPC (rpc_instance : RpcInstance) : M (option C) unit :=
  if get_opcode rpc_instance =? CMD_READ then read_ops_impl rpc_instance
  else if get_opcode rpc_instance =? CMD_WRITE then write_ops_impl rpc_instance
  else reject Resp_INVALID_REQUEST.
End Handlers.

(** The service as an implementation of the framework's interface. *)
#[export] Instance XtraTask_is_Service `{LibConfig} `{AssertMode} `{Host} `{ProtoBuf}
    (stack : ExecutorConf) : Service XtraTaskService := {|
  svc_handle_RPC := fun C _ i => zoom snd (fun c s => (fst s, c)) (XtraTaskService_handle_RPC i);
  svc_instance_name := xt_instance_name_;
  svc_get_executor_conf := get_executor_conf;
  svc_module_runtime := XtraTaskService_module_runtime stack;
  svc_module_status := XtraTaskService_module_status
|}.
