(* ===== verification/Executor.v ===== *)
(** * RPC/Executor.{h,cpp}: a service's request queue and thread pool

    The queue is roo::EQueue (interface [EQueue]); calls to roo::ThreadPool, roo::Timer
    and roo::Status are recorded in [ex_calls], their results are arguments. *)

From Stdlib Require Import ZArith Lia Init.Byte.
From stdpp Require Import base list strings gmap.
From S2P Require Import Prelude Message Buffer RpcMessage NetConn External RpcInstance Service.

Inductive pool_call :=
| CallInitThreads (n : Z)
| CallStartThreads
| CallResizeThreads (n : Z)
| CallGracefulStop
| CallJoin
| CallAddTimer (msec : Z) (forever : bool)
| CallAttachStatus (name : string)
| CallAttachRuntime (name : string).

Section Executor.
Context `{LibConfig} {S : Type} `{!Service S} `{!EQueue RpcInstance}.

Record Executor := mkExecutor {
  service_impl_ : S;
  rpc_queue_ : equeue RpcInstance;
  conf_ : ExecutorConf;
  ex_calls : list pool_call
}.

Definition set_service_impl (s : S) (e : Executor) : Executor :=
  mkExecutor s (rpc_queue_ e) (conf_ e) (ex_calls e).
Definition set_rpc_queue (q : equeue RpcInstance) (e : Executor) : Executor :=
  mkExecutor (service_impl_ e) q (conf_ e) (ex_calls e).
Definition set_conf (c : ExecutorConf) (e : Executor) : Executor :=
  mkExecutor (service_impl_ e) (rpc_queue_ e) c (ex_calls e).
Definition add_call (c : pool_call) (e : Executor) : Executor :=
  mkExecutor (service_impl_ e) (rpc_queue_ e) (conf_ e) (ex_calls e ++ [c]).

(** [explicit Executor(service_impl)]; [conf_({ })] is zero. *)
Definition Executor_new (service_impl : S) : Executor :=
  mkExecutor service_impl EQ_new (mkExecutorConf 0 0 0) [].

Definition Executor_handle_RPC (rpc_instance : RpcInstance) : M Executor unit :=
  modify (fun e => set_rpc_queue (PUSH rpc_instance (rpc_queue_ e)) e).

Definition Executor_instance_name (e : Executor) : string :=
  svc_instance_name (service_impl_ e).

(** Calls of the wrapped service's functions. *)
Definition on_service {A} (m : M S A) : M Executor A :=
  zoom service_impl_ set_service_impl m.

Definition Executor_init `{AssertMode} (init_ok timer_ok : bool) : M Executor bool :=
  conf ← on_service svc_get_executor_conf;
  _ ← modify (set_conf conf);
  _ ← safe_assert (0 <? exec_thread_number_ conf);
  _ ← modify (add_call (CallInitThreads (exec_thread_number_ conf)));
  if negb init_ok then mret false else
  let adjust := (exec_thread_number_ conf <? exec_thread_number_hard_ conf) &&
                (0 <? exec_thread_step_size_ conf) in
  _ ← when adjust (modify (add_call (CallAddTimer (1 * 1000) true)));
  if adjust && negb timer_ok then mret false else
  _ ← modify (fun e => add_call (CallAttachStatus ("executor_" +:+ Executor_instance_name e)) e);
  mret true.

(** [int + int], undefined on overflow. *)
Definition int_add (a b : Z) : M Executor Z :=
  if (- 2 ^ 31 <=? a + b) && (a + b <? 2 ^ 31) then mret (a + b) else undefined.

(** [int / int], truncated, undefined for a zero divisor. *)
Definition int_div (a b : Z) : M Executor Z :=
  if b =? 0 then undefined else mret (Z.quot a b).

Definition executor_threads_adjust `{AssertMode} (ec : error_code) : M Executor unit :=
  conf ← gets conf_;
  _ ← safe_assert (0 <? exec_thread_step_size_ conf);
  size ← gets (fun e => SIZE (rpc_queue_ e));
  let queueSize := int32_t(size) in
  expect_thread ←
    (if exec_thread_step_size_ conf <? queueSize then
       q ← int_div queueSize (exec_thread_step_size_ conf);
       int_add (exec_thread_number_ conf) q
     else mret (exec_thread_number_ conf));
  let expect_thread :=
    if exec_thread_number_hard_ conf <? expect_thread
    then exec_thread_number_hard_ conf else expect_thread in
  modify (add_call (CallResizeThreads expect_thread)).

Definition executor_start : M Executor Z :=
  _ ← modify (add_call CallStartThreads); mret 0.
Definition executor_stop_graceful : M Executor Z :=
  _ ← modify (add_call CallGracefulStop); mret 0.
Definition executor_join : M Executor Z :=
  _ ← modify (add_call CallJoin); mret 0.

Definition Executor_module_runtime (conf : Config) : M Executor Z :=
  ret ← on_service (svc_module_runtime conf);
  if ret =? 0 then
    c ← on_service svc_get_executor_conf;
    _ ← modify (set_conf c);
    mret ret
  else mret ret.

(** [module_status]: the entry's name and its text; [pool_size]: what the thread pool's
    [get_pool_size] returns. *)
Definition Executor_module_status (pool_size : Z) (e : Executor) : string * string :=
  ("executor_" +:+ Executor_instance_name e,
   status_line "instance_name" (Executor_instance_name e) +:+
   status_line "exec_thread_number" (shown (exec_thread_number_ (conf_ e))) +:+
   status_line "exec_thread_number_hard(maxium)" (shown (exec_thread_number_hard_ (conf_ e))) +:+
   status_line "exec_thread_step_size" (shown (exec_thread_step_size_ (conf_ e))) +:+
   blank_line +:+
   status_line "current_thread_number" (shown pool_size) +:+
   status_line "current_queue_size" (shown (SIZE (rpc_queue_ e))) +:+
   svc_module_status (service_impl_ e)).

(** [rpc_queue_.POP(rpc_instance, 1000)] *)
Definition pop_request : M Executor (option RpcInstance) :=
  r ← gets (fun e => POP (rpc_queue_ e));
  _ ← modify (set_rpc_queue r.2);
  mret r.1.

Section Run.
Context {C : Type} `{!MsgSink C}.

(** Run a handler on the connection an instance's weak pointer refers to. *)
Definition on_connection {A} (id : nat) (m : M (S * option C) A)
    : M (Executor * gmap nat C) A := fun st =>
  let '(e, conns) := st in
  match m (service_impl_ e, conns !! id) with
  | Done (a, (s', c')) =>
      Done (a, (set_service_impl s' e, partial_alter (fun _ => c') id conns))
  | AssertFailed => AssertFailed
  | Undefined => Undefined
  | OutOfFuel => OutOfFuel
  end.

(** One round of [executor_service_run]'s loop; the two tests of the thread's status are
    arguments. The result tells whether the loop goes on. *)
Definition executor_service_round (terminating suspended : bool)
    : M (Executor * gmap nat C) bool :=
  if terminating then mret false else
  if suspended then mret true else
  rpc_instance ← zoom fst (fun e st => (e, snd st)) pop_request;
  match rpc_instance with
  | None => mret true
  | Some i => _ ← on_connection (full_socket_ i) (svc_handle_RPC i); mret true
  end.

(** [executor_service_run] over the statuses its rounds observe. *)
Fixpoint executor_service_run (statuses : list (bool * bool))
    : M (Executor * gmap nat C) unit :=
  match statuses with
  | [] => mret tt
  | (terminating, suspended) :: statuses =>
      go_on ← executor_service_round terminating suspended;
      if (go_on : bool) then executor_service_run statuses else mret tt
  end.
End Run.
End Executor.
Arguments Executor S {_}.
