(* ===== verification/Dispatcher.v ===== *)
(** * RPC/Dispatcher.{h,cpp}: routing requests to services

    [services_] maps service ids to Executors (every registered service is wrapped in
    one, so the [dynamic_cast] of the source cannot fail). Registration happens before
    [init]; requests arrive after. [dp_calls]: the calls to roo::Setting. *)

From Stdlib Require Import ZArith Lia Init.Byte.
From stdpp Require Import base list strings gmap.
From S2P Require Import Prelude Endian Message Buffer RpcMessage NetConn External RpcInstance.
From S2P Require Import Service Executor.

(** Use the results of a computation on other state. *)
Definition lift {St St' A} (m : M St' A) (s : St') : M St (A * St') := fun st =>
  match m s with
  | Done r => Done (r, st)
  | AssertFailed => AssertFailed
  | Undefined => Undefined
  | OutOfFuel => OutOfFuel
  end.

Section Dispatcher.
Context `{LibConfig} {S : Type} `{!Service S} `{!EQueue RpcInstance}.

Record Dispatcher := mkDispatcher {
  initialized_ : bool;
  services_ : gmap Z (Executor S);
  dp_calls : list pool_call
}.

(** [Dispatcher()] *)
Definition Dispatcher_new : Dispatcher := mkDispatcher false ∅ [].

Definition set_services (m : gmap Z (Executor S)) (d : Dispatcher) : Dispatcher :=
  mkDispatcher (initialized_ d) m (dp_calls d).

(** Run an operation of the executor registered under [id]. *)
Definition on_executor {A} (id : Z) (e : Executor S) (m : M (Executor S) A) : M Dispatcher A :=
  zoom (fun _ => e) (fun e' d => set_services (<[id:=e']> (services_ d)) d) m.

Definition register_service `{AssertMode} (service_id : Z) (service : S)
    (init_ok timer_ok : bool) : M Dispatcher unit :=
  initialized ← gets initialized_;
  if (initialized : bool) then mret tt else
  r ← lift (Executor_init init_ok timer_ok) (Executor_new service);
  if negb r.1 then mret tt
  else modify (fun d => set_services (<[service_id:=r.2]> (services_ d)) d).

(** Start the executors one after the other. *)
Fixpoint start_all (l : list (Z * Executor S)) : M Dispatcher unit :=
  match l with
  | [] => mret tt
  | (id, e) :: l => _ ← on_executor id e executor_start; start_all l
  end.

Definition Dispatcher_init : M Dispatcher bool :=
  _ ← modify (fun d => mkDispatcher true (services_ d) (dp_calls d));
  l ← gets (fun d => map_to_list (services_ d));
  _ ← start_all l;
  _ ← modify (fun d => mkDispatcher (initialized_ d) (services_ d)
                         (dp_calls d ++ [CallAttachRuntime "Dispatcher"]));
  mret true.

(** Update every executor's configuration and add up what they return. *)
Fixpoint runtime_all (conf : Config) (l : list (Z * Executor S)) (ret_sum : Z) : M Dispatcher Z :=
  match l with
  | [] => mret ret_sum
  | (id, e) :: l =>
      ret ← on_executor id e (Executor_module_runtime conf);
      runtime_all conf l (ret_sum + ret)
  end.

Definition Dispatcher_module_runtime (conf : Config) : M Dispatcher Z :=
  l ← gets (fun d => map_to_list (services_ d));
  runtime_all conf l 0.

Section Handle.
Context `{Host} {C : Type} `{!MsgSink C}.

(** Answer on the instance's connection. *)
Definition answer (m : M (option C) unit) : M (Dispatcher * option C) unit :=
  zoom snd (fun c st => (fst st, c)) m.

Definition Dispatcher_handle_RPC (rpc_instance : RpcInstance) : M (Dispatcher * option C) unit :=
  r ← lift validate_request rpc_instance;
  let rpc_instance := r.2 in
  if negb r.1 then answer (reject Resp_INVALID_REQUEST)
  else
    d ← gets fst;
    match services_ d !! get_service_id rpc_instance with
    | Some service =>
        zoom fst (fun d st => (d, snd st))
          (on_executor (get_service_id rpc_instance) service (Executor_handle_RPC rpc_instance))
    | None => answer (reject Resp_INVALID_SERVICE)
    end.
End Handle.
End Dispatcher.
Arguments Dispatcher S {_}.

(** ** Routing, specified

    What the dispatcher does with a request's bytes: the new dispatcher, and the error
    status sent back when the request goes nowhere. *)

Section Route.
Context `{LibConfig} {S : Type} `{!Service S} `{!EQueue RpcInstance} `{Host}.

(** The instance a service's queue receives for the request [p] from connection [sock]. *)
Definition accepted_instance (p : bytes) (sock : nat) : RpcInstance :=
  let h := request_header p in
  mkRpcInstance sock Buffer_empty (mkRpcRequestMessage h (zdrop 16 p)) (int32_t(len p))
    (rq_service_id h) (rq_opcode h).

Definition enqueue (i : RpcInstance) (e : Executor S) : Executor S :=
  set_rpc_queue (PUSH i (rpc_queue_ e)) e.

Definition route (p : bytes) (sock : nat) (d : Dispatcher S)
    : Dispatcher S * option RpcResponseStatus :=
  if bool_decide (request_ok p) then
    let sid := rq_service_id (request_header p) in
    match services_ d !! sid with
    | Some e => (set_services (<[sid := enqueue (accepted_instance p sock) e]> (services_ d)) d, None)
    | None => (d, Some Resp_INVALID_SERVICE)
    end
  else (d, Some Resp_INVALID_REQUEST).

Lemma Dispatcher_handle_RPC_eq {C : Type} `{!MsgSink C} p sock d (c : option C) :
  len p < 2 ^ 32 ->
  Dispatcher_handle_RPC (RpcInstance_new p sock (len p)) (d, c) =
    match (route p sock d).2 with
    | None => Done (tt, ((route p sock d).1, c))
    | Some status => answer (reject status) (d, c)
    end.
Proof.
  intros Hp. destruct (validate_request_spec p sock Hp) as (i' & Hv & _ & Hok & _ & _).
  unfold Dispatcher_handle_RPC, route, lift, mbind, M_bind. rewrite Hv.
  case_bool_decide as Hr; simpl; [|done]. rewrite (Hok Hr).
  cbn [get_service_id service_id_]. unfold gets; simpl. by case_match.
Qed.
End Route.
