(* ===== verification/Demo.v ===== *)
(** * Concrete environments for the worked examples

    The witnesses of the theorems evaluate the model on these: a little-endian host,
    stopping assertions, the concrete third-party code of [External.Concrete], and a
    service that answers every request with its own payload. *)

From Stdlib Require Import ZArith Lia Init.Byte.
From stdpp Require Import base list strings gmap.
From S2P Require Import Prelude Endian Message Buffer RpcMessage NetConn External NetConf.
From S2P Require Import RpcInstance Service Executor Dispatcher.
Export External.Concrete.

#[export] Instance le_host : Host := little_endian.
#[export] Instance stopping : AssertMode := true.

(** The echo service. *)
#[export] Instance echo_service : Service unit := {|
  svc_handle_RPC := fun C _ i =>
    zoom snd (fun c s => (fst s, c))
      (reply_rpc_message i (rq_payload_ (get_rpc_request_message i)));
  svc_instance_name := fun _ => "echo"%string;
  svc_get_executor_conf := mret (mkExecutorConf 1 4 10);
  svc_module_runtime := fun _ => mret 0;
  svc_module_status := fun _ => ""%string
|}.

Definition demo_executor : Executor unit :=
  mkExecutor tt [] (mkExecutorConf 1 4 10) [].

(** A dispatcher with the echo service under id 1. *)
Definition demo_dispatcher : Dispatcher unit :=
  mkDispatcher true {[ 1 := demo_executor ]} [].

(** A request for service [sid], opcode 7, and the transport message that carries it. *)
Definition demo_request (sid : Z) (body : bytes) : bytes :=
  RpcRequestMessage_net_str (RpcRequestMessage_new sid 7 body).
Definition demo_message (sid : Z) (body : bytes) : Message :=
  Message_of_data (demo_request sid body).
