(* ===== verification/Answering.v ===== *)
(** * What a service promises the server

    [Answering] is the contract a service enters with the framework: it sends one answer
    to every request it is handed, a transport message of some data, does not change
    while doing so, has a configuration and survives a runtime update. The server's
    theorems are proved against it; the echo service and the demo service implement it. *)

From Stdlib Require Import ZArith Lia Init.Byte.
From stdpp Require Import base list strings gmap.
From S2P Require Import Prelude Endian Message Buffer RpcMessage NetConn External.
From S2P Require Import RpcInstance Service XtraTaskService Executor Dispatcher Demo.

(** Send [msg] on the connection of the state's second component, when it is alive. *)
Definition answer_with {S C} `{!MsgSink C} (msg : Message) : M (S * option C) unit :=
  zoom snd (fun c s => (fst s, c)) (send_if_alive msg).

Class Answering `{LibConfig} (S : Type) `{!Service S} := {
  svc_ok : S -> Prop;
  reply_of : RpcInstance -> Message;
  svc_answers {C : Type} `{!MsgSink C} (i : RpcInstance) (s : S) (sock : option C) :
    svc_ok s -> svc_handle_RPC i (s, sock) = answer_with (reply_of i) (s, sock);
  svc_plain (i : RpcInstance) : exists q, reply_of i = Message_of_data q;
  svc_configured (s : S) : svc_ok s -> exists c, svc_get_executor_conf s = Done (c, s);
  svc_reconfigured (cfg : Config) (s : S) :
    svc_ok s -> exists ret s', svc_module_runtime cfg s = Done (ret, s') /\ svc_ok s'
}.

(** ** The echo service *)

#[export] Instance echo_answering : Answering unit.
Proof.
  refine {| svc_ok := fun _ => True;
            reply_of := fun i => reply_message i (rq_payload_ (get_rpc_request_message i)) |}; eauto.
Defined.

(** ** The demo service *)

Section Xtra.
Context `{LibConfig} `{AssertMode} `{Host} `{ProtoBuf} (stack : ExecutorConf).

(** The answer of the demo service. *)
Definition xtra_reply (i : RpcInstance) : Message :=
  let request := get_rpc_request_message i in
  if get_opcode i =? CMD_READ then
    if negb (rq_opcode (rq_header_ request) =? CMD_READ) then reject_message Resp_INVALID_REQUEST
    else
      match read_ops_body (rq_payload_ request)
              (set_msg (str_bytes "OK") (set_code 0 (mkReadResponse None None None None None None))) with
      | None => reject_message Resp_INVALID_REQUEST
      | Some response => reply_message i (marshal_response response)
      end
  else if get_opcode i =? CMD_WRITE then reply_message i (str_bytes "nicol_write_reply")
  else reject_message Resp_INVALID_REQUEST.

Lemma xtra_handle_RPC_eq {C : Type} `{!MsgSink C} (i : RpcInstance) :
  XtraTaskService_handle_RPC i = send_if_alive (C:=C) (xtra_reply i).
Proof.
  unfold XtraTaskService_handle_RPC, read_ops_impl, write_ops_impl, xtra_reply, reject, reply_rpc_message.
  destruct (get_opcode i =? CMD_READ); [|by case_match].
  destruct (negb _); [done|]. by destruct (read_ops_body _ _).
Qed.

Lemma xtra_reply_plain i : exists q, xtra_reply i = Message_of_data q.
Proof. unfold xtra_reply. repeat case_match; by eexists. Qed.

(** It is usable once it has a configuration. *)
Definition xtra_ok (s : XtraTaskService) : Prop := is_Some (conf_ptr_ s).

Lemma xtra_configured s : xtra_ok s -> exists c, get_executor_conf s = Done (c, s).
Proof.
  intros [c Hc]. exists c. unfold get_executor_conf, mbind, M_bind, gets, safe_assert. by rewrite Hc.
Qed.

Lemma handle_runtime_conf_ok setting s :
  xtra_ok s -> exists b s', handle_rpc_service_runtime_conf stack setting s = Done (b, s') /\ xtra_ok s'.
Proof.
  intros Hs. unfold handle_rpc_service_runtime_conf. rewrite base_handle_rpc_service_conf_spec.
  case_match; [by eauto|]. destruct Hs as [c Hc]. unfold mbind, M_bind, gets. rewrite Hc. simpl.
  eexists _, _. split; [done|]. by eexists.
Qed.

Lemma runtime_loop_ok services s :
  xtra_ok s -> exists ret s', runtime_loop stack services s = Done (ret, s') /\ xtra_ok s'.
Proof.
  intros Hs. induction services as [|e l IH]; [by eexists _, _|]. cbn [runtime_loop].
  unfold mbind at 1, M_bind at 1, gets. case_bool_decide; [|done].
  destruct (handle_runtime_conf_ok e s Hs) as (b & s' & E & Hs').
  unfold mbind, M_bind. rewrite E. by eexists _, _.
Qed.

Lemma xtra_reconfigured cfg s :
  xtra_ok s -> exists ret s', XtraTaskService_module_runtime stack cfg s = Done (ret, s') /\ xtra_ok s'.
Proof.
  intros Hs. unfold XtraTaskService_module_runtime. case_match; [by apply runtime_loop_ok|by eexists _, _].
Qed.

#[local] Hint Extern 0 (Service XtraTaskService) => exact (XtraTask_is_Service stack) : typeclass_instances.

Definition xtra_answering : Answering XtraTaskService.
Proof.
  refine {| svc_ok := xtra_ok; reply_of := xtra_reply; svc_plain := xtra_reply_plain;
            svc_configured := xtra_configured;
            svc_reconfigured := xtra_reconfigured |}.
  intros C ? i s sock _. cbn. by rewrite xtra_handle_RPC_eq.
Defined.
End Xtra.

(** ** The answer to a request *)

Section Reaction.
Context `{Host} `{LibConfig} {S : Type} `{!Service S} `{!Answering S}.

(** What a server with the services [known] answers to the message [m] of connection [id]. *)
Definition reaction (known : gset Z) (id : nat) (m : Message) : Message :=
  let p := payload_ m in
  if bool_decide (request_ok p) then
    if bool_decide (rq_service_id (request_header p) ∈ known) then reply_of (accepted_instance p id)
    else reject_message Resp_INVALID_SERVICE
  else reject_message Resp_INVALID_REQUEST.

Lemma reaction_plain known id m : reaction known id m = Message_of_data (payload_ (reaction known id m)).
Proof.
  unfold reaction. repeat case_bool_decide; try done. by destruct (svc_plain (accepted_instance (payload_ m) id)) as [q ->].
Qed.
End Reaction.
