(* ===== verification/Decode.v ===== *)
(** * The transport stream and its reference parser

    [stream] is what a list of transport messages looks like on the wire; [decode] is the
    reference parser of such a stream, for a receiver with a size limit. The receive
    paths of both ends of the program are proved to follow it. *)

From Stdlib Require Import ZArith Lia Init.Byte.
From stdpp Require Import base list.
From S2P Require Import Prelude Endian Message.

(** The byte stream that carries a list of messages. *)
Definition stream `{Host} (l : list Message) : bytes := concat (net_str <$> l).

Lemma stream_app `{Host} l k : stream (l ++ k) = stream l ++ stream k.
Proof. unfold stream. by rewrite fmap_app, concat_app. Qed.

Lemma stream_singleton `{Host} m : stream [m] = net_str m.
Proof. unfold stream. simpl. apply app_nil_r. Qed.

Lemma stream_host (H1 H2 : Host) datas :
  @stream H1 (Message_of_data <$> datas) = @stream H2 (Message_of_data <$> datas).
Proof.
  unfold stream. f_equal. rewrite <-!list_fmap_compose. apply list_fmap_ext.
  intros i d _. apply net_str_host.
Qed.

(** ** The reference parser *)

(** What is known of the stream's tail: an incomplete header, a header whose body is
    incomplete, or a header that was refused. *)
Inductive rstate :=
| RHead (b : bytes)
| RBody (h : Header) (b : bytes)
| RBad.

Section Decode.
Context `{Host}.
(** The receive limit, 0 for none. *)
Variable limit : Z.

Definition accept_header (h : Header) : bool :=
  (magic h =? kHeaderMagic) && (version h =? kHeaderVersion) &&
  ((limit =? 0) || (length_ h <=? uint32_t(limit))).

Fixpoint decode (fuel : nat) (st : rstate) : list Message * rstate :=
  match fuel with
  | O => ([], st)
  | S fuel =>
      match st with
      | RHead b =>
          if len b <? 16 then ([], st)
          else
            let h := parse_wire_header (ztake 16 b) in
            if accept_header h then decode fuel (RBody h (zdrop 16 b)) else ([], RBad)
      | RBody h b =>
          if len b <? length_ h then ([], st)
          else
            let '(ms, st') := decode fuel (RHead (zdrop (length_ h) b)) in
            (mkMessage h (ztake (length_ h) b) :: ms, st')
      | RBad => ([], RBad)
      end
  end.

(** Enough fuel: every round but one removes a header's 16 bytes. *)
Definition need (st : rstate) : nat :=
  match st with
  | RHead b => (1 + length b)%nat
  | RBody _ b => (2 + length b)%nat
  | RBad => 1%nat
  end.

Definition decode_all (st : rstate) : list Message * rstate := decode (need st) st.

Definition body_nonneg (st : rstate) : Prop :=
  match st with RBody h _ => 0 <= length_ h | _ => True end.

Lemma parse_wire_header_length_nonneg b :
  (16 <= length b)%nat -> 0 <= length_ (parse_wire_header (ztake 16 b)).
Proof.
  intros Hb. apply (parse_wire_header_wf (ztake 16 b)).
  unfold ztake. rewrite length_take. lia.
Qed.

Lemma length_zdrop {A} n (l : list A) : length (zdrop n l) = (length l - Z.to_nat n)%nat.
Proof. unfold zdrop. apply length_drop. Qed.

(** More fuel changes nothing. *)
Lemma decode_fuel f1 f2 st :
  body_nonneg st -> (need st <= f1)%nat -> (need st <= f2)%nat -> decode f1 st = decode f2 st.
Proof.
  revert f2 st. induction f1 as [|f1 IH]; intros f2 st Hn H1 H2.
  { destruct st; simpl in H1; lia. }
  destruct f2 as [|f2]; [destruct st; simpl in H2; lia|].
  cbn [decode]. destruct st as [b|h b|]; [| |done]; simpl in H1, H2.
  - destruct (_ <? 16) eqn:E; bool_prop; [done|]. case_match; [|done].
    unfold zlen in E. apply IH; simpl; rewrite ?length_zdrop;
      [by apply parse_wire_header_length_nonneg; lia|lia..].
  - destruct (_ <? _) eqn:E; bool_prop; [done|]. simpl in Hn.
    rewrite (IH f2 (RHead (zdrop (length_ h) b))); simpl; rewrite ?length_zdrop; [done|done|lia..].
Qed.

(** [decode_all] unfolds like a recursive function on the state. *)
Lemma decode_all_head b :
  decode_all (RHead b) =
    if len b <? 16 then ([], RHead b)
    else if accept_header (parse_wire_header (ztake 16 b))
         then decode_all (RBody (parse_wire_header (ztake 16 b)) (zdrop 16 b)) else ([], RBad).
Proof.
  unfold decode_all at 1. cbn [need Nat.add decode].
  destruct (_ <? 16) eqn:E; bool_prop; [done|]. case_match; [|done].
  unfold zlen in E. unfold decode_all. apply decode_fuel; simpl; rewrite ?length_zdrop;
    [by apply parse_wire_header_length_nonneg; lia|lia..].
Qed.

Lemma decode_all_body h b :
  0 <= length_ h ->
  decode_all (RBody h b) =
    if len b <? length_ h then ([], RBody h b)
    else let '(ms, st') := decode_all (RHead (zdrop (length_ h) b)) in
         (mkMessage h (ztake (length_ h) b) :: ms, st').
Proof.
  intros Hh. unfold decode_all at 1.
  change (need (RBody h b)) with (S (need (RHead b))). cbn [decode].
  destruct (_ <? _) eqn:E; bool_prop; [done|]. unfold decode_all.
  rewrite (decode_fuel (need (RHead b)) (need (RHead (zdrop (length_ h) b))));
    [done|done|simpl; rewrite length_zdrop; lia|lia].
Qed.

(** The state with more bytes behind it. *)
Definition more (st : rstate) (c : bytes) : rstate :=
  match st with
  | RHead b => RHead (b ++ c)
  | RBody h b => RBody h (b ++ c)
  | RBad => RBad
  end.

(** Decoding is incremental: what a longer stream holds is what its front holds, then
    what the rest adds to the state the front left. *)
Lemma decode_more st c :
  body_nonneg st ->
  decode_all (more st c) =
    let '(ms1, st1) := decode_all st in
    let '(ms2, st2) := decode_all (more st1 c) in (ms1 ++ ms2, st2).
Proof.
  remember (need st) as k eqn:Hk. revert st Hk.
  induction (lt_wf k) as [k _ IH]; intros st -> Hn.
  destruct st as [b|h b|]; [| |done].
  - rewrite (decode_all_head b). destruct (len b <? 16) eqn:E; bool_prop.
    { by destruct (decode_all (more (RHead b) c)). }
    cbn [more]. rewrite decode_all_head, zlen_app, (proj2 (Z.ltb_ge _ _))
      by (pose proof (zlen_nonneg c); lia).
    rewrite ztake_app_le, zdrop_app_le by lia.
    destruct (accept_header _); [|done].
    change (RBody ?h (?x ++ c)) with (more (RBody h x) c).
    unfold zlen in E. apply (IH (need (RBody (parse_wire_header (ztake 16 b)) (zdrop 16 b)))); [|done|].
    + simpl. rewrite length_zdrop. lia.
    + apply parse_wire_header_length_nonneg. lia.
  - simpl in Hn. rewrite (decode_all_body h b) by done.
    destruct (len b <? length_ h) eqn:E; bool_prop.
    { by destruct (decode_all (more (RBody h b) c)). }
    cbn [more]. rewrite decode_all_body, zlen_app, (proj2 (Z.ltb_ge _ _))
      by (pose proof (zlen_nonneg c); lia).
    rewrite ztake_app_le, zdrop_app_le by lia.
    change (RHead (?x ++ c)) with (more (RHead x) c).
    rewrite (IH (need (RHead (zdrop (length_ h) b)))) by (simpl; rewrite ?length_zdrop; done || lia).
    destruct (decode_all (RHead _)) as [ms1 st1]. by destruct (decode_all (more st1 c)).
Qed.

(** What is left over is part of what was given. *)
Definition rest (st : rstate) : bytes :=
  match st with RHead b | RBody _ b => b | RBad => [] end.

Lemma decode_rest st : len (rest (decode_all st).2) <= len (rest st).
Proof.
  unfold decode_all. generalize (need st) as f. intros f. revert st.
  induction f as [|f IH]; intros [b|h b|]; cbn [decode]; try (simpl; lia).
  - destruct (_ <? 16) eqn:E; bool_prop; [simpl; lia|].
    case_match; [|simpl; pose proof (zlen_nonneg b); unfold zlen at 1; simpl; lia].
    etransitivity; [apply IH|]. simpl. rewrite zlen_zdrop by lia. pose proof (zlen_nonneg b). lia.
  - destruct (_ <? _) eqn:E; bool_prop; [simpl; lia|].
    specialize (IH (RHead (zdrop (length_ h) b))). destruct (decode f _) as [ms st']. simpl in *.
    etransitivity; [apply IH|]. unfold zdrop, zlen. rewrite length_drop. lia.
Qed.

Lemma decode_all_nil : decode_all (RHead []) = ([], RHead []).
Proof. done. Qed.

(** When what follows completes the stream, it holds at least what is missing now. *)
Lemma decode_continues st x ms :
  body_nonneg st -> decode_all (more st x) = (ms, RHead []) -> x <> [] ->
  match st with
  | RHead b => 16 - len b <= len x
  | RBody h b => length_ h - len b <= len x
  | RBad => False
  end.
Proof.
  intros Hn Hd Hx. destruct st as [b|h b|]; cbn [more] in Hd; [| |done].
  - destruct (decide (16 - len b <= len x)); [done|]. rewrite decode_all_head, zlen_app in Hd.
    rewrite (proj2 (Z.ltb_lt _ _)) in Hd by lia. injection Hd as _ E. by apply app_nil in E as [_ ->].
  - destruct (decide (length_ h - len b <= len x)); [done|]. rewrite decode_all_body, zlen_app in Hd by done.
    by rewrite (proj2 (Z.ltb_lt _ _)) in Hd by lia.
Qed.

(** A stream of whole messages decodes to those messages, and nothing is left over. *)
Lemma decode_stream ms tail :
  Forall (fun m => header_wf (header_ m) /\ accept_header (header_ m) = true /\
                   length_ (header_ m) = len (payload_ m)) ms ->
  decode_all (RHead (stream ms ++ tail)) =
    let '(ms', st) := decode_all (RHead tail) in (ms ++ ms', st).
Proof.
  induction 1 as [|m ms (Hwf & Hacc & Hlen) _ IH].
  { simpl. by destruct (decode_all (RHead tail)). }
  change (m :: ms) with ([m] ++ ms) at 1. rewrite stream_app, stream_singleton, <-app_assoc.
  pose proof (zlen_nonneg (payload_ m)). pose proof (zlen_nonneg (stream ms ++ tail)).
  rewrite decode_all_head, zlen_app, zlen_net_str. unfold sizeof_Header.
  rewrite (proj2 (Z.ltb_ge _ _)) by lia.
  assert (parse_wire_header (ztake 16 (net_str m ++ stream ms ++ tail)) = header_ m) as ->.
  { rewrite ztake_app_le by (rewrite zlen_net_str; unfold sizeof_Header; lia).
    unfold net_str at 1. rewrite ztake_app_length by (by unfold zlen; rewrite length_header_mem).
    replace (header_mem (to_net_endian (header_ m))) with (net_str (mkMessage (header_ m) []))
      by (unfold net_str; by rewrite app_nil_r).
    rewrite <-(app_nil_r (net_str _)). by apply (parse_net_str_same (mkMessage (header_ m) [])). }
  rewrite Hacc.
  assert (zdrop 16 (net_str m ++ stream ms ++ tail) = payload_ m ++ stream ms ++ tail) as ->.
  { unfold net_str. rewrite <-app_assoc. apply zdrop_app_length.
    by unfold zlen; rewrite length_header_mem. }
  rewrite decode_all_body, zlen_app, (proj2 (Z.ltb_ge _ _)) by lia.
  rewrite ztake_app_length, zdrop_app_length, IH by done.
  destruct (decode_all (RHead tail)). by destruct m.
Qed.

Lemma decode_stream_all ms :
  Forall (fun m => header_wf (header_ m) /\ accept_header (header_ m) = true /\
                   length_ (header_ m) = len (payload_ m)) ms ->
  decode_all (RHead (stream ms)) = (ms, RHead []).
Proof. intros Hms. rewrite <-(app_nil_r (stream ms)), decode_stream by done. by rewrite decode_all_nil, app_nil_r. Qed.

(** The front of a stream decodes to the first of its messages. *)
Lemma decode_prefix ms r :
  Forall (fun m => header_wf (header_ m) /\ accept_header (header_ m) = true /\
                   length_ (header_ m) = len (payload_ m)) ms ->
  r `prefix_of` stream ms ->
  (decode_all (RHead r)).1 `prefix_of` ms /\ (decode_all (RHead r)).2 <> RBad.
Proof.
  intros Hms [x Hx]. pose proof (decode_stream_all ms Hms) as Hd. rewrite Hx in Hd.
  pose proof (decode_more (RHead r) x I) as Hm. cbn [more] in Hm. rewrite Hd in Hm.
  destruct (decode_all (RHead r)) as [ms1 st1]. destruct (decode_all (more st1 x)) as [ms2 st2] eqn:E2.
  injection Hm as -> <-. split; [by apply prefix_app_r|]. cbn. intros ->. by cbn in E2.
Qed.
End Decode.
