(* ===== verification/ServerConn.v ===== *)
(** * Network/TcpConnAsync.{h,cpp}: the server's side of a connection

    The operations of the class, function by function. The state is the connection;
    the read path also carries the Dispatcher, which its messages go to. The server's
    settings ([server_.conf_]) are an argument. [ops_cancel_timer_] is [Some n] when
    the unique_ptr holds a timer last armed for [n] seconds. [sent_log] is a history
    variable (the messages appended to the send buffer, in order): nothing reads it. *)

From Stdlib Require Import ZArith Lia Init.Byte.
From stdpp Require Import base list strings gmap.
From S2P Require Import Prelude Endian Message Buffer RpcMessage NetConn External NetConf.
From S2P Require Import RpcInstance Service Executor Dispatcher.

Record TcpConnAsync := mkTcpConnAsync {
  base_ : NetConn;
  was_cancelled_ : bool;
  ops_cancel_timer_ : option Z;
  recv_bound_ : IOBound;
  send_status_ : SendStatus;
  send_bound_ : IOBound;
  sent_log : list Message
}.

Definition upd_base (f : NetConn -> NetConn) (c : TcpConnAsync) : TcpConnAsync :=
  mkTcpConnAsync (f (base_ c)) (was_cancelled_ c) (ops_cancel_timer_ c) (recv_bound_ c)
    (send_status_ c) (send_bound_ c) (sent_log c).
Definition set_was_cancelled (b : bool) (c : TcpConnAsync) : TcpConnAsync :=
  mkTcpConnAsync (base_ c) b (ops_cancel_timer_ c) (recv_bound_ c)
    (send_status_ c) (send_bound_ c) (sent_log c).
Definition set_ops_cancel_timer (t : option Z) (c : TcpConnAsync) : TcpConnAsync :=
  mkTcpConnAsync (base_ c) (was_cancelled_ c) t (recv_bound_ c)
    (send_status_ c) (send_bound_ c) (sent_log c).
Definition upd_recv (f : IOBound -> IOBound) (c : TcpConnAsync) : TcpConnAsync :=
  mkTcpConnAsync (base_ c) (was_cancelled_ c) (ops_cancel_timer_ c) (f (recv_bound_ c))
    (send_status_ c) (send_bound_ c) (sent_log c).
Definition set_send_status (s : SendStatus) (c : TcpConnAsync) : TcpConnAsync :=
  mkTcpConnAsync (base_ c) (was_cancelled_ c) (ops_cancel_timer_ c) (recv_bound_ c)
    s (send_bound_ c) (sent_log c).
Definition upd_send (f : IOBound -> IOBound) (c : TcpConnAsync) : TcpConnAsync :=
  mkTcpConnAsync (base_ c) (was_cancelled_ c) (ops_cancel_timer_ c) (recv_bound_ c)
    (send_status_ c) (f (send_bound_ c)) (sent_log c).
Definition log_sent (m : Message) (c : TcpConnAsync) : TcpConnAsync :=
  mkTcpConnAsync (base_ c) (was_cancelled_ c) (ops_cancel_timer_ c) (recv_bound_ c)
    (send_status_ c) (send_bound_ c) (sent_log c ++ [m]).

Definition on_base {A} (m : M NetConn A) : M TcpConnAsync A :=
  zoom base_ (fun b => upd_base (fun _ => b)) m.

Definition conn_stat (c : TcpConnAsync) : ConnStat := conn_stat_ (base_ c).
Definition recv_data (c : TcpConnAsync) : bytes := data_ (buffer_ (recv_bound_ c)).
Definition send_data (c : TcpConnAsync) : bytes := data_ (buffer_ (send_bound_ c)).

Section ServerConn.
Context `{Host} `{AssertMode} `{SteadyTimer}.
Variable conf : NetConf.

(** [TcpConnAsync(socket, server)]; the counter is the server's. *)
Definition TcpConnAsync_new (sock : Socket) : TcpConnAsync :=
  let base := NetConn_new sock in
  let base := upd_socket (sock_call_add (CallNoDelay true)) base in
  let base := upd_socket (sock_call_add (CallNonBlocking true)) base in
  mkTcpConnAsync base false None IOBound_new Send_kDone IOBound_new [].

Definition stop : M TcpConnAsync unit := modify (upd_base (set_conn_stat kPending)).

(** ** Cancellation and timeouts *)

Definition was_ops_cancelled : M TcpConnAsync bool := gets was_cancelled_.

Definition ops_cancel : M TcpConnAsync bool :=
  _ ← on_base sock_cancel;
  _ ← modify (upd_base (set_conn_stat kError));
  _ ← modify (set_was_cancelled true);
  gets was_cancelled_.

Definition set_ops_cancel_timeout : M TcpConnAsync unit :=
  if ops_cancel_time_out_ conf =? 0 then
    t ← gets ops_cancel_timer_;
    safe_assert (bool_decide (t = None))
  else
    _ ← safe_assert (negb (ops_cancel_time_out_ conf =? 0));
    modify (set_ops_cancel_timer (Some (ops_cancel_time_out_ conf))).

Definition revoke_ops_cancel_timeout : M TcpConnAsync unit :=
  modify (set_ops_cancel_timer None).

Definition ops_cancel_timeout_call (ec : error_code) : M TcpConnAsync unit :=
  if bool_decide (ec = ec_success) then
    _ ← ops_cancel;
    on_base (sock_shutdown_and_close Shut_kBoth)
  else mret tt.

Definition ec_closes_socket (ec : error_code) : bool :=
  match ec with
  | ec_connection_reset | ec_timed_out | ec_bad_descriptor => true
  | ec_eof => true
  | ec_operation_aborted => false
  | _ => true
  end.

Definition handle_socket_ec (ec : error_code) : M TcpConnAsync bool :=
  let close_socket := ec_closes_socket ec in
  cancelled ← was_ops_cancelled;
  _ ← when (close_socket || cancelled)
        (_ ← revoke_ops_cancel_timeout;
         _ ← ops_cancel;
         on_base (sock_shutdown_and_close Shut_kBoth));
  mret close_socket.

(** ** Sending *)

(** The part of [do_write] before its critical section; [Some r]: it returned [r]. *)
Definition do_write_guard : M TcpConnAsync (option bool) :=
  status ← gets send_status_;
  if negb (bool_decide (status = Send_kDone)) then mret (Some true) else
  stat ← gets conn_stat;
  if negb (bool_decide (stat = kWorking)) then mret (Some false) else
  cancelled ← was_ops_cancelled;
  if (cancelled : bool) then mret (Some false) else mret None.

(** [send_bound_.buffer_.consume(send_bound_.io_block_, sz)] *)
Definition send_consume (sz : Z) : M TcpConnAsync bool := fun c =>
  match consume_raw (Some (io_block_ (send_bound_ c))) sz (buffer_ (send_bound_ c)) with
  | Done (r, st, b) =>
      Done (r, upd_send (fun io => set_buffer b (set_io_block (default [] st) io)) c)
  | _ => Undefined
  end.

(** The critical section of [do_write], under [bound_mutex_]. *)
Definition do_write_locked : M TcpConnAsync bool :=
  n ← gets (fun c => get_length (buffer_ (send_bound_ c)));
  if n =? 0 then _ ← modify (set_send_status Send_kDone); mret true else
  let to_write := Z.min n kFixedIoBufferSize in
  _ ← send_consume to_write;
  _ ← modify (set_send_status Send_kSend);
  _ ← set_ops_cancel_timeout;
  _ ← modify (upd_base (async_write to_write));
  mret true.

Definition do_write : M TcpConnAsync bool :=
  r ← do_write_guard;
  match r with
  | Some b => mret b
  | None => do_write_locked
  end.

Definition send_append (msg : Message) : M TcpConnAsync unit :=
  _ ← modify (upd_send (fun io => set_buffer (append msg (buffer_ io)).2 io));
  modify (log_sent msg).

Definition async_send_message (msg : Message) : M TcpConnAsync Z :=
  if negb (send_max_msg_size_ conf =? 0) &&
     (uint32_t(send_max_msg_size_ conf) <? length_ (header_ msg))
  then mret (-1) else
  _ ← send_append msg;
  _ ← do_write;
  mret 0.

Definition write_handler (ec : error_code) (bytes_transferred : Z) : M TcpConnAsync unit :=
  _ ← revoke_ops_cancel_timeout;
  if ec_failed ec then _ ← handle_socket_ec ec; mret tt else
  _ ← safe_assert (0 <? bytes_transferred);
  _ ← modify (set_send_status Send_kDone);
  _ ← do_write;
  mret tt.

(** The connection as the RPC layer sees it. *)
#[local] Instance server_sink : MsgSink TcpConnAsync := async_send_message.

(** ** Receiving *)

(** [recv_bound_.buffer_.consume(str, sz)], the string returned. *)
Definition recv_consume (sz : Z) : M TcpConnAsync bytes := fun c =>
  let '(_, str, b) := consume [] sz (buffer_ (recv_bound_ c)) in
  Done (str, upd_recv (set_buffer b) c).

Definition parse_header : M TcpConnAsync Z :=
  n ← gets (fun c => get_length (buffer_ (recv_bound_ c)));
  if n <? sizeof_Header then mret 1 else
  _ ← safe_assert (sizeof_Header <=? n);
  head_str ← recv_consume sizeof_Header;
  _ ← modify (upd_recv (set_ib_header (header_of_mem head_str)));
  _ ← modify (upd_recv (fun io => set_ib_header (from_net_endian (ib_header_ io)) io));
  h ← gets (fun c => ib_header_ (recv_bound_ c));
  if negb (magic h =? kHeaderMagic) || negb (version h =? kHeaderVersion) then mret (-1) else
  if negb (recv_max_msg_size_ conf =? 0) && (uint32_t(recv_max_msg_size_ conf) <? length_ h)
  then mret (-1) else
  mret 0.

(** The second component is the out-parameter [msg]. *)
Definition parse_msg_body : M TcpConnAsync (Z * Message) :=
  n ← gets (fun c => get_length (buffer_ (recv_bound_ c)));
  h ← gets (fun c => ib_header_ (recv_bound_ c));
  if n <? length_ h then mret (1, Message_default) else
  _ ← safe_assert (length_ h <=? n);
  msg_str ← recv_consume (length_ h);
  mret (0, mkMessage h msg_str).

Section Read.
Context `{LibConfig} {S : Type} `{!Service S} `{!EQueue RpcInstance}.
(** Which connection this is: what a weak_ptr to it refers to. *)
Variable self : nat.

Abbreviation World := (TcpConnAsync * Dispatcher S)%type.

Definition on_conn {A} (m : M TcpConnAsync A) : M World A :=
  zoom fst (fun c w => (c, snd w)) m.

(** [make_shared<RpcInstance>(msg.payload_, shared_from_this(), msg.payload_.size())]
    and [Dispatcher::instance().handle_RPC(instance)]. *)
Definition dispatch (msg : Message) : M World unit := fun w =>
  let instance := RpcInstance_new (payload_ msg) self (len (payload_ msg)) in
  match Dispatcher_handle_RPC instance (snd w, Some (fst w)) with
  | Done (_, (d, Some c)) => Done (tt, (c, d))
  | Done (_, (_, None)) => Undefined
  | AssertFailed => AssertFailed
  | Undefined => Undefined
  | OutOfFuel => OutOfFuel
  end.

Definition issue_read (n : Z) (h : read_tag) : M World unit :=
  _ ← on_conn set_ops_cancel_timeout;
  modify (fun w => (upd_base (async_read n h) (fst w), snd w)).

(** [do_read] and [do_read_msg] call each other while the buffer holds messages. *)
Fixpoint do_read (fuel : nat) : M World bool :=
  match fuel with
  | O => out_of_fuel
  | Datatypes.S fuel =>
      stat ← on_conn (gets conn_stat);
      if negb (bool_decide (stat = kWorking)) then mret false else
      cancelled ← on_conn was_ops_cancelled;
      if (cancelled : bool) then mret false else
      bytes_read ← on_conn (gets (fun c => get_length (buffer_ (recv_bound_ c))));
      if bytes_read <? sizeof_Header then
        _ ← issue_read (sizeof_Header - bytes_read) on_read_handler;
        mret true
      else
        ret ← on_conn parse_header;
        if ret =? 0 then _ ← do_read_msg fuel; mret true
        else if 0 <? ret then _ ← do_read fuel; mret true
        else _ ← on_conn (on_base (sock_shutdown_and_close Shut_kBoth)); mret false
  end
with do_read_msg (fuel : nat) : M World unit :=
  match fuel with
  | O => out_of_fuel
  | Datatypes.S fuel =>
      stat ← on_conn (gets conn_stat);
      if negb (bool_decide (stat = kWorking)) then mret tt else
      cancelled ← on_conn was_ops_cancelled;
      if (cancelled : bool) then mret tt else
      n ← on_conn (gets (fun c => get_length (buffer_ (recv_bound_ c))));
      h ← on_conn (gets (fun c => ib_header_ (recv_bound_ c)));
      if n <? length_ h then
        let to_read := Z.min (uint32_t(length_ h - n)) kFixedIoBufferSize in
        issue_read to_read on_read_msg_handler
      else
        r ← on_conn parse_msg_body;
        if fst r =? 0 then
          _ ← dispatch (snd r);
          _ ← do_read fuel;
          mret tt
        else if 0 <? fst r then do_read_msg fuel
        else on_conn (on_base (sock_shutdown_and_close Shut_kBoth))
  end.

(** Enough for the bytes that are buffered. *)
Definition read_fuel (w : World) : nat := (2 + length (recv_data (fst w)))%nat.

Definition do_read_ : M World bool := fun w => do_read (read_fuel w) w.
Definition do_read_msg_ : M World unit := fun w => do_read_msg (read_fuel w) w.

Definition start : M World unit :=
  _ ← on_conn (modify (upd_base (set_conn_stat kWorking)));
  _ ← do_read_; mret tt.

(** [recv_bound_.buffer_.append_internal(std::string(io_block_, n))] *)
Definition append_received (n : Z) : M TcpConnAsync unit :=
  modify (upd_recv (fun io =>
    set_buffer (append_internal (ztake n (io_block_ io)) (buffer_ io)).2 io)).

Definition read_handler (ec : error_code) (bytes_transferred : Z) : M World unit :=
  _ ← on_conn revoke_ops_cancel_timeout;
  if ec_failed ec then _ ← on_conn (handle_socket_ec ec); mret tt else
  _ ← safe_assert (0 <? bytes_transferred);
  _ ← on_conn (append_received bytes_transferred);
  n ← on_conn (gets (fun c => get_length (buffer_ (recv_bound_ c))));
  if n <? sizeof_Header then _ ← do_read_; mret tt else
  _ ← safe_assert (sizeof_Header <=? n);
  ret ← on_conn parse_header;
  if ret =? 0 then do_read_msg_
  else if 0 <? ret then _ ← do_read_; mret tt
  else on_conn (on_base (sock_shutdown_and_close Shut_kBoth)).

Definition read_msg_handler (ec : error_code) (bytes_transferred : Z) : M World unit :=
  _ ← on_conn revoke_ops_cancel_timeout;
  if ec_failed ec then _ ← on_conn (handle_socket_ec ec); mret tt else
  _ ← safe_assert (0 <? bytes_transferred);
  _ ← on_conn (append_received bytes_transferred);
  r ← on_conn parse_msg_body;
  if fst r =? 0 then _ ← dispatch (snd r); _ ← do_read_; mret tt
  else if 0 <? fst r then do_read_msg_
  else on_conn (on_base (sock_shutdown_and_close Shut_kBoth)).

End Read.
End ServerConn.
