(* ===== verification/ServerSend.v ===== *)
(** * Sending on a server connection: what reaches the wire

    The send path in closed form, and the invariant [send_inv]: bytes on the wire, then
    the block being written, then the buffer make up the encodings of the messages
    accepted so far, in order; at most one write is outstanding. *)

From Stdlib Require Import ZArith Lia Init.Byte.
From stdpp Require Import base list strings gmap.
From S2P Require Import Prelude Endian Message Buffer RpcMessage NetConn External NetConf.
From S2P Require Import RpcInstance Service Executor Dispatcher Decode ServerConn.

(** ** The operations in closed form *)

Section Closed.
Context `{Host} `{AssertMode} `{SteadyTimer}.
Variable conf : NetConf.

(** A timer exists only when timeouts are configured. *)
Definition timer_ok (c : TcpConnAsync) : Prop :=
  ops_cancel_time_out_ conf = 0 -> ops_cancel_timer_ c = None.

Definition armed (c : TcpConnAsync) : TcpConnAsync :=
  if ops_cancel_time_out_ conf =? 0 then c
  else set_ops_cancel_timer (Some (ops_cancel_time_out_ conf)) c.

Lemma set_ops_cancel_timeout_eq c :
  timer_ok c -> set_ops_cancel_timeout conf c = Done (tt, armed c).
Proof.
  intros Hc. unfold set_ops_cancel_timeout, armed, mbind, M_bind, gets, modify, safe_assert.
  destruct (_ =? 0) eqn:E; bool_prop; simpl; [|done].
  by rewrite bool_decide_true by auto.
Qed.

Definition guard (c : TcpConnAsync) : option bool :=
  if negb (bool_decide (send_status_ c = Send_kDone)) then Some true
  else if negb (bool_decide (conn_stat c = kWorking)) then Some false
  else if was_cancelled_ c then Some false else None.

Lemma do_write_guard_eq c : do_write_guard c = Done (guard c, c).
Proof.
  unfold do_write_guard, guard, was_ops_cancelled, mbind, M_bind, gets, mret, M_ret.
  repeat case_match; done.
Qed.

(** Number of bytes the next write takes. *)
Definition next_write (c : TcpConnAsync) : Z :=
  Z.min (get_length (buffer_ (send_bound_ c))) kFixedIoBufferSize.

Definition block_taken (k : Z) (c : TcpConnAsync) : TcpConnAsync :=
  upd_send (fun io => mkIOBound (ztake k (send_data c) ++ zdrop k (io_block_ io))
                        (ib_header_ io) (mkBuffer (zdrop k (send_data c)))) c.

Definition locked (c : TcpConnAsync) : TcpConnAsync :=
  if get_length (buffer_ (send_bound_ c)) =? 0 then set_send_status Send_kDone c
  else upd_base (async_write (next_write c))
         (armed (set_send_status Send_kSend (block_taken (next_write c) c))).

Definition block_ok (c : TcpConnAsync) : Prop :=
  len (io_block_ (send_bound_ c)) = kFixedIoBufferSize.

Lemma next_write_range c :
  get_length (buffer_ (send_bound_ c)) <> 0 ->
  0 < next_write c <= kFixedIoBufferSize /\ next_write c <= len (send_data c).
Proof.
  intros. unfold next_write, kFixedIoBufferSize, send_data.
  pose proof (get_length_le (buffer_ (send_bound_ c))). lia.
Qed.

Lemma do_write_locked_eq c :
  timer_ok c -> block_ok c -> do_write_locked conf c = Done (true, locked c).
Proof.
  intros Ht Hb. unfold do_write_locked, locked, mbind, M_bind, gets, modify, mret, M_ret.
  destruct (_ =? 0) eqn:E; bool_prop; [done|].
  pose proof (next_write_range c E) as [[Hk1 Hk2] Hk3]. fold (next_write c).
  unfold send_consume. rewrite consume_raw_some by (rewrite ?Hb; done).
  by rewrite set_ops_cancel_timeout_eq.
Qed.

Definition written (c : TcpConnAsync) : TcpConnAsync :=
  match guard c with Some _ => c | None => locked c end.

Lemma do_write_eq c :
  timer_ok c -> block_ok c ->
  do_write conf c = Done (default true (guard c), written c).
Proof.
  intros Ht Hb. unfold do_write, written, mbind, M_bind. rewrite do_write_guard_eq.
  destruct (guard c); [done|]. by rewrite do_write_locked_eq.
Qed.

Definition appended (msg : Message) (c : TcpConnAsync) : TcpConnAsync :=
  log_sent msg (upd_send (set_buffer (mkBuffer (send_data c ++ net_str msg))) c).

Lemma send_append_eq msg c : send_append msg c = Done (tt, appended msg c).
Proof.
  unfold send_append, appended, mbind, M_bind, modify, upd_send, log_sent, set_buffer,
    send_data, net_str; simpl.
  by rewrite app_assoc.
Qed.

(** The server refuses messages over its limit. *)
Definition over_limit (msg : Message) : bool :=
  negb (send_max_msg_size_ conf =? 0) &&
  (uint32_t(send_max_msg_size_ conf) <? length_ (header_ msg)).

Definition sent (msg : Message) (c : TcpConnAsync) : TcpConnAsync :=
  if over_limit msg then c else written (appended msg c).

Lemma async_send_message_eq msg c :
  timer_ok c -> block_ok c ->
  async_send_message conf msg c = Done (if over_limit msg then -1 else 0, sent msg c).
Proof.
  intros Ht Hb. unfold async_send_message, sent, over_limit, mbind, M_bind.
  case_match; [done|]. rewrite send_append_eq. by rewrite do_write_eq.
Qed.

(** ** What sending leaves alone *)

Record same_recv (c c' : TcpConnAsync) : Prop := {
  sr_recv : recv_bound_ c' = recv_bound_ c;
  sr_stat : conn_stat c' = conn_stat c;
  sr_cancelled : was_cancelled_ c' = was_cancelled_ c;
  sr_reads : sk_reads (socket_ (base_ c')) = sk_reads (socket_ (base_ c));
  sr_timer : timer_ok c -> timer_ok c';
  sr_block : block_ok c -> block_ok c'
}.

#[export] Instance same_recv_po : PreOrder same_recv.
Proof.
  split; [by split|]. intros c1 c2 c3 [] []. split; first [congruence | auto].
Qed.

Lemma armed_timer_ok c : timer_ok c -> timer_ok (armed c).
Proof. unfold timer_ok, armed. intros. case_match; bool_prop; [auto|done]. Qed.

Lemma armed_same_recv c : same_recv c (armed c).
Proof.
  split; try (by unfold armed, block_ok; case_match); auto using armed_timer_ok.
Qed.

Lemma locked_same_recv c : same_recv c (locked c).
Proof.
  unfold locked. destruct (_ =? 0) eqn:E; bool_prop; [by split|].
  pose proof (next_write_range c E) as [[??]?].
  set (c1 := set_send_status _ _).
  assert (same_recv c c1) as Hc1.
  { split; try done. unfold block_ok; simpl. intros Hb.
    rewrite zlen_app, zlen_ztake, zlen_zdrop by lia. rewrite Hb. unfold kFixedIoBufferSize in *. lia. }
  transitivity c1; [done|]. transitivity (armed c1); [apply armed_same_recv|].
  by split.
Qed.

Lemma written_same_recv c : same_recv c (written c).
Proof. unfold written. case_match; [done|apply locked_same_recv]. Qed.

Lemma sent_same_recv msg c : same_recv c (sent msg c).
Proof.
  unfold sent. case_match; [done|]. transitivity (appended msg c); [by split|].
  apply written_same_recv.
Qed.

(** ** The invariant *)

Inductive send_phase (wire : bytes) (c : TcpConnAsync) : Prop :=
| phase_idle :
    send_status_ c = Send_kDone -> sk_writes (socket_ (base_ c)) = [] ->
    wire ++ send_data c = stream (sent_log c) -> send_phase wire c
| phase_writing n :
    send_status_ c = Send_kSend -> sk_writes (socket_ (base_ c)) = [n] ->
    0 < n <= kFixedIoBufferSize ->
    wire ++ ztake n (io_block_ (send_bound_ c)) ++ send_data c = stream (sent_log c) ->
    send_phase wire c
| phase_failed :
    send_status_ c = Send_kSend -> sk_writes (socket_ (base_ c)) = [] ->
    wire `prefix_of` stream (sent_log c) -> send_phase wire c.

Record send_inv (wire : bytes) (c : TcpConnAsync) : Prop := {
  si_block : block_ok c;
  si_timer : timer_ok c;
  si_phase : send_phase wire c
}.

(** Two connections the invariant cannot tell apart. *)
Record same_send (c c' : TcpConnAsync) : Prop := {
  ss_status : send_status_ c' = send_status_ c;
  ss_send : send_bound_ c' = send_bound_ c;
  ss_log : sent_log c' = sent_log c;
  ss_writes : sk_writes (socket_ (base_ c')) = sk_writes (socket_ (base_ c))
}.

#[export] Instance same_send_po : PreOrder same_send.
Proof. split; [by split|]. intros c1 c2 c3 [] []. split; congruence. Qed.

Lemma send_phase_same wire c c' : same_send c c' -> send_phase wire c -> send_phase wire c'.
Proof.
  intros [E1 E2 E3 E4] [??? | n ???? | ???].
  - apply phase_idle; unfold send_data in *; congruence.
  - apply (phase_writing _ _ n); unfold send_data in *; congruence.
  - apply phase_failed; congruence.
Qed.

Lemma send_inv_same wire c c' :
  same_send c c' -> timer_ok c' -> send_inv wire c -> send_inv wire c'.
Proof.
  intros Hs Ht [Hb _ Hp]. split; [|done|by eapply send_phase_same].
  unfold block_ok. by rewrite (ss_send _ _ Hs).
Qed.

Lemma armed_same_send c : same_send c (armed c).
Proof. unfold armed. by case_match. Qed.

Lemma locked_log c : sent_log (locked c) = sent_log c.
Proof. unfold locked. case_match; [done|]. simpl. by rewrite (ss_log _ _ (armed_same_send _)). Qed.

Lemma written_log c : sent_log (written c) = sent_log c.
Proof. unfold written. case_match; [done|apply locked_log]. Qed.

Lemma send_inv_wire wire c : send_inv wire c -> wire `prefix_of` stream (sent_log c).
Proof.
  intros [_ _ [_ _ E|n _ _ _ E|_ _ Hp]]; [| |done]; rewrite <-E; by apply prefix_app_r.
Qed.

Lemma appended_inv wire msg c : send_inv wire c -> send_inv wire (appended msg c).
Proof.
  intros [Hb Ht Hp]. split; [done|done|].
  destruct Hp as [E1 E2 E3 | n E1 E2 E3 E4 | E1 E2 E3].
  - apply phase_idle; [done|done|]. simpl. rewrite stream_app, stream_singleton, <-E3.
    unfold send_data; simpl. by rewrite <-!app_assoc.
  - apply (phase_writing _ _ n); [done..|]. simpl.
    rewrite stream_app, stream_singleton, <-E4. unfold send_data; simpl. by rewrite <-!app_assoc.
  - apply phase_failed; [done|done|]. simpl. rewrite stream_app. by apply prefix_app_r.
Qed.

Lemma ztake_block k (d old : bytes) :
  0 <= k <= len d -> ztake k (ztake k d ++ zdrop k old) = ztake k d.
Proof. intros. apply ztake_app_length. by rewrite zlen_ztake by lia. Qed.

Lemma locked_inv wire c :
  send_inv wire c -> send_status_ c = Send_kDone -> send_inv wire (locked c).
Proof.
  intros [Hb Ht Hp] Hd. destruct (locked_same_recv c) as [_ _ _ _ Ht' Hb'].
  split; [auto|auto|]. destruct Hp as [_ E2 E3 | | ]; [|congruence..].
  unfold locked. destruct (_ =? 0) eqn:E; bool_prop; [by apply phase_idle|].
  pose proof (next_write_range c E) as [[Hk1 Hk2] Hk3]. set (k := next_write c) in *.
  eapply (phase_writing _ _ k); [..|done|].
  - simpl. by rewrite (ss_status _ _ (armed_same_send _)).
  - simpl. rewrite (ss_writes _ _ (armed_same_send _)). simpl. by rewrite E2.
  - simpl. rewrite (ss_log _ _ (armed_same_send _)). unfold send_data at 1; simpl.
    rewrite (ss_send _ _ (armed_same_send _)); simpl.
    rewrite ztake_block, ztake_zdrop by lia. done.
Qed.

Lemma written_inv wire c : send_inv wire c -> send_inv wire (written c).
Proof.
  intros Hc. unfold written, guard. case_bool_decide; [|done]. simpl.
  repeat case_match; try done. by apply locked_inv.
Qed.

Lemma sent_inv wire msg c : send_inv wire c -> send_inv wire (sent msg c).
Proof. intros. unfold sent. case_match; auto using written_inv, appended_inv. Qed.

Lemma sent_log_sent msg c :
  sent_log (sent msg c) = sent_log c ++ (if over_limit msg then [] else [msg]).
Proof.
  unfold sent. case_match; [by rewrite app_nil_r|]. by rewrite written_log.
Qed.

End Closed.

#[export] Hint Resolve sent_inv written_inv appended_inv : tz.
