(* ===== verification/ServerRead.v ===== *)
(** * Receiving on a server connection: from bytes to dispatched messages

    The read path of the connection refines the reference parser [decode]: run from a
    buffer, it dispatches the messages [decode] finds there, in order, and then waits for
    what [decode] says is missing. *)

From Stdlib Require Import ZArith Lia Init.Byte.
From stdpp Require Import base list strings gmap.
From S2P Require Import Prelude Endian Message Buffer RpcMessage NetConn External NetConf.
From S2P Require Import RpcInstance Service Executor Dispatcher Decode ServerConn ServerSend.

(** ** The read path in closed form *)

Section Refine.
Context `{Host} `{AssertMode} `{SteadyTimer}.
Variable conf : NetConf.
Context `{LibConfig} {S : Type} `{!Service S} `{!EQueue RpcInstance}.
Variable self : nat.

Let limit := recv_max_msg_size_ conf.
Abbreviation World := (TcpConnAsync * Dispatcher S)%type.

(** The connection after a header was taken off the buffer. *)
Definition header_taken (c : TcpConnAsync) : TcpConnAsync :=
  upd_recv (fun io => mkIOBound (io_block_ io) (parse_wire_header (ztake 16 (recv_data c)))
                        (mkBuffer (zdrop 16 (recv_data c)))) c.

Definition body_taken (c : TcpConnAsync) : TcpConnAsync :=
  upd_recv (set_buffer (mkBuffer (zdrop (length_ (ib_header_ (recv_bound_ c))) (recv_data c)))) c.

Lemma parse_header_eq c :
  16 <= len (recv_data c) < 2 ^ 32 ->
  parse_header conf c =
    Done (if accept_header limit (parse_wire_header (ztake 16 (recv_data c))) then 0 else -1,
          header_taken c).
Proof.
  intros [Hl Hu]. unfold parse_header, recv_consume, mbind, M_bind, gets, modify, mret, M_ret.
  rewrite get_length_small by done. fold (recv_data c).
  change sizeof_Header with 16. rewrite (proj2 (Z.ltb_ge _ _)) by done.
  unfold safe_assert. rewrite (proj2 (Z.leb_le _ _)) by done.
  assert (recv_data c <> []) by (intros E; rewrite E in Hl; done).
  rewrite consume_some by done. simpl. fold (recv_data c).
  unfold accept_header, parse_wire_header, header_taken, limit; simpl.
  destruct (_ =? kHeaderMagic), (_ =? kHeaderVersion), (recv_max_msg_size_ conf =? 0);
    simpl; try done.
  rewrite Z.ltb_antisym. by destruct (_ <=? _).
Qed.

Lemma parse_msg_body_eq c :
  len (recv_data c) < 2 ^ 32 -> 0 <= length_ (ib_header_ (recv_bound_ c)) ->
  parse_msg_body c =
    let h := ib_header_ (recv_bound_ c) in
    if len (recv_data c) <? length_ h then Done ((1, Message_default), c)
    else Done ((0, mkMessage h (ztake (length_ h) (recv_data c))), body_taken c).
Proof.
  intros Hu Hh. unfold parse_msg_body, recv_consume, mbind, M_bind, gets, mret, M_ret.
  rewrite get_length_small by done. fold (recv_data c). cbv zeta.
  destruct (_ <? _) eqn:E; bool_prop; [done|].
  unfold safe_assert. rewrite (proj2 (Z.leb_le _ _)) by done.
  unfold body_taken. destruct (decide (length_ (ib_header_ (recv_bound_ c)) = 0)) as [E0|N0].
  - rewrite E0, consume_zero. unfold ztake, zdrop; simpl. unfold recv_data. by destruct (buffer_ _).
  - assert (recv_data c <> []) by (intros E'; rewrite E' in E; unfold zlen in E; simpl in E; lia).
    by rewrite consume_some by (done || lia).
Qed.

(** ** Dispatching messages *)

(** Messages answered at once, with those over the send limit left out. *)
Definition instant_reply (ans : option RpcResponseStatus) : list Message :=
  match ans with
  | None => []
  | Some status =>
      if over_limit conf (reject_message status) then [] else [reject_message status]
  end.

(** The dispatcher and the instant answers after a list of messages. *)
Fixpoint routes (ms : list Message) (d : Dispatcher S) : Dispatcher S * list Message :=
  match ms with
  | [] => (d, [])
  | m :: ms =>
      let '(d1, ans) := route (payload_ m) self d in
      let '(d2, l) := routes ms d1 in (d2, instant_reply ans ++ l)
  end.

Lemma routes_app ms1 ms2 d :
  routes (ms1 ++ ms2) d =
    let '(d1, l1) := routes ms1 d in
    let '(d2, l2) := routes ms2 d1 in (d2, l1 ++ l2).
Proof.
  revert d. induction ms1 as [|m ms1 IH]; intros d; simpl.
  { by destruct (routes ms2 d). }
  destruct (route _ _ _) as [d1 ans]. rewrite IH.
  destruct (routes ms1 d1) as [d2 l1]. destruct (routes ms2 d2) as [d3 l2]. by rewrite app_assoc.
Qed.

(** The connection may act: it is open and was not cancelled. *)
Definition live (c : TcpConnAsync) : Prop := conn_stat c = kWorking /\ was_cancelled_ c = false.

(** Sending does not stall on a connection that may act: a write is outstanding, or there is
    nothing to write. *)
Definition flowing (c : TcpConnAsync) : Prop :=
  live c ->
  match send_status_ c with
  | Send_kDone => get_length (buffer_ (send_bound_ c)) = 0
  | Send_kSend => sk_writes (socket_ (base_ c)) <> []
  end.

Lemma flowing_same c c' : same_send c c' -> (live c' -> live c) -> flowing c -> flowing c'.
Proof. intros [E1 E2 _ E4] Hl Hf Hl'. rewrite E1, E2, E4. apply Hf, Hl, Hl'. Qed.

Lemma same_recv_live c c' : same_recv conf c c' -> live c' <-> live c.
Proof. intros [_ E1 E2 _ _ _]. unfold live. by rewrite E1, E2. Qed.

(** A write that was started goes on, and one that was not is started if there is cause. *)
Lemma written_flowing c : (send_status_ c = Send_kSend -> flowing c) -> flowing (written conf c).
Proof.
  intros Hf Hl. apply (same_recv_live _ _ (written_same_recv conf c)) in Hl.
  unfold written, guard. destruct (send_status_ c) eqn:Es.
  - rewrite bool_decide_false by done. cbn [negb]. by apply Hf.
  - rewrite !bool_decide_true by (done || apply Hl). cbn [negb]. destruct Hl as [_ ->].
    unfold locked. destruct (_ =? 0) eqn:E; bool_prop; [done|].
    simpl. rewrite (ss_status _ _ (armed_same_send conf _)). simpl. by destruct (sk_writes _).
Qed.

Lemma sent_flowing msg c : flowing c -> flowing (sent conf msg c).
Proof.
  intros Hf. unfold sent. case_match; [done|]. apply written_flowing.
  intros Es Hl. specialize (Hf Hl). cbn in *. by rewrite Es in *.
Qed.

(** An ended connection writes nothing more. *)
Lemma written_dead c : ~ live c -> written conf c = c.
Proof.
  intros Hl. unfold written, guard. repeat (case_match; [done|]). bool_prop. destruct Hl. split; [|done].
  destruct (decide (conn_stat c = kWorking)); [done|]. rewrite bool_decide_false in * by done. done.
Qed.

Lemma sent_dead msg c :
  ~ live c -> ~ live (sent conf msg c) /\ sk_writes (socket_ (base_ (sent conf msg c))) = sk_writes (socket_ (base_ c)).
Proof. intros Hl. unfold sent. case_match; [done|]. by rewrite written_dead. Qed.

(** [reacts l c c']: from [c] to [c'] the messages [l] were accepted for sending, and
    nothing else happened to the sending side. *)
Record reacts (l : list Message) (c c' : TcpConnAsync) : Prop := {
  ra_inv wire : send_inv conf wire c -> send_inv conf wire c';
  ra_log : sent_log c' = sent_log c ++ l;
  ra_timer : timer_ok conf c -> timer_ok conf c';
  ra_block : block_ok c -> block_ok c';
  ra_flow : flowing c -> flowing c';
  ra_quiet : l = [] -> same_send c c';
  ra_dead : ~ live c -> ~ live c' /\ sk_writes (socket_ (base_ c')) = sk_writes (socket_ (base_ c))
}.

Lemma reacts_trans l1 l2 c1 c2 c3 :
  reacts l1 c1 c2 -> reacts l2 c2 c3 -> reacts (l1 ++ l2) c1 c3.
Proof.
  intros [A1 A2 A3 A4 A5 A6 A7] [B1 B2 B3 B4 B5 B6 B7]. split; auto; [by rewrite B2, A2, app_assoc| |].
  - intros Hl. apply app_nil in Hl as [-> ->]. transitivity c2; auto.
  - intros Hl. destruct (A7 Hl) as [Hl2 Ea], (B7 (proj1 (A7 Hl))) as [Hl3 Eb]. split; [done|congruence].
Qed.

Lemma reacts_trans_nil l c1 c2 c3 : reacts [] c1 c2 -> reacts l c2 c3 -> reacts l c1 c3.
Proof. intros. by apply (reacts_trans [] l c1 c2). Qed.

Lemma reacts_same c c' :
  same_send c c' -> (timer_ok conf c -> timer_ok conf c') -> (live c' -> live c) -> reacts [] c c'.
Proof.
  intros Hs Ht Hl. split; [|by rewrite app_nil_r, (ss_log _ _ Hs)|done| |by apply flowing_same|done|].
  3: { split; [by auto|apply Hs]. }
  - intros wire Hc. eapply send_inv_same; [done| |done]. apply Ht, Hc.
  - unfold block_ok. by rewrite (ss_send _ _ Hs).
Qed.

Lemma reacts_sent msg c :
  reacts (if over_limit conf msg then [] else [msg]) c (sent conf msg c).
Proof.
  pose proof (sent_same_recv conf msg c) as Hsr. destruct Hsr. split; auto using sent_inv, sent_log_sent, sent_flowing, sent_dead.
  unfold sent. by destruct (over_limit conf msg).
Qed.

Lemma dispatch_spec msg c (d : Dispatcher S) :
  timer_ok conf c -> block_ok c -> len (payload_ msg) < 2 ^ 32 ->
  exists c', dispatch conf self msg (c, d) = Done (tt, (c', (route (payload_ msg) self d).1)) /\
    reacts (instant_reply (route (payload_ msg) self d).2) c c' /\ same_recv conf c c'.
Proof.
  intros Ht Hb Hp. unfold dispatch; simpl. rewrite Dispatcher_handle_RPC_eq by done.
  destruct (route _ _ _) as [d' [status|]] eqn:Hr; simpl;
    [|exists c; split_and!; [done|by apply reacts_same|done]].
  assert (d' = d) as ->.
  { unfold route in Hr. repeat case_match; naive_solver. }
  unfold answer, zoom, reject, send_if_alive, sink_send, server_sink; simpl.
  rewrite async_send_message_eq by done.
  eexists; split; [done|]. split; [apply reacts_sent|apply sent_same_recv].
Qed.

(** ** Reading refines decoding *)

(** A connection that may start reading. *)
Record ready (c : TcpConnAsync) : Prop := {
  rd_stat : conn_stat c = kWorking;
  rd_cancelled : was_cancelled_ c = false;
  rd_reads : sk_reads (socket_ (base_ c)) = [];
  rd_timer : timer_ok conf c;
  rd_block : block_ok c;
  rd_size : len (recv_data c) < 2 ^ 32
}.

Definition good_header (h : Header) : Prop :=
  0 <= length_ h < 2 ^ 32 /\ accept_header limit h = true.

(** What the connection holds, and the read it has issued, when the parser is in state
    [st]. *)
Definition holds (st : rstate) (c : TcpConnAsync) : Prop :=
  match st with
  | RHead b =>
      recv_data c = b /\ len b < 16 /\
      sk_reads (socket_ (base_ c)) = [(16 - len b, on_read_handler)]
  | RBody h b =>
      recv_data c = b /\ ib_header_ (recv_bound_ c) = h /\ good_header h /\ len b < length_ h /\
      sk_reads (socket_ (base_ c)) = [(Z.min (length_ h - len b) kFixedIoBufferSize, on_read_msg_handler)]
  | RBad => False
  end.

(** The outcome of reading: waiting for more, or closed. *)
Definition waits (st : rstate) (c : TcpConnAsync) : Prop :=
  match st with
  | RBad => conn_stat c = kClosed /\ sk_reads (socket_ (base_ c)) = []
  | _ => live c /\ holds st c
  end.

Lemma header_taken_ready c : ready c -> ready (header_taken c).
Proof.
  intros []. split; try done. unfold recv_data at 1; simpl.
  rewrite zlen_zdrop by lia. pose proof (zlen_nonneg (recv_data c)). lia.
Qed.

Lemma header_taken_good c :
  16 <= len (recv_data c) -> accept_header limit (parse_wire_header (ztake 16 (recv_data c))) = true ->
  good_header (ib_header_ (recv_bound_ (header_taken c))).
Proof.
  intros Hl Ha. split; [|done]. simpl.
  apply (parse_wire_header_wf (ztake 16 (recv_data c))).
  unfold ztake. rewrite length_take. unfold zlen in Hl. lia.
Qed.

Lemma body_taken_ready c :
  0 <= length_ (ib_header_ (recv_bound_ c)) -> ready c -> ready (body_taken c).
Proof.
  intros Hh []. split; try done. unfold recv_data at 1; simpl.
  rewrite zlen_zdrop by lia. pose proof (zlen_nonneg (recv_data c)). lia.
Qed.

Lemma same_recv_ready c c' : same_recv conf c c' -> ready c -> ready c'.
Proof.
  intros [E1 E2 E3 E4 Ht Hb] []. unfold recv_data in *. split; rewrite ?E2, ?E3, ?E4; auto.
  by unfold recv_data; rewrite E1.
Qed.

Lemma reacts_taken c : reacts [] c (header_taken c) /\ reacts [] c (body_taken c).
Proof. split; by apply reacts_same. Qed.

(** Issuing a read and closing, run from a state that is being read. *)
Lemma issue_read_eq n h c (d : Dispatcher S) :
  timer_ok conf c ->
  issue_read conf n h (c, d) = Done (tt, (upd_base (async_read n h) (armed conf c), d)).
Proof.
  intros Ht. unfold issue_read, on_conn, zoom, mbind, M_bind; simpl.
  by rewrite set_ops_cancel_timeout_eq.
Qed.

Lemma issued_same_recv n h c :
  let c' := upd_base (async_read n h) (armed conf c) in
  reacts [] c c' /\ recv_bound_ c' = recv_bound_ c /\ conn_stat c' = conn_stat c /\
  was_cancelled_ c' = was_cancelled_ c /\
  sk_reads (socket_ (base_ c')) = sk_reads (socket_ (base_ c)) ++ [(n, h)].
Proof.
  destruct (armed_same_recv conf c) as [E1 E2 E3 E4 Ht Hb].
  destruct (armed_same_send conf c) as [F1 F2 F3 F4].
  split_and!; simpl; try done; [|by rewrite E4].
  apply reacts_same; [by split|intros Hc; by apply Ht|]. intros [A B].
  split; [rewrite <-E2; exact A|rewrite <-E3; exact B].
Qed.

Lemma close_eq c :
  exists c', on_base (sock_shutdown_and_close Shut_kBoth) c = Done (tt, c') /\
    reacts [] c c' /\ conn_stat c' = kClosed /\
    sk_reads (socket_ (base_ c')) = sk_reads (socket_ (base_ c)) /\
    recv_bound_ c' = recv_bound_ c /\ was_cancelled_ c' = was_cancelled_ c.
Proof.
  destruct (sock_shutdown_and_close_spec Shut_kBoth (base_ c)) as (b & Eb & Es & Er & Ew).
  unfold on_base, zoom. rewrite Eb. eexists; split; [done|].
  split_and!; try done. apply reacts_same; [by split|done|].
  intros [E _]. unfold conn_stat in E; simpl in E. congruence.
Qed.

Lemma on_conn_eq {A} (m : M TcpConnAsync A) c (d : Dispatcher S) a c' :
  m c = Done (a, c') -> on_conn m (c, d) = Done (a, (c', d)).
Proof. intros E. unfold on_conn, zoom; simpl. by rewrite E. Qed.

(** The read path from state [st]: it ends, having dispatched what [decode_all] finds. *)
Definition reads_as {A} (m : M World A) (st : rstate) (c : TcpConnAsync) (d : Dispatcher S) : Prop :=
  let '(ms, st') := decode_all limit st in
  exists a c', m (c, d) = Done (a, (c', (routes ms d).1)) /\
    reacts (routes ms d).2 c c' /\ waits st' c'.

(** Ignoring the result of the last call. *)
Lemma reads_as_unit {A B} (m : M World A) (b : B) st c (d : Dispatcher S) :
  reads_as m st c d -> reads_as (m ≫= fun _ => mret b) st c d.
Proof.
  unfold reads_as, mbind, M_bind, mret, M_ret. destruct (decode_all limit st) as [ms st'].
  intros (a & c' & -> & Hr & Hw). eauto 6.
Qed.

(** The test with which every round starts passes. *)
Lemma do_read_ready fuel c (d : Dispatcher S) :
  ready c ->
  do_read conf self (Datatypes.S fuel) (c, d) =
    if len (recv_data c) <? 16 then
      Done (true, (upd_base (async_read (16 - len (recv_data c)) on_read_handler) (armed conf c), d))
    else (ret ← on_conn (parse_header conf);
          if ret =? 0 then _ ← do_read_msg conf self fuel; mret true
          else if 0 <? ret then _ ← do_read conf self fuel; mret true
          else _ ← on_conn (on_base (sock_shutdown_and_close Shut_kBoth)); mret false) (c, d).
Proof.
  intros []. cbn [do_read].
  unfold mbind at 1, M_bind at 1, on_conn at 1, zoom at 1, gets at 1; simpl.
  rewrite rd_stat0; simpl. unfold mbind at 1, M_bind at 1, on_conn at 1, zoom at 1, was_ops_cancelled at 1,
    gets at 1; simpl.
  rewrite rd_cancelled0. unfold mbind at 1, M_bind at 1, on_conn at 1, zoom at 1, gets at 1; simpl.
  rewrite get_length_small by done. fold (recv_data c). change sizeof_Header with 16.
  destruct (_ <? 16); [|done]. unfold mbind at 1, M_bind at 1. by rewrite issue_read_eq.
Qed.

Lemma do_read_msg_ready fuel c (d : Dispatcher S) :
  let h := ib_header_ (recv_bound_ c) in
  ready c -> good_header h ->
  do_read_msg conf self (Datatypes.S fuel) (c, d) =
    if len (recv_data c) <? length_ h then
      Done (tt, (upd_base (async_read (Z.min (length_ h - len (recv_data c)) kFixedIoBufferSize)
                            on_read_msg_handler) (armed conf c), d))
    else (_ ← dispatch conf self (mkMessage h (ztake (length_ h) (recv_data c)));
          _ ← do_read conf self fuel; mret tt) (body_taken c, d).
Proof.
  intros h [] [Hh _]. subst h. cbn [do_read_msg].
  unfold mbind at 1, M_bind at 1, on_conn at 1, zoom at 1, gets at 1; simpl.
  rewrite rd_stat0; simpl. unfold mbind at 1, M_bind at 1, on_conn at 1, zoom at 1, was_ops_cancelled at 1,
    gets at 1; simpl.
  rewrite rd_cancelled0. unfold mbind at 1, M_bind at 1, on_conn at 1, zoom at 1, gets at 1; simpl.
  unfold mbind at 1, M_bind at 1, on_conn at 1, zoom at 1, gets at 1; simpl.
  rewrite get_length_small by done. fold (recv_data c).
  destruct (_ <? _) eqn:E; bool_prop.
  - rewrite uwrap_small by (split; pose proof (zlen_nonneg (recv_data c)); lia).
    by rewrite issue_read_eq.
  - unfold mbind at 1, M_bind at 1. erewrite on_conn_eq
      by (rewrite parse_msg_body_eq by (done || lia); cbv zeta;
          rewrite (proj2 (Z.ltb_ge _ _)) by done; done).
    done.
Qed.

(** A header is parsed: the message follows, or the connection is closed. *)
Lemma head_round {A} (K : Z -> M World A) c d :
  let h := parse_wire_header (ztake 16 (recv_data c)) in
  ready c -> 16 <= len (recv_data c) ->
  (accept_header limit h = true ->
   reads_as (K 0) (RBody h (zdrop 16 (recv_data c))) (header_taken c) d) ->
  (forall c', on_base (sock_shutdown_and_close Shut_kBoth) (header_taken c) = Done (tt, c') ->
   exists a, K (-1) (header_taken c, d) = Done (a, (c', d))) ->
  reads_as (ret ← on_conn (parse_header conf); K ret) (RHead (recv_data c)) c d.
Proof.
  intros h Hc Hl Hacc Hbad. unfold reads_as. rewrite decode_all_head.
  rewrite (proj2 (Z.ltb_ge _ _)) by done. fold h.
  unfold mbind, M_bind.
  rewrite (on_conn_eq _ _ _ _ _ (parse_header_eq c (conj Hl (rd_size _ Hc)))). fold h.
  destruct (accept_header limit h) eqn:Ha.
  - specialize (Hacc eq_refl). unfold reads_as in Hacc.
    destruct (decode_all _ _) as [ms st']. destruct Hacc as (a & c' & Em & Hr & Hw).
    rewrite Em. eexists _, _. split; [done|]. split; [|done].
    eapply reacts_trans_nil; [apply (proj1 (reacts_taken c))|exact Hr].
  - destruct (close_eq (header_taken c)) as (c' & Ec & Hr & Hs & Hk & _).
    destruct (Hbad c' Ec) as [a Ea]. rewrite Ea. eexists _, _. split; [done|].
    split; [eapply reacts_trans_nil; [apply (proj1 (reacts_taken c))|exact Hr]|].
    split; [done|]. rewrite Hk. apply Hc.
Qed.

(** A complete body: the message is dispatched and reading goes on. *)
Lemma body_round {A} (K : M World A) c d :
  let h := ib_header_ (recv_bound_ c) in
  ready c -> good_header h -> length_ h <= len (recv_data c) ->
  (forall c' d', ready c' -> recv_data c' = zdrop (length_ h) (recv_data c) ->
   reads_as K (RHead (recv_data c')) c' d') ->
  reads_as (fun w => (_ ← dispatch conf self (mkMessage h (ztake (length_ h) (recv_data c))); K)
                       (body_taken (fst w), snd w))
    (RBody h (recv_data c)) c d.
Proof.
  intros h Hc [[Hh0 Hh1] Ha] Hl HK. unfold reads_as. rewrite decode_all_body by done.
  rewrite (proj2 (Z.ltb_ge _ _)) by done. cbn [fst snd].
  pose proof (body_taken_ready c Hh0 Hc) as Hb.
  destruct (dispatch_spec (mkMessage h (ztake (length_ h) (recv_data c))) (body_taken c) d)
    as (c1 & Ed & Hr1 & Hs1); [apply Hb|apply Hb|by simpl; rewrite zlen_ztake by lia|].
  unfold mbind, M_bind. rewrite Ed. cbn [payload_] in *.
  assert (recv_data c1 = zdrop (length_ h) (recv_data c)) as Ec1
    by (unfold recv_data; by rewrite (sr_recv _ _ _ Hs1)).
  specialize (HK c1 (route (ztake (length_ h) (recv_data c)) self d).1
    (same_recv_ready _ _ Hs1 Hb) Ec1).
  rewrite Ec1 in HK. unfold reads_as in HK.
  destruct (decode_all limit (RHead _)) as [ms st'] eqn:Edec.
  destruct HK as (a & c' & Em & Hr & Hw). rewrite Em. cbn [routes payload_].
  destruct (route _ self d) as [d1 ans]. cbn [fst snd] in *. destruct (routes ms d1) as [d2 l] eqn:El.
  eexists _, _. split; [done|]. split; [|done].
  eapply reacts_trans_nil; [apply (proj2 (reacts_taken c))|]. by eapply reacts_trans.
Qed.

(** Nothing to parse: a read is issued. *)
Lemma issue_round_head c (d : Dispatcher S) :
  ready c -> len (recv_data c) < 16 ->
  let c' := upd_base (async_read (16 - len (recv_data c)) on_read_handler) (armed conf c) in
  reacts [] c c' /\ waits (RHead (recv_data c)) c'.
Proof.
  intros [] Hl. destruct (issued_same_recv (16 - len (recv_data c)) on_read_handler c)
    as (Hr & E1 & E2 & E3 & E4).
  split; [exact Hr|]. cbv zeta in *. unfold waits, live, holds, recv_data in *.
  rewrite E1, E2, E3, E4, rd_reads0. by split_and!.
Qed.

Lemma issue_round_body c (d : Dispatcher S) :
  let h := ib_header_ (recv_bound_ c) in
  ready c -> good_header h -> len (recv_data c) < length_ h ->
  let c' := upd_base (async_read (Z.min (length_ h - len (recv_data c)) kFixedIoBufferSize)
                       on_read_msg_handler) (armed conf c) in
  reacts [] c c' /\ waits (RBody h (recv_data c)) c'.
Proof.
  intros h [] Hg Hl.
  destruct (issued_same_recv (Z.min (length_ h - len (recv_data c)) kFixedIoBufferSize)
              on_read_msg_handler c) as (Hr & E1 & E2 & E3 & E4).
  split; [exact Hr|]. cbv zeta in *. unfold waits, live, holds, recv_data in *.
  rewrite E1, E2, E3, E4, rd_reads0. by split_and!.
Qed.

Lemma read_specs fuel :
  (forall c (d : Dispatcher S), ready c -> (need (RHead (recv_data c)) <= fuel)%nat ->
     reads_as (do_read conf self fuel) (RHead (recv_data c)) c d) /\
  (forall c (d : Dispatcher S), ready c -> good_header (ib_header_ (recv_bound_ c)) ->
     (need (RBody (ib_header_ (recv_bound_ c)) (recv_data c)) <= fuel)%nat ->
     reads_as (do_read_msg conf self fuel) (RBody (ib_header_ (recv_bound_ c)) (recv_data c)) c d).
Proof.
  induction fuel as [|fuel [IHr IHm]]; [split; intros; simpl in *; lia|]. split.
  - intros c d Hc Hfuel. unfold reads_as. rewrite do_read_ready by done.
    destruct (len (recv_data c) <? 16) eqn:E; bool_prop.
    { rewrite decode_all_head, (proj2 (Z.ltb_lt _ _)) by done.
      eexists _, _. split; [done|]. by apply issue_round_head. }
    apply (head_round (fun ret => if ret =? 0 then _ ← do_read_msg conf self fuel; mret true
          else if 0 <? ret then _ ← do_read conf self fuel; mret true
          else _ ← on_conn (on_base (sock_shutdown_and_close Shut_kBoth)); mret false)); [done..| |].
    + intros Ha. pose proof (header_taken_good c E Ha) as Hg.
      apply (reads_as_unit (do_read_msg conf self fuel) true _ (header_taken c)).
      apply (IHm (header_taken c)); [by apply header_taken_ready|done|].
      simpl in *. unfold recv_data at 1; simpl. rewrite length_zdrop. unfold zlen in E. lia.
    + intros c' Ec. exists false. simpl. unfold mbind, M_bind. by rewrite (on_conn_eq _ _ _ _ _ Ec).
  - intros c d Hc Hg Hfuel. unfold reads_as. rewrite do_read_msg_ready by done.
    destruct (len (recv_data c) <? _) eqn:E; bool_prop.
    { rewrite decode_all_body, (proj2 (Z.ltb_lt _ _)) by (done || apply Hg).
      eexists _, _. split; [done|]. by apply issue_round_body. }
    apply (body_round (_ ← do_read conf self fuel; mret tt)); [done..|].
    intros c' d' Hc' Ec'. apply reads_as_unit, IHr; [done|].
    rewrite Ec'. simpl in *. rewrite length_zdrop. lia.
Qed.

End Refine.
