(* ===== verification/Pending.v ===== *)
(** * The requests that wait for a service

    What the Dispatcher, a pool thread and a runtime update do to the requests queued in
    all the services together, up to their order: a routed request is added, a taken one
    leaves, an update moves nothing. Every request is either queued, to be answered by
    its service with [reply_of], or answered at once. *)

From Stdlib Require Import ZArith Lia Init.Byte.
From stdpp Require Import base list strings gmap.
From S2P Require Import Prelude Endian Message Buffer RpcMessage NetConn External NetConf.
From S2P Require Import RpcInstance Service Executor Dispatcher Answering Decode.
From S2P Require Import ServerConn ServerSend ServerRead.

Section Pending.
Context `{Host} `{LibConfig} {S : Type} `{!Service S} `{!Answering S}
  `{!EQueue RpcInstance} `{!EQueueLaws RpcInstance}.
Implicit Types (m : gmap Z (Executor S)) (d : Dispatcher S) (e : Executor S).

Definition all_queued m : list RpcInstance := map_to_list m ≫= fun p => queued (rpc_queue_ p.2).

Lemma all_queued_lookup m sid e :
  m !! sid = Some e -> all_queued m ≡ₚ queued (rpc_queue_ e) ++ all_queued (delete sid m).
Proof. intros Hm. unfold all_queued. by rewrite <-(map_to_list_delete m sid e Hm). Qed.

Lemma all_queued_insert m sid e :
  all_queued (<[sid := e]> m) ≡ₚ queued (rpc_queue_ e) ++ all_queued (delete sid m).
Proof. rewrite (all_queued_lookup _ sid e) by apply lookup_insert_eq. by rewrite delete_insert_eq. Qed.

(** A change of one executor that keeps its queue. *)
Lemma all_queued_same m sid e e' :
  m !! sid = Some e -> queued (rpc_queue_ e') = queued (rpc_queue_ e) ->
  all_queued (<[sid := e']> m) ≡ₚ all_queued m.
Proof. intros Hm Hq. by rewrite all_queued_insert, (all_queued_lookup m sid e Hm), Hq. Qed.

(** The dispatcher knows exactly the services [known], and they are in order. *)
Record disp_ok (known : gset Z) d : Prop := {
  dk_known : dom (services_ d) = known;
  dk_ok : map_Forall (fun _ e => svc_ok (service_impl_ e)) (services_ d)
}.

Lemma dom_update m sid e e' : m !! sid = Some e -> dom (<[sid := e']> m) = dom m.
Proof. intros Hm. apply dom_insert_lookup_L. by exists e. Qed.

Lemma disp_ok_update known d sid e e' :
  disp_ok known d -> services_ d !! sid = Some e -> svc_ok (service_impl_ e') ->
  disp_ok known (set_services (<[sid := e']> (services_ d)) d).
Proof.
  intros [Hk Ho] He Hs. split; simpl; [by rewrite (dom_update _ _ e)|].
  by apply map_Forall_insert_2.
Qed.

(** ** Routing *)

Lemma route_reaction known id msg d :
  disp_ok known d ->
  let '(d', ans) := route (payload_ msg) id d in
  disp_ok known d' /\
  match ans with
  | Some status => all_queued (services_ d') = all_queued (services_ d) /\
      reaction known id msg = reject_message status
  | None => let i := accepted_instance (payload_ msg) id in
      all_queued (services_ d') ≡ₚ all_queued (services_ d) ++ [i] /\
      reaction known id msg = reply_of i
  end.
Proof.
  intros Hd. unfold route, reaction. case_bool_decide as Hok; [|done].
  destruct (services_ d !! rq_service_id (request_header (payload_ msg))) as [e|] eqn:He.
  - split; [eapply disp_ok_update; [done|exact He|]; exact (dk_ok _ _ Hd _ _ He)|]. split.
    + simpl. rewrite all_queued_insert, (all_queued_lookup _ _ e He). simpl. rewrite queued_PUSH.
      by rewrite <-!app_assoc, (Permutation_app_comm (all_queued _)).
    + rewrite bool_decide_true; [done|]. rewrite <-(dk_known _ _ Hd). by apply elem_of_dom_2 in He.
  - rewrite bool_decide_false; [done|]. rewrite <-(dk_known _ _ Hd). by apply not_elem_of_dom.
Qed.

Section Conf.
Context `{AssertMode} `{SteadyTimer}.
Variable conf : NetConf.

(** The messages the server does send: those within its limit. *)
Definition admissible (l : list Message) : list Message := filter (fun msg => over_limit conf msg = false) l.

Lemma admissible_app l1 l2 : admissible (l1 ++ l2) = admissible l1 ++ admissible l2.
Proof. apply filter_app. Qed.

Lemma admissible_cons msg l : admissible (msg :: l) = admissible [msg] ++ admissible l.
Proof. apply (admissible_app [msg]). Qed.

Lemma admissible_all l : Forall (fun msg => over_limit conf msg = false) l -> admissible l = l.
Proof. unfold admissible. induction 1; [done|]. rewrite filter_cons_True by done. by f_equal. Qed.

Lemma instant_reply_admissible status :
  instant_reply conf (Some status) = admissible [reject_message status].
Proof. unfold admissible, instant_reply. rewrite filter_cons, filter_nil. by destruct (over_limit _ _). Qed.

(** The messages of connection [id], dispatched one after the other: some are answered at
    once, the others are queued, and together that is the reaction to all of them. *)
Lemma routes_reaction known id ms d :
  disp_ok known d ->
  disp_ok known (routes conf id ms d).1 /\
  exists qs, Forall (fun i => full_socket_ i = id) qs /\
    all_queued (services_ (routes conf id ms d).1) ≡ₚ all_queued (services_ d) ++ qs /\
    admissible (reaction known id <$> ms) ≡ₚ (routes conf id ms d).2 ++ admissible (reply_of <$> qs).
Proof.
  revert d. induction ms as [|msg ms IH]; intros d Hd; cbn [routes].
  { split; [done|]. exists []. by rewrite app_nil_r. }
  pose proof (route_reaction known id msg d Hd) as Hr. destruct (route _ _ _) as [d1 ans].
  destruct Hr as [Hd1 Hans]. destruct (IH d1 Hd1) as (Hd2 & qs & His & Hq & Hadm).
  destruct (routes conf id ms d1) as [d2 l]. cbn [fst snd] in *. split; [done|].
  assert (admissible (reaction known id <$> msg :: ms) ≡ₚ
          admissible [reaction known id msg] ++ l ++ admissible (reply_of <$> qs)) as Hall
    by (by rewrite fmap_cons, admissible_cons, Hadm).
  destruct ans as [status|]; destruct Hans as [Hq1 Hre]; rewrite Hre in Hall.
  - exists qs. rewrite Hq, Hq1, Hall, instant_reply_admissible. by rewrite <-app_assoc.
  - exists (accepted_instance (payload_ msg) id :: qs). split; [by constructor|].
    rewrite Hq, Hq1, Hall. split; [by rewrite <-app_assoc|].
    rewrite fmap_cons, (admissible_cons _ (reply_of <$> qs)), !app_assoc.
    apply Permutation_app_tail, Permutation_app_comm.
Qed.
End Conf.

(** ** Taking a request *)

Lemma pop_request_eq e :
  pop_request e = Done (head (queued (rpc_queue_ e)), set_rpc_queue (POP (rpc_queue_ e)).2 e).
Proof. unfold pop_request, mbind, M_bind, gets, modify. simpl. by rewrite POP_item. Qed.

Lemma all_queued_pop m sid e :
  m !! sid = Some e ->
  all_queued m ≡ₚ all_queued (<[sid := set_rpc_queue (POP (rpc_queue_ e)).2 e]> m) ++
                  option_list (head (queued (rpc_queue_ e))).
Proof.
  intros Hm. rewrite all_queued_insert, (all_queued_lookup m sid e Hm). simpl. rewrite queued_POP.
  destruct (queued (rpc_queue_ e)) as [|i q]; simpl; [by rewrite app_nil_r|].
  rewrite (Permutation_app_comm _ [i]). done.
Qed.

(** ** A runtime update *)

Lemma Executor_module_runtime_ok cfg e :
  svc_ok (service_impl_ e) ->
  exists ret e', Executor_module_runtime cfg e = Done (ret, e') /\ svc_ok (service_impl_ e') /\
    rpc_queue_ e' = rpc_queue_ e.
Proof.
  intros Hs. destruct (svc_reconfigured cfg _ Hs) as (ret & s1 & E & Hs1).
  destruct (svc_configured _ Hs1) as (c & Ec).
  unfold Executor_module_runtime, on_service, zoom, mbind, M_bind. rewrite E. destruct (ret =? 0).
  - simpl. rewrite Ec. by eexists _, _.
  - by eexists _, _.
Qed.

Lemma runtime_all_ok known cfg l d ret :
  disp_ok known d -> NoDup l.*1 -> (forall sid e, (sid, e) ∈ l -> services_ d !! sid = Some e) ->
  exists ret' d', runtime_all cfg l ret d = Done (ret', d') /\ disp_ok known d' /\
    all_queued (services_ d') ≡ₚ all_queued (services_ d).
Proof.
  revert d ret. induction l as [|[sid e] l IH]; intros d ret Hd Hn Hl; [by eexists _, _|].
  apply NoDup_cons in Hn as [Hsid Hn].
  assert (services_ d !! sid = Some e) as He by (apply Hl; left).
  destruct (Executor_module_runtime_ok cfg e) as (r & e' & E & Hs & Hq); [exact (dk_ok _ _ Hd _ _ He)|].
  cbn [runtime_all]. unfold mbind, M_bind, on_executor, zoom. rewrite E.
  destruct (IH (set_services (<[sid:=e']> (services_ d)) d) (ret + r)) as (ret' & d' & Er & Hd' & Hq').
  - by eapply disp_ok_update.
  - done.
  - intros sid2 e2 H2. simpl. rewrite lookup_insert_ne; [apply Hl; by right|].
    intros ->. apply Hsid. apply list_elem_of_fmap. by exists (sid2, e2).
  - exists ret', d'. rewrite Er. split; [done|]. split; [done|]. rewrite Hq'. simpl.
    apply (all_queued_same _ _ e); [done|by rewrite Hq].
Qed.

Lemma Dispatcher_module_runtime_ok known cfg d :
  disp_ok known d ->
  exists ret d', Dispatcher_module_runtime cfg d = Done (ret, d') /\ disp_ok known d' /\
    all_queued (services_ d') ≡ₚ all_queued (services_ d).
Proof.
  intros Hd. apply runtime_all_ok; [done|apply NoDup_fst_map_to_list|].
  intros sid e. by rewrite elem_of_map_to_list.
Qed.
End Pending.
