(* ===== verification/ServerSystem.v ===== *)
(** * A server connection and its environment

    The connection as a state machine: the events are what asio, the timer and the other
    threads of the server do to it (completions with the bytes they carry, errors,
    timeouts, answers of the services), each handled by the function of the source that
    handles it. Every handler runs alone (the strand); the interleaving of two senders
    inside [do_write] is the subject of ServerRace. *)

From Stdlib Require Import ZArith Lia Init.Byte.
From stdpp Require Import base list strings gmap.
From S2P Require Import Prelude Endian Message Buffer RpcMessage NetConn External NetConf.
From S2P Require Import RpcInstance Service Executor Dispatcher Decode ServerConn ServerSend.
From S2P Require Import ServerRead.

Section Events.
Context `{Host} `{AssertMode} `{SteadyTimer}.
Variable conf : NetConf.
Context `{LibConfig} {S : Type} `{!Service S} `{!EQueue RpcInstance}.
Variable self : nat.

Abbreviation World := (TcpConnAsync * Dispatcher S)%type.

(** [swire]: the bytes the peer was sent; [srcvd]: the bytes asio delivered. *)
Record Sys := mkSys {
  sconn : TcpConnAsync;
  sdisp : Dispatcher S;
  swire : bytes;
  srcvd : bytes
}.

Inductive event :=
| ESend (msg : Message)               (* a service answers *)
| EReadDone (data : bytes)            (* the outstanding read completes *)
| EReadError (ec : error_code)
| EWriteDone                          (* the outstanding write completes *)
| EWriteError (ec : error_code) (k : Z)   (* it fails after [k] bytes *)
| ETimeout (ec : error_code)          (* the operation timer's handler runs *)
| EStop.

(** The outstanding operation completes: it is no longer outstanding. *)
Definition read_popped (c : TcpConnAsync) : TcpConnAsync :=
  upd_base (upd_socket (fun s => mkSocket (sk_calls s) (tail (sk_reads s)) (sk_writes s))) c.
Definition write_popped (c : TcpConnAsync) : TcpConnAsync :=
  upd_base (upd_socket (fun s => mkSocket (sk_calls s) (sk_reads s) (tail (sk_writes s)))) c.

Definition delivered (data : bytes) (c : TcpConnAsync) : TcpConnAsync :=
  upd_recv (fill_io_block data) (read_popped c).

Definition live_b (c : TcpConnAsync) : bool :=
  bool_decide (conn_stat c = kWorking) && negb (was_cancelled_ c).

(** [operation_aborted] reports a cancelled or closed socket. *)
Definition may_fail_with (ec : error_code) (c : TcpConnAsync) : bool :=
  ec_failed ec && (negb (bool_decide (ec = ec_operation_aborted)) || negb (live_b c)).

(** What asio guarantees of an event: a read delivers at least what was asked for and at
    most what [io_block_] holds, a write is completed or failed once. *)
Definition enabled (e : event) (s : Sys) : bool :=
  match e with
  | EReadDone data =>
      match sk_reads (socket_ (base_ (sconn s))) with
      | (n, _) :: _ => (n <=? len data) && (len data <=? kFixedIoBufferSize)
      | [] => false
      end
  | EReadError ec =>
      match sk_reads (socket_ (base_ (sconn s))) with
      | _ :: _ => may_fail_with ec (sconn s)
      | [] => false
      end
  | EWriteDone => match sk_writes (socket_ (base_ (sconn s))) with _ :: _ => true | [] => false end
  | EWriteError ec k =>
      match sk_writes (socket_ (base_ (sconn s))) with
      | n :: _ => (0 <=? k) && (k <=? n) && may_fail_with ec (sconn s)
      | [] => false
      end
  | _ => true
  end.

(** Run a handler; the wire and the received bytes are what the event made them. *)
Definition run {A} (m : M World A) (c : TcpConnAsync) (s : Sys) (wire rcvd : bytes) : outcome Sys :=
  match m (c, sdisp s) with
  | Done (_, (c', d')) => Done (mkSys c' d' wire rcvd)
  | AssertFailed => AssertFailed
  | Undefined => Undefined
  | OutOfFuel => OutOfFuel
  end.

Definition read_completion (h : read_tag) : error_code -> Z -> M World unit :=
  match h with
  | on_read_handler => read_handler conf self
  | on_read_msg_handler => read_msg_handler conf self
  end.

Definition handle (e : event) (s : Sys) : outcome Sys :=
  let c := sconn s in
  match e with
  | ESend msg => run (on_conn (async_send_message conf msg)) c s (swire s) (srcvd s)
  | EReadDone data =>
      match sk_reads (socket_ (base_ c)) with
      | (_, h) :: _ =>
          run (read_completion h ec_success (len data)) (delivered data c) s
            (swire s) (srcvd s ++ data)
      | [] => Done s
      end
  | EReadError ec =>
      match sk_reads (socket_ (base_ c)) with
      | (_, h) :: _ => run (read_completion h ec 0) (read_popped c) s (swire s) (srcvd s)
      | [] => Done s
      end
  | EWriteDone =>
      match sk_writes (socket_ (base_ c)) with
      | n :: _ =>
          run (on_conn (write_handler conf ec_success n)) (write_popped c) s
            (swire s ++ ztake n (io_block_ (send_bound_ c))) (srcvd s)
      | [] => Done s
      end
  | EWriteError ec k =>
      run (on_conn (write_handler conf ec k)) (write_popped c) s
        (swire s ++ ztake k (io_block_ (send_bound_ c))) (srcvd s)
  | ETimeout ec => run (on_conn (ops_cancel_timeout_call ec)) c s (swire s) (srcvd s)
  | EStop => run (on_conn stop) c s (swire s) (srcvd s)
  end.

(** The connection as [NetServer::accept_handler] starts it. *)
Definition boot (sock : Socket) (d : Dispatcher S) : outcome Sys :=
  let s := mkSys (TcpConnAsync_new sock) d [] [] in
  run (start conf self) (sconn s) s [] [].

Definition idle_socket (sock : Socket) : Prop := sk_reads sock = [] /\ sk_writes sock = [].

Inductive reach (d0 : Dispatcher S) : Sys -> Prop :=
| reach_boot sock s : idle_socket sock -> boot sock d0 = Done s -> reach d0 s
| reach_step s e s' : reach d0 s -> enabled e s = true -> handle e s = Done s' -> reach d0 s'.

(** Run a list of events; [None]: one of them is not enabled or fails. *)
Fixpoint run_events (es : list event) (s : Sys) : option Sys :=
  match es with
  | [] => Some s
  | e :: es =>
      if enabled e s then
        match handle e s with Done s' => run_events es s' | _ => None end
      else None
  end.

Lemma run_events_reach d0 es s s' : reach d0 s -> run_events es s = Some s' -> reach d0 s'.
Proof.
  revert s. induction es as [|e es IH]; intros s Hs; simpl; [congruence|].
  destruct (enabled e s) eqn:He; [|done]. destruct (handle e s) eqn:Hh; try done.
  apply IH. by eapply reach_step.
Qed.

End Events.
