(* ===== verification/ServerInv.v ===== *)
(** * The invariant of a server connection

    [sys_inv] joins the invariant of the sending side ([send_inv]) with that of the
    receiving side ([rd_inv]: what was dispatched is what [decode] finds in the bytes
    received). Every enabled event is handled to completion and preserves it. *)

From Stdlib Require Import ZArith Lia Init.Byte.
From stdpp Require Import base list strings gmap.
From S2P Require Import Prelude Endian Message Buffer RpcMessage NetConn External NetConf.
From S2P Require Import RpcInstance Service Executor Dispatcher Decode ServerConn ServerSend.
From S2P Require Import ServerRead ServerSystem.

Section Inv.
Context `{Host} `{AssertMode} `{SteadyTimer}.
Variable conf : NetConf.
Context `{LibConfig} {S : Type} `{!Service S} `{!EQueue RpcInstance}.
Variable self : nat.

Let limit := recv_max_msg_size_ conf.
Abbreviation World := (TcpConnAsync * Dispatcher S)%type.

(** ** The completion of a read *)

(** The connection once the handler has taken over the received bytes. *)
Definition arrived (data : bytes) (c : TcpConnAsync) : TcpConnAsync :=
  upd_recv (fun io => set_buffer (mkBuffer (recv_data c ++ data)) (fill_io_block data io))
    (set_ops_cancel_timer None (read_popped c)).

Lemma append_received_eq data c :
  append_received (len data) (set_ops_cancel_timer None (delivered data c)) =
    Done (tt, arrived data c).
Proof.
  unfold append_received, modify, arrived, delivered, upd_recv, set_buffer, fill_io_block,
    append_internal, set_ops_cancel_timer, read_popped; simpl.
  by rewrite ztake_app_length by done.
Qed.

Lemma arrived_reacts data c : reacts conf [] (delivered data c) (arrived data c).
Proof. by apply reacts_same. Qed.

Lemma arrived_ready data c :
  live c -> timer_ok conf c -> block_ok c -> length (sk_reads (socket_ (base_ c))) = 1%nat ->
  len (recv_data c ++ data) < 2 ^ 32 -> ready conf (arrived data c).
Proof.
  intros [] ? ? Hl ?. split; try done. simpl. by destruct (sk_reads _) as [|? []].
Qed.

(** The common start of the two handlers. *)
Lemma read_handler_start data c (d : Dispatcher S) :
  0 < len data -> len (recv_data c ++ data) < 2 ^ 32 ->
  read_handler conf self ec_success (len data) (delivered data c, d) =
    if len (recv_data c ++ data) <? 16 then (_ ← do_read_ conf self; mret tt) (arrived data c, d)
    else (ret ← on_conn (parse_header conf);
          if ret =? 0 then do_read_msg_ conf self
          else if 0 <? ret then _ ← do_read_ conf self; mret tt
          else on_conn (on_base (sock_shutdown_and_close Shut_kBoth))) (arrived data c, d).
Proof.
  intros Hd Hs. unfold read_handler.
  unfold mbind at 1, M_bind at 1. erewrite on_conn_eq by done. cbn [ec_failed].
  unfold safe_assert. rewrite (proj2 (Z.ltb_lt _ _)) by done.
  unfold mbind at 1, M_bind at 1. unfold mret at 1, M_ret at 1.
  unfold mbind at 1, M_bind at 1. erewrite on_conn_eq by apply append_received_eq.
  unfold mbind at 1, M_bind at 1. erewrite on_conn_eq by done.
  change (recv_data c ++ data) with (data_ (buffer_ (recv_bound_ (arrived data c)))) in *.
  rewrite get_length_small by done. change sizeof_Header with 16.
  destruct (_ <? 16) eqn:E; bool_prop; [done|].
  rewrite (proj2 (Z.leb_le _ _)) by done. done.
Qed.

Lemma read_msg_handler_start data c (d : Dispatcher S) :
  0 < len data ->
  read_msg_handler conf self ec_success (len data) (delivered data c, d) =
    (r ← on_conn parse_msg_body;
     if fst r =? 0 then _ ← dispatch conf self (snd r); _ ← do_read_ conf self; mret tt
     else if 0 <? fst r then do_read_msg_ conf self
     else on_conn (on_base (sock_shutdown_and_close Shut_kBoth))) (arrived data c, d).
Proof.
  intros Hd. unfold read_msg_handler.
  unfold mbind at 1, M_bind at 1. erewrite on_conn_eq by done. cbn [ec_failed].
  unfold safe_assert. rewrite (proj2 (Z.ltb_lt _ _)) by done.
  unfold mbind at 1, M_bind at 1. unfold mret at 1, M_ret at 1.
  unfold mbind at 1, M_bind at 1. by erewrite on_conn_eq by apply append_received_eq.
Qed.

Lemma do_read__spec c (d : Dispatcher S) :
  ready conf c -> reads_as conf self (do_read_ conf self) (RHead (recv_data c)) c d.
Proof. intros. apply read_specs; [done|]. unfold read_fuel. simpl. lia. Qed.

Lemma do_read_msg__spec c (d : Dispatcher S) :
  ready conf c -> good_header conf (ib_header_ (recv_bound_ c)) ->
  reads_as conf self (do_read_msg_ conf self)
    (RBody (ib_header_ (recv_bound_ c)) (recv_data c)) c d.
Proof. intros. apply read_specs; [done|done|]. unfold read_fuel. simpl. lia. Qed.

(** On a live connection a completed read is parsed as far as it goes. *)
Lemma read_completion_live h st data c (d : Dispatcher S) n :
  live c -> timer_ok conf c -> block_ok c -> holds conf st c ->
  sk_reads (socket_ (base_ c)) = [(n, h)] ->
  0 < len data -> len (recv_data c ++ data) < 2 ^ 32 ->
  reads_as conf self
    (fun _ => read_completion conf self h ec_success (len data) (delivered data c, d))
    (more st data) (arrived data c) d.
Proof.
  intros Hl Ht Hb Hh Hr Hd Hs.
  assert (ready conf (arrived data c)) as Hready by (apply arrived_ready; [done..|by rewrite Hr|done]).
  destruct st as [b|hd b|]; [| |done]; destruct Hh as (Eb & Hh); unfold reads_as.
  - destruct Hh as [_ Hk]. rewrite Hk in Hr. simplify_eq. cbn [read_completion more].
    rewrite read_handler_start by done. change (recv_data c ++ data) with (recv_data (arrived data c)) in *.
    destruct (_ <? 16) eqn:E; bool_prop; [by apply reads_as_unit, do_read__spec|].
    apply (head_round conf self (fun ret =>
      if ret =? 0 then do_read_msg_ conf self
      else if 0 <? ret then _ ← do_read_ conf self; mret tt
      else on_conn (on_base (sock_shutdown_and_close Shut_kBoth)))); [done..| |].
    + intros Ha. apply (do_read_msg__spec (header_taken (arrived data c))).
      * by apply header_taken_ready.
      * by apply header_taken_good.
    + intros c' Ec. exists tt. simpl. by rewrite (on_conn_eq _ _ _ _ _ Ec).
  - destruct Hh as (Eh & Hg & _ & Hk). rewrite Hk in Hr. simplify_eq. cbn [read_completion more].
    rewrite read_msg_handler_start by done.
    change (recv_data c ++ data) with (recv_data (arrived data c)) in *.
    change (ib_header_ (recv_bound_ c)) with (ib_header_ (recv_bound_ (arrived data c))) in *.
    unfold mbind at 1, M_bind at 1.
    pose proof (parse_msg_body_eq conf (arrived data c) Hs (proj1 (proj1 Hg))) as Ep. cbv zeta in Ep.
    destruct (_ <? _) eqn:E in Ep; bool_prop; rewrite (on_conn_eq _ _ _ _ _ Ep);
      [by apply do_read_msg__spec|].
    apply (body_round conf self (_ ← do_read_ conf self; mret tt)); [done..|].
    intros. by apply reads_as_unit, do_read__spec.
Qed.

#[export] Instance live_dec c : Decision (live c).
Proof. unfold live. apply _. Defined.

(** A connection that is not live reads nothing more. *)
Lemma do_read_dead fuel c (d : Dispatcher S) :
  ~ live c -> do_read conf self (Datatypes.S fuel) (c, d) = Done (false, (c, d)) /\
              do_read_msg conf self (Datatypes.S fuel) (c, d) = Done (tt, (c, d)).
Proof.
  intros Hl. cbn [do_read do_read_msg].
  split; unfold mbind at 1, M_bind at 1; erewrite on_conn_eq by done;
    (case_bool_decide as E; [|done]); cbn [negb];
    unfold mbind at 1, M_bind at 1; erewrite on_conn_eq by done;
    (destruct (was_cancelled_ c) eqn:Ec; [done|]; by destruct Hl).
Qed.

Lemma do_read__dead c (d : Dispatcher S) :
  ~ live c -> (_ ← do_read_ conf self; mret tt) (c, d) = Done (tt, (c, d)) /\
              do_read_msg_ conf self (c, d) = Done (tt, (c, d)).
Proof.
  intros Hl. destruct (do_read_dead (1 + length (recv_data c)) c d Hl) as [E1 E2].
  split; [|exact E2]. unfold mbind, M_bind, do_read_. unfold read_fuel. cbn [fst].
  change (2 + length (recv_data c))%nat with (Datatypes.S (1 + length (recv_data c))).
  by rewrite E1.
Qed.

(** A read that completes after the connection ended dispatches a message at most. *)
(** A header, or a body, that completes on a connection that is closed: it is parsed, and
    a whole message still dispatched, but nothing is read any more. *)
Lemma head_dead c1 (d : Dispatcher S) :
  ~ live c1 -> sk_reads (socket_ (base_ c1)) = [] -> 16 <= len (recv_data c1) < 2 ^ 32 ->
  exists c', (ret ← on_conn (parse_header conf);
      if ret =? 0 then do_read_msg_ conf self
      else if 0 <? ret then _ ← do_read_ conf self; mret tt
      else on_conn (on_base (sock_shutdown_and_close Shut_kBoth))) (c1, d) = Done (tt, (c', d)) /\
    reacts conf [] c1 c' /\ ~ live c' /\ sk_reads (socket_ (base_ c')) = [].
Proof.
  intros Hl Hr Hs. unfold mbind at 1, M_bind at 1.
  rewrite (on_conn_eq _ _ _ _ _ (parse_header_eq conf _ Hs)).
  destruct (accept_header _ _); simpl.
  - exists (header_taken c1). split; [by apply do_read__dead|]. split; [by apply reacts_same|done].
  - destruct (close_eq conf (header_taken c1)) as (c' & Ec & Hra & Hst & Hk' & _).
    rewrite (on_conn_eq _ _ _ _ _ Ec). exists c'. split; [done|].
    split; [by eapply reacts_trans_nil; [apply (proj1 (reacts_taken conf _))|]|].
    split; [intros [? _]; congruence|]. by rewrite Hk'.
Qed.

Lemma body_dead c1 (d : Dispatcher S) :
  ~ live c1 -> timer_ok conf c1 -> block_ok c1 -> sk_reads (socket_ (base_ c1)) = [] ->
  good_header conf (ib_header_ (recv_bound_ c1)) -> len (recv_data c1) < 2 ^ 32 ->
  exists ms c', (length ms <= 1)%nat /\ ms `prefix_of` (decode_all limit (RBody (ib_header_ (recv_bound_ c1)) (recv_data c1))).1 /\
    (r ← on_conn parse_msg_body;
     if fst r =? 0 then _ ← dispatch conf self (snd r); _ ← do_read_ conf self; mret tt
     else if 0 <? fst r then do_read_msg_ conf self
     else on_conn (on_base (sock_shutdown_and_close Shut_kBoth))) (c1, d) =
      Done (tt, (c', (routes conf self ms d).1)) /\
    reacts conf (routes conf self ms d).2 c1 c' /\ ~ live c' /\ sk_reads (socket_ (base_ c')) = [].
Proof.
  intros Hl Ht Hb Hr Hg Hs. set (h := ib_header_ (recv_bound_ c1)) in *.
  destruct Hg as [Hh Ha]. rewrite decode_all_body by apply Hh. unfold mbind at 1, M_bind at 1.
  pose proof (parse_msg_body_eq conf c1 Hs (proj1 Hh)) as Ep. cbv zeta in Ep. fold h in Ep.
  destruct (_ <? _) eqn:E; bool_prop; rewrite (on_conn_eq _ _ _ _ _ Ep); cbn [fst snd Z.eqb Z.ltb].
  { exists [], c1. split; [cbn; lia|]. split; [apply prefix_nil|].
    split; [by apply do_read__dead|]. split; [by apply reacts_same|done]. }
  set (m := mkMessage h (ztake (length_ h) (recv_data c1))).
  destruct (dispatch_spec conf self m (body_taken c1) d)
    as (c' & Ed & Hra & Hsr); [done|done|simpl; rewrite zlen_ztake; lia|].
  exists [m], c'. split; [done|]. split; [destruct (decode_all _ _); simpl; by eexists|].
  assert (~ live c') as Hl1.
  { unfold live. by rewrite (sr_stat _ _ _ Hsr), (sr_cancelled _ _ _ Hsr). }
  unfold mbind at 1, M_bind at 1. rewrite Ed. cbn [routes].
  destruct (route _ self d) as [d1 ans]. cbn [fst snd] in *. rewrite app_nil_r.
  split; [by apply do_read__dead|].
  split; [by eapply reacts_trans_nil; [apply (proj2 (reacts_taken conf _))|]|].
  split; [done|]. by rewrite (sr_reads _ _ _ Hsr).
Qed.

Lemma read_completion_dead h st data c (d : Dispatcher S) n :
  ~ live c -> timer_ok conf c -> block_ok c -> holds conf st c ->
  sk_reads (socket_ (base_ c)) = [(n, h)] ->
  0 < len data -> len (recv_data c ++ data) < 2 ^ 32 ->
  exists ms c', (length ms <= 1)%nat /\ ms `prefix_of` (decode_all limit (more st data)).1 /\
    read_completion conf self h ec_success (len data) (delivered data c, d) =
      Done (tt, (c', (routes conf self ms d).1)) /\
    reacts conf (routes conf self ms d).2 (arrived data c) c' /\
    ~ live c' /\ sk_reads (socket_ (base_ c')) = [].
Proof.
  intros Hl Ht Hb Hh Hr Hd Hs.
  assert (~ live (arrived data c)) as Hl' by done.
  assert (sk_reads (socket_ (base_ (arrived data c))) = []) as Hr' by (simpl; by rewrite Hr).
  destruct st as [b|hd b|]; [| |done]; destruct Hh as (<- & Hh).
  - destruct Hh as [_ Hk]. rewrite Hk in Hr. simplify_eq. cbn [read_completion].
    rewrite read_handler_start by done. change (recv_data c ++ data) with (recv_data (arrived data c)) in *.
    exists []. cbn [routes fst snd]. destruct (_ <? 16) eqn:E; bool_prop.
    + exists (arrived data c). split; [cbn; lia|]. split; [apply prefix_nil|].
      split; [by apply do_read__dead|]. split; [by apply reacts_same|done].
    + destruct (head_dead (arrived data c) d) as (c' & ?); [done..|]. exists c'. split; [cbn; lia|]. split; [apply prefix_nil|done].
  - destruct Hh as (<- & Hg & _ & Hk). rewrite Hk in Hr. simplify_eq. cbn [read_completion more].
    rewrite read_msg_handler_start by done. by apply (body_dead (arrived data c)).
Qed.

(** ** The receiving side's invariant *)

(** After [rcvd] was received the connection has dispatched [ms]: all the messages there
    are, or, once it ended, the first of them. *)
Inductive rd_state (rcvd : bytes) (c : TcpConnAsync) (ms : list Message) : Prop :=
| rs_reading st :
    decode_all limit (RHead rcvd) = (ms, st) -> holds conf st c -> rd_state rcvd c ms
| rs_final :
    ms `prefix_of` (decode_all limit (RHead rcvd)).1 ->
    sk_reads (socket_ (base_ c)) = [] -> ~ live c -> rd_state rcvd c ms.

(** The same with the dispatcher, which was in state [d0] when the connection was made. *)
Inductive rd_inv (d0 : Dispatcher S) (rcvd : bytes) (c : TcpConnAsync) (d : Dispatcher S) : Prop :=
| rd_reading ms st :
    decode_all limit (RHead rcvd) = (ms, st) -> holds conf st c ->
    d = (routes conf self ms d0).1 -> rd_inv d0 rcvd c d
| rd_final ms :
    ms `prefix_of` (decode_all limit (RHead rcvd)).1 -> d = (routes conf self ms d0).1 ->
    sk_reads (socket_ (base_ c)) = [] -> ~ live c -> rd_inv d0 rcvd c d.

Lemma rd_inv_state d0 rcvd c d :
  rd_inv d0 rcvd c d <-> exists ms, rd_state rcvd c ms /\ d = (routes conf self ms d0).1.
Proof.
  split.
  - intros [ms st Hd Hh Hm|ms Hp Hm Hr Hl]; exists ms; (split; [|done]);
      [by eapply rs_reading|by apply rs_final].
  - intros (ms & [st Hd Hh|Hp Hr Hl] & Hm); [by eapply rd_reading|by eapply rd_final].
Qed.

(** What [rd_state] depends on. *)
Record same_read (c c' : TcpConnAsync) : Prop := {
  sd_recv : recv_bound_ c' = recv_bound_ c;
  sd_reads : sk_reads (socket_ (base_ c')) = sk_reads (socket_ (base_ c));
  sd_live : ~ live c -> ~ live c'
}.

#[export] Instance same_read_po : PreOrder same_read.
Proof. split; [by split|]. intros c1 c2 c3 [] []. split; first [congruence | auto]. Qed.

Lemma same_recv_read c c' : same_recv conf c c' -> same_read c c'.
Proof. intros [E1 E2 E3 E4 _ _]. split; [done|done|]. unfold live. by rewrite E2, E3. Qed.

Lemma rd_state_same rcvd c c' ms : same_read c c' -> rd_state rcvd c ms -> rd_state rcvd c' ms.
Proof.
  intros [E1 E2 E3] [st Hd Hh | Hp Hr Hl].
  - eapply rs_reading; [done|].
    destruct st; [| |done]; simpl in *; unfold recv_data in *; by rewrite E1, E2.
  - eapply rs_final; [done|by rewrite E2|auto].
Qed.

(** The invariant's part of a completed read: it dispatches [ms2], whatever the dispatcher. *)
Lemma read_completion_state rcvd data h n c (d : Dispatcher S) ms rest :
  timer_ok conf c -> block_ok c -> rd_state rcvd c ms ->
  sk_reads (socket_ (base_ c)) = (n, h) :: rest -> n <= len data ->
  len (recv_data c ++ data) < 2 ^ 32 ->
  exists c' ms2, read_completion conf self h ec_success (len data) (delivered data c, d) =
      Done (tt, (c', (routes conf self ms2 d).1)) /\
    reacts conf (routes conf self ms2 d).2 (arrived data c) c' /\
    rd_state (rcvd ++ data) c' (ms ++ ms2) /\
    (~ live c -> ~ live c' /\ (length ms2 <= 1)%nat /\ sk_reads (socket_ (base_ c')) = []) /\
    (live c -> (decode_all limit (RHead (rcvd ++ data))).2 <> RBad -> live c').
Proof.
  intros Ht Hb [st Hd Hh | Hp Hr Hl] Er Hn Hs; [|congruence].
  assert (rest = [] /\ 0 < n) as [-> Hn0].
  { destruct st; simpl in Hh; [| |done]; destruct Hh as (?&?&Hh);
      [|destruct Hh as ([[??]?]&?&Hh)]; rewrite Hh in Er; simplify_eq; split; try done;
      unfold kFixedIoBufferSize; lia. }
  pose proof (decode_more limit (RHead rcvd) data I) as Hmore. rewrite Hd in Hmore.
  cbn [more] in Hmore. destruct (decide (live c)) as [Hl|Hl].
  - pose proof (read_completion_live h st data c d n Hl Ht Hb Hh Er ltac:(lia) Hs) as Hrc.
    unfold reads_as in Hrc. fold limit in Hrc. destruct (decode_all limit (more st data)) as [ms2 st2].
    destruct Hrc as ([] & c' & Ec & Hra & Hw). exists c', ms2. split; [exact Ec|]. split; [exact Hra|].
    rewrite Hmore. destruct st2 as [b|hd b|].
    1,2: split; [eapply rs_reading; [done|apply Hw]|split; [done|intros; apply Hw]].
    destruct Hw as [Hcl Hk]. split; [|by split]. eapply rs_final; [by rewrite Hmore|done|]. intros [? _]. congruence.
  - destruct (read_completion_dead h st data c d n Hl Ht Hb Hh Er ltac:(lia) Hs)
      as (ms2 & c' & Hk1 & Hpre & Ec & Hra & Hl' & Hk).
    exists c', ms2. split; [exact Ec|]. split; [exact Hra|]. split; [|done].
    eapply rs_final; [|done|done].
    rewrite Hmore. destruct (decode_all limit (more st data)). by apply prefix_app.
Qed.

(** ** The other handlers *)

(** Nothing changes for either invariant. *)
Record quiet (c c' : TcpConnAsync) : Prop := {
  qt_send : same_send c c';
  qt_read : same_read c c';
  qt_timer : timer_ok conf c -> timer_ok conf c'
}.

#[export] Instance quiet_po : PreOrder quiet.
Proof.
  split; [by split|]. intros c1 c2 c3 [A1 A2 A3] [B1 B2 B3].
  split; [by transitivity c2|by transitivity c2|auto].
Qed.

(** What an open or closed connection that dispatched [ms] satisfies. *)
Record conn_inv (wire rcvd : bytes) (c : TcpConnAsync) (ms : list Message) : Prop := {
  ci_send : send_inv conf wire c;
  ci_read : rd_state rcvd c ms;
  ci_flow : flowing c
}.

Lemma quiet_inv wire rcvd c c' ms :
  quiet c c' -> conn_inv wire rcvd c ms -> conn_inv wire rcvd c' ms.
Proof.
  intros [Hs Hr Ht] [Hsend Hrd Hf]. split; [|by eapply rd_state_same|].
  - eapply send_inv_same; [done| |done]. apply Ht, Hsend.
  - eapply flowing_same; [done| |done]. intros Hl. destruct (decide (live c)); [done|].
    by destruct (sd_live _ _ Hr).
Qed.

Lemma sent_conn_inv wire rcvd c ms msg :
  conn_inv wire rcvd c ms -> conn_inv wire rcvd (sent conf msg c) ms.
Proof.
  intros [Hs Hr Hf]. split; [by apply sent_inv| |by apply sent_flowing].
  eapply rd_state_same; [apply same_recv_read, sent_same_recv|done].
Qed.

Lemma quiet_revoke c : quiet c (set_ops_cancel_timer None c).
Proof. by split. Qed.

Lemma close_quiet c :
  exists c', on_base (sock_shutdown_and_close Shut_kBoth) c = Done (tt, c') /\ quiet c c' /\
    conn_stat c' = kClosed /\ was_cancelled_ c' = was_cancelled_ c.
Proof.
  destruct (sock_shutdown_and_close_spec Shut_kBoth (base_ c)) as (b & Eb & Es & Er & Ew).
  unfold on_base, zoom. rewrite Eb. eexists; split; [done|].
  split; [|done]. split; [by split| |done]. split; [done|done|].
  intros _ [E _]. unfold conn_stat in E; simpl in E. congruence.
Qed.

Lemma ops_cancel_quiet c :
  exists c', ops_cancel c = Done (true, c') /\ quiet c c' /\ was_cancelled_ c' = true.
Proof.
  eexists. split; [reflexivity|]. split; [|done].
  split; [by split| |done]. split; [done|done|]. by intros _ [? ?].
Qed.

Lemma cancel_and_close_quiet c :
  exists c', (_ ← ops_cancel; on_base (sock_shutdown_and_close Shut_kBoth)) c = Done (tt, c') /\
    quiet c c' /\ conn_stat c' = kClosed /\ was_cancelled_ c' = true.
Proof.
  unfold mbind, M_bind. destruct (ops_cancel_quiet c) as (c1 & -> & Hq1 & Hw).
  destruct (close_quiet c1) as (c' & E & Hq & Hs & Hc).
  exists c'. split; [done|]. split; [by transitivity c1|]. by rewrite Hc.
Qed.

Lemma handle_socket_ec_spec ec c :
  exists c', handle_socket_ec ec c = Done (ec_closes_socket ec, c') /\ quiet c c' /\
    (ec_closes_socket ec || was_cancelled_ c = true -> ~ live c') /\
    (ec_closes_socket ec || was_cancelled_ c = false -> c' = c).
Proof.
  unfold handle_socket_ec, was_ops_cancelled, mbind at 1, M_bind at 1, gets; cbv beta iota.
  unfold mbind at 1, M_bind at 1, when.
  destruct (ec_closes_socket ec || was_cancelled_ c) eqn:E; [|by exists c].
  unfold mbind at 1, M_bind at 1, revoke_ops_cancel_timeout, modify; cbv beta iota.
  destruct (cancel_and_close_quiet (set_ops_cancel_timer None c)) as (c' & Ec & Hq & Hs & Hc).
  rewrite Ec. exists c'. split; [done|].
  split; [etransitivity; [apply quiet_revoke|done]|]. split; [|done]. intros _ [_ Hw]. congruence.
Qed.

(** A failed completion ends the connection: [operation_aborted] comes to ended ones only. *)
Lemma handle_socket_ec_ends ec c :
  may_fail_with ec c = true ->
  exists b c', handle_socket_ec ec c = Done (b, c') /\ quiet c c' /\ ~ live c'.
Proof.
  intros Hf. destruct (handle_socket_ec_spec ec c) as (c' & E & Hq & Hend & Hsame).
  exists (ec_closes_socket ec), c'. split; [done|]. split; [done|].
  destruct (ec_closes_socket ec || was_cancelled_ c) eqn:Ec; [by apply Hend|].
  rewrite (Hsame eq_refl). intros [E1 E2].
  unfold may_fail_with, live_b in Hf. rewrite E1, E2 in Hf. simpl in Hf.
  destruct ec; simpl in *; done.
Qed.

Lemma ops_cancel_timeout_call_spec ec c :
  exists c', ops_cancel_timeout_call ec c = Done (tt, c') /\ quiet c c' /\
    (ec = ec_success -> ~ live c').
Proof.
  unfold ops_cancel_timeout_call. case_bool_decide; [|by exists c].
  destruct (cancel_and_close_quiet c) as (c' & Ec & Hq & Hs & Hc).
  exists c'. split; [done|]. split; [done|]. intros _ [_ Hw]. congruence.
Qed.

(** ** The steps of a connection *)

(** The message an event sends, unless it is over the limit. *)
Definition event_sends (e : event) : list Message :=
  match e with ESend msg => if over_limit conf msg then [] else [msg] | _ => [] end.

(** An ended connection, in a step that dispatched [k] messages, issued no read and no write,
    and finished a read for each message. *)
Record winds_down (k : nat) (c c' : TcpConnAsync) : Prop := {
  wd_dead : ~ live c';
  wd_reads : sk_reads (socket_ (base_ c')) `suffix_of` sk_reads (socket_ (base_ c));
  wd_writes : sk_writes (socket_ (base_ c')) `suffix_of` sk_writes (socket_ (base_ c));
  wd_count : (k + length (sk_reads (socket_ (base_ c'))) <= length (sk_reads (socket_ (base_ c))))%nat
}.

Lemma winds_down_refl c : ~ live c -> winds_down 0 c c.
Proof. by split. Qed.

Lemma winds_down_trans k1 k2 c1 c2 c3 : winds_down k1 c1 c2 -> winds_down k2 c2 c3 -> winds_down (k1 + k2) c1 c3.
Proof. intros [A1 A2 A3 A4] [B1 B2 B3 B4]. split; [done|by etransitivity|by etransitivity|lia]. Qed.

Lemma winds_down_same c c' : same_read c c' -> same_send c c' -> ~ live c -> winds_down 0 c c'.
Proof. intros [_ E1 Hl] [_ _ _ E2] Hd. split; [by apply Hl|by rewrite E1|by rewrite E2|by rewrite E1]. Qed.

(** The outstanding operations that complete. *)
Lemma tail_suffix {A} (l : list A) : tail l `suffix_of` l.
Proof. destruct l; [done|]. by apply suffix_cons_r. Qed.

(** From [s] to [s'] the connection dispatched [ms2] to whatever dispatcher there was, and
    accepted for sending the answers given at once. *)
Record conn_step (e : event) (ms ms2 : list Message) (s s' : Sys (S:=S)) : Prop := {
  cs_inv : conn_inv (swire s') (srcvd s') (sconn s') (ms ++ ms2);
  cs_disp : sdisp s' = (routes conf self ms2 (sdisp s)).1;
  cs_log : sent_log (sconn s') =
    sent_log (sconn s) ++ event_sends e ++ (routes conf self ms2 (sdisp s)).2;
  cs_down : ~ live (sconn s) -> winds_down (length ms2) (sconn s) (sconn s')
}.

Lemma cs_dead e ms ms2 s s' : conn_step e ms ms2 s s' -> ~ live (sconn s) -> ~ live (sconn s').
Proof. intros [_ _ _ Hd] Hl. apply (Hd Hl). Qed.

Definition sys_conn_inv (s : Sys (S:=S)) (ms : list Message) : Prop :=
  conn_inv (swire s) (srcvd s) (sconn s) ms.

(** The receive buffer stays below 4 GiB: a receive limit is configured, or less than
    that was received. *)
Definition sized (rcvd : bytes) : Prop := 0 < limit < 2 ^ 31 \/ len rcvd < 2 ^ 32.

Lemma sized_app r r' : sized (r ++ r') -> sized r.
Proof. unfold sized. rewrite zlen_app. pose proof (zlen_nonneg r'). lia. Qed.

Lemma good_header_length h : 0 < limit < 2 ^ 31 -> good_header conf h -> length_ h <= limit.
Proof.
  intros Hl [_ Ha]. unfold accept_header in Ha. fold limit in Ha.
  rewrite (proj2 (Z.eqb_neq limit 0)) in Ha by lia. bool_prop.
  rewrite uwrap_small in * by (unfold fits_u; lia). simpl in *. by bool_prop.
Qed.

Lemma sized_buffer rcvd data n h l c ms :
  rd_state rcvd c ms -> sized (rcvd ++ data) -> sk_reads (socket_ (base_ c)) = (n, h) :: l ->
  len data <= kFixedIoBufferSize -> len (recv_data c ++ data) < 2 ^ 32.
Proof.
  intros [st Hd Hh | Hp Hr Hl] Hs Er Hk; [|congruence].
  rewrite zlen_app. destruct Hs as [Hs|Hs].
  - unfold kFixedIoBufferSize in *.
    destruct st as [b|hd b|]; [| |done]; destruct Hh as (-> & Hh); [lia|].
    destruct Hh as (_ & Hg & Hb & _). pose proof (good_header_length hd Hs Hg). lia.
  - rewrite zlen_app in Hs. pose proof (decode_rest limit (RHead rcvd)) as Hrest.
    rewrite Hd in Hrest. simpl in Hrest.
    destruct st as [b|hd b|]; [| |done]; destruct Hh as (-> & _); simpl in Hrest; lia.
Qed.

(** The bytes an event delivers. *)
Definition event_bytes (e : event) : bytes :=
  match e with EReadDone data => data | _ => [] end.

Lemma run_eq {A} (m : M World A) c (s : Sys) wire rcvd a c' d' :
  m (c, sdisp s) = Done (a, (c', d')) -> run m c s wire rcvd = Done (mkSys c' d' wire rcvd).
Proof. intros E. unfold run. by rewrite E. Qed.

Lemma handle_send msg s ms :
  sys_conn_inv s ms ->
  exists s', handle conf self (ESend msg) s = Done s' /\ conn_step (ESend msg) ms [] s s'.
Proof.
  intros Hc. pose proof (ci_send _ _ _ _ Hc) as Hs. eexists. cbn [handle]. split.
  - eapply run_eq, on_conn_eq, async_send_message_eq; apply Hs.
  - pose proof (same_recv_read _ _ (sent_same_recv conf msg (sconn s))) as Hq.
    split; cbn [sconn sdisp swire srcvd routes fst snd]; rewrite ?app_nil_r; [|done| |].
    + by apply sent_conn_inv.
    + apply sent_log_sent.
    + intros Hl. destruct (sent_dead conf msg (sconn s) Hl) as [Hl' Ew].
      split; [done|by rewrite (sd_reads _ _ Hq)|by rewrite Ew|by rewrite (sd_reads _ _ Hq)].
Qed.

Lemma handle_read_done data s ms :
  sys_conn_inv s ms -> enabled (EReadDone data) s = true -> sized (srcvd s ++ data) ->
  exists s' ms2, handle conf self (EReadDone data) s = Done s' /\ conn_step (EReadDone data) ms ms2 s s' /\
    (live (sconn s) -> (decode_all limit (RHead (srcvd s ++ data))).2 <> RBad -> live (sconn s')).
Proof.
  intros [Hs Hr Hf] He Hsz. cbn [enabled handle] in *.
  destruct (sk_reads (socket_ (base_ (sconn s)))) as [|[n h] l] eqn:Er; [done|]. bool_prop.
  destruct (read_completion_state (srcvd s) data h n (sconn s) (sdisp s) ms l)
    as (c' & ms2 & E & Hra & Hr' & Hdead & Hl); [apply Hs|apply Hs|done|done|done|by eapply sized_buffer|].
  rewrite (run_eq _ _ _ _ _ _ _ _ E). exists (mkSys c' (routes conf self ms2 (sdisp s)).1 (swire s) (srcvd s ++ data)), ms2.
  split; [done|]. split; [|done]. split; cbn [sconn sdisp swire srcvd event_sends app]; [|done| |].
  - split; [|done|].
    + apply (ra_inv _ _ _ _ Hra). eapply send_inv_same; [| |exact Hs]; [by split|done].
    + apply (ra_flow _ _ _ _ Hra). eapply flowing_same; [| |exact Hf]; [by split|done].
  - apply (ra_log _ _ _ _ Hra).
  - intros Hl0. destruct (Hdead Hl0) as (Hl1 & Hk1 & Hk2), (ra_dead _ _ _ _ Hra Hl0) as [_ Ew].
    split; [done|rewrite Hk2; apply suffix_nil|rewrite Ew; done|rewrite Hk2, Er; cbn; lia].
Qed.

Lemma read_completion_failed h ec c (d : Dispatcher S) :
  ec_failed ec = true ->
  read_completion conf self h ec 0 (c, d) =
    (_ ← on_conn (handle_socket_ec ec); mret tt) (set_ops_cancel_timer None c, d).
Proof. intros He. destruct h; simpl; unfold read_handler, read_msg_handler; by rewrite He. Qed.

(** Steps that dispatch and send nothing. *)
Lemma silent_step e (s : Sys) c' wire ms :
  event_sends e = [] -> conn_inv wire (srcvd s) c' ms -> sent_log c' = sent_log (sconn s) ->
  (~ live (sconn s) -> winds_down 0 (sconn s) c') ->
  conn_step e ms [] s (mkSys c' (sdisp s) wire (srcvd s)).
Proof.
  intros He Hc Hlog Hl. split; cbn [sconn sdisp swire srcvd routes fst snd]; rewrite ?He, ?app_nil_r; done.
Qed.

Lemma handle_read_error ec s ms :
  sys_conn_inv s ms -> enabled (EReadError ec) s = true ->
  exists s', handle conf self (EReadError ec) s = Done s' /\ conn_step (EReadError ec) ms [] s s'.
Proof.
  intros [Hs Hr Hf] He. cbn [enabled handle] in *.
  destruct (sk_reads (socket_ (base_ (sconn s)))) as [|[n h] l] eqn:Er; [done|].
  assert (ec_failed ec = true) as Hec by (unfold may_fail_with in He; by bool_prop).
  set (c1 := set_ops_cancel_timer None (read_popped (sconn s))).
  destruct (handle_socket_ec_ends ec c1 He) as (b & c' & E & Hq & Hl).
  erewrite run_eq by (rewrite read_completion_failed by done; unfold mbind, M_bind;
    by rewrite (on_conn_eq _ _ _ _ _ E)).
  eexists. split; [done|]. apply silent_step; [done| |apply (ss_log _ _ (qt_send _ _ Hq))|]; [split|].
  - eapply send_inv_same; [|apply Hq|exact Hs]; [|done].
    etransitivity; [|apply Hq]. by split.
  - destruct Hr as [st Hd Hh | Hp Hr _]; [|congruence].
    apply rs_final; [by rewrite Hd| |done].
    rewrite (sd_reads _ _ (qt_read _ _ Hq)). simpl.
    destruct st; simpl in Hh; [destruct Hh as (?&?&Hh)|destruct Hh as (?&?&?&?&Hh)|done]; by rewrite Hh.
  - by intros ?.
  - intros _. split; [done| | |].
    + rewrite (sd_reads _ _ (qt_read _ _ Hq)). apply tail_suffix.
    + by rewrite (ss_writes _ _ (qt_send _ _ Hq)).
    + rewrite (sd_reads _ _ (qt_read _ _ Hq)). simpl. rewrite Er. simpl. lia.
Qed.

Lemma handle_write_done s ms :
  sys_conn_inv s ms -> enabled EWriteDone s = true ->
  exists s', handle conf self EWriteDone s = Done s' /\ conn_step EWriteDone ms [] s s' /\
    (live (sconn s) -> live (sconn s')).
Proof.
  intros [Hs Hr _] He. cbn [enabled handle] in *.
  destruct (sk_writes (socket_ (base_ (sconn s)))) as [|n l] eqn:Ew; [done|].
  destruct Hs as [Hb Ht [? E2 ?|n' E1 E2 Hn E4|? E2 ?]]; [congruence| |congruence].
  rewrite E2 in Ew. injection Ew as En El. subst n' l.
  set (c1 := set_send_status Send_kDone (set_ops_cancel_timer None (write_popped (sconn s)))).
  assert (send_inv conf (swire s ++ ztake n (io_block_ (send_bound_ (sconn s)))) c1) as Hc1.
  { split; [done|done|]. apply phase_idle; [done|simpl; by rewrite E2|].
    rewrite <-app_assoc. exact E4. }
  erewrite run_eq.
  2: { apply on_conn_eq. unfold write_handler, mbind, M_bind, safe_assert; simpl.
       rewrite (proj2 (Z.ltb_lt _ _)) by lia. unfold modify. fold c1.
       by rewrite do_write_eq by apply Hc1. }
  assert (same_read (sconn s) (written conf c1)) as Hq
    by (transitivity c1; [by split|apply same_recv_read, written_same_recv]).
  eexists. split; [done|]. split.
  2: { intros Hl. by apply (same_recv_live _ _ _ (written_same_recv conf c1)). }
  apply silent_step; [done| |by rewrite written_log|].
  - split; [by apply written_inv|by eapply rd_state_same|by apply written_flowing].
  - intros Hl. rewrite written_dead by done. split; [done|done| |done]. apply (tail_suffix (sk_writes _)).
Qed.

Lemma handle_write_error ec k s ms :
  sys_conn_inv s ms -> enabled (EWriteError ec k) s = true ->
  exists s', handle conf self (EWriteError ec k) s = Done s' /\ conn_step (EWriteError ec k) ms [] s s'.
Proof.
  intros [Hs Hr _] He. cbn [enabled handle] in *.
  destruct (sk_writes (socket_ (base_ (sconn s)))) as [|n l] eqn:Ew; [done|]. bool_prop.
  destruct Hs as [Hb Ht [? E2 ?|n' E1 E2 Hn E4|? E2 ?]]; [congruence| |congruence].
  rewrite E2 in Ew. injection Ew as En El. subst n' l.
  set (c1 := set_ops_cancel_timer None (write_popped (sconn s))).
  assert (send_inv conf (swire s ++ ztake k (io_block_ (send_bound_ (sconn s)))) c1) as Hc1.
  { split; [done|done|].
    apply phase_failed; [done|simpl; by rewrite E2|].
    change (sent_log c1) with (sent_log (sconn s)). rewrite <-E4. apply prefix_app.
    apply prefix_app_r, ztake_prefix. lia. }
  assert (ec_failed ec = true) as Hec by (unfold may_fail_with in *; by bool_prop).
  destruct (handle_socket_ec_ends ec c1) as (b & c' & E & Hq & Hl); [done|].
  erewrite run_eq.
  2: { apply on_conn_eq. unfold write_handler, mbind at 1, M_bind at 1; simpl. rewrite Hec. fold c1.
       unfold mbind, M_bind. by rewrite E. }
  eexists. split; [done|]. apply silent_step; [done| | |].
  { split; [|by eapply rd_state_same; [|exact Hr]; transitivity c1; [by split|apply Hq]|by intros ?].
    eapply send_inv_same; [apply Hq|apply Hq, Hc1|done]. }
  { apply (ss_log _ _ (qt_send _ _ Hq)). }
  intros _. split; [done|by rewrite (sd_reads _ _ (qt_read _ _ Hq))| |by rewrite (sd_reads _ _ (qt_read _ _ Hq))].
  rewrite (ss_writes _ _ (qt_send _ _ Hq)). apply (tail_suffix (sk_writes _)).
Qed.

(** Handlers neither invariant notices. *)
Lemma handle_quiet {A} e (m : M TcpConnAsync A) a c' s ms :
  event_sends e = [] -> sys_conn_inv s ms -> m (sconn s) = Done (a, c') -> quiet (sconn s) c' ->
  exists s', run (on_conn m) (sconn s) s (swire s) (srcvd s) = Done s' /\ conn_step e ms [] s s'.
Proof.
  intros He Hs E Hq. eexists. split; [by eapply run_eq, on_conn_eq|].
  apply silent_step; [done|by eapply quiet_inv|apply (ss_log _ _ (qt_send _ _ Hq))|apply winds_down_same; apply Hq].
Qed.

(** Every event of a connection, at whatever dispatcher. *)
Lemma handle_step e s ms :
  sys_conn_inv s ms -> enabled e s = true -> sized (srcvd s ++ event_bytes e) ->
  exists s' ms2, handle conf self e s = Done s' /\ conn_step e ms ms2 s s'.
Proof.
  intros Hs He Hsz. destruct e as [msg|data|ec| |ec k|ec|].
  - destruct (handle_send msg s ms Hs) as (s' & ? & ?). by exists s', [].
  - destruct (handle_read_done data s ms Hs He Hsz) as (s' & ms2 & ? & ? & _). by exists s', ms2.
  - destruct (handle_read_error ec s ms Hs He) as (s' & ? & ?). by exists s', [].
  - destruct (handle_write_done s ms Hs He) as (s' & ? & ? & _). by exists s', [].
  - destruct (handle_write_error ec k s ms Hs He) as (s' & ? & ?). by exists s', [].
  - destruct (ops_cancel_timeout_call_spec ec (sconn s)) as (c' & E & Hq & _).
    destruct (handle_quiet (ETimeout ec) (ops_cancel_timeout_call ec) tt c' s ms) as (s' & ? & ?); eauto.
  - destruct (handle_quiet EStop stop tt (upd_base (set_conn_stat kPending) (sconn s)) s ms) as (s' & ? & ?);
      [done|done|done| |by exists s', []].
    split; [by split| |done]. split; [done|done|]. by intros _ [? _].
Qed.

(** ** The invariant of a connection with its dispatcher *)

Record sys_inv (d0 : Dispatcher S) (s : Sys) : Prop := {
  iv_send : send_inv conf (swire s) (sconn s);
  iv_read : rd_inv d0 (srcvd s) (sconn s) (sdisp s);
  iv_flow : flowing (sconn s)
}.

(** What an event does: it keeps the invariant, and a connection that ended winds down. *)
Definition step_ok (d0 : Dispatcher S) (s s' : Sys (S:=S)) : Prop :=
  sys_inv d0 s' /\
  (~ live (sconn s) -> exists ms, sdisp s' = (routes conf self ms (sdisp s)).1 /\
    winds_down (length ms) (sconn s) (sconn s')).

Lemma handle_progress d0 e s :
  sys_inv d0 s -> enabled e s = true -> sized (srcvd s ++ event_bytes e) ->
  exists s', handle conf self e s = Done s' /\ step_ok d0 s s'.
Proof.
  intros [Hs Hr Hf] He Hsz. apply rd_inv_state in Hr as (ms & Hst & Hd).
  destruct (handle_step e s ms) as (s' & ms2 & E & [[Hs' Hst' Hf'] Hd' _ Hl]); [by split|done|done|].
  exists s'. split; [done|]. split; [|by intros; exists ms2; auto]. split; [done| |done]. apply rd_inv_state.
  exists (ms ++ ms2). split; [done|]. rewrite routes_app, Hd', Hd.
  destruct (routes conf self ms d0) as [d1 l1]; simpl. by destruct (routes conf self ms2 d1).
Qed.

Lemma run_rcvd {A} (m : M World A) c (s s' : Sys) wire rcvd : run m c s wire rcvd = Done s' -> srcvd s' = rcvd.
Proof. unfold run. intros. by repeat case_match; simplify_eq. Qed.

Lemma handle_rcvd e (s s' : Sys (S:=S)) :
  enabled e s = true -> handle conf self e s = Done s' -> srcvd s' = srcvd s ++ event_bytes e.
Proof.
  intros He Hh. destruct e as [msg|data|ec| |ec k|ec|]; cbn [handle enabled event_bytes] in *;
    rewrite ?app_nil_r; repeat (case_match; [done|]); repeat case_match; simplify_eq;
    eauto using run_rcvd.
Qed.

Lemma run_wire {A} (m : M World A) c (s s' : Sys) wire rcvd : run m c s wire rcvd = Done s' -> swire s' = wire.
Proof. unfold run. intros. by repeat case_match; simplify_eq. Qed.

(** What the peer was sent is not taken back. *)
Lemma handle_wire e (s s' : Sys (S:=S)) : handle conf self e s = Done s' -> swire s `prefix_of` swire s'.
Proof.
  intros Hh. destruct e as [msg|data|ec| |ec k|ec|]; cbn [handle] in *; repeat case_match; simplify_eq;
    first [done | by rewrite (run_wire _ _ _ _ _ _ Hh) | rewrite (run_wire _ _ _ _ _ _ Hh); by apply prefix_app_r].
Qed.

Lemma TcpConnAsync_new_ready sock :
  idle_socket sock -> ready conf (upd_base (set_conn_stat kWorking) (TcpConnAsync_new sock)).
Proof. intros [Hr Hw]. split; try done. Qed.

(** A connection that was just started: it waits for a header. *)
Lemma boot_spec sock (d0 : Dispatcher S) :
  idle_socket sock ->
  exists s, boot conf self sock d0 = Done s /\ send_inv conf [] (sconn s) /\
    live (sconn s) /\ holds conf (RHead []) (sconn s) /\ sent_log (sconn s) = [] /\
    send_status_ (sconn s) = Send_kDone /\ sdisp s = d0 /\ swire s = [] /\ srcvd s = [].
Proof.
  intros Hi. pose proof (TcpConnAsync_new_ready sock Hi) as Hready.
  pose proof (do_read__spec _ d0 Hready) as Hrd. unfold reads_as in Hrd.
  change (recv_data (upd_base (set_conn_stat kWorking) (TcpConnAsync_new sock))) with (@nil Byte.byte) in Hrd.
  rewrite decode_all_nil in Hrd. cbn [routes fst snd] in Hrd.
  destruct Hrd as (a & c' & E & Hra & Hl & Hw).
  unfold boot. erewrite run_eq.
  2: { unfold start, mbind, M_bind. erewrite on_conn_eq by done. cbn [sdisp].
       unfold sconn. by rewrite E. }
  eexists. split; [done|]. split; [|split_and!; try done;
    [apply (ra_log _ _ _ _ Hra)|apply (ss_status _ _ (ra_quiet _ _ _ _ Hra eq_refl))]].
  apply (ra_inv _ _ _ _ Hra). split; [done|done|]. apply phase_idle; [done|apply Hi|done].
Qed.

(** What is buffered is still to be written. *)
Lemma flowing_buffered wire c :
  send_inv conf wire c -> flowing c -> live c ->
  len wire + len (send_data c) <= len (stream (sent_log c)).
Proof.
  intros [_ _ [_ _ E|n _ _ _ E|E1 E2 _]] Hf Hl; [| |specialize (Hf Hl); by rewrite E1 in Hf];
    rewrite <-E, !zlen_app; [lia|]. pose proof (zlen_nonneg (ztake n (io_block_ (send_bound_ c)))). lia.
Qed.

(** A live connection whose sending does not stall has written everything, or is writing. *)
Lemma flowing_phase wire c :
  send_inv conf wire c -> flowing c -> live c -> len (send_data c) < 2 ^ 32 ->
  (send_status_ c = Send_kDone /\ sk_writes (socket_ (base_ c)) = [] /\ send_data c = [] /\
    wire = stream (sent_log c)) \/
  (send_status_ c = Send_kSend /\ sk_writes (socket_ (base_ c)) <> []).
Proof.
  intros [_ _ Hp] Hf Hl Hu. specialize (Hf Hl).
  destruct Hp as [E1 E2 E|n E1 E2 _ _|E1 E2 _]; rewrite E1 in Hf; [left|right; by rewrite E2|done].
  rewrite get_length_small in Hf by exact Hu. apply zlen_nil_inv in Hf. fold (send_data c) in Hf.
  by rewrite <-E, Hf, app_nil_r.
Qed.

Lemma unsent_flowing wire c :
  send_inv conf wire c -> sent_log c = [] -> send_status_ c = Send_kDone -> flowing c.
Proof.
  intros [_ _ [_ _ E| |]] Hlog Hst _; rewrite Hst in *; [|done..].
  rewrite Hlog in E. apply app_nil in E as [_ E]. unfold get_length. fold (send_data c). by rewrite E.
Qed.

Lemma boot_inv sock (d0 : Dispatcher S) :
  idle_socket sock -> exists s, boot conf self sock d0 = Done s /\ sys_inv d0 s /\ srcvd s = [].
Proof.
  intros Hi. destruct (boot_spec sock d0 Hi) as (s & E & Hs & Hl & Hh & Hlog & Hst & Ed & Ew & Er).
  exists s. split; [done|]. split; [|done]. split; rewrite ?Ew, ?Er; [done| |by eapply unsent_flowing].
  by apply (rd_reading _ _ _ _ [] (RHead [])).
Qed.

Lemma reach_inv d0 s : reach conf self d0 s -> sized (srcvd s) -> sys_inv d0 s.
Proof.
  induction 1 as [sock s Hi Hb | s e s' Hs IH He Hh]; intros Hsz.
  - destruct (boot_inv sock d0 Hi) as (s0 & E & Hs & _).
    rewrite Hb in E. by injection E as ->.
  - rewrite (handle_rcvd _ _ _ He Hh) in Hsz.
    destruct (handle_progress d0 e s) as (s2 & E & Hs2 & _); [exact (IH (sized_app _ _ Hsz))|done|done|].
    rewrite Hh in E. by injection E as ->.
Qed.

End Inv.
