(* ===== verification/RpcProps.v ===== *)
(** * Properties of the RPC layer

    Requests from validation to the service's queue, the queue to the handler, the
    demo service's answers and the configuration of services. *)

From Stdlib Require Import ZArith Lia Init.Byte.
From stdpp Require Import base list strings gmap.
From S2P Require Import Prelude Endian Message Buffer RpcMessage NetConn External NetConf.
From S2P Require Import RpcInstance Service XtraTaskService Executor Dispatcher Demo.

(** ** Validation and routing *)

(** A request as the client library builds it. *)
Definition client_request `{Host} (sid op : Z) (body : bytes) : bytes :=
  RpcRequestMessage_net_str (RpcRequestMessage_new sid op body).

Lemma client_request_ok (H1 H2 : Host) sid op body :
  fits_u 16 sid -> fits_u 16 op ->
  let p := @client_request H1 sid op body in
  @request_header_ok H2 p /\ @request_header H2 p = rq_header_ (RpcRequestMessage_new sid op body) /\
  zdrop 16 p = body /\ len p = 16 + len body.
Proof.
  intros Hs Ho p. pose proof (decode_RpcRequest H1 H2 sid op body Hs Ho) as [E1 E2].
  pose proof (zlen_RpcRequestMessage_net_str (H:=H1) (RpcRequestMessage_new sid op body)) as El.
  pose proof (zlen_nonneg body). fold (@client_request H1 sid op body) in E1, E2, El. fold p in E1, E2, El.
  unfold request_header_ok, request_header. rewrite E1, El. unfold sizeof_RpcRequestHeader in *. simpl.
  split_and!; done || lia.
Qed.

(** The server accepts what the client library sends, whatever the byte orders of the
    two hosts. A request built for a service and an opcode with a non-empty body
    validates, and the instance then holds exactly that service id, opcode and body; the
    same request without a body is refused. *)
Lemma validate_client_request (H1 H2 : Host) sid op body sock :
  fits_u 16 sid -> fits_u 16 op -> len body < 2 ^ 32 - 16 ->
  let p := @client_request H1 sid op body in
  exists i', @validate_request H2 (RpcInstance_new p sock (len p)) =
      Done (negb (bool_decide (body = [])), i') /\
    get_service_id i' = sid /\ get_opcode i' = op /\ full_socket_ i' = sock /\
    (body <> [] -> rq_payload_ (get_rpc_request_message i') = body).
Proof.
  intros Hs Ho Hb p. destruct (client_request_ok H1 H2 sid op body Hs Ho) as (Hh & Eh & Ed & El).
  fold p in Hh, Eh, Ed, El. destruct (validate_request_spec p sock) as (i' & Ev & Es & Hok & _ & Hids); [lia|].
  exists i'. destruct (Hids Hh) as [E1 E2]. rewrite Eh in E1, E2. rewrite Ev.
  assert (request_ok p <-> body <> []) as Hiff.
  { unfold request_ok, sizeof_RpcRequestHeader. rewrite El. split.
    - intros [_ Hlt] ->. unfold zlen in Hlt; simpl in Hlt. lia.
    - intros Hne. split; [done|]. destruct body; [done|]. unfold zlen; simpl. lia. }
  split; [|split_and!; [done|done|done|]].
  - do 2 f_equal. destruct (decide (body = [])) as [E|E].
    + rewrite bool_decide_false, bool_decide_true by tauto. done.
    + rewrite bool_decide_true, bool_decide_false by tauto. done.
  - intros Hne. rewrite (Hok (proj2 Hiff Hne)). done.
Qed.

Section Dispatch.
Context `{Host} `{LibConfig} {S : Type} `{!Service S} `{!EQueue RpcInstance}
  `{!EQueueLaws RpcInstance} {C : Type} `{!MsgSink C}.

(** C22: every request goes to one place. A well-formed request for a registered service
    is appended to the queue of that service and of no other, and nothing is sent; for
    an unknown service the sender gets INVALID_SERVICE, and a malformed request gets
    INVALID_REQUEST, with the queues as they were. *)
Theorem dispatcher_routes p sock (d : Dispatcher S) (c : option C) :
  len p < 2 ^ 32 ->
  let sid := rq_service_id (request_header p) in
  let out := Dispatcher_handle_RPC (RpcInstance_new p sock (len p)) (d, c) in
  (request_ok p -> forall e, services_ d !! sid = Some e ->
     exists d' e', out = Done (tt, (d', c)) /\ services_ d' = <[sid := e']> (services_ d) /\
       queued (rpc_queue_ e') = queued (rpc_queue_ e) ++ [accepted_instance p sock] /\
       service_impl_ e' = service_impl_ e /\ conf_ e' = conf_ e) /\
  (request_ok p -> services_ d !! sid = None ->
     out = answer (reject Resp_INVALID_SERVICE) (d, c)) /\
  (~ request_ok p -> out = answer (reject Resp_INVALID_REQUEST) (d, c)).
Proof.
  intros Hp sid out. subst out. rewrite Dispatcher_handle_RPC_eq by done. unfold route. fold sid.
  split_and!.
  - intros Hok e He. rewrite bool_decide_true, He by done. simpl.
    eexists _, _. split; [done|]. split; [done|]. simpl. by rewrite queued_PUSH.
  - intros Hok Hn. by rewrite bool_decide_true, Hn by done.
  - intros Hno. by rewrite bool_decide_false by done.
Qed.
End Dispatch.

(** A connection that records what it is asked to send. *)
#[export] Instance recorder : MsgSink (list Message) := fun m l => Done (0, l ++ [m]).

Lemma dispatcher_routes_witness :
  let p := client_request 9 7 [x61] in
  Dispatcher_handle_RPC (RpcInstance_new p 3 (len p)) (demo_dispatcher, Some []) =
  answer (reject Resp_INVALID_SERVICE) (demo_dispatcher, Some []).
Proof.
  intros p. apply (dispatcher_routes p 3 demo_dispatcher (Some [])).
  - vm_compute. reflexivity.
  - vm_compute. split; [split; [discriminate|split; reflexivity]|reflexivity].
  - vm_compute. reflexivity.
Defined.

(** ** The executor *)

Section Serve.
Context `{LibConfig} {S : Type} `{!Service S} `{!EQueue RpcInstance}
  `{!EQueueLaws RpcInstance} {C : Type} `{!MsgSink C}.

(** The handlers of a list of requests, one after the other. *)
Fixpoint serve (l : list RpcInstance) (st : S * gmap nat C) : outcome (S * gmap nat C) :=
  match l with
  | [] => Done st
  | i :: l =>
      match svc_handle_RPC i (fst st, snd st !! full_socket_ i) with
      | Done (_, (s', c')) =>
          serve l (s', partial_alter (fun _ => c') (full_socket_ i) (snd st))
      | AssertFailed => AssertFailed
      | Undefined => Undefined
      | OutOfFuel => OutOfFuel
      end
  end.

(** How many requests a thread may take, given the statuses its rounds observe: none
    while it is suspended, none once it is told to terminate. *)
Fixpoint rounds (statuses : list (bool * bool)) : nat :=
  match statuses with
  | [] => 0
  | (true, _) :: _ => 0
  | (false, true) :: l => rounds l
  | (false, false) :: l => Datatypes.S (rounds l)
  end.

Lemma executor_service_round_eq (e : Executor S) (conns : gmap nat C) :
  executor_service_round false false (e, conns) =
    match queued (rpc_queue_ e) with
    | [] => Done (true, (set_rpc_queue (POP (rpc_queue_ e)).2 e, conns))
    | i :: _ => (_ ← on_connection (full_socket_ i) (svc_handle_RPC i); mret true)
                  (set_rpc_queue (POP (rpc_queue_ e)).2 e, conns)
    end.
Proof.
  unfold executor_service_round, pop_request, zoom, mbind, M_bind, gets, modify, mret, M_ret; simpl.
  rewrite POP_item. by destruct (queued (rpc_queue_ e)).
Qed.

(** C21: requests are served in the order they were queued, each once. Whatever statuses
    a thread observes, its loop runs the handlers of the first [rounds statuses] queued
    requests, one after the other, on the connections they came from, and leaves the
    rest in the queue. *)
Theorem executor_serves_fifo statuses (e : Executor S) (conns : gmap nat C) s' conns' :
  serve (take (rounds statuses) (queued (rpc_queue_ e))) (service_impl_ e, conns) = Done (s', conns') ->
  exists e', executor_service_run statuses (e, conns) = Done (tt, (e', conns')) /\
    service_impl_ e' = s' /\ conf_ e' = conf_ e /\
    queued (rpc_queue_ e') = drop (rounds statuses) (queued (rpc_queue_ e)).
Proof.
  revert e conns. induction statuses as [|[[] []] statuses IH]; intros e conns Hs;
    cbn [rounds executor_service_run] in *.
  1-3: simpl in Hs; simplify_eq; exists e; by rewrite ?drop_0.
  { unfold mbind, M_bind. cbn [executor_service_round]. apply IH, Hs. }
  unfold mbind at 1, M_bind at 1. rewrite executor_service_round_eq.
  pose proof (queued_POP (rpc_queue_ e)) as Ep.
  destruct (queued (rpc_queue_ e)) as [|i q] eqn:Eq; simpl in Ep.
  { destruct (IH (set_rpc_queue (POP (rpc_queue_ e)).2 e) conns) as (e' & Er & ? & ? & Eq').
    { simpl. rewrite Ep, take_nil. done. }
    exists e'. rewrite Er. split_and!; [done..|]. rewrite Eq'. simpl. by rewrite Ep, drop_nil. }
  cbn [take serve fst snd] in Hs. unfold mbind at 1, M_bind at 1, on_connection. cbn [service_impl_ set_rpc_queue].
  destruct (svc_handle_RPC i _) as [[[] [s1 c1]]| | |]; try done.
  destruct (IH (set_service_impl s1 (set_rpc_queue (POP (rpc_queue_ e)).2 e))
              (partial_alter (fun _ => c1) (full_socket_ i) conns)) as (e' & Er & ? & ? & Eq').
  { simpl. by rewrite Ep. }
  exists e'. unfold mret, M_ret. rewrite Er. split_and!; [done..|]. rewrite Eq'. simpl. by rewrite Ep.
Qed.
End Serve.

(** Three rounds, one of them suspended, on a queue of three requests. *)
Definition demo_item (b : Byte.byte) : RpcInstance := accepted_instance (client_request 1 7 [b]) 3.
Definition demo_queue : list RpcInstance := demo_item <$> [x61; x62; x63].
Definition demo_busy : Executor unit := mkExecutor tt demo_queue (mkExecutorConf 1 4 10) [].
Definition demo_before : gmap nat (list Message) := {[ 3%nat := [] ]}.
Definition demo_after : gmap nat (list Message) :=
  {[ 3%nat := [reply_message (demo_item x61) [x61]; reply_message (demo_item x62) [x62]] ]}.

Lemma executor_serves_fifo_witness :
  exists e', executor_service_run [(false, false); (false, true); (false, false)]
               (demo_busy, demo_before) = Done (tt, (e', demo_after)) /\
    service_impl_ e' = tt /\ conf_ e' = conf_ demo_busy /\
    queued (rpc_queue_ e') = drop 2 (queued (rpc_queue_ demo_busy)).
Proof.
  apply (executor_serves_fifo [(false, false); (false, true); (false, false)] demo_busy
    demo_before tt demo_after).
  vm_compute. reflexivity.
Defined.
