(* ===== verification/ServiceProps.v ===== *)
(** * Properties of services and their configuration

    The demo service's answers, what its start-up and runtime configuration accept, and
    how the Executor sizes its thread pool from it. *)

From Stdlib Require Import ZArith Lia Init.Byte.
From stdpp Require Import base list strings gmap.
From S2P Require Import Prelude Endian Message Buffer RpcMessage NetConn External NetConf.
From S2P Require Import RpcInstance Service XtraTaskService Executor Dispatcher Demo RpcProps.

(** ** Sizing the pool *)

Section Pool.
Context `{LibConfig} {S : Type} `{!Service S} `{!EQueue RpcInstance}
  `{!EQueueLaws RpcInstance} `{AssertMode}.

(** The size the pool should have for [n] queued requests. *)
Definition pool_size (c : ExecutorConf) (n : Z) : Z :=
  Z.min (exec_thread_number_hard_ c)
    (exec_thread_number_ c +
     (if exec_thread_step_size_ c <? n then n / exec_thread_step_size_ c else 0)).

Lemma pool_size_range c n :
  executor_conf_ok c -> exec_thread_number_ c <= pool_size c n <= exec_thread_number_hard_ c.
Proof.
  intros (Hn & Hh & Hmax & Hs). unfold pool_size. destruct (exec_thread_step_size_ c <? n) eqn:E; bool_prop; [|lia].
  assert (0 <= n / exec_thread_step_size_ c); [|lia].
  destruct (decide (exec_thread_step_size_ c = 0)) as [->|]; [by rewrite Z.div_0_r|]. apply Z.div_pos; lia.
Qed.

Lemma threads_adjust_runs ec (e : Executor S) :
  executor_conf_ok (conf_ e) -> 0 < exec_thread_step_size_ (conf_ e) ->
  let n := len (queued (rpc_queue_ e)) in
  n < 2 ^ 30 ->
  executor_threads_adjust ec e = Done (tt, add_call (CallResizeThreads (pool_size (conf_ e) n)) e).
Proof.
  intros (Hn & Hh & Hmax & _) Hst n Hq. pose proof (zlen_nonneg (queued (rpc_queue_ e))) as Hn0. fold n in Hn0.
  unfold executor_threads_adjust, pool_size. destruct (conf_ e) as [num hard step] eqn:Ec; simpl in *.
  assert (0 <= n / step <= n).
  { split; [apply Z.div_pos; lia|]. apply Z.div_le_upper_bound; [lia|]. nia. }
  unfold mbind, M_bind, gets, safe_assert, int_div, int_add, mret, M_ret, modify.
  rewrite Ec; simpl. rewrite (proj2 (Z.ltb_lt 0 step)) by done. rewrite SIZE_queued. fold n.
  rewrite swrap_small by (unfold fits_s; simpl; lia).
  destruct (step <? n) eqn:E; bool_prop.
  - rewrite (proj2 (Z.eqb_neq step 0)), Z.quot_div_nonneg by lia.
    rewrite (proj2 (Z.leb_le _ _)), (proj2 (Z.ltb_lt _ _)) by lia. simpl.
    destruct (hard <? num + n / step) eqn:E2; bool_prop.
    + by rewrite Z.min_l by lia.
    + by rewrite Z.min_r by lia.
  - simpl. rewrite (proj2 (Z.ltb_ge _ _)) by lia. rewrite Z.add_0_r.
    by rewrite Z.min_r by lia.
Qed.

(** C35: the adjustment of the thread pool stays in its configured range. With an accepted
    configuration that has a step, and fewer than 2^30 requests queued, the pool is resized
    to the configured number while at most [step] requests are queued; when more are, to one
    thread more per full [step] of them, but never above the hard limit. *)
Theorem executor_adjust_bounds ec (e : Executor S) :
  executor_conf_ok (conf_ e) -> 0 < exec_thread_step_size_ (conf_ e) ->
  let n := len (queued (rpc_queue_ e)) in
  let num := exec_thread_number_ (conf_ e) in
  let hard := exec_thread_number_hard_ (conf_ e) in
  let step := exec_thread_step_size_ (conf_ e) in
  n < 2 ^ 30 ->
  exists size, executor_threads_adjust ec e = Done (tt, add_call (CallResizeThreads size) e) /\
    (n <= step -> size = num) /\ (step < n -> size = Z.min hard (num + n / step)) /\
    num <= size <= hard.
Proof.
  intros Hok Hst n num hard step Hq. pose proof (pool_size_range (conf_ e) n Hok) as Hrange.
  exists (pool_size (conf_ e) n). split; [by apply threads_adjust_runs|].
  split_and!; try apply Hrange; intros Hn; unfold pool_size; fold num hard step.
  - destruct Hok as (_ & Hh & _). fold num hard in Hh. rewrite (proj2 (Z.ltb_ge _ _)) by done. lia.
  - by rewrite (proj2 (Z.ltb_lt _ _)).
Qed.

End Pool.

(** A step of zero is fatal to the adjustment. The timer that calls it is added when the
    step is positive, but runtime configuration may set the step to zero afterwards: then
    the assertion stops the process or, when assertions only log, the code divides by
    zero as soon as a request is queued. *)
Lemma executor_adjust_zero_step `{LibConfig} {S : Type} `{!Service S} `{!EQueue RpcInstance}
    `{!EQueueLaws RpcInstance} (stops : AssertMode) ec (e : Executor S) :
  exec_thread_step_size_ (conf_ e) = 0 -> 0 < len (queued (rpc_queue_ e)) < 2 ^ 31 ->
  executor_threads_adjust ec e = if stops : bool then AssertFailed else Undefined.
Proof.
  intros Hst Hq. unfold executor_threads_adjust, mbind, M_bind, gets, safe_assert.
  rewrite Hst; simpl. unfold assert_stops. destruct stops; [done|].
  rewrite SIZE_queued, swrap_small, (proj2 (Z.ltb_lt _ _)) by (unfold fits_s; simpl; lia).
  done.
Qed.

(** The pool for [n] queued requests, by threads 1 to 4 in steps of 10. *)
Definition demo_queued (n : nat) : Executor unit :=
  mkExecutor tt (replicate n (accepted_instance (demo_request 1 [x61]) 0)) (mkExecutorConf 1 4 10) [].

Lemma demo_queued_ok n : executor_conf_ok (conf_ (demo_queued n)).
Proof. vm_compute. split_and!; discriminate || reflexivity. Qed.

(** With 10 queued no thread is added, with 11 and with 25 one per full step, with 45 the hard
    limit is reached. *)
Lemma executor_adjust_bounds_witness :
  let resized n := executor_threads_adjust ec_success (demo_queued n) in
  let to n size := Done (tt, add_call (CallResizeThreads size) (demo_queued n)) in
  resized 10%nat = to 10%nat 1 /\ resized 11%nat = to 11%nat 2 /\
  resized 25%nat = to 25%nat 3 /\ resized 45%nat = to 45%nat 4.
Proof.
  split; [|split; [|split]].
  - destruct (executor_adjust_bounds ec_success (demo_queued 10)) as (size & -> & Hle & _);
      [apply demo_queued_ok|reflexivity..|]. rewrite Hle by discriminate. reflexivity.
  - destruct (executor_adjust_bounds ec_success (demo_queued 11)) as (size & -> & _ & Hgt & _);
      [apply demo_queued_ok|reflexivity..|]. rewrite Hgt by reflexivity. reflexivity.
  - destruct (executor_adjust_bounds ec_success (demo_queued 25)) as (size & -> & _ & Hgt & _);
      [apply demo_queued_ok|reflexivity..|]. rewrite Hgt by reflexivity. reflexivity.
  - destruct (executor_adjust_bounds ec_success (demo_queued 45)) as (size & -> & _ & Hgt & _);
      [apply demo_queued_ok|reflexivity..|]. rewrite Hgt by reflexivity. reflexivity.
Defined.

(** ** The demo service's handlers *)

Section Handlers.
Context `{Host} `{ProtoBuf} {C : Type} `{!MsgSink C}.

(** The requests the service rejects: an unknown opcode, or a read without any of the
    four sub-requests. *)
Definition xtra_rejects (i : RpcInstance) : Prop :=
  (get_opcode i <> CMD_READ /\ get_opcode i <> CMD_WRITE) \/
  (get_opcode i = CMD_READ /\
   unmarshal_request (rq_payload_ (get_rpc_request_message i)) =
     Some (mkReadRequest None None None None)).

(** The demo service answers every request exactly once: a request it rejects gets
    INVALID_REQUEST, every other one a reply under its own service id and opcode. *)
Lemma xtra_answers_once (i : RpcInstance) :
  rq_opcode (rq_header_ (get_rpc_request_message i)) = get_opcode i ->
  exists m, (forall sock : option C, XtraTaskService_handle_RPC i sock = send_if_alive m sock) /\
    (xtra_rejects i -> m = reject_message Resp_INVALID_REQUEST) /\
    (~ xtra_rejects i -> exists payload, m = reply_message i payload).
Proof.
  intros Hop. unfold xtra_rejects, XtraTaskService_handle_RPC, read_ops_impl, write_ops_impl.
  rewrite Hop. destruct (get_opcode i =? CMD_READ) eqn:E1; bool_prop; simpl.
  - unfold read_ops_body. destruct (unmarshal_request _) as [[[?|] [?|] [?|] [?|]]|] eqn:Eu; simpl.
    all: (eexists; split; [intros; reflexivity|]; split; [|eauto]; intros [[? ?]|[? ?]]; done) ||
         (eexists; split; [intros; reflexivity|]; split; [done|]; intros Hn; destruct Hn; by right).
  - destruct (get_opcode i =? CMD_WRITE) eqn:E2; bool_prop; simpl.
    + eexists; split; [intros; reflexivity|]. split; [|eauto]. intros [[? ?]|[? ?]]; done.
    + eexists; split; [intros; reflexivity|]. split; [done|]. intros Hn; destruct Hn; by left.
Qed.
End Handlers.

(** A stand-in for the generated protobuf code: the first byte selects the sub-request. *)
#[local] Instance demo_proto : ProtoBuf := {|
  unmarshal_request := fun b =>
    match b with
    | x01 :: m => Some (mkReadRequest (Some m) None None None)
    | x02 :: m => Some (mkReadRequest None (Some m) None None)
    | x03 :: m => Some (mkReadRequest None None (Some m) None)
    | x00 :: _ => Some (mkReadRequest None None None None)
    | _ => None
    end;
  marshal_response := fun r => default [] (rp_msg r) ++ default [] (rp_echo r)
|}.

(** ** Configuration of the demo service *)

Section Configure.
Context `{LibConfig} `{AssertMode}.

Definition entry_name (service : Setting) : string :=
  setting_lookupValue_string service "instance_name" "".

(** The first entry that carries the service's name. *)
Definition find_entry (name : string) (services : list Setting) : option Setting :=
  head (filter (fun e => entry_name e = name /\ entry_name e <> ""%string) services).

(** The entry of a configuration, under [path]. *)
Definition conf_entry (path name : string) (setting_ptr : option Config) : option Setting :=
  match setting_ptr with
  | None => None
  | Some conf =>
      match lookup_setting conf path with
      | None => None
      | Some l => find_entry name (items l)
      end
  end.

(** What becomes of the stored configuration. *)
Definition accept_conf (stack : ExecutorConf) (entry : Setting) (old : option ExecutorConf)
    : option ExecutorConf :=
  if bool_decide (executor_conf_ok (merged_executor_conf entry stack))
  then Some (merged_executor_conf entry stack) else Some (default ServiceConf_new old).

Lemma handle_rpc_service_conf_eq stack entry s :
  handle_rpc_service_conf stack entry s =
    Done (true, set_conf_ptr (accept_conf stack entry (conf_ptr_ s)) s).
Proof.
  unfold handle_rpc_service_conf, accept_conf, mbind, M_bind, gets, when, modify.
  rewrite base_handle_rpc_service_conf_spec. destruct s as [n [p|]]; simpl;
    by destruct (bool_decide (executor_conf_ok _)).
Qed.

Lemma init_loop_eq stack services s :
  init_loop stack services s =
    match find_entry (xt_instance_name_ s) services with
    | None => Done (false, s)
    | Some entry => Done (true, set_conf_ptr (accept_conf stack entry (conf_ptr_ s)) s)
    end.
Proof.
  unfold find_entry. induction services as [|e l IH]; [done|].
  cbn [init_loop]. unfold mbind at 1, M_bind at 1, gets at 1. fold (entry_name e).
  rewrite filter_cons. destruct (decide _) as [[E1 E2]|N]; simpl.
  - rewrite bool_decide_false, bool_decide_true by done. apply handle_rpc_service_conf_eq.
  - case_bool_decide; [by rewrite <-IH|]. case_bool_decide; [by destruct N|]. by rewrite <-IH.
Qed.

(** Start-up configuration of a service. [init] succeeds exactly when a configuration
    with an "rpc.services" section holds an entry of the service's name, whether or not
    the entry is valid: a valid one becomes the service's configuration, an invalid one
    leaves the previous values, zero for a fresh service, in place. *)
Lemma xtra_init_spec stack (setting_ptr : option Config) s :
  XtraTaskService_init stack setting_ptr s =
    match conf_entry "rpc.services" (xt_instance_name_ s) setting_ptr with
    | None => Done (false, s)
    | Some entry => Done (true, set_conf_ptr (accept_conf stack entry (conf_ptr_ s)) s)
    end.
Proof.
  unfold XtraTaskService_init. destruct setting_ptr as [conf|]; [|done]. simpl.
  destruct (lookup_setting conf _) as [l|]; [|done]. simpl. apply init_loop_eq.
Qed.

Lemma runtime_loop_eq stack services s c :
  conf_ptr_ s = Some c -> xt_instance_name_ s <> ""%string ->
  runtime_loop stack services s =
    match find_entry (xt_instance_name_ s) services with
    | None => Done (-1, s)
    | Some entry =>
        if bool_decide (executor_conf_ok (merged_executor_conf entry stack))
        then Done (0, set_conf_ptr (Some (merged_executor_conf entry stack)) s)
        else Done (1, s)
    end.
Proof.
  intros Hc Hn. unfold find_entry. induction services as [|e l IH]; [done|].
  cbn [runtime_loop]. unfold mbind at 1, M_bind at 1, gets at 1. fold (entry_name e).
  rewrite filter_cons. destruct (decide _) as [[E1 E2]|N]; simpl.
  - rewrite bool_decide_true by done. unfold handle_rpc_service_runtime_conf, mbind, M_bind, gets, modify.
    rewrite base_handle_rpc_service_conf_spec. destruct (bool_decide (executor_conf_ok _)); simpl; [|done].
    by rewrite Hc.
  - case_bool_decide as E; [by destruct N; rewrite E|]. by rewrite <-IH.
Qed.

(** Runtime reconfiguration of a service looks under "rpc_services": without that
    section nothing changes and -1 is returned, so a configuration in the form [init]
    reads is never taken over. With the section, a missing entry returns -1, a valid one
    is taken over and returns 0, an invalid one changes nothing and returns 1. *)
Lemma xtra_runtime_spec stack conf s c :
  conf_ptr_ s = Some c -> xt_instance_name_ s <> ""%string ->
  XtraTaskService_module_runtime stack conf s =
    match conf_entry "rpc_services" (xt_instance_name_ s) (Some conf) with
    | None => Done (-1, s)
    | Some entry =>
        if bool_decide (executor_conf_ok (merged_executor_conf entry stack))
        then Done (0, set_conf_ptr (Some (merged_executor_conf entry stack)) s)
        else Done (1, s)
    end.
Proof.
  intros Hc Hn. unfold XtraTaskService_module_runtime, conf_entry.
  destruct (lookup_setting conf _) as [l|]; [|done]. by apply runtime_loop_eq with c.
Qed.
End Configure.

(** An invalid service entry is found out too late. The configuration check refuses it,
    yet [init] of a fresh service reports success; the Executor that is then built on
    the service fails its assertion that there are threads. *)
Lemma invalid_entry_traps_executor `{LibConfig} `{Host} `{ProtoBuf} `{!EQueue RpcInstance}
    `{AssertMode} stack conf entry name init_ok timer_ok :
  assert_stops = true ->
  conf_entry "rpc.services" name (Some conf) = Some entry ->
  ~ executor_conf_ok (merged_executor_conf entry stack) ->
  exists s, XtraTaskService_init stack (Some conf) (XtraTaskService_new name) = Done (true, s) /\
    (let _ := XtraTask_is_Service stack in
     Executor_init init_ok timer_ok (Executor_new s)) = AssertFailed.
Proof.
  intros Hstop Ee Hno. unfold XtraTaskService_init. simpl in Ee.
  destruct (lookup_setting conf _) as [l|]; [|done]. rewrite init_loop_eq. simpl. rewrite Ee.
  eexists. split; [done|]. unfold accept_conf. rewrite bool_decide_false by done. simpl.
  unfold Executor_init, mbind, M_bind, on_service, zoom; simpl.
  unfold get_executor_conf, mbind, M_bind, gets, safe_assert; simpl. by rewrite Hstop.
Qed.

(** A configuration whose entry asks for no threads at all. *)
Definition bad_entry : scalars := [("instance_name", VString "xtra"); ("exec_thread_pool_size", VInt 0)]%string.
Definition bad_conf (path : string) : config := mkConfig [] [(path, [bad_entry])].

Lemma xtra_runtime_example :
  let s := mkXtraTaskService "xtra" (Some (mkExecutorConf 1 1 0)) in
  XtraTaskService_module_runtime ServiceConf_new (bad_conf "rpc_services") s = Done (1, s).
Proof.
  intros s. etransitivity.
  - apply (xtra_runtime_spec (H:=libconfig) ServiceConf_new (bad_conf "rpc_services") s (mkExecutorConf 1 1 0));
      [reflexivity|discriminate].
  - vm_compute. reflexivity.
Defined.

Lemma invalid_entry_example :
  exists s, XtraTaskService_init ServiceConf_new (Some (bad_conf "rpc.services"))
      (XtraTaskService_new "xtra") = Done (true, s) /\
    (let _ := XtraTask_is_Service ServiceConf_new in
     Executor_init true true (Executor_new s)) = AssertFailed.
Proof.
  apply (invalid_entry_traps_executor (H:=libconfig) ServiceConf_new (bad_conf "rpc.services") (SGroup bad_entry)).
  - reflexivity.
  - vm_compute. reflexivity.
  - vm_compute. intros [Hpos _]. discriminate.
Defined.
