(* ===== verification/ServerProps.v ===== *)
(** * What a server connection guarantees

    Consequences of the invariant, for every sequence of events: what is dispatched, what
    is sent, that no event traps the process, how connections end and that the send
    buffer drains. *)

From Stdlib Require Import ZArith Lia Init.Byte.
From stdpp Require Import base list strings gmap.
From S2P Require Import Prelude Endian Message Buffer RpcMessage NetConn External NetConf.
From S2P Require Import RpcInstance Service Executor Dispatcher Decode ServerConn ServerSend.
From S2P Require Import ServerRead ServerSystem ServerInv Demo.

Section Props.
Context `{Host} `{AssertMode} `{SteadyTimer}.
Variable conf : NetConf.
Context `{LibConfig} {S : Type} `{!Service S} `{!EQueue RpcInstance}.
Variable self : nat.

Let limit := recv_max_msg_size_ conf.

(** ** Draining the send buffer *)

(** After the completion of a write: the written block is off the books. *)
Definition write_completed (c : TcpConnAsync) : TcpConnAsync :=
  set_send_status Send_kDone (set_ops_cancel_timer None (write_popped c)).

Lemma handle_write_done_eq (s : Sys (S:=S)) n :
  sk_writes (socket_ (base_ (sconn s))) = [n] -> 0 < n -> timer_ok conf (sconn s) ->
  block_ok (sconn s) ->
  handle conf self EWriteDone s =
    Done (mkSys (written conf (write_completed (sconn s))) (sdisp s)
            (swire s ++ ztake n (io_block_ (send_bound_ (sconn s)))) (srcvd s)).
Proof.
  intros Ew Hn Ht Hb. cbn [handle]. rewrite Ew. eapply run_eq, on_conn_eq.
  unfold write_handler, mbind, M_bind, safe_assert; simpl.
  rewrite (proj2 (Z.ltb_lt _ _)) by lia. unfold modify. fold (write_completed (sconn s)).
  by rewrite do_write_eq.
Qed.

(** What a further round writes: nothing, or a next block. *)
Lemma written_live c :
  live c -> send_status_ c = Send_kDone ->
  written conf c = locked conf c.
Proof.
  intros [E1 E2] Hs. unfold written, guard.
  by rewrite E1, E2, Hs, !bool_decide_true by done.
Qed.

Lemma locked_writes c :
  get_length (buffer_ (send_bound_ c)) <> 0 ->
  sk_writes (socket_ (base_ (locked conf c))) = sk_writes (socket_ (base_ c)) ++ [next_write c] /\
  len (send_data (locked conf c)) = len (send_data c) - next_write c.
Proof.
  intros Hn. pose proof (next_write_range c Hn). unfold locked. rewrite (proj2 (Z.eqb_neq _ _)) by done.
  simpl. rewrite (ss_writes _ _ (armed_same_send _ _)). split; [done|].
  unfold send_data at 1; simpl. rewrite (ss_send _ _ (armed_same_send _ _)); simpl.
  rewrite zlen_zdrop by lia. lia.
Qed.

Lemma drains k (s : Sys (S:=S)) :
  send_inv conf (swire s) (sconn s) -> live (sconn s) ->
  sk_writes (socket_ (base_ (sconn s))) <> [] -> len (send_data (sconn s)) < 2 ^ 32 ->
  len (send_data (sconn s)) <= Z.of_nat k * kFixedIoBufferSize ->
  exists j s', (j <= 1 + k)%nat /\
    run_events conf self (replicate j EWriteDone) s = Some s' /\
    sent_log (sconn s') = sent_log (sconn s) /\
    swire s' = stream (sent_log (sconn s)) /\ sk_writes (socket_ (base_ (sconn s'))) = [].
Proof.
  revert s. induction k as [|k IH]; intros s Hs Hl Hw Hu Hk;
    (destruct Hs as [Hb Ht [? E2 ?|n E1 E2 Hn E4|? E2 ?]]; [done| |done]);
    pose proof (handle_write_done_eq s n E2 ltac:(lia) Ht Hb) as Eh;
    set (c1 := write_completed (sconn s)) in *;
    (assert (send_inv conf (swire s ++ ztake n (io_block_ (send_bound_ (sconn s)))) c1) as Hc1
      by (split; [done|done|]; apply phase_idle;
          [done|simpl; by rewrite E2|rewrite <-app_assoc; exact E4]));
    rewrite written_live in Eh by done;
    pose proof (get_length_small (buffer_ (send_bound_ c1)) Hu) as Eg;
    change (data_ _) with (send_data (sconn s)) in Eg;
    pose proof (zlen_nonneg (send_data (sconn s))).
  - assert (len (send_data (sconn s)) = 0) as E0 by lia.
    eexists 1%nat, _. split; [lia|]. cbn [replicate run_events enabled]. rewrite E2, Eh.
    split; [done|]. unfold locked. rewrite Eg, E0, Z.eqb_refl. cbn.
    split; [done|]. rewrite E2. split; [|done]. rewrite <-E4.
    apply zlen_nil_inv in E0. by rewrite E0, app_nil_r.
  - destruct (decide (len (send_data (sconn s)) = 0)) as [E0|N0].
    { eexists 1%nat, _. split; [lia|]. cbn [replicate run_events enabled]. rewrite E2, Eh.
      split; [done|]. unfold locked. rewrite Eg, E0, Z.eqb_refl. cbn.
      split; [done|]. rewrite E2. split; [|done]. rewrite <-E4.
      apply zlen_nil_inv in E0. by rewrite E0, app_nil_r. }
    destruct (locked_writes c1) as [Ew El]; [by rewrite Eg|].
    change (send_data c1) with (send_data (sconn s)) in El.
    edestruct IH as (j & s' & Hj & Er & Elog & Ewire & Ek); cycle -1.
    { eexists (Datatypes.S j), s'. split; [lia|]. cbn [replicate run_events enabled].
      rewrite E2, Eh. split; [exact Er|]. cbn [sconn] in *. rewrite locked_log in *.
      split; [exact Elog|]. split; [exact Ewire|exact Ek]. }
    + cbn. by apply locked_inv.
    + destruct (locked_same_recv conf c1) as [_ Es Ec _ _ _]. unfold live; cbn [sconn].
      by rewrite Es, Ec.
    + cbn. rewrite Ew. simpl. by rewrite E2.
    + cbn. rewrite El. unfold next_write. rewrite Eg. unfold kFixedIoBufferSize. lia.
    + cbn. rewrite El. unfold next_write. rewrite Eg. unfold kFixedIoBufferSize in *. lia.
Qed.

Lemma run_events_sized es (s s' : Sys (S:=S)) :
  run_events conf self es s = Some s' -> sized conf (srcvd s') -> sized conf (srcvd s).
Proof.
  revert s. induction es as [|e es IH]; intros s; simpl; [by intros [= ->]|].
  destruct (enabled e s) eqn:He; [|done]. destruct (handle conf self e s) as [s1| | |] eqn:Eh; try done.
  intros Hr Hsz. specialize (IH _ Hr Hsz). rewrite (handle_rcvd _ _ _ _ _ He Eh) in IH.
  by eapply sized_app.
Qed.

(** ** Properties *)

(** C9: the server acts on exactly the messages of the byte stream. At every moment of
    every run, the requests a connection handed to the Dispatcher are the first ones the
    reference parser finds in the bytes received, in order and each once; while the
    connection is live they are all of them, and the connection waits for precisely
    what the parser misses. *)
Theorem server_dispatches_stream (d0 : Dispatcher S) (s : Sys) :
  reach conf self d0 s -> sized conf (srcvd s) ->
  let '(all, st) := decode_all limit (RHead (srcvd s)) in
  exists ms, ms `prefix_of` all /\ sdisp s = (routes conf self ms d0).1 /\
    (live (sconn s) -> ms = all /\ holds conf st (sconn s)).
Proof.
  intros Hr Hs. destruct (reach_inv conf self d0 s Hr Hs) as [_ [ms st Hd Hh Hm|ms Hp Hm Hk Hl]].
  - fold limit in Hd. rewrite Hd. by exists ms.
  - fold limit in Hp. destruct (decode_all _ _) as [all st]. exists ms. by split_and!.
Qed.

(** C19: messages survive any chunking. When the peer sent whole well-formed messages
    within the limit, a live connection has dispatched each of them, whatever blocks they
    arrived in, holds no byte of them any more and waits for a next header. *)
Theorem server_delivers_messages (d0 : Dispatcher S) (s : Sys) ms :
  reach conf self d0 s -> sized conf (srcvd s) -> live (sconn s) ->
  srcvd s = stream ms ->
  Forall (fun m => header_wf (header_ m) /\ accept_header limit (header_ m) = true /\
                   length_ (header_ m) = len (payload_ m)) ms ->
  sdisp s = (routes conf self ms d0).1 /\ recv_data (sconn s) = [] /\
  sk_reads (socket_ (base_ (sconn s))) = [(16, on_read_handler)].
Proof.
  intros Hr Hs Hl Es Hms.
  destruct (reach_inv conf self d0 s Hr Hs) as [_ [ms' st Hd Hh Hm|? ? ? ? Hd]]; [|done].
  pose proof (decode_stream limit ms [] Hms) as Hst. rewrite app_nil_r, decode_all_nil in Hst.
  fold limit in Hd. rewrite Es, Hst, app_nil_r in Hd. simplify_eq.
  destruct Hh as (-> & _ & ->). done.
Qed.

(** C18: the blocks the bytes arrive in make no difference. Two live connections of one server
    that have received the same bytes, in whatever pieces and with whatever answers, timers
    and write completions in between, have handed the same requests to the dispatcher, hold
    the same rest, under the same header once they wait for a body, and wait for the same
    number of bytes. *)
Theorem chunking_irrelevant (d0 : Dispatcher S) (s1 s2 : Sys) :
  reach conf self d0 s1 -> reach conf self d0 s2 -> sized conf (srcvd s1) ->
  srcvd s1 = srcvd s2 -> live (sconn s1) -> live (sconn s2) ->
  sdisp s1 = sdisp s2 /\ recv_data (sconn s1) = recv_data (sconn s2) /\
  sk_reads (socket_ (base_ (sconn s1))) = sk_reads (socket_ (base_ (sconn s2))) /\
  (forall n, sk_reads (socket_ (base_ (sconn s1))) = [(n, on_read_msg_handler)] ->
    ib_header_ (recv_bound_ (sconn s1)) = ib_header_ (recv_bound_ (sconn s2))).
Proof.
  intros Hr1 Hr2 Hs E Hl1 Hl2.
  destruct (reach_inv conf self d0 s1 Hr1 Hs) as [_ [ms1 st1 Hd1 Hh1 Hm1|]]; [|done].
  rewrite E in Hs, Hd1.
  destruct (reach_inv conf self d0 s2 Hr2 Hs) as [_ [ms2 st2 Hd2 Hh2 Hm2|]]; [|done].
  rewrite Hd1 in Hd2. injection Hd2 as <- <-. split; [congruence|].
  destruct st1 as [b|h b|]; [| |done]; simpl in Hh1, Hh2.
  - destruct Hh1 as (-> & _ & K1), Hh2 as (-> & _ & K2). rewrite K1, K2. split_and!; congruence.
  - destruct Hh1 as (-> & -> & _ & _ & K1), Hh2 as (-> & -> & _ & _ & K2). rewrite K1, K2. by split_and!.
Qed.

(** A connection that received a header with a wrong magic or version, or one that
    announces more than the receive limit, has ended and reads nothing more. *)
Lemma server_refuses_bad_header (d0 : Dispatcher S) (s : Sys) :
  reach conf self d0 s -> sized conf (srcvd s) ->
  (decode_all limit (RHead (srcvd s))).2 = RBad ->
  ~ live (sconn s) /\ sk_reads (socket_ (base_ (sconn s))) = [].
Proof.
  intros Hr Hs Hbad. destruct (reach_inv conf self d0 s Hr Hs) as [_ [ms st Hd Hh Hm|]]; [|done].
  fold limit in Hd. rewrite Hd in Hbad. simpl in Hbad. by rewrite Hbad in Hh.
Qed.

(** C10: what the peer is sent is always the front of the encodings of the messages
    accepted for sending, in the order they were accepted, and one block of at most 2048
    bytes is being written at a time: as long as no two threads are inside the connection's
    [do_write] at once, each sending and each completion running to its end before the next
    (ServerRace shows what happens otherwise). *)
Theorem server_wire_in_order (d0 : Dispatcher S) (s : Sys) :
  reach conf self d0 s -> sized conf (srcvd s) ->
  swire s `prefix_of` stream (sent_log (sconn s)) /\
  (sk_writes (socket_ (base_ (sconn s))) = [] \/
   exists n, sk_writes (socket_ (base_ (sconn s))) = [n] /\ 0 < n <= kFixedIoBufferSize).
Proof.
  intros Hr Hs. destruct (reach_inv conf self d0 s Hr Hs) as [[_ _ [? E2 E3|n ? E2 Hn E4|? E2 E3]] _].
  - split; [|by left]. rewrite <-E3. by apply prefix_app_r.
  - split; [|eauto]. rewrite <-E4. by apply prefix_app_r.
  - split; [done|by left].
Qed.

(** C11: no event traps a connection while the server's settings stay as they are. Whatever
    arrives, fails, times out or is sent, the connection's handler runs to its end: no
    SAFE_ASSERT fails, nothing undefined happens, and the mutual recursion of [do_read] and
    [do_read_msg] terminates. (Settings that change at run time: WorldProps.) *)
Theorem server_never_traps (d0 : Dispatcher S) (s : Sys) e :
  reach conf self d0 s -> enabled e s = true -> sized conf (srcvd s ++ event_bytes e) ->
  exists s', handle conf self e s = Done s' /\ reach conf self d0 s'.
Proof.
  intros Hr He Hsz.
  destruct (handle_progress conf self d0 e s) as (s' & Eh & _); [|done|done|].
  - apply reach_inv; [done|]. by eapply sized_app.
  - exists s'. split; [done|]. by eapply reach_step.
Qed.

(** The run of an ended connection. *)
Lemma ended_winds_down (d0 : Dispatcher S) (s s' : Sys) es :
  reach conf self d0 s -> ~ live (sconn s) ->
  run_events conf self es s = Some s' -> sized conf (srcvd s') ->
  exists ms, sdisp s' = (routes conf self ms (sdisp s)).1 /\ winds_down (length ms) (sconn s) (sconn s').
Proof.
  revert s. induction es as [|e es IH]; intros s Hr Hl.
  { intros [= <-] _. exists []. split; [done|]. by apply winds_down_refl. }
  intros Hrun Hsz. pose proof (run_events_sized (e :: es) s s' Hrun Hsz) as Hsz0.
  simpl in Hrun. destruct (enabled e s) eqn:He; [|done].
  destruct (handle conf self e s) as [s1| | |] eqn:Eh; try done.
  pose proof (run_events_sized es s1 s' Hrun Hsz) as Hsz1.
  rewrite (handle_rcvd _ _ _ _ _ He Eh) in Hsz1.
  destruct (handle_progress conf self d0 e s) as (s2 & E2 & _ & Hend); [by apply reach_inv|done|done|].
  rewrite E2 in Eh. injection Eh as ->. destruct (Hend Hl) as (ms1 & Ed1 & Hw1).
  destruct (IH s1) as (ms2 & Ed2 & Hw2); [by eapply reach_step|apply Hw1|done|done|].
  exists (ms1 ++ ms2). split; [|rewrite length_app; by eapply winds_down_trans].
  rewrite routes_app, Ed2, Ed1. destruct (routes conf self ms1 (sdisp s)) as [d1 l1]; simpl.
  by destruct (routes conf self ms2 d1).
Qed.

(** At most one read is outstanding. *)
Lemma one_read (d0 : Dispatcher S) (s : Sys) :
  reach conf self d0 s -> sized conf (srcvd s) -> (length (sk_reads (socket_ (base_ (sconn s)))) <= 1)%nat.
Proof.
  intros Hr Hs. destruct (reach_inv conf self d0 s Hr Hs) as [_ [ms st _ Hh _|ms _ _ Hk _]]; [|rewrite Hk; cbn; lia].
  destruct st as [b|h b|]; [destruct Hh as (_ & _ & ->)|destruct Hh as (_ & _ & _ & _ & ->)|done]; cbn; lia.
Qed.

(** C20: the end of a connection is final. Once it ended, by an error, a timeout, a refused
    header or a stop, then whatever events follow it never becomes live again and issues no
    read and no write: of the operations that were outstanding some complete. All it still
    does for its peer is to hand the Dispatcher the one request whose body its outstanding
    read completes, if it does. (Without a receive limit, less than 4 GiB are received.) *)
Theorem server_end_is_final (d0 : Dispatcher S) (s s' : Sys) es :
  reach conf self d0 s -> ~ live (sconn s) ->
  run_events conf self es s = Some s' -> sized conf (srcvd s') ->
  ~ live (sconn s') /\
  sk_reads (socket_ (base_ (sconn s'))) `suffix_of` sk_reads (socket_ (base_ (sconn s))) /\
  sk_writes (socket_ (base_ (sconn s'))) `suffix_of` sk_writes (socket_ (base_ (sconn s))) /\
  exists ms, sdisp s' = (routes conf self ms (sdisp s)).1 /\
    (length ms + length (sk_reads (socket_ (base_ (sconn s')))) <=
      length (sk_reads (socket_ (base_ (sconn s)))) <= 1)%nat.
Proof.
  intros Hr Hl Hrun Hsz. destruct (ended_winds_down d0 s s' es Hr Hl Hrun Hsz) as (ms & Ed & [W1 W2 W3 W4]).
  split; [done|]. split; [done|]. split; [done|]. exists ms. split; [done|]. split; [done|].
  apply (one_read d0); [done|]. by eapply run_events_sized.
Qed.

(** C13: what was accepted is sent. Sending never stalls on a live connection: at every
    moment of every run, one completion per 2048 buffered bytes and one for the block under
    way, if there is one, put the whole encoding of every accepted message on the wire. *)
Theorem server_drains (d0 : Dispatcher S) (s : Sys) :
  reach conf self d0 s -> sized conf (srcvd s) -> live (sconn s) ->
  len (send_data (sconn s)) < 2 ^ 32 ->
  exists j s', Z.of_nat j <= 2 + len (send_data (sconn s)) / kFixedIoBufferSize /\
    run_events conf self (replicate j EWriteDone) s = Some s' /\
    sent_log (sconn s') = sent_log (sconn s) /\
    swire s' = stream (sent_log (sconn s)) /\ sk_writes (socket_ (base_ (sconn s'))) = [].
Proof.
  intros Hr Hs Hl Hu. destruct (reach_inv conf self d0 s Hr Hs) as [Hsend _ Hf].
  set (n := len (send_data (sconn s))) in *. assert (0 <= n) by apply zlen_nonneg.
  assert (0 <= n / kFixedIoBufferSize) by (unfold kFixedIoBufferSize; apply Z.div_pos; lia).
  destruct (flowing_phase conf _ _ Hsend Hf Hl Hu) as [(_ & Ew & _ & Ewire)|[_ Hw]].
  { exists 0%nat, s. split; [lia|done]. }
  destruct (drains (Z.to_nat (1 + n / kFixedIoBufferSize)) s) as (j & s' & Hj & Hrest); [done..| |].
  - fold n. unfold kFixedIoBufferSize in *. Z.div_mod_to_equations. lia.
  - exists j, s'. split; [lia|done].
Qed.

End Props.

(** ** Worked examples *)

(** Limits of 4096 bytes, operations time out after 5 seconds. *)
Definition demo_conf : NetConf :=
  set_recv_max_msg_size_ 4096 (set_ops_cancel_time_out_ 5 NetConf_new).

Definition demo_run (es : list event) : option (Sys (S:=unit)) :=
  match boot demo_conf 3 Socket_new demo_dispatcher with
  | Done s => run_events demo_conf 3 es s
  | _ => None
  end.

Lemma demo_run_reach es s : demo_run es = Some s -> reach demo_conf 3 demo_dispatcher s.
Proof.
  unfold demo_run. destruct (boot _ _ _ _) eqn:E; try done.
  apply run_events_reach, (reach_boot _ _ _ Socket_new); [|exact E]. by split.
Qed.

Lemma demo_sized b : sized demo_conf b.
Proof. by left. Qed.

Definition hi : bytes := [x68; x69].

(** A request for the echo service and one for an unknown service, in three pieces. *)
Definition demo_messages : list Message := [demo_message 1 hi; demo_message 9 hi].
Definition demo_chunks : list event :=
  [EReadDone (ztake 20 (stream demo_messages));
   EReadDone (ztake 20 (zdrop 20 (stream demo_messages)));
   EReadDone (zdrop 40 (stream demo_messages))].

Lemma server_dispatches_stream_witness :
  exists s, demo_run demo_chunks = Some s /\
    let '(all, st) := decode_all (recv_max_msg_size_ demo_conf) (RHead (srcvd s)) in
    exists ms, ms `prefix_of` all /\ sdisp s = (routes demo_conf 3 ms demo_dispatcher).1 /\
      (live (sconn s) -> ms = all /\ holds demo_conf st (sconn s)).
Proof.
  eexists. split; [vm_compute; reflexivity|].
  apply (server_dispatches_stream demo_conf 3 demo_dispatcher).
  - apply (demo_run_reach demo_chunks). vm_compute. reflexivity.
  - apply demo_sized.
Defined.

Lemma server_delivers_messages_witness :
  exists s, demo_run demo_chunks = Some s /\
    sdisp s = (routes demo_conf 3 demo_messages demo_dispatcher).1 /\ recv_data (sconn s) = [] /\
    sk_reads (socket_ (base_ (sconn s))) = [(16, on_read_handler)].
Proof.
  eexists. split; [vm_compute; reflexivity|].
  apply (server_delivers_messages demo_conf 3 demo_dispatcher).
  - apply (demo_run_reach demo_chunks). vm_compute. reflexivity.
  - apply demo_sized.
  - split; reflexivity.
  - vm_compute. reflexivity.
  - do 2 (apply Forall_cons; split;
      [split; [apply Message_of_data_wf|split; vm_compute; reflexivity]|]).
    apply Forall_nil. exact I.
Defined.

(** The same bytes in two pieces, with an answer in between. *)
Definition demo_other_chunks : list event :=
  [EReadDone (ztake 17 (stream demo_messages)); ESend (Message_of_data hi);
   EReadDone (zdrop 17 (stream demo_messages))].

Lemma chunking_irrelevant_witness :
  exists s1 s2, demo_run demo_chunks = Some s1 /\ demo_run demo_other_chunks = Some s2 /\
    sdisp s1 = sdisp s2 /\ recv_data (sconn s1) = recv_data (sconn s2).
Proof.
  eexists _, _. split; [vm_compute; reflexivity|]. split; [vm_compute; reflexivity|].
  edestruct (chunking_irrelevant demo_conf 3 demo_dispatcher) as (Hd & Hb & _); [| | | | | |split; [exact Hd|exact Hb]].
  - apply (demo_run_reach demo_chunks). vm_compute. reflexivity.
  - apply (demo_run_reach demo_other_chunks). vm_compute. reflexivity.
  - apply demo_sized.
  - reflexivity.
  - split; reflexivity.
  - split; reflexivity.
Defined.

(** Two answers, the first block written. *)
Definition demo_answers : list event :=
  [ESend (Message_of_data (replicate 3000 x61)); ESend (Message_of_data hi); EWriteDone].

Lemma server_wire_in_order_witness :
  exists s, demo_run demo_answers = Some s /\ len (swire s) = 2048 /\
    swire s `prefix_of` stream (sent_log (sconn s)) /\
    (sk_writes (socket_ (base_ (sconn s))) = [] \/
     exists n, sk_writes (socket_ (base_ (sconn s))) = [n] /\ 0 < n <= kFixedIoBufferSize).
Proof.
  eexists. split; [vm_compute; reflexivity|]. split; [vm_compute; reflexivity|].
  apply (server_wire_in_order demo_conf 3 demo_dispatcher).
  - apply (demo_run_reach demo_answers). vm_compute. reflexivity.
  - apply demo_sized.
Defined.

Lemma server_never_traps_witness :
  exists s, demo_run demo_answers = Some s /\
    exists s', handle demo_conf 3 EWriteDone s = Done s' /\ reach demo_conf 3 demo_dispatcher s'.
Proof.
  eexists. split; [vm_compute; reflexivity|].
  apply (server_never_traps demo_conf 3 demo_dispatcher).
  - apply (demo_run_reach demo_answers). vm_compute. reflexivity.
  - vm_compute. reflexivity.
  - apply demo_sized.
Defined.

(** The header and the first bytes of a request arrive, then the operation times out: the
    rest of the body, which the outstanding read delivers, is still dispatched, an answer
    is not sent, and the connection stops. *)
Definition demo_ended : list event :=
  [EReadDone (ztake 20 (stream demo_messages)); ETimeout ec_success].
Definition demo_afterwards : list event :=
  [ESend (Message_of_data hi); EReadDone (ztake 14 (zdrop 20 (stream demo_messages))); EStop].

Lemma server_end_is_final_witness :
  exists s s', demo_run demo_ended = Some s /\ run_events demo_conf 3 demo_afterwards s = Some s' /\
    sdisp s' = (routes demo_conf 3 [demo_message 1 hi] (sdisp s)).1 /\
    ~ live (sconn s') /\ sk_reads (socket_ (base_ (sconn s'))) = [] /\
    sk_writes (socket_ (base_ (sconn s'))) `suffix_of` sk_writes (socket_ (base_ (sconn s))) /\
    exists ms, sdisp s' = (routes demo_conf 3 ms (sdisp s)).1 /\ (length ms <= 1)%nat.
Proof.
  eexists _, _. split; [vm_compute; reflexivity|]. split; [vm_compute; reflexivity|].
  split; [vm_compute; reflexivity|].
  edestruct (fun s s' => server_end_is_final demo_conf 3 demo_dispatcher s s' demo_afterwards) as (Hl & _ & Hw & ms & Hd & Hn).
  - apply (demo_run_reach demo_ended). vm_compute. reflexivity.
  - intros [E _]. vm_compute in E. discriminate.
  - vm_compute. reflexivity.
  - apply demo_sized.
  - split; [exact Hl|]. split; [reflexivity|]. split; [exact Hw|]. exists ms. split; [exact Hd|lia].
Defined.

Lemma server_drains_witness :
  exists s, demo_run demo_answers = Some s /\
  exists j s', Z.of_nat j <= 2 + len (send_data (sconn s)) / kFixedIoBufferSize /\
    run_events demo_conf 3 (replicate j EWriteDone) s = Some s' /\
    sent_log (sconn s') = sent_log (sconn s) /\
    swire s' = stream (sent_log (sconn s)) /\ sk_writes (socket_ (base_ (sconn s'))) = [].
Proof.
  eexists. split; [vm_compute; reflexivity|].
  apply (server_drains demo_conf 3 demo_dispatcher).
  - apply (demo_run_reach demo_answers). vm_compute. reflexivity.
  - apply demo_sized.
  - split; reflexivity.
  - vm_compute. reflexivity.
Defined.
