(* ===== verification/ServerRace.v ===== *)
(** * Two threads inside [do_write]

    [do_write] tests [send_status_] before it takes [bound_mutex_]. Here each thread that
    sends takes three steps: the append (under the mutex), the tests, the critical
    section. A schedule exists after which two writes are outstanding on the same
    [io_block_], against the comment of TcpConnAsync.h that only one is. *)

From Stdlib Require Import ZArith Lia Init.Byte.
From stdpp Require Import base list strings gmap.
From S2P Require Import Prelude Endian Message Buffer RpcMessage NetConn External NetConf.
From S2P Require Import RpcInstance Service Executor Dispatcher Decode ServerConn ServerSend.
From S2P Require Import ServerRead Demo.

(** Where a thread is in [async_send_message]. *)
Inductive pc :=
| PcAppend (msg : Message)     (* about to append *)
| PcTest                       (* about to test send_status_ and the connection *)
| PcLocked                     (* passed the tests, about to take the mutex *)
| PcReturned.

Section Race.
Context `{Host} `{AssertMode} `{SteadyTimer}.
Variable conf : NetConf.

Definition thread_step (p : pc) : M TcpConnAsync pc :=
  match p with
  | PcAppend msg =>
      if over_limit conf msg then mret PcReturned
      else _ ← send_append msg; mret PcTest
  | PcTest =>
      r ← do_write_guard;
      mret (match r with Some _ => PcReturned | None => PcLocked end)
  | PcLocked => _ ← do_write_locked conf; mret PcReturned
  | PcReturned => mret PcReturned
  end.

(** Two threads in [async_send_message]. *)
Definition run_schedule : list nat -> list pc * TcpConnAsync -> outcome (list pc * TcpConnAsync) :=
  run_threads thread_step.

Lemma thread_append msg c :
  over_limit conf msg = false -> thread_step (PcAppend msg) c = Done (PcTest, appended msg c).
Proof. intros E. cbn. rewrite E. unfold mbind, M_bind. by rewrite send_append_eq. Qed.

Lemma thread_test c : guard c = None -> thread_step PcTest c = Done (PcLocked, c).
Proof. intros E. cbn. unfold mbind, M_bind. by rewrite do_write_guard_eq, E. Qed.

Lemma thread_locked c b c' :
  do_write_locked conf c = Done (b, c') -> thread_step PcLocked c = Done (PcReturned, c').
Proof. intros E. cbn. unfold mbind, M_bind. by rewrite E. Qed.

(** A thread that is not interrupted does what [async_send_message] does. *)
Lemma run_schedule_alone msg c :
  timer_ok conf c -> block_ok c ->
  exists ps, run_schedule [0; 0; 0]%nat ([PcAppend msg], c) = Done (ps, sent conf msg c).
Proof.
  intros Ht Hb. unfold run_schedule, run_threads, step_thread, sent, thread_step; simpl.
  destruct (over_limit conf msg); [by eexists|].
  unfold mbind, M_bind. rewrite send_append_eq. simpl. rewrite do_write_guard_eq. simpl.
  unfold written. destruct (guard (appended msg c)); [by eexists|]. simpl.
  rewrite do_write_locked_eq by done. by eexists.
Qed.

(** The second critical section after the first: status and locks do not stop it. *)
Lemma locked_again c :
  timer_ok conf c -> block_ok c -> kFixedIoBufferSize < len (send_data c) < 2 ^ 32 ->
  let n2 := Z.min (len (send_data c) - kFixedIoBufferSize) kFixedIoBufferSize in
  exists c2, do_write_locked conf (locked conf c) = Done (true, c2) /\
    sk_writes (socket_ (base_ c2)) = sk_writes (socket_ (base_ c)) ++ [kFixedIoBufferSize; n2] /\
    ztake n2 (io_block_ (send_bound_ c2)) = ztake n2 (zdrop kFixedIoBufferSize (send_data c)).
Proof.
  intros Ht Hb [Hl Hu] n2. destruct (locked_same_recv conf c) as [_ _ _ _ Ht1 Hb1].
  assert (get_length (buffer_ (send_bound_ c)) = len (send_data c)) as Eg
    by (by apply get_length_small).
  assert (next_write c = kFixedIoBufferSize) as En
    by (unfold next_write; rewrite Eg; lia).
  assert (send_data (locked conf c) = zdrop kFixedIoBufferSize (send_data c)) as Ed.
  { unfold locked. rewrite Eg. rewrite (proj2 (Z.eqb_neq _ _)) by (unfold kFixedIoBufferSize in *; lia).
    unfold send_data at 1; simpl. by rewrite (ss_send _ _ (armed_same_send _ _)), En. }
  assert (sk_writes (socket_ (base_ (locked conf c))) =
          sk_writes (socket_ (base_ c)) ++ [kFixedIoBufferSize]) as Ew.
  { unfold locked. rewrite Eg, (proj2 (Z.eqb_neq _ _)) by (unfold kFixedIoBufferSize in *; lia).
    simpl. by rewrite (ss_writes _ _ (armed_same_send _ _)), En. }
  set (c1 := locked conf c) in *.
  assert (len (send_data c1) = len (send_data c) - kFixedIoBufferSize) as El
    by (rewrite Ed, zlen_zdrop by done; lia).
  assert (get_length (buffer_ (send_bound_ c1)) = len (send_data c1)) as Eg1
    by (apply get_length_small; change (data_ _) with (send_data c1); unfold kFixedIoBufferSize in *; lia).
  assert (next_write c1 = n2) as En1 by (unfold next_write, n2; rewrite Eg1; lia).
  exists (locked conf c1). split; [apply do_write_locked_eq; auto|].
  unfold locked at 1 2. rewrite Eg1, (proj2 (Z.eqb_neq _ _)) by lia.
  simpl. rewrite (ss_writes _ _ (armed_same_send _ _)), (ss_send _ _ (armed_same_send _ _)); simpl.
  rewrite Ew, En1, <-app_assoc, ztake_block, Ed by (unfold n2, kFixedIoBufferSize in *; lia). done.
Qed.

(** C36: the unlocked test of [send_status_] lets two writes start. On any idle live
    connection, when two threads send messages of together more than one block, the
    schedule in which both pass the test before either enters the critical section
    leaves two writes outstanding, and the block the first one is to send was already
    overwritten by the second. *)
Theorem do_write_race m1 m2 c :
  live c -> send_status_ c = Send_kDone -> sk_writes (socket_ (base_ c)) = [] ->
  send_data c = [] -> timer_ok conf c -> block_ok c ->
  over_limit conf m1 = false -> over_limit conf m2 = false ->
  kFixedIoBufferSize < len (stream [m1; m2]) < 2 ^ 32 ->
  let n2 := Z.min (len (stream [m1; m2]) - kFixedIoBufferSize) kFixedIoBufferSize in
  exists c', run_schedule [0; 1; 0; 1; 0; 1]%nat ([PcAppend m1; PcAppend m2], c) =
               Done ([PcReturned; PcReturned], c') /\
    sk_writes (socket_ (base_ c')) = [kFixedIoBufferSize; n2] /\
    ztake n2 (io_block_ (send_bound_ c')) =
      ztake n2 (zdrop kFixedIoBufferSize (stream [m1; m2])).
Proof.
  intros [Hw Hc] Hs Ek Ed Ht Hb Ho1 Ho2 Hl n2.
  set (c2 := appended m2 (appended m1 c)).
  assert (send_data c2 = stream [m1; m2]) as Ed2.
  { change [m1; m2] with ([m1] ++ [m2]). rewrite stream_app, !stream_singleton.
    unfold c2, appended, send_data at 1; simpl. unfold send_data at 1; simpl. by rewrite Ed. }
  assert (guard c2 = None) as Hg.
  { unfold guard. change (send_status_ c2) with (send_status_ c).
    change (conn_stat c2) with (conn_stat c). change (was_cancelled_ c2) with (was_cancelled_ c).
    by rewrite Hs, Hw, Hc, !bool_decide_true by done. }
  rewrite <-Ed2 in Hl.
  destruct (locked_again c2 Ht Hb Hl) as (c' & E & Ek' & Eb).
  exists c'. rewrite Ed2 in *. change (sk_writes (socket_ (base_ c2))) with (sk_writes (socket_ (base_ c))) in Ek'.
  rewrite Ek in Ek'. split; [|done].
  unfold run_schedule. do 2 (erewrite run_threads_step by (reflexivity || by apply thread_append)).
  fold c2. do 2 (erewrite run_threads_step by (reflexivity || by apply thread_test)).
  erewrite run_threads_step by (reflexivity || by eapply thread_locked, do_write_locked_eq).
  by erewrite run_threads_step by (reflexivity || by eapply thread_locked).
Qed.
End Race.

(** An open, idle connection. *)
Definition demo_conn : TcpConnAsync :=
  upd_base (set_conn_stat kWorking) (TcpConnAsync_new Socket_new).

(** The second message's tail sits where the first block is being sent from. *)
Lemma do_write_race_witness :
  let m1 := Message_of_data (replicate 2040 x61) in
  let m2 := Message_of_data (replicate 100 x62) in
  let n2 := Z.min (len (stream [m1; m2]) - kFixedIoBufferSize) kFixedIoBufferSize in
  n2 = 124 /\
  exists c', run_schedule NetConf_new [0; 1; 0; 1; 0; 1]%nat ([PcAppend m1; PcAppend m2], demo_conn) =
               Done ([PcReturned; PcReturned], c') /\
    sk_writes (socket_ (base_ c')) = [kFixedIoBufferSize; n2] /\
    ztake n2 (io_block_ (send_bound_ c')) =
      ztake n2 (zdrop kFixedIoBufferSize (stream [m1; m2])).
Proof.
  intros m1 m2 n2. split; [vm_compute; reflexivity|].
  apply (do_write_race NetConf_new m1 m2 demo_conn).
  - split; reflexivity.
  - reflexivity.
  - reflexivity.
  - reflexivity.
  - intros _. reflexivity.
  - vm_compute. reflexivity.
  - vm_compute. reflexivity.
  - vm_compute. reflexivity.
  - split; vm_compute; reflexivity.
Defined.
