(* ===== verification/NetServer.v ===== *)
(** * Network/NetServer.{h,cpp}: the listening server

    Admission of connections, the feed timer of the token bucket and the runtime update
    of the settings. The acceptor and the io_service are asio's: [accepting] counts the
    outstanding [async_accept]s, [aborted_feeds] the feed handlers the io_service still has
    to run with [operation_aborted]. Connections live in [ns_conns] under their numbers
    (what the weak pointers of requests refer to); sockets that were shut down and closed
    at once are in [ns_refused]. *)

From Stdlib Require Import ZArith Lia Init.Byte.
From stdpp Require Import base list strings gmap sorting.
From S2P Require Import Prelude Endian Message Buffer RpcMessage NetConn External NetConf.
From S2P Require Import RpcInstance Service Executor Dispatcher Decode ServerConn.

(** The order of [std::string]. *)
Definition string_le (a b : string) : Prop := String.leb a b = true.
#[export] Instance string_le_dec : RelDecision string_le.
Proof. intros a b. unfold string_le. apply _. Defined.

Section NetServer.
Context `{Host} `{AssertMode} `{SteadyTimer} `{LibConfig} `{BoostString}
  {S : Type} `{!Service S} `{!EQueue RpcInstance}.

Record NetServer := mkNetServer {
  ns_conf : NetConf;
  current_concurrency_ : Z;               (* static std::atomic<int32_t> *)
  accepting : nat;
  aborted_feeds : nat;
  ns_conns : gmap nat TcpConnAsync;
  next_conn : nat;
  ns_refused : list Socket;
  ns_calls : list pool_call
}.

(** [NetServer(instance_name)] *)
Definition NetServer_new : NetServer := mkNetServer NetConf_new 0 0 0 ∅ 0 [] [].

Definition set_ns_conf (c : NetConf) (s : NetServer) : NetServer :=
  mkNetServer c (current_concurrency_ s) (accepting s) (aborted_feeds s) (ns_conns s)
    (next_conn s) (ns_refused s) (ns_calls s).
Definition set_concurrency (z : Z) (s : NetServer) : NetServer :=
  mkNetServer (ns_conf s) z (accepting s) (aborted_feeds s) (ns_conns s)
    (next_conn s) (ns_refused s) (ns_calls s).
Definition set_accepting (n : nat) (s : NetServer) : NetServer :=
  mkNetServer (ns_conf s) (current_concurrency_ s) n (aborted_feeds s) (ns_conns s)
    (next_conn s) (ns_refused s) (ns_calls s).
Definition set_aborted (n : nat) (s : NetServer) : NetServer :=
  mkNetServer (ns_conf s) (current_concurrency_ s) (accepting s) n (ns_conns s)
    (next_conn s) (ns_refused s) (ns_calls s).
Definition set_conns (m : gmap nat TcpConnAsync) (s : NetServer) : NetServer :=
  mkNetServer (ns_conf s) (current_concurrency_ s) (accepting s) (aborted_feeds s) m
    (next_conn s) (ns_refused s) (ns_calls s).
Definition set_next_conn (n : nat) (s : NetServer) : NetServer :=
  mkNetServer (ns_conf s) (current_concurrency_ s) (accepting s) (aborted_feeds s) (ns_conns s)
    n (ns_refused s) (ns_calls s).
Definition add_refused (k : Socket) (s : NetServer) : NetServer :=
  mkNetServer (ns_conf s) (current_concurrency_ s) (accepting s) (aborted_feeds s) (ns_conns s)
    (next_conn s) (ns_refused s ++ [k]) (ns_calls s).
Definition add_ns_call (k : pool_call) (s : NetServer) : NetServer :=
  mkNetServer (ns_conf s) (current_concurrency_ s) (accepting s) (aborted_feeds s) (ns_conns s)
    (next_conn s) (ns_refused s) (ns_calls s ++ [k]).

Definition on_conf {A} (m : M NetConf A) : M NetServer A := zoom ns_conf (fun c => set_ns_conf c) m.

Definition abort_feeds (n : nat) : M NetServer unit :=
  modify (fun s => set_aborted (aborted_feeds s + n) s).

(** [reset(new steady_timer(..)); expires_from_now(seconds(1)); async_wait(..)] *)
Definition start_feed_timer : M NetServer unit :=
  old ← on_conf (gets timed_feed_token_);
  _ ← abort_feeds (match old with Some t => timer_destroy t | None => 0%nat end);
  let '(cancelled, t) := expires_from_now 1 timer_new in
  _ ← abort_feeds cancelled;
  on_conf (modify (set_timed_feed_token_ (Some (timer_async_wait t)))).

(** [init()]; [address_ok]: whether asio's [address::from_string] takes a text as an address,
    or throws; [threads_ok]: what [init_threads] returns. *)
Definition NetServer_init (setting_ptr : option Config) (address_ok : string -> bool) (threads_ok : bool)
    : M NetServer bool :=
  ok ← on_conf (load_conf_ptr setting_ptr);
  if negb ok then mret false else
  addr ← on_conf (gets bind_addr_);
  if negb (address_ok addr) then throw else
  speed ← on_conf (gets service_speed_);
  _ ← when (negb (speed =? 0)) start_feed_timer;
  threads ← on_conf (gets io_thread_number_);
  _ ← modify (add_ns_call (CallInitThreads threads));
  if negb threads_ok then mret false else
  _ ← modify (add_ns_call (CallAttachRuntime "NetServer"));
  _ ← modify (add_ns_call (CallAttachStatus "NetServer"));
  mret true.

(** The feed timer's handler runs: [aborted] when it was cancelled. *)
Definition feed_handler_runs (ec : error_code) : M NetServer unit :=
  n ← on_conf (timed_feed_token_handler ec);
  abort_feeds n.

(** The two ways it comes to run: a wait of the timer is over, or it was cancelled. *)
Definition feed_timer_fires : M NetServer unit :=
  _ ← on_conf (modify (fun c => set_timed_feed_token_ (timer_fired <$> timed_feed_token_ c) c));
  feed_handler_runs ec_success.
Definition aborted_feed_runs : M NetServer unit :=
  _ ← modify (fun s => set_aborted (aborted_feeds s - 1) s);
  feed_handler_runs ec_operation_aborted.

(** ** Accepting *)

Definition do_accept : M NetServer unit := modify (fun s => set_accepting (1 + accepting s) s).

(** [NetServer::service()]; [listen_ok]: whether the acceptor could be opened, bound and
    listen on the endpoint, or one of these threw. *)
Definition service (listen_ok : bool) : M NetServer unit :=
  _ ← modify (add_ns_call CallStartThreads);
  if negb listen_ok then throw else
  do_accept.

Definition refuse (sock : Socket) : M NetServer unit :=
  modify (add_refused (sock_call_add CallClose (sock_call_add (CallShutdown Shut_kBoth) sock))).

(** [make_shared<TcpConnAsync>(sock_ptr, *this)] and [start()]; the number of the
    connection is fresh. *)
Definition start_connection (sock : Socket) : M (NetServer * Dispatcher S) unit := fun st =>
  let '(s, d) := st in
  let id := next_conn s in
  match start (ns_conf s) id (TcpConnAsync_new sock, d) with
  | Done (_, (c, d')) =>
      Done (tt, (set_concurrency (current_concurrency_ s + 1)
                   (set_next_conn (1 + id) (set_conns (<[id := c]> (ns_conns s)) s)), d'))
  | AssertFailed => AssertFailed
  | Undefined => Undefined
  | OutOfFuel => OutOfFuel
  end.

(** [~TcpConnAsync()] *)
Definition release_connection (id : nat) : M NetServer unit :=
  modify (fun s => set_concurrency (current_concurrency_ s - 1) (set_conns (delete id (ns_conns s)) s)).

Definition on_server {A} (m : M NetServer A) : M (NetServer * Dispatcher S) A :=
  zoom fst (fun s st => (s, snd st)) m.

(** The [do { } while (0)] of [accept_handler]; [remote]: the peer's address, [None] when
    [remote_endpoint] fails. *)
Definition accept_one (ec : error_code) (remote : option string) (sock : Socket)
    : M (NetServer * Dispatcher S) unit :=
  if ec_failed ec then mret tt else
  match remote with
  | None => mret tt
  | Some remote_ip =>
      safe ← on_server (on_conf (gets (check_safe_ip remote_ip)));
      if negb safe then on_server (refuse sock) else
      token ← on_server (on_conf get_service_token);
      if negb token then on_server (refuse sock) else
      limit ← on_server (on_conf (gets service_concurrency_));
      current ← on_server (gets current_concurrency_);
      if negb (limit =? 0) && (limit <? current) then on_server (refuse sock) else
      start_connection sock
  end.

(** The accept that completed is no longer outstanding. *)
Definition accept_handler (ec : error_code) (remote : option string) (sock : Socket)
    : M (NetServer * Dispatcher S) unit :=
  _ ← on_server (modify (fun s => set_accepting (accepting s - 1) s));
  _ ← accept_one ec remote sock;
  on_server do_accept.

(** [io_service_run] over what its rounds observe: the two tests of the thread's status
    and whether [io_service_.run] ended with an error. The result counts the runs. *)
Fixpoint io_service_run (rounds : list (bool * bool * bool)) : nat :=
  match rounds with
  | [] => 0
  | (terminating, suspended, failed) :: rounds =>
      if (terminating : bool) then 0
      else if (suspended : bool) then io_service_run rounds
      else if (failed : bool) then 1 else 1 + io_service_run rounds
  end%nat.

Definition io_service_stop_graceful : M NetServer Z :=
  _ ← modify (add_ns_call CallGracefulStop); mret 0.
Definition io_service_join : M NetServer Z :=
  _ ← modify (add_ns_call CallJoin); mret 0.

(** ** Runtime update *)

(** [module_runtime(cfg)]: a setting is assigned when it differs. *)
Definition NetServer_module_runtime (cfg : Config) : M NetServer Z := fun s =>
  match load_conf cfg NetConf_new with
  | Done (false, _) => Done (-1, s)
  | Done (true, conf) =>
      (_ ← on_conf (modify (set_session_cancel_time_out_ (session_cancel_time_out_ conf)));
       _ ← on_conf (modify (set_ops_cancel_time_out_ (ops_cancel_time_out_ conf)));
       _ ← on_conf (modify (set_safe_ip_ (safe_ip_ conf)));
       speed ← on_conf (gets service_speed_);
       _ ← when (negb (speed =? service_speed_ conf))
         (_ ← on_conf (modify (set_service_speed_ (service_speed_ conf)));
          if negb (service_speed_ conf =? 0) then start_feed_timer
          else
            timer ← on_conf (gets timed_feed_token_);
            match timer with
            | None => mret tt
            | Some t =>
                let '(cancelled, t) := timer_cancel t in
                _ ← abort_feeds (cancelled + timer_destroy t);
                on_conf (modify (set_timed_feed_token_ None))
            end);
       _ ← on_conf (modify (set_service_concurrency_ (service_concurrency_ conf)));
       mret 0) s
  | AssertFailed => AssertFailed
  | Undefined => Undefined
  | OutOfFuel => OutOfFuel
  end.
(** ** Status *)

(** A [std::set] is iterated in the order of its strings. *)
Definition in_order (s : gset string) : list string := merge_sort string_le (elements s).

Definition safe_ips (s : gset string) : string :=
  foldr (fun ip text => ip +:+ ", " +:+ text)%string ""%string (in_order s).

(** [module_status]: the entry's name and its text. *)
Definition NetServer_module_status (instance_name : string) (s : NetServer) : string * string :=
  let c := ns_conf s in
  ("NetServer",
   status_line "instance_name" instance_name +:+
   status_line "service_addr" (bind_addr_ c +:+ "@" +:+ shown (bind_port_ c)) +:+
   status_line "backlog_size" (shown (backlog_size_ c)) +:+
   status_line "io_thread_pool_size" (shown (io_thread_number_ c)) +:+
   status_line "safe_ips" (safe_ips (safe_ip_ c)) +:+
   blank_line +:+
   status_line "service_enabled" (shown_bool (service_enabled_ c)) +:+
   status_line "service_speed_limit(tps)" (shown (service_speed_ c)) +:+
   status_line "service_concurrency" (shown (service_concurrency_ c)) +:+
   status_line "session_cancel_time_out" (shown (session_cancel_time_out_ c)) +:+
   status_line "ops_cancel_time_out" (shown (ops_cancel_time_out_ c)))%string.
End NetServer.
