(* ===== verification/NetServerProps.v ===== *)
(** * Properties of the listening server

    Which connections are let in and what becomes of the others, what a runtime update
    changes, and what it does to the feed timer. *)

From Stdlib Require Import ZArith Lia Init.Byte.
From stdpp Require Import base list strings gmap.
From S2P Require Import Prelude Endian Message Buffer RpcMessage NetConn External NetConf.
From S2P Require Import RpcInstance Service Executor Dispatcher Decode ServerConn ServerSend.
From S2P Require Import ServerRead ServerSystem ServerInv NetServer Demo.

Section Props.
Context `{Host} `{AssertMode} `{SteadyTimer} `{!SteadyTimerLaws} `{LibConfig} `{BoostString}
  {S : Type} `{!Service S} `{!EQueue RpcInstance}.
Abbreviation World := (NetServer * Dispatcher S)%type.

(** ** Admission *)

(** The verdicts on an accepted socket, in the order the tests are made. *)
Inductive verdict := Failed | UnsafeIp | NoToken | Busy | LetIn.

#[export] Instance verdict_eq_dec : EqDecision verdict.
Proof. solve_decision. Defined.

Definition has_token (c : NetConf) : bool :=
  service_enabled_ c && ((service_speed_ c =? 0) || (0 <? service_token_ c)).

Definition judge (ec : error_code) (remote : option string) (s : NetServer) : verdict :=
  match ec_failed ec, remote with
  | true, _ | _, None => Failed
  | false, Some ip =>
      if negb (check_safe_ip ip (ns_conf s)) then UnsafeIp
      else if negb (has_token (ns_conf s)) then NoToken
      else if negb (service_concurrency_ (ns_conf s) =? 0) &&
              (service_concurrency_ (ns_conf s) <? current_concurrency_ s) then Busy
      else LetIn
  end.

(** A token is spent. *)
Definition spend (c : NetConf) : NetConf :=
  if service_speed_ c =? 0 then c else set_service_token_ (service_token_ c - 1) c.

Definition closed_socket (sock : Socket) : Socket :=
  sock_call_add CallClose (sock_call_add (CallShutdown Shut_kBoth) sock).

Lemma get_service_token_eq c :
  get_service_token c = Done (has_token c, if has_token c then spend c else c).
Proof.
  unfold get_service_token, has_token, spend, mbind, M_bind, gets, modify.
  destruct (service_enabled_ c); simpl; [|done].
  destruct (service_speed_ c =? 0); simpl; [done|].
  destruct (0 <? service_token_ c) eqn:E; bool_prop; simpl.
  - by rewrite (proj2 (Z.leb_gt _ _)).
  - by rewrite (proj2 (Z.leb_le _ _)).
Qed.

(** A connection that just started, with the settings [conf]. *)
Record fresh_conn (conf : NetConf) (c : TcpConnAsync) : Prop := {
  fc_live : live c;
  fc_holds : holds conf (RHead []) c;
  fc_send : send_inv conf [] c;
  fc_log : sent_log c = [];
  fc_status : send_status_ c = Send_kDone
}.

(** The server that took [c] in. *)
Definition admitted (c : TcpConnAsync) (s : NetServer) : NetServer :=
  set_concurrency (current_concurrency_ s + 1)
    (set_next_conn (1 + next_conn s) (set_conns (<[next_conn s := c]> (ns_conns s)) s)).

Lemma start_connection_eq sock (s : NetServer) (d : Dispatcher S) :
  idle_socket sock ->
  exists c, start_connection sock (s, d) = Done (tt, (admitted c s, d)) /\ fresh_conn (ns_conf s) c.
Proof.
  intros Hi. destruct (boot_spec (ns_conf s) (next_conn s) sock d Hi) as
    (s0 & E & Hs & Hl & Hh & Hlog & Hst & Ed & _ & _).
  unfold boot, run in E. unfold start_connection. cbn [sconn sdisp] in E.
  destruct (start _ _ _) as [[[] [c d']]| | |]; try done. injection E as <-. simpl in *. subst d'.
  by exists c.
Qed.

Lemma accept_one_eq ec remote sock (s : NetServer) (d : Dispatcher S) :
  idle_socket sock ->
  match judge ec remote s with
  | Failed => accept_one ec remote sock (s, d) = Done (tt, (s, d))
  | UnsafeIp | NoToken => accept_one ec remote sock (s, d) = Done (tt, (add_refused (closed_socket sock) s, d))
  | Busy => accept_one ec remote sock (s, d) =
      Done (tt, (add_refused (closed_socket sock) (set_ns_conf (spend (ns_conf s)) s), d))
  | LetIn => accept_one ec remote sock (s, d) =
      start_connection sock (set_ns_conf (spend (ns_conf s)) s, d)
  end.
Proof.
  intros Hi. unfold judge, accept_one. destruct (ec_failed ec); [done|]. destruct remote as [ip|]; [|done].
  unfold mbind, M_bind, on_server, on_conf, zoom, gets; simpl.
  destruct (check_safe_ip ip (ns_conf s)); simpl; [|by destruct s].
  rewrite get_service_token_eq. simpl. destruct (has_token (ns_conf s)); simpl; [|by destruct s].
  assert (service_concurrency_ (spend (ns_conf s)) = service_concurrency_ (ns_conf s)) as ->
    by (unfold spend; case_match; [done|]; by destruct (ns_conf s)).
  destruct (_ && _); done.
Qed.

(** What the verdict makes of the server. *)
Definition accepted (v : verdict) (sock : Socket) (s s' : NetServer) : Prop :=
  match v with
  | Failed => s' = s
  | UnsafeIp | NoToken => s' = add_refused (closed_socket sock) s
  | Busy => s' = add_refused (closed_socket sock) (set_ns_conf (spend (ns_conf s)) s)
  | LetIn => exists c, s' = admitted c (set_ns_conf (spend (ns_conf s)) s) /\ fresh_conn (ns_conf s') c
  end.

Lemma accept_handler_run ec remote sock (s : NetServer) (d : Dispatcher S) :
  idle_socket sock -> (0 < accepting s)%nat ->
  exists s', accept_handler ec remote sock (s, d) = Done (tt, (s', d)) /\
    accepted (judge ec remote s) sock s s'.
Proof.
  intros Hi Ha. unfold accept_handler. set (s1 := set_accepting (accepting s - 1) s).
  assert (set_accepting (accepting s) s = s) as Hs by (by destruct s).
  pose proof (accept_one_eq ec remote sock s1 d Hi) as Hone.
  change (judge ec remote s1) with (judge ec remote s) in Hone.
  unfold mbind at 1, M_bind at 1. change (on_server _ (s, d)) with (Done (A:=unit * World) (tt, (s1, d))).
  unfold mbind, M_bind, on_server, zoom, do_accept, modify. cbn [fst snd].
  destruct (judge ec remote s); try (rewrite Hone; cbn [fst snd]; eexists; split; [done|];
    subst s1; simpl; replace (Datatypes.S (accepting s - 1)) with (accepting s) by lia; by destruct s).
  destruct (start_connection_eq sock (set_ns_conf (spend (ns_conf s1)) s1) d Hi) as (c & E & Hc).
  rewrite Hone, E. cbn [fst snd]. eexists. split; [done|]. exists c. split; [|exact Hc].
  subst s1. simpl. replace (Datatypes.S (accepting s - 1)) with (accepting s) by lia. by destruct s.
Qed.

(** C31: admission. A completed accept always leads to the next one. An erroneous accept has
    no other effect; a peer off the white list, one without a token and one over the
    concurrency limit find their socket shut down and closed, and only the last has
    spent a token; any other peer gets a live connection, which waits for a header. *)
Theorem accept_handler_spec ec remote sock (s : NetServer) (d : Dispatcher S) :
  idle_socket sock -> (0 < accepting s)%nat ->
  exists s', accept_handler ec remote sock (s, d) = Done (tt, (s', d)) /\ accepting s' = accepting s /\
  match judge ec remote s with
  | Failed => s' = s
  | UnsafeIp | NoToken => s' = add_refused (closed_socket sock) s
  | Busy => s' = add_refused (closed_socket sock) (set_ns_conf (spend (ns_conf s)) s)
  | LetIn =>
      ns_conf s' = spend (ns_conf s) /\ current_concurrency_ s' = current_concurrency_ s + 1 /\
      ns_refused s' = ns_refused s /\
      exists c, ns_conns s' = <[next_conn s := c]> (ns_conns s) /\ live c /\
        holds (ns_conf s') (RHead []) c
  end.
Proof.
  intros Hi Ha. destruct (accept_handler_run ec remote sock s d Hi Ha) as (s' & E & Hs).
  exists s'. split; [exact E|]. destruct (judge ec remote s); simpl in Hs; try (by subst s').
  destruct Hs as (c & -> & [Hl Hh _ _]). split; [done|]. split_and!; try done. by exists c.
Qed.

(** What an accept does to the count: it grows only by letting a peer in, and that happens only
    while the limit is not passed. *)
Lemma accepted_count v sock (s s' : NetServer) :
  accepted v sock s s' ->
  current_concurrency_ s' = current_concurrency_ s + (if bool_decide (v = LetIn) then 1 else 0).
Proof.
  intros Ha. case_bool_decide as Hv; [|destruct v; try done].
  { subst v. by destruct Ha as (c & -> & _). }
  all: cbn in Ha; subst s'; cbn; lia.
Qed.

Lemma judge_let_in ec remote (s : NetServer) :
  judge ec remote s = LetIn -> service_concurrency_ (ns_conf s) <> 0 ->
  current_concurrency_ s <= service_concurrency_ (ns_conf s).
Proof.
  unfold judge. intros Hj Hlim. rewrite (proj2 (Z.eqb_neq _ _) Hlim) in Hj.
  repeat (case_match; try done). simpl in *. by bool_prop.
Qed.

(** ** Runtime update *)

(** The feed timer after the speed went from [old] to [new]. *)
Definition timer_follows (old new : Z) (before after : option steady_timer) : Prop :=
  if old =? new then after = before
  else if new =? 0 then after = None
  else exists t, after = Some t /\ waiting t = 1%nat.

Lemma start_feed_timer_eq (s : NetServer) :
  exists t, waiting t = 1%nat /\ start_feed_timer s =
    Done (tt, set_aborted (aborted_feeds s + from_option waiting 0 (timed_feed_token_ (ns_conf s)))%nat
                (set_ns_conf (set_timed_feed_token_ (Some t) (ns_conf s)) s)).
Proof.
  unfold start_feed_timer, abort_feeds, on_conf, zoom, mbind, M_bind, gets, modify. cbn [fst snd].
  pose proof (expires_cancels 1 timer_new) as Hc. pose proof (waiting_expires 1 timer_new) as Hw.
  rewrite waiting_new in Hc. destruct (expires_from_now 1 timer_new) as [n t]. simpl in *. subst n.
  exists (timer_async_wait t). rewrite waiting_async_wait, Hw. split; [done|].
  unfold set_aborted, set_ns_conf. cbn. do 3 f_equal.
  destruct (timed_feed_token_ _); simpl; rewrite ?destroy_cancels; lia.
Qed.

(** The settings after a valid update that changed the speed. *)
Definition updated_conf (conf : NetConf) (timer : option steady_timer) (c : NetConf) : NetConf :=
  let '(mkNetConf f0 _ f2 _ _ _ f6 f7 f8 f9 _ f11 f12 _) := c in
  mkNetConf f0 (service_speed_ conf) f2 (service_concurrency_ conf) (session_cancel_time_out_ conf)
    (ops_cancel_time_out_ conf) f6 f7 f8 f9 (safe_ip_ conf) f11 f12 timer.

Lemma module_runtime_run (cfg : Config) (s : NetServer) :
  let conf := merge_conf cfg NetConf_new in
  (~ conf_ok conf -> NetServer_module_runtime cfg s = Done (-1, s)) /\
  (conf_ok conf -> exists c' aborted, NetServer_module_runtime cfg s =
      Done (0, set_aborted aborted (set_ns_conf c' s)) /\
    let c := ns_conf s in
    (session_cancel_time_out_ c' = session_cancel_time_out_ conf /\
     ops_cancel_time_out_ c' = ops_cancel_time_out_ conf /\ safe_ip_ c' = safe_ip_ conf /\
     service_speed_ c' = service_speed_ conf /\ service_concurrency_ c' = service_concurrency_ conf) /\
    timer_follows (service_speed_ c) (service_speed_ conf) (timed_feed_token_ c) (timed_feed_token_ c') /\
    (service_enabled_ c' = service_enabled_ c /\ service_token_ c' = service_token_ c /\
     send_max_msg_size_ c' = send_max_msg_size_ c /\ recv_max_msg_size_ c' = recv_max_msg_size_ c /\
     bind_addr_ c' = bind_addr_ c /\ bind_port_ c' = bind_port_ c /\
     backlog_size_ c' = backlog_size_ c /\ io_thread_number_ c' = io_thread_number_ c)).
Proof.
  destruct (load_conf_spec cfg NetConf_new) as (b & conf & E & Hb & Hc). cbv zeta.
  unfold NetServer_module_runtime. rewrite E. split.
  { intros Hno. destruct b; [|done]. by destruct Hno; apply Hb. }
  intros Hok. rewrite (proj2 Hb Hok) in *. rewrite <- (Hc eq_refl). clear Hb Hc E Hok.
  destruct s as [c cc ac af conns nx rf ca].
  unfold mbind at 1 2 3 4 5 6, M_bind at 1 2 3 4 5 6. unfold on_conf at 1 2 3 4.
  unfold zoom at 1 2 3 4, gets, modify. cbn [fst snd ns_conf set_ns_conf].
  replace (service_speed_ (set_safe_ip_ _ _)) with (service_speed_ c) by (by destruct c).
  unfold timer_follows. destruct (service_speed_ c =? service_speed_ conf) eqn:Hsp.
  { bool_prop. exists (set_service_concurrency_ (service_concurrency_ conf) (set_safe_ip_ (safe_ip_ conf)
      (set_ops_cancel_time_out_ (ops_cancel_time_out_ conf)
        (set_session_cancel_time_out_ (session_cancel_time_out_ conf) c)))), af. split; [done|]. by destruct c. }
  cbn [negb when]. unfold mbind at 1, M_bind at 1. unfold on_conf at 1, zoom at 1. cbn [fst snd ns_conf set_ns_conf].
  destruct (service_speed_ conf =? 0) eqn:Hz; cbn [negb].
  - unfold mbind, M_bind, abort_feeds, on_conf, zoom, modify, gets, mret, M_ret. cbn [fst snd ns_conf set_ns_conf].
    destruct (timed_feed_token_ _) eqn:Ht; [destruct (timer_cancel _)|]; 
      exists (updated_conf conf None c); destruct c; eexists; (split; [cbn in *; subst; reflexivity|]); done.
  - match goal with |- context [start_feed_timer ?x] => destruct (start_feed_timer_eq x) as (t & Hw & ->) end.
    exists (updated_conf conf (Some t) c). destruct c. eexists. split; [reflexivity|].
    cbn. split_and!; try done. by exists t.
Qed.

(** C33: a runtime update of the network settings. A configuration with a setting out of range
    changes nothing and yields -1. A valid one yields 0; the time-outs, the white list,
    the speed and the concurrency limit become the configured ones, the feed timer
    follows the speed, and the other settings, the connections and their count stay. *)
Theorem runtime_update_spec (cfg : Config) (s : NetServer) :
  let conf := merge_conf cfg NetConf_new in
  (~ conf_ok conf -> NetServer_module_runtime cfg s = Done (-1, s)) /\
  (conf_ok conf -> exists s', NetServer_module_runtime cfg s = Done (0, s') /\
    let c := ns_conf s in let c' := ns_conf s' in
    (session_cancel_time_out_ c' = session_cancel_time_out_ conf /\
     ops_cancel_time_out_ c' = ops_cancel_time_out_ conf /\ safe_ip_ c' = safe_ip_ conf /\
     service_speed_ c' = service_speed_ conf /\ service_concurrency_ c' = service_concurrency_ conf) /\
    timer_follows (service_speed_ c) (service_speed_ conf) (timed_feed_token_ c) (timed_feed_token_ c') /\
    (service_enabled_ c' = service_enabled_ c /\ service_token_ c' = service_token_ c /\
     send_max_msg_size_ c' = send_max_msg_size_ c /\ recv_max_msg_size_ c' = recv_max_msg_size_ c /\
     bind_addr_ c' = bind_addr_ c /\ bind_port_ c' = bind_port_ c /\
     backlog_size_ c' = backlog_size_ c /\ io_thread_number_ c' = io_thread_number_ c) /\
    ns_conns s' = ns_conns s /\ current_concurrency_ s' = current_concurrency_ s /\
    accepting s' = accepting s).
Proof.
  destruct (module_runtime_run cfg s) as [Hno Hok]. split; [exact Hno|]. intros Hc.
  destruct (Hok Hc) as (c' & aborted & E & Hset & Ht & Hkeep). eexists. split; [exact E|].
  exact (conj Hset (conj Ht (conj Hkeep (conj eq_refl (conj eq_refl eq_refl))))).
Qed.

(** ** The feed timer's handler *)

(** A handler that was cancelled is one less to run; a wait that is over is the timer's no
    longer. *)
Definition before_feed (ec : error_code) (s : NetServer) : NetServer :=
  if ec_failed ec then set_aborted (aborted_feeds s - 1) s
  else set_ns_conf (set_timed_feed_token_ (timer_fired <$> timed_feed_token_ (ns_conf s)) (ns_conf s)) s.

Lemma feed_event_eq ec (s : NetServer) :
  (if ec_failed ec then aborted_feed_runs else feed_timer_fires) s =
    match timed_feed_token_handler (if ec_failed ec then ec_operation_aborted else ec_success)
            (ns_conf (before_feed ec s)) with
    | Done (n, c') => Done (tt, set_aborted (aborted_feeds s - (if ec_failed ec then 1 else 0) + n)
                                  (set_ns_conf c' s))
    | AssertFailed => AssertFailed
    | Undefined => Undefined
    | OutOfFuel => OutOfFuel
    end.
Proof.
  unfold before_feed. destruct (ec_failed ec);
    unfold aborted_feed_runs, feed_timer_fires, feed_handler_runs, abort_feeds, on_conf, zoom,
      mbind, M_bind, modify; cbn; rewrite ?Nat.sub_0_r;
    by destruct (timed_feed_token_handler _ _) as [[]| | |].
Qed.

(** ** The feed storm *)

(** The io_service runs [n] cancelled handlers, one after the other. *)
Fixpoint run_aborted (n : nat) : M NetServer unit :=
  match n with
  | O => mret tt
  | Datatypes.S n =>
      _ ← aborted_feed_runs;
      run_aborted n
  end.

(** A limited server with its one timer armed and [k] cancelled handlers to run. *)
Definition storming (k : nat) (s : NetServer) : Prop :=
  service_speed_ (ns_conf s) <> 0 /\ aborted_feeds s = k /\
  exists t, timed_feed_token_ (ns_conf s) = Some t /\ waiting t = 1%nat.

(** Each run of a cancelled handler cancels the wait of the next one. *)
Lemma aborted_run_storms k (s : NetServer) :
  storming (Datatypes.S k) s ->
  exists s', aborted_feed_runs s = Done (tt, s') /\
    storming (Datatypes.S k) s' /\ service_speed_ (ns_conf s') = service_speed_ (ns_conf s) /\
    service_token_ (ns_conf s') = service_speed_ (ns_conf s).
Proof.
  intros (Hs & Hk & t & Ht & Hw).
  unfold aborted_feed_runs, feed_handler_runs, timed_feed_token_handler, feed_service_token, abort_feeds, on_conf, zoom,
    mbind, M_bind, gets, modify. cbn [fst snd ns_conf set_ns_conf set_aborted].
  rewrite (proj2 (Z.eqb_neq _ _) Hs), Ht.
  pose proof (expires_cancels 1 t) as Hc. pose proof (waiting_expires 1 t) as Hz.
  destruct (expires_from_now 1 t) as [m t']. simpl in Hc, Hz. subst m.
  eexists. split; [done|]. destruct s as [c]. destruct c. unfold storming. cbn in *.
  split_and!; try done; try lia. eexists. split; [done|]. by rewrite waiting_async_wait, Hz.
Qed.

Lemma run_aborted_storms n k (s : NetServer) :
  storming (Datatypes.S k) s ->
  exists s', run_aborted n s = Done (tt, s') /\ storming (Datatypes.S k) s' /\
    service_speed_ (ns_conf s') = service_speed_ (ns_conf s) /\
    (n <> 0%nat -> service_token_ (ns_conf s') = service_speed_ (ns_conf s)).
Proof.
  revert s. induction n as [|n IH]; intros s Hst; [by exists s|].
  destruct (aborted_run_storms k s Hst) as (s1 & E & Hst1 & Hs1 & Ht1).
  destruct (IH s1 Hst1) as (s2 & E2 & Hst2 & Hs2 & Ht2).
  exists s2. split_and!; [|done|congruence|].
  - cbn [run_aborted]. unfold mbind, M_bind. by rewrite E.
  - intros _. destruct n; [by injection E2 as <-|]. rewrite Ht2 by done. done.
Qed.

(** The update itself. *)
Lemma module_runtime_storms (cfg : Config) (s : NetServer) t :
  let conf := merge_conf cfg NetConf_new in
  conf_ok conf -> service_speed_ conf <> 0 -> service_speed_ conf <> service_speed_ (ns_conf s) ->
  timed_feed_token_ (ns_conf s) = Some t -> waiting t = 1%nat -> aborted_feeds s = 0%nat ->
  exists s', NetServer_module_runtime cfg s = Done (0, s') /\ storming 1 s' /\
    service_speed_ (ns_conf s') = service_speed_ conf.
Proof.
  cbv zeta. intros Hok. destruct (load_conf_spec cfg NetConf_new) as (b & conf & E & Hb & Hc).
  rewrite (proj2 Hb Hok) in *. rewrite <- (Hc eq_refl). clear Hb Hc Hok. intros Hz Hne Ht Hw Ha.
  unfold NetServer_module_runtime. rewrite E. clear E. destruct s as [c cc ac af conns nx rf ca].
  unfold mbind at 1 2 3 4 5 6, M_bind at 1 2 3 4 5 6. unfold on_conf at 1 2 3 4.
  unfold zoom at 1 2 3 4, gets, modify. cbn [fst snd ns_conf set_ns_conf] in *.
  replace (service_speed_ (set_safe_ip_ _ _)) with (service_speed_ c) by (by destruct c).
  rewrite (proj2 (Z.eqb_neq (service_speed_ c) _)) by done.
  cbn [negb when]. unfold mbind at 1, M_bind at 1. unfold on_conf at 1, zoom at 1. cbn [fst snd ns_conf set_ns_conf].
  rewrite (proj2 (Z.eqb_neq (service_speed_ conf) _)) by done. cbn [negb].
  match goal with |- context [start_feed_timer ?x] => destruct (start_feed_timer_eq x) as (t' & Hw' & ->) end.
  eexists. split; [done|]. destruct c; unfold storming. cbn in *. subst.
  split_and!; try done; try lia; by exists t'.
Qed.

(** C40: changing one speed limit into another starts a storm. The update destroys the armed
    timer, so its handler runs with [operation_aborted]; the handler ignores that, refills
    the tokens and re-arms the new timer, which cancels the wait just armed. However many
    of the cancelled handlers have run, one is still to run, and every run has filled the
    bucket: the limit per second is no limit any more. *)
Theorem speed_change_feed_storm (cfg : Config) (s : NetServer) t n :
  let conf := merge_conf cfg NetConf_new in
  conf_ok conf -> service_speed_ conf <> 0 -> service_speed_ conf <> service_speed_ (ns_conf s) ->
  timed_feed_token_ (ns_conf s) = Some t -> waiting t = 1%nat -> aborted_feeds s = 0%nat ->
  exists s' s'', NetServer_module_runtime cfg s = Done (0, s') /\ run_aborted n s' = Done (tt, s'') /\
    storming 1 s'' /\ (n <> 0%nat -> service_token_ (ns_conf s'') = service_speed_ conf).
Proof.
  intros conf Hok Hz Hne Ht Hw Ha. destruct (module_runtime_storms cfg s t Hok Hz Hne Ht Hw Ha) as (s' & E & Hst & Hsp).
  destruct (run_aborted_storms n 0 s' Hst) as (s'' & E2 & Hst2 & _ & Htok).
  exists s', s''. split_and!; try done. intros Hn. rewrite Htok by done. exact Hsp.
Qed.
End Props.

(** ** Witnesses *)

Definition demo_net_conf : NetConf :=
  set_service_concurrency_ 1 (set_service_speed_ 5 (set_service_token_ 5 NetConf_new)).
Definition demo_listener : NetServer :=
  mkNetServer (set_timed_feed_token_ (Some 1%nat) demo_net_conf) 1 1 0 ∅ 0 [] [].
Definition demo_net_config (speed : Z) : Config :=
  mkConfig [("rpc.network.bind_addr", VString "0.0.0.0"); ("rpc.network.bind_port", VInt 8434);
            ("rpc.network.service_speed", VInt speed)]%string [].

Lemma accept_handler_spec_witness :
  exists s', accept_handler ec_success (Some "10.0.0.1"%string) Socket_new (demo_listener, demo_dispatcher)
      = Done (tt, (s', demo_dispatcher)) /\ accepting s' = accepting demo_listener /\
    ns_conf s' = spend (ns_conf demo_listener) /\
    current_concurrency_ s' = current_concurrency_ demo_listener + 1 /\
    ns_refused s' = ns_refused demo_listener /\
    exists c, ns_conns s' = <[next_conn demo_listener := c]> (ns_conns demo_listener) /\ live c /\
      holds (ns_conf s') (RHead []) c.
Proof.
  apply (accept_handler_spec ec_success (Some "10.0.0.1"%string) Socket_new demo_listener demo_dispatcher);
    [done | simpl; lia].
Defined.

Lemma speed_change_feed_storm_witness :
  exists s' s'', NetServer_module_runtime (demo_net_config 7) demo_listener = Done (0, s') /\
    run_aborted 100 s' = Done (tt, s'') /\ storming 1 s'' /\ service_token_ (ns_conf s'') = 7.
Proof.
  destruct (speed_change_feed_storm (demo_net_config 7) demo_listener 1%nat 100)
    as (s' & s'' & E & E2 & Hs & Ht); try done; try (vm_compute; congruence).
  - unfold conf_ok, size_limit_ok. vm_compute. split_and!; (congruence || by left).
  - exists s', s''. split_and!; try done. by apply Ht.
Defined.
