(* ===== verification/World.v ===== *)
(** * The running server: listener, connections, dispatcher and service threads together

    The parts of the other files composed the way the program composes them. The state is
    the listening server with its connections, the Dispatcher with the services' queues,
    and the requests the pool threads have taken from a queue and not yet handled. Its
    events are what happens in the program's threads, in any order: an accept completes,
    something happens to a connection, a pool thread takes a request or runs the handler
    of one it took, a connection nobody refers to is destroyed, the feed timer's handler
    runs, a pool is adjusted, the settings are updated. Each runs alone. *)

From Stdlib Require Import ZArith Lia Init.Byte.
From stdpp Require Import base list strings gmap.
From S2P Require Import Prelude Endian Message Buffer RpcMessage NetConn External NetConf.
From S2P Require Import RpcInstance Service Executor Dispatcher Decode ServerConn ServerSend.
From S2P Require Import ServerRead ServerSystem ServerInv NetServer.

Section World.
Context `{Host} `{AssertMode} `{SteadyTimer} `{LibConfig} `{BoostString}
  {S : Type} `{!Service S} `{!EQueue RpcInstance}.

Record World := mkWorld {
  w_server : NetServer;
  w_disp : Dispatcher S;
  w_hands : list (Z * RpcInstance);    (* service id, request a thread of its pool took *)
  w_net : gmap nat (bytes * bytes)     (* what a peer was sent, what was received from it *)
}.

Inductive wevent :=
| WAccept (ec : error_code) (remote : option string) (sock : Socket)
| WConn (id : nat) (e : event)
| WTake (sid : Z)
| WAnswer (k : nat)
| WRelease (id : nat)
| WFeed (ec : error_code)
| WAdjust (sid : Z) (ec : error_code)
| WRuntime (cfg : Config).

(** Continue with the result of a computation that must finish. *)
Definition finish {A} (r : outcome A) (k : A -> World) : outcome World :=
  match r with
  | Done a => Done (k a)
  | AssertFailed => AssertFailed
  | Undefined => Undefined
  | OutOfFuel => OutOfFuel
  end.

Definition w_conf (w : World) : NetConf := ns_conf (w_server w).

(** A connection as its own state machine sees it. *)
Definition conn_view (w : World) (c : TcpConnAsync) (net : bytes * bytes) : Sys (S:=S) :=
  mkSys c (w_disp w) (fst net) (snd net).

Definition put_view (w : World) (id : nat) (s : Sys (S:=S)) : World :=
  mkWorld (set_conns (<[id := sconn s]> (ns_conns (w_server w))) (w_server w)) (sdisp s)
    (w_hands w) (<[id := (swire s, srcvd s)]> (w_net w)).

Definition put_executor (sid : Z) (e : Executor S) (w : World) : World :=
  mkWorld (w_server w) (set_services (<[sid := e]> (services_ (w_disp w))) (w_disp w)) (w_hands w) (w_net w).

Definition set_hands (l : list (Z * RpcInstance)) (w : World) : World :=
  mkWorld (w_server w) (w_disp w) l (w_net w).

Definition set_server (s : NetServer) (w : World) : World :=
  mkWorld s (w_disp w) (w_hands w) (w_net w).

(** A thread of the pool of service [sid] pops the queue. *)
Definition take (sid : Z) (w : World) : outcome World :=
  match services_ (w_disp w) !! sid with
  | None => Done w
  | Some e =>
      finish (pop_request e) (fun r =>
        put_executor sid r.2 (set_hands (w_hands w ++ option_list (pair sid <$> r.1)) w))
  end.

(** The thread that holds the [k]-th request runs its handler. *)
Definition run_handler (k : nat) (w : World) : outcome World :=
  match w_hands w !! k with
  | None => Done w
  | Some (sid, i) =>
      match services_ (w_disp w) !! sid with
      | None => Done w
      | Some e =>
          finish (on_connection (full_socket_ i)
                    (let _ := server_sink (w_conf w) in svc_handle_RPC (C:=TcpConnAsync) i)
                    (e, ns_conns (w_server w)))
            (fun r => put_executor sid r.2.1
               (set_hands (delete k (w_hands w)) (set_server (set_conns r.2.2 (w_server w)) w)))
      end
  end.

(** The timer of service [sid]'s executor runs its handler. *)
Definition adjust (sid : Z) (ec : error_code) (w : World) : outcome World :=
  match services_ (w_disp w) !! sid with
  | None => Done w
  | Some e => finish (executor_threads_adjust ec e) (fun r => put_executor sid r.2 w)
  end.

(** [update_runtime_setting()] calls the callbacks the server and the dispatcher attached. *)
Definition update_settings (cfg : Config) (w : World) : outcome World :=
  match NetServer_module_runtime cfg (w_server w) with
  | Done (_, s) =>
      finish (Dispatcher_module_runtime cfg (w_disp w)) (fun r => mkWorld s r.2 (w_hands w) (w_net w))
  | AssertFailed => AssertFailed
  | Undefined => Undefined
  | OutOfFuel => OutOfFuel
  end.

Definition wstep (e : wevent) (w : World) : outcome World :=
  match e with
  | WAccept ec remote sock =>
      finish (accept_handler ec remote sock (w_server w, w_disp w)) (fun r =>
        let s := r.2.1 in
        mkWorld s r.2.2 (w_hands w)
          (if bool_decide (next_conn s = next_conn (w_server w)) then w_net w
           else <[next_conn (w_server w) := ([], [])]> (w_net w)))
  | WConn id e =>
      match ns_conns (w_server w) !! id, w_net w !! id with
      | Some c, Some net => finish (handle (w_conf w) id e (conn_view w c net)) (put_view w id)
      | _, _ => Done w
      end
  | WTake sid => take sid w
  | WAnswer k => run_handler k w
  | WRelease id =>
      finish (release_connection id (w_server w)) (fun r => set_server r.2 w)
  | WFeed ec =>
      finish ((if ec_failed ec then aborted_feed_runs else feed_timer_fires) (w_server w))
        (fun r => set_server r.2 w)
  | WAdjust sid ec => adjust sid ec w
  | WRuntime cfg => update_settings cfg w
  end.

(** A connection without a receive limit is assumed to carry less than 4 GiB. *)
Definition sized_b (conf : NetConf) (rcvd : bytes) : bool :=
  let limit := recv_max_msg_size_ conf in
  (0 <? limit) && (limit <? 2 ^ 31) || (len rcvd <? 2 ^ 32).

Definition idle_socket_b (sock : Socket) : bool :=
  bool_decide (sk_reads sock = []) && bool_decide (sk_writes sock = []).

(** An update that ends the time-outs while timers may run: see [timeout_disabled_traps]. *)
Definition disables_timeouts (cfg : Config) (conf : NetConf) : bool :=
  negb (ops_cancel_time_out_ conf =? 0) &&
  (ops_cancel_time_out_ (merge_conf cfg NetConf_new) =? 0).

(** The adjustment of a pool whose executor has a usable configuration: see
    [executor_adjust_zero_step] for one that was updated to a step of zero. *)
Definition adjustable (e : Executor S) : bool :=
  bool_decide (executor_conf_ok (conf_ e)) && (0 <? exec_thread_step_size_ (conf_ e)) &&
  (SIZE (rpc_queue_ e) <? 2 ^ 30).

(** What the environment guarantees: an accept completes when one is outstanding, with a
    new socket; a connection's events are those asio allows, and no other than the
    services answer; threads take requests at any time; a connection is destroyed when no
    operation on its socket is left to refer to it; the feed timer's handler runs when it
    was cancelled, or when a wait is over; a pool's timer finds a usable configuration. *)
Definition wenabled (e : wevent) (w : World) : bool :=
  match e with
  | WAccept _ _ sock => (0 <? accepting (w_server w))%nat && idle_socket_b sock
  | WConn id e =>
      match ns_conns (w_server w) !! id, w_net w !! id with
      | Some c, Some net =>
          enabled e (conn_view w c net) && sized_b (w_conf w) (snd net ++ event_bytes e) &&
          match e with ESend _ => false | _ => true end
      | _, _ => false
      end
  | WTake _ => true
  | WAnswer k => (k <? length (w_hands w))%nat
  | WRelease id =>
      match ns_conns (w_server w) !! id with
      | Some c => idle_socket_b (socket_ (base_ c))
      | None => false
      end
  | WFeed ec =>
      if ec_failed ec then (0 <? aborted_feeds (w_server w))%nat
      else bool_decide (is_Some (timed_feed_token_ (w_conf w)))
  | WAdjust sid _ =>
      match services_ (w_disp w) !! sid with Some e => adjustable e | None => false end
  | WRuntime cfg => negb (disables_timeouts cfg (w_conf w))
  end.

(** The server as it starts to accept: no connections yet, nothing queued. *)
Definition fresh_world (s : NetServer) (d : Dispatcher S) : World := mkWorld s d [] ∅.

Inductive wreach (w0 : World) : World -> Prop :=
| wreach_start : wreach w0 w0
| wreach_step w e w' : wreach w0 w -> wenabled e w = true -> wstep e w = Done w' -> wreach w0 w'.

(** Run a list of events; [None]: one of them is not enabled or fails. *)
Fixpoint run_world (es : list wevent) (w : World) : option World :=
  match es with
  | [] => Some w
  | e :: es =>
      if wenabled e w then
        match wstep e w with Done w' => run_world es w' | _ => None end
      else None
  end.

Lemma run_world_reach es w0 w w' : wreach w0 w -> run_world es w = Some w' -> wreach w0 w'.
Proof.
  revert w. induction es as [|e es IH]; intros w Hw; simpl; [congruence|].
  destruct (wenabled e w) eqn:He; [|done]. destruct (wstep e w) eqn:Hh; try done.
  apply IH. by eapply wreach_step.
Qed.

(** A pool thread's round is the two events it is split into here. *)
Lemma take_then_handle sid e (w : World) :
  services_ (w_disp w) !! sid = Some e ->
  match executor_service_round (C:=TcpConnAsync) (MsgSink0:=server_sink (w_conf w)) false false
          (e, ns_conns (w_server w)) with
  | Done (go_on, (e', conns')) =>
      go_on = true /\
      exists w1, take sid w = Done w1 /\
        (if decide (length (w_hands w1) = length (w_hands w)) then Done w1
         else run_handler (length (w_hands w)) w1) =
        Done (put_executor sid e' (set_server (set_conns conns' (w_server w)) w))
  | _ => True
  end.
Proof.
  intros He. unfold executor_service_round, take, pop_request, zoom, mbind, M_bind, gets, modify, mret, M_ret.
  rewrite He. cbn [fst snd]. destruct (POP (rpc_queue_ e)) as [[i|] q]; cbn [fst snd finish fmap option_fmap option_map option_list].
  - destruct (on_connection _ _ _) as [[[] [e' conns']]| | |] eqn:Eo; try done.
    split; [done|]. eexists. split; [done|]. cbn [w_hands put_executor set_hands].
    rewrite decide_False by (rewrite length_app; simpl; lia).
    unfold run_handler. cbn [w_hands put_executor set_hands].
    change (option_list (Some (sid, i))) with [(sid, i)]. rewrite list_lookup_middle by done. cbn [w_disp put_executor set_services services_ set_hands]. rewrite lookup_insert_eq.
    unfold w_conf in *. cbn [w_server put_executor set_hands]. rewrite Eo. cbn [finish fst snd].
    f_equal. unfold put_executor, set_hands, set_server. simpl. f_equal.
    + destruct (w_disp w). unfold set_services. simpl. by rewrite insert_insert_eq.
    + change (option_list (Some (sid, i))) with [(sid, i)]. by rewrite delete_middle, app_nil_r.
  - split; [done|]. eexists. split; [done|]. cbn [w_hands put_executor set_hands].
    rewrite app_nil_r. rewrite decide_True by done. f_equal. unfold put_executor, set_hands, set_server. f_equal.
    by destruct (w_server w).
Qed.
End World.
Arguments World {_} S {_}.
