(* ===== verification/WorldInv.v ===== *)
(** * The invariant of the running server

    For every connection: its own invariant, and the account of its answers. What it has
    accepted for sending and what its queued requests are still due is, up to order, the
    reaction to every message it dispatched. Every event the environment allows runs to
    completion, preserves the invariant, and only adds to what a connection was sent, has
    received and has accepted for sending. *)

From Stdlib Require Import ZArith Lia Init.Byte.
From stdpp Require Import base list strings gmap.
From S2P Require Import Prelude Endian Message Buffer RpcMessage NetConn External NetConf.
From S2P Require Import RpcInstance Service Executor Dispatcher Answering Decode ServerConn ServerSend.
From S2P Require Import ServerRead ServerSystem ServerInv ServiceProps Pending NetServer NetServerProps World.

(** ** Settings that may change under a connection *)

Section Limits.
Context `{Host} `{AssertMode} `{SteadyTimer} `{LibConfig} {S : Type} `{!Service S} `{!EQueue RpcInstance}.

(** The size limits stay, and time-outs are not switched off. *)
Record same_limits (conf conf' : NetConf) : Prop := {
  sl_send : send_max_msg_size_ conf' = send_max_msg_size_ conf;
  sl_recv : recv_max_msg_size_ conf' = recv_max_msg_size_ conf;
  sl_timer : ops_cancel_time_out_ conf' = 0 -> ops_cancel_time_out_ conf = 0
}.

#[export] Instance same_limits_po : PreOrder same_limits.
Proof. split; [by split|]. intros c1 c2 c3 [] []. split; first [congruence | auto]. Qed.

Variables (conf conf' : NetConf).
Hypothesis limits : same_limits conf conf'.

Lemma over_limit_same msg : over_limit conf' msg = over_limit conf msg.
Proof. unfold over_limit. by rewrite (sl_send _ _ limits). Qed.

Lemma admissible_same l : admissible conf' l = admissible conf l.
Proof. apply list_filter_iff. intros msg. by rewrite over_limit_same. Qed.

Lemma holds_same st c : holds conf st c -> holds conf' st c.
Proof. destruct st; [done| |done]. simpl. unfold good_header. by rewrite (sl_recv _ _ limits). Qed.

Lemma conn_inv_same wire rcvd c ms : conn_inv conf wire rcvd c ms -> conn_inv conf' wire rcvd c ms.
Proof.
  intros [[Hb Ht Hp] Hr Hf]. split; [| |done].
  - split; [done| |done]. intros E. by apply Ht, limits.
  - destruct Hr as [st Hd Hh|]; rewrite <-(sl_recv _ _ limits) in *; [|by apply rs_final].
    eapply rs_reading; [done|by apply holds_same].
Qed.
End Limits.

Section Inv.
Context `{Host} `{AssertMode} `{SteadyTimer} `{!SteadyTimerLaws} `{LibConfig} `{BoostString}
  {S : Type} `{!Service S} `{!Answering S} `{!EQueue RpcInstance} `{!EQueueLaws RpcInstance}.
Implicit Types (w : World S) (conf : NetConf).

(** ** The invariant *)

(** The requests that wait: queued, or taken by a thread and not handled yet. *)
Definition pending w : list RpcInstance := all_queued (services_ (w_disp w)) ++ (w_hands w).*2.

Definition of_conn (id : nat) (l : list RpcInstance) : list RpcInstance :=
  filter (fun i => full_socket_ i = id) l.

(** The answers connection [id] is still to get. *)
Definition due w (id : nat) : list Message :=
  admissible (w_conf w) (reply_of <$> of_conn id (pending w)).

(** The account of connection [id]: it dispatched [ms], and what it accepted for sending
    and is still due is the reaction to them. *)
Record account (known : gset Z) w (id : nat) (c : TcpConnAsync) (net : bytes * bytes)
    (ms : list Message) : Prop := {
  ac_net : w_net w !! id = Some net;
  ac_inv : conn_inv (w_conf w) (fst net) (snd net) c ms;
  ac_answers : admissible (w_conf w) (reaction known id <$> ms) ≡ₚ sent_log c ++ due w id
}.

Record world_inv (known : gset Z) w : Prop := {
  wi_disp : disp_ok known (w_disp w);
  wi_hands : Forall (fun h => h.1 ∈ known) (w_hands w);
  wi_ids : Forall (fun i => full_socket_ i < next_conn (w_server w))%nat (pending w);
  wi_fresh id c : ns_conns (w_server w) !! id = Some c -> (id < next_conn (w_server w))%nat;
  wi_conns id c : ns_conns (w_server w) !! id = Some c ->
    exists net ms, account known w id c net ms;
  wi_timer : service_speed_ (w_conf w) <> 0 -> is_Some (timed_feed_token_ (w_conf w));
  wi_count : current_concurrency_ (w_server w) = Z.of_nat (size (ns_conns (w_server w)))
}.

(** ** Accounts *)

Lemma of_conn_app id l1 l2 : of_conn id (l1 ++ l2) = of_conn id l1 ++ of_conn id l2.
Proof. apply filter_app. Qed.

Lemma of_conn_all id l : Forall (fun i => full_socket_ i = id) l -> of_conn id l = l.
Proof. unfold of_conn. induction 1; [done|]. rewrite filter_cons_True by done. by f_equal. Qed.

Lemma of_conn_none id l : Forall (fun i => full_socket_ i <> id) l -> of_conn id l = [].
Proof. unfold of_conn. induction 1; [done|]. by rewrite filter_cons_False by done. Qed.

#[export] Instance of_conn_perm id : Proper ((≡ₚ) ==> (≡ₚ)) (of_conn id).
Proof. intros l1 l2 E. unfold of_conn. by rewrite E. Qed.

#[export] Instance admissible_perm conf : Proper ((≡ₚ) ==> (≡ₚ)) (admissible conf).
Proof. intros l1 l2 E. unfold admissible. by rewrite E. Qed.

(** What an account depends on. *)
Lemma account_same known w w' id c net ms :
  same_limits (w_conf w) (w_conf w') -> w_net w' !! id = w_net w !! id ->
  of_conn id (pending w') ≡ₚ of_conn id (pending w) ->
  account known w id c net ms -> account known w' id c net ms.
Proof.
  intros Hl Hn Hp [A1 A2 A3]. split; [by rewrite Hn|by eapply conn_inv_same|].
  rewrite (admissible_same _ _ Hl), A3. unfold due. by rewrite (admissible_same _ _ Hl), Hp.
Qed.

(** Steps that touch no connection and move no request. *)
Record quiet_step (known : gset Z) w w' : Prop := {
  qs_conns : ns_conns (w_server w') = ns_conns (w_server w);
  qs_next : next_conn (w_server w') = next_conn (w_server w);
  qs_count : current_concurrency_ (w_server w') = current_concurrency_ (w_server w);
  qs_limits : same_limits (w_conf w) (w_conf w');
  qs_timer : service_speed_ (w_conf w') <> 0 -> is_Some (timed_feed_token_ (w_conf w'));
  qs_disp : disp_ok known (w_disp w');
  qs_hands : Forall (fun h => h.1 ∈ known) (w_hands w');
  qs_pending : pending w' ≡ₚ pending w;
  qs_net : w_net w' = w_net w
}.

(** What event [e] brings connection [id] from its peer. *)
Definition gained (id : nat) (e : wevent) : bytes :=
  match e with
  | WConn id' e => if decide (id' = id) then event_bytes e else []
  | _ => []
  end.

(** What every event keeps: the limits; a connection that is open was open before, unless
    it is new, its log and its bytes only grow, and it is not live again once it ended. *)
Record later (e : wevent) w w' : Prop := {
  lt_limits : same_limits (w_conf w) (w_conf w');
  lt_next : (next_conn (w_server w) <= next_conn (w_server w'))%nat;
  lt_conns id c' : (id < next_conn (w_server w))%nat -> ns_conns (w_server w') !! id = Some c' ->
    exists c, ns_conns (w_server w) !! id = Some c /\ sent_log c `prefix_of` sent_log c' /\
      (live c' -> live c);
  lt_net id net : (id < next_conn (w_server w))%nat -> w_net w !! id = Some net ->
    exists wire, w_net w' !! id = Some (wire, snd net ++ gained id e) /\ fst net `prefix_of` wire
}.

(** A step of the server. *)
Record stepped (known : gset Z) (e : wevent) w w' : Prop := {
  sp_inv : world_inv known w';
  sp_later : later e w w'
}.

Lemma net_same w w' id (net : bytes * bytes) :
  w_net w' = w_net w -> w_net w !! id = Some net ->
  exists wire, w_net w' !! id = Some (wire, snd net ++ []) /\ fst net `prefix_of` wire.
Proof. intros E Hn. rewrite E, Hn, app_nil_r. exists (fst net). by destruct net. Qed.

Lemma quiet_step_inv known w w' : quiet_step known w w' -> world_inv known w -> world_inv known w'.
Proof.
  intros [Q1 Q2 Q3 Q4 Q5 Q6 Q7 Q8 Q9] [I1 I2 I3 I4 I5 I6 I7].
  split; rewrite ?Q1, ?Q2, ?Q3, ?Q8; try done. intros id c Hc.
  destruct (I5 id c Hc) as (net & ms & Ha). exists net, ms.
  eapply account_same; [done|by rewrite Q9|by rewrite Q8|done].
Qed.

Lemma quiet_stepped known e w w' :
  (forall id, gained id e = []) -> quiet_step known w w' -> world_inv known w -> stepped known e w w'.
Proof.
  intros Hg Hq I. split; [by eapply quiet_step_inv|]. destruct Hq as [Q1 Q2 _ Q4 _ _ _ _ Q9].
  split; [done|by rewrite Q2| |].
  - intros id c' _ Hc. rewrite Q1 in Hc. by exists c'.
  - intros id net _ Hn. rewrite Hg. by apply (net_same w).
Qed.
(** ** Accepting *)

Lemma spend_limits c : same_limits c (spend c).
Proof. unfold spend. case_match; [done|]. by destruct c. Qed.

Lemma spend_timer c :
  service_speed_ (spend c) = service_speed_ c /\ timed_feed_token_ (spend c) = timed_feed_token_ c.
Proof. unfold spend. case_match; [done|]. by destruct c. Qed.

Lemma set_server_quiet known w s :
  world_inv known w -> ns_conns s = ns_conns (w_server w) -> next_conn s = next_conn (w_server w) ->
  current_concurrency_ s = current_concurrency_ (w_server w) -> same_limits (w_conf w) (ns_conf s) ->
  (service_speed_ (ns_conf s) <> 0 -> is_Some (timed_feed_token_ (ns_conf s))) ->
  quiet_step known w (set_server s w).
Proof. intros I ? ? ? ? ?. by split; try apply I. Qed.

Lemma admit_inv known w c :
  world_inv known w -> fresh_conn (spend (w_conf w)) c ->
  world_inv known (mkWorld (admitted c (set_ns_conf (spend (w_conf w)) (w_server w))) (w_disp w) (w_hands w)
    (<[next_conn (w_server w) := ([], [])]> (w_net w))).
Proof.
  intros [I1 I2 I3 I4 I5 I6 I7] [Hl Hh Hs Hlog Hst]. set (w' := mkWorld _ _ _ _).
  destruct (spend_timer (w_conf w)) as [E1 E2].
  split; [done|done| | | | |].
  - eapply Forall_impl; [exact I3|]. intros i Hi. cbn in *. lia.
  - intros id c' Hc. cbn in *. destruct (decide (id = next_conn (w_server w))) as [->|N]; [lia|].
    rewrite lookup_insert_ne in Hc by done. specialize (I4 _ _ Hc). lia.
  - intros id c' Hc. cbn in Hc. destruct (decide (id = next_conn (w_server w))) as [->|N].
    + rewrite lookup_insert_eq in Hc. simplify_eq. exists ([], []), []. split.
      * apply lookup_insert_eq.
      * split; [done| |by eapply unsent_flowing]. apply (rs_reading _ _ _ _ (RHead [])); [by rewrite decode_all_nil|done].
      * rewrite Hlog. unfold due. change (pending w') with (pending w). rewrite of_conn_none; [done|].
        eapply Forall_impl; [exact I3|]. intros i Hi. cbn in *. lia.
    + rewrite lookup_insert_ne in Hc by done. destruct (I5 id c' Hc) as (net & ms & Ha).
      exists net, ms. apply (account_same known w); [apply spend_limits|by apply lookup_insert_ne|done|done].
  - unfold w_conf in *. cbn. by rewrite E1, E2.
  - cbn. rewrite map_size_insert_None; [lia|]. destruct (ns_conns _ !! _) eqn:E; [|done].
    apply I4 in E. lia.
Qed.

Lemma admit_later known w c ec remote sock :
  world_inv known w ->
  later (WAccept ec remote sock) w
    (mkWorld (admitted c (set_ns_conf (spend (w_conf w)) (w_server w))) (w_disp w) (w_hands w)
      (<[next_conn (w_server w) := ([], [])]> (w_net w))).
Proof.
  intros I. split; cbn; [apply spend_limits|lia| |].
  - intros id c' Hid Hc. rewrite lookup_insert_ne in Hc by lia. by exists c'.
  - intros id net Hid Hn. rewrite lookup_insert_ne by lia. by apply (net_same w).
Qed.

Lemma accept_ok known w ec remote sock :
  world_inv known w -> wenabled (WAccept ec remote sock) w = true ->
  exists w', wstep (WAccept ec remote sock) w = Done w' /\ stepped known (WAccept ec remote sock) w w'.
Proof.
  intros I He. cbn [wenabled] in He. unfold idle_socket_b in He. bool_prop.
  destruct (accept_handler_run ec remote sock (w_server w) (w_disp w)) as (s' & E & Hs).
  { by split; eapply bool_decide_eq_true_1. } { by apply Nat.ltb_lt. }
  cbn [wstep]. rewrite E. eexists. split; [done|]. cbn [fst snd].
  destruct (judge ec remote (w_server w)); cbn [accepted] in Hs.
  5: { destruct Hs as (c & -> & Hc). rewrite bool_decide_false by (simpl; lia).
       split; [by apply admit_inv|by apply (admit_later known)]. }
  all: subst s'; rewrite bool_decide_true by done;
    apply (quiet_stepped known); [done| |done]; apply set_server_quiet; try done; try apply I.
  - apply spend_limits.
  - cbn. destruct (spend_timer (ns_conf (w_server w))) as [-> ->]. apply I.
Qed.

(** A connection that was let in is live. *)
Lemma let_in_live known w ec remote sock w' c :
  world_inv known w -> wenabled (WAccept ec remote sock) w = true ->
  wstep (WAccept ec remote sock) w = Done w' ->
  ns_conns (w_server w') !! next_conn (w_server w) = Some c -> live c.
Proof.
  intros I He E Hc. cbn [wenabled] in He. unfold idle_socket_b in He. bool_prop.
  destruct (accept_handler_run ec remote sock (w_server w) (w_disp w)) as (s' & E' & Hs).
  { by split; eapply bool_decide_eq_true_1. } { by apply Nat.ltb_lt. }
  cbn [wstep] in E. rewrite E' in E. injection E as <-. cbn [w_server fst snd] in Hc.
  destruct (judge ec remote (w_server w)); cbn [accepted] in Hs.
  5: { destruct Hs as (c0 & -> & Hc0). cbn in Hc. rewrite lookup_insert_eq in Hc. injection Hc as <-. apply Hc0. }
  all: subst s'; cbn in Hc; apply (wi_fresh _ _ I) in Hc; lia.
Qed.

(** ** The events of a connection *)

Lemma sized_b_true conf rcvd : sized_b conf rcvd = true -> sized conf rcvd.
Proof. unfold sized_b, sized. intros [E|E]%orb_prop; bool_prop; [left|right]; lia. Qed.

Lemma conn_event_ok known w id e :
  world_inv known w -> wenabled (WConn id e) w = true ->
  exists w', wstep (WConn id e) w = Done w' /\ stepped known (WConn id e) w w'.
Proof.
  intros [I1 I2 I3 I4 I5 I6 I7] He. cbn [wenabled wstep] in *.
  destruct (ns_conns (w_server w) !! id) as [c|] eqn:Ec; [|done].
  destruct (I5 id c Ec) as (net & ms & [Enet Hinv Hans]). rewrite Enet in *.
  assert (enabled e (conn_view w c net) = true) as Hen by (by apply andb_prop in He as [[? _]%andb_prop _]).
  bool_prop.
  destruct (handle_step (w_conf w) id e (conn_view w c net) ms)
    as (y & ms2 & E & [Hinv2 Hd Hlog Hdead]); [done|done|by apply sized_b_true|].
  rewrite E. eexists. split; [done|].
  assert (event_sends (w_conf w) e = []) as Hno by (by destruct e).
  rewrite Hno in Hlog. cbn [sdisp sconn conn_view app] in Hd, Hlog.
  destruct (routes_reaction (w_conf w) known id ms2 (w_disp w) I1) as (Hdisp & qs & Hqs & Hq & Hadm).
  rewrite <-Hd in Hdisp, Hq. set (w' := put_view w id y).
  assert (pending w' ≡ₚ pending w ++ qs) as Hp.
  { unfold pending. cbn. rewrite Hq, <-!app_assoc. by rewrite (Permutation_app_comm qs). }
  split; [split; [done|done| | | |done|]|split; [done|done| |]].
  - rewrite Hp. apply Forall_app_2; [done|]. eapply Forall_impl; [exact Hqs|].
    intros i <-. apply (I4 _ _ Ec).
  - intros id' c' Hc. cbn in Hc. destruct (decide (id' = id)) as [->|N]; [by eapply I4|].
    rewrite lookup_insert_ne in Hc by done. by eapply I4.
  - intros id' c' Hc. cbn in Hc. destruct (decide (id' = id)) as [->|N].
    + rewrite lookup_insert_eq in Hc. simplify_eq. exists (swire y, srcvd y), (ms ++ ms2).
      split; [apply lookup_insert_eq|done|].
      change (w_conf w') with (w_conf w). rewrite fmap_app, admissible_app, Hans, Hadm, Hlog.
      unfold due. change (w_conf w') with (w_conf w).
      rewrite Hp, of_conn_app, (of_conn_all id qs), fmap_app, admissible_app by done.
      rewrite <-!app_assoc. apply Permutation_app_head.
      rewrite !app_assoc. apply Permutation_app_tail, Permutation_app_comm.
    + rewrite lookup_insert_ne in Hc by done. destruct (I5 id' c' Hc) as (net' & ms' & Ha).
      exists net', ms'. apply (account_same known w); [done|by cbn; rewrite lookup_insert_ne| |done].
      rewrite Hp, of_conn_app, (of_conn_none id' qs), app_nil_r; [done|].
      eapply Forall_impl; [exact Hqs|]. by intros i <-.
  - cbn. rewrite map_size_insert_Some; [done|by eexists].
  - intros id' c' _ Hc. cbn in Hc. destruct (decide (id' = id)) as [->|N].
    + rewrite lookup_insert_eq in Hc. simplify_eq. exists c. split; [done|]. rewrite Hlog.
      split; [by apply prefix_app_r|]. intros Hl. by destruct (decide (live c)); [|destruct Hdead].
    + rewrite lookup_insert_ne in Hc by done. by exists c'.
  - intros id' net' _ Hn. cbn [gained w_net put_view w']. destruct (decide (id = id')) as [<-|N].
    + rewrite Enet in Hn. simplify_eq. rewrite lookup_insert_eq.
      rewrite (handle_rcvd _ _ _ _ _ Hen E). exists (swire y). split; [done|]. exact (handle_wire _ _ _ _ _ E).
    + rewrite lookup_insert_ne by done. by apply (net_same w).
Qed.

(** ** The service threads *)

Lemma put_executor_disp known w sid e e' :
  world_inv known w -> services_ (w_disp w) !! sid = Some e -> svc_ok (service_impl_ e') ->
  disp_ok known (set_services (<[sid := e']> (services_ (w_disp w))) (w_disp w)).
Proof. intros I He Hs. eapply disp_ok_update; [apply I|exact He|done]. Qed.

Lemma stay_stepped known e w : (forall id, gained id e = []) -> world_inv known w -> stepped known e w w.
Proof. intros Hg I. apply quiet_stepped; [done| |done]. by split; try apply I. Qed.

Lemma take_ok known w sid :
  world_inv known w -> exists w', wstep (WTake sid) w = Done w' /\ stepped known (WTake sid) w w'.
Proof.
  intros I. cbn [wstep]. unfold take.
  destruct (services_ (w_disp w) !! sid) as [e|] eqn:He; [|exists w; split; [done|by apply stay_stepped]].
  rewrite pop_request_eq. eexists. split; [done|]. apply quiet_stepped; [done| |exact I].
  split; try done; try apply I.
  - apply (put_executor_disp known w sid e); [done..|]. exact (dk_ok _ _ (wi_disp _ _ I) _ _ He).
  - apply Forall_app_2; [apply I|]. cbn [fst]. destruct (head _); [|by constructor].
    constructor; [|by constructor]. cbn. rewrite <-(dk_known _ _ (wi_disp _ _ I)). by eapply elem_of_dom_2.
  - unfold pending. cbn [w_disp w_hands put_executor set_hands services_ set_services fst snd].
    rewrite (all_queued_pop _ _ _ He), fmap_app, <-!app_assoc. apply Permutation_app_head.
    rewrite Permutation_app_comm. apply Permutation_app_tail. by destruct (head _).
Qed.

Lemma adjust_ok known w sid ec :
  world_inv known w -> wenabled (WAdjust sid ec) w = true ->
  exists w', wstep (WAdjust sid ec) w = Done w' /\ stepped known (WAdjust sid ec) w w'.
Proof.
  intros I He. cbn [wenabled wstep] in *. unfold adjust.
  destruct (services_ (w_disp w) !! sid) as [e|] eqn:Hs; [|done].
  unfold adjustable in He. bool_prop. rewrite SIZE_queued in *.
  rewrite (threads_adjust_runs ec e) by (done || by eapply bool_decide_eq_true_1). eexists. split; [done|]. apply quiet_stepped; [done| |exact I]. split; try done; try apply I.
  - apply (put_executor_disp known w sid e); [done..|]. exact (dk_ok _ _ (wi_disp _ _ I) _ _ Hs).
  - unfold pending. cbn. by rewrite (all_queued_same _ sid e).
Qed.

(** The handler of a request sends its answer when the connection is still there. *)
Lemma on_connection_eq conf i (e : Executor S) (conns : gmap nat TcpConnAsync) :
  svc_ok (service_impl_ e) ->
  (forall c, conns !! full_socket_ i = Some c -> timer_ok conf c /\ block_ok c) ->
  on_connection (full_socket_ i) (let _ := server_sink conf in svc_handle_RPC (C:=TcpConnAsync) i) (e, conns) =
    Done (tt, (e, match conns !! full_socket_ i with
                  | Some c => <[full_socket_ i := sent conf (reply_of i) c]> conns
                  | None => conns
                  end)).
Proof.
  intros Hok Hc. unfold on_connection. rewrite svc_answers by done.
  unfold answer_with, zoom, send_if_alive. cbn [fst snd].
  assert (set_service_impl (service_impl_ e) e = e) as He by (by destruct e).
  destruct (conns !! full_socket_ i) as [c|] eqn:E.
  - destruct (Hc c eq_refl) as [Ht Hb]. unfold sink_send, server_sink.
    rewrite async_send_message_eq by done. by rewrite He.
  - rewrite He, <-E, partial_alter_self. done.
Qed.

(** The server when the thread with the [k]-th request, [i] of service [sid], has handled it. *)
Definition answered k sid (e : Executor S) i w : World S :=
  put_executor sid e (set_hands (delete k (w_hands w)) (set_server
    (set_conns (match ns_conns (w_server w) !! full_socket_ i with
                | Some c => <[full_socket_ i := sent (w_conf w) (reply_of i) c]> (ns_conns (w_server w))
                | None => ns_conns (w_server w)
                end) (w_server w)) w)).

Lemma run_handler_eq known w k sid i e :
  world_inv known w -> w_hands w !! k = Some (sid, i) -> services_ (w_disp w) !! sid = Some e ->
  run_handler k w = Done (answered k sid e i w).
Proof.
  intros I Hk He. unfold run_handler. rewrite Hk, He, on_connection_eq; [done|exact (dk_ok _ _ (wi_disp _ _ I) _ _ He)|].
  intros c Hc. by destruct (wi_conns _ _ I _ _ Hc) as (net & ms & [_ [[] _ _] _]).
Qed.

(** The connections then: only the asker's changed. *)
Lemma answered_conn k sid e i w id c' :
  ns_conns (w_server (answered k sid e i w)) !! id = Some c' ->
  exists c, ns_conns (w_server w) !! id = Some c /\
    c' = if decide (id = full_socket_ i) then sent (w_conf w) (reply_of i) c else c.
Proof.
  unfold answered. cbn. destruct (ns_conns _ !! full_socket_ i) as [c0|] eqn:E0; intros Hc.
  - destruct (decide (id = full_socket_ i)) as [->|N].
    + rewrite lookup_insert_eq in Hc. simplify_eq. by exists c0.
    + rewrite lookup_insert_ne in Hc by done. by exists c'.
  - exists c'. split; [done|]. rewrite decide_False; [done|]. intros ->. congruence.
Qed.

Lemma answered_pending k sid e i w :
  w_hands w !! k = Some (sid, i) -> services_ (w_disp w) !! sid = Some e ->
  pending w ≡ₚ i :: pending (answered k sid e i w).
Proof.
  intros Hk He. unfold pending, answered.
  cbn [w_disp w_hands put_executor set_hands set_server set_services services_ fst snd].
  rewrite insert_id by done. rewrite (delete_Permutation _ _ _ Hk) at 1. cbn. by rewrite Permutation_middle.
Qed.

(** The account of the asker's connection: what was due is sent. *)
Lemma answered_account known k sid e i w id c net ms :
  w_hands w !! k = Some (sid, i) -> services_ (w_disp w) !! sid = Some e ->
  account known w id c net ms ->
  account known (answered k sid e i w) id
    (if decide (id = full_socket_ i) then sent (w_conf w) (reply_of i) c else c) net ms.
Proof.
  intros Hk He Ha. pose proof (answered_pending k sid e i w Hk He) as Hp.
  set (w' := answered k sid e i w) in *. destruct (decide _) as [->|N].
  - destruct Ha as [A1 A2 A3]. split; [done|by apply sent_conn_inv|].
    change (w_conf w') with (w_conf w). rewrite A3, sent_log_sent. unfold due. rewrite Hp.
    change (w_conf w') with (w_conf w). unfold of_conn. rewrite filter_cons_True by done.
    rewrite fmap_cons, (admissible_cons _ (reply_of i)), <-app_assoc. apply Permutation_app_head.
    unfold admissible at 1. rewrite filter_cons, filter_nil. by destruct (over_limit (w_conf w) (reply_of i)).
  - apply (account_same known w); [done|done| |done].
    rewrite Hp. unfold of_conn. by rewrite filter_cons_False by done.
Qed.

Lemma answered_inv known k sid e i w :
  w_hands w !! k = Some (sid, i) -> services_ (w_disp w) !! sid = Some e ->
  world_inv known w -> world_inv known (answered k sid e i w).
Proof.
  intros Hk He [I1 I2 I3 I4 I5 I6 I7]. pose proof (answered_pending k sid e i w Hk He) as Hp. split.
  - unfold answered. cbn. by rewrite insert_id by done; destruct (w_disp w).
  - unfold answered. cbn. rewrite (delete_Permutation _ _ _ Hk) in I2. by inversion I2.
  - rewrite Hp in I3. inversion I3; subst. unfold answered. cbn. by destruct (ns_conns _ !! _).
  - intros id c' Hc. apply answered_conn in Hc as (c & Hc & _). exact (I4 id c Hc).
  - intros id c' Hc. apply answered_conn in Hc as (c & Hc & ->). destruct (I5 id c Hc) as (net & ms & Ha).
    exists net, ms. by apply answered_account.
  - exact I6.
  - unfold answered. cbn. destruct (ns_conns _ !! full_socket_ i) eqn:E0; [|done].
    cbn. rewrite map_size_insert_Some; [done|by eexists].
Qed.

Lemma answer_ok known w k :
  world_inv known w -> wenabled (WAnswer k) w = true ->
  exists w', wstep (WAnswer k) w = Done w' /\ stepped known (WAnswer k) w w'.
Proof.
  intros I _. cbn [wstep].
  destruct (w_hands w !! k) as [[sid i]|] eqn:Hk.
  2: { exists w. unfold run_handler. rewrite Hk. split; [done|by apply stay_stepped]. }
  destruct (services_ (w_disp w) !! sid) as [e|] eqn:He.
  2: { exists w. unfold run_handler. rewrite Hk, He. split; [done|by apply stay_stepped]. }
  rewrite (run_handler_eq known w k sid i e) by done. eexists. split; [done|].
  split; [by apply answered_inv|]. split; [done|done| |].
  - intros id c' _ Hc. apply answered_conn in Hc as (c & Hc & ->). exists c. split; [done|].
    destruct (decide _); [|done]. rewrite sent_log_sent. split; [by apply prefix_app_r|].
    apply (same_recv_live _ _ _ (sent_same_recv _ _ _)).
  - intros id net _ Hn. by apply (net_same w).
Qed.
(** ** The rest *)

Lemma release_ok known w id :
  world_inv known w -> wenabled (WRelease id) w = true ->
  exists w', wstep (WRelease id) w = Done w' /\ stepped known (WRelease id) w w'.
Proof.
  intros [I1 I2 I3 I4 I5 I6 I7] He. cbn [wenabled wstep] in *.
  destruct (ns_conns (w_server w) !! id) as [c|] eqn:Ec; [|done].
  eexists. split; [done|]. set (w' := set_server _ _).
  assert (forall id' c', ns_conns (w_server w') !! id' = Some c' -> ns_conns (w_server w) !! id' = Some c') as Hc
    by (intros id' c' Hc; cbn in Hc; by apply lookup_delete_Some in Hc as [_ Hc]).
  split; split; try done.
  - intros id' c' Hc'. by eapply I4, Hc.
  - intros id' c' Hc'. destruct (I5 id' c' (Hc _ _ Hc')) as (net & ms & Ha). exists net, ms.
    by apply (account_same known w).
  - cbn. rewrite map_size_delete_Some by (by eexists).
    assert (size (ns_conns (w_server w)) <> 0%nat) by (apply map_size_non_empty_iff; intros E; by rewrite E in Ec).
    lia.
  - intros id' c' _ Hc'. by exists c'; split; [apply Hc|].
  - intros id' net _ Hn. by apply (net_same w).
Qed.

Lemma feed_handler_conf ec (c : NetConf) :
  (service_speed_ c <> 0 -> is_Some (timed_feed_token_ c)) ->
  exists n c', timed_feed_token_handler ec c = Done (n, c') /\ same_limits c c' /\
    (service_speed_ c' <> 0 -> is_Some (timed_feed_token_ c')).
Proof.
  intros Ht. unfold timed_feed_token_handler, feed_service_token, mbind, M_bind, gets, modify.
  destruct (service_speed_ c =? 0) eqn:E; bool_prop.
  - eexists _, _. split; [reflexivity|]. by destruct c.
  - destruct (Ht E) as [t Hc]. rewrite Hc. destruct (expires_from_now 1 t).
    eexists _, _. split; [reflexivity|]. destruct c. split; [done|]. by eexists.
Qed.

Lemma before_feed_limits ec (s : NetServer) : same_limits (ns_conf s) (ns_conf (before_feed ec s)).
Proof. unfold before_feed. destruct (ec_failed ec); [done|]. cbn. by destruct (ns_conf s). Qed.

Lemma feed_ok known w ec :
  world_inv known w -> exists w', wstep (WFeed ec) w = Done w' /\ stepped known (WFeed ec) w w'.
Proof.
  intros I. pose proof (wi_timer _ _ I) as Ht. unfold w_conf in Ht. cbn [wstep]. rewrite feed_event_eq.
  pose proof (before_feed_limits ec (w_server w)) as Hb.
  destruct (feed_handler_conf (if ec_failed ec then ec_operation_aborted else ec_success)
    (ns_conf (before_feed ec (w_server w)))) as (n & c' & E & Hl & Ht').
  { unfold before_feed. destruct (ec_failed ec); [done|]. cbn.
    destruct (ns_conf _). cbn in *. intros Hs. by apply fmap_is_Some, Ht. }
  rewrite E. eexists. split; [done|]. cbn [fst snd].
  apply quiet_stepped; [done| |done]. apply set_server_quiet; try done.
  by transitivity (ns_conf (before_feed ec (w_server w))).
Qed.

Lemma settings_ok known w cfg :
  world_inv known w -> wenabled (WRuntime cfg) w = true ->
  exists w', wstep (WRuntime cfg) w = Done w' /\ stepped known (WRuntime cfg) w w'.
Proof.
  intros I He. cbn [wenabled wstep] in *. unfold update_settings, disables_timeouts in *.
  assert (exists ret s, NetServer_module_runtime cfg (w_server w) = Done (ret, s) /\
    quiet_step known w (set_server s w)) as (ret & s & E & Q).
  { destruct (module_runtime_run cfg (w_server w)) as [Hno Hok].
    destruct (decide (conf_ok (merge_conf cfg NetConf_new))) as [Hc|Hc].
    - destruct (Hok Hc) as (c' & aborted & E & (_ & Hops & _ & Hspeed & _) & Ht & (_ & _ & Hsend & Hrecv & _)).
      eexists _, _. split; [exact E|]. apply set_server_quiet; try done.
      + split; [done|done|]. intros Hz. unfold w_conf in *. cbn in Hz. rewrite Hops in Hz. rewrite Hz in He.
        apply negb_true_iff, andb_false_iff in He as [He|He]; [by bool_prop|done].
      + cbn. rewrite Hspeed. unfold timer_follows in Ht. intros Hs. case_match; bool_prop.
        * rewrite Ht. apply I. unfold w_conf. congruence.
        * rewrite (proj2 (Z.eqb_neq _ _) Hs) in Ht. destruct Ht as (t & -> & _). by eexists.
    - eexists _, _. split; [by apply Hno|]. by split; try apply I. }
  rewrite E. destruct (Dispatcher_module_runtime_ok known cfg (w_disp w)) as (r & d' & Ed & Hd & Hq); [apply I|].
  rewrite Ed. eexists. split; [done|]. apply quiet_stepped; [done| |done].
  split; try done; try apply Q; try apply I. unfold pending. cbn. by rewrite Hq.
Qed.

(** ** All events *)

Lemma wstep_ok known w e :
  world_inv known w -> wenabled e w = true -> exists w', wstep e w = Done w' /\ stepped known e w w'.
Proof.
  destruct e; [by apply accept_ok|by apply conn_event_ok|by intros; apply take_ok|by apply answer_ok|
    by apply release_ok|by intros; apply feed_ok|by apply adjust_ok|by apply settings_ok].
Qed.

(** A connection that is gone is sent nothing more. *)
Lemma wstep_net e w w' id :
  wstep e w = Done w' -> (id < next_conn (w_server w))%nat ->
  is_Some (ns_conns (w_server w') !! id) \/ w_net w' !! id = w_net w !! id.
Proof.
  intros E Hid. destruct e; cbn [wstep] in E;
    unfold take, run_handler, adjust, update_settings, finish in E; repeat case_match; simplify_eq;
    try (by right); cbn.
  - right. by rewrite lookup_insert_ne by lia.
  - destruct (decide (id = id0)) as [->|N]; [left; rewrite lookup_insert_eq; eauto|].
    right. by rewrite lookup_insert_ne.
Qed.

(** A server that is ready: no connection, no request, a timer if its speed is limited. *)
Record world_ready (known : gset Z) (s : NetServer) (d : Dispatcher S) : Prop := {
  wr_conns : ns_conns s = ∅;
  wr_count : current_concurrency_ s = 0;
  wr_timer : service_speed_ (ns_conf s) <> 0 -> is_Some (timed_feed_token_ (ns_conf s));
  wr_disp : disp_ok known d;
  wr_queues : all_queued (services_ d) = []
}.

Lemma ready_inv known s d : world_ready known s d -> world_inv known (fresh_world s d).
Proof.
  intros [R1 R2 R3 R4 R5]. split; try done; cbn; rewrite ?R1, ?R2; try done.
  unfold pending. cbn. by rewrite R5.
Qed.

Lemma wreach_inv known s d w :
  world_ready known s d -> wreach (fresh_world s d) w -> world_inv known w.
Proof.
  intros Hr. induction 1 as [|w e w' _ IH He E]; [by apply ready_inv|].
  destruct (wstep_ok known w e IH He) as (w2 & E2 & [I2 _]). congruence.
Qed.
End Inv.
