(* ===== verification/WorldProps.v ===== *)
(** * Properties of the running server

    What every client of the running server can rely on, whatever the others do and in
    whatever order its threads run: each of its requests is answered exactly once, with
    the answer of its service, and nothing else is sent to it; and no event traps the
    server. *)

From Stdlib Require Import ZArith Lia Init.Byte.
From stdpp Require Import base list strings gmap.
From S2P Require Import Prelude Endian Message Buffer RpcMessage NetConn External NetConf.
From S2P Require Import RpcInstance Service XtraTaskService Executor Dispatcher Demo Answering Decode.
From S2P Require Import ServerConn ServerSend ServerRead ServerSystem ServerInv ServerProps Pending.
From S2P Require Import NetServer NetServerProps World WorldInv.

Section Props.
Context `{Host} `{AssertMode} `{SteadyTimer} `{!SteadyTimerLaws} `{LibConfig} `{BoostString}
  {S : Type} `{!Service S} `{!Answering S} `{!EQueue RpcInstance} `{!EQueueLaws RpcInstance}.
Implicit Types (w : World S) (s : NetServer) (d : Dispatcher S).

(** The requests a connection got from its peer. *)
Definition requests w (rcvd : bytes) : list Message :=
  (decode_all (recv_max_msg_size_ (w_conf w)) (RHead rcvd)).1.

Lemma account_of_inv known w id c :
  world_inv known w -> ns_conns (w_server w) !! id = Some c ->
  exists wire rcvd ms, w_net w !! id = Some (wire, rcvd) /\
    sent_log c ++ due w id ≡ₚ admissible (w_conf w) (reaction known id <$> ms) /\
    ms `prefix_of` requests w rcvd /\ (live c -> ms = requests w rcvd) /\
    wire `prefix_of` stream (sent_log c).
Proof.
  intros I Hc. destruct (wi_conns _ _ I id c Hc) as ([wire rcvd] & ms & [Hnet [Hs Hrd] Hans]).
  cbn [fst snd] in *. exists wire, rcvd, ms. split; [done|]. split; [done|]. split_and!; [| |by apply (send_inv_wire (w_conf w))].
  - unfold requests. destruct Hrd as [st -> _|Hp _ _]; [done|exact Hp].
  - intros Hl. unfold requests. by destruct Hrd as [st -> _|].
Qed.

(** When nothing is due. *)
Lemma handled_answered known w id c :
  world_inv known w -> ns_conns (w_server w) !! id = Some c -> live c -> of_conn id (pending w) = [] ->
  exists wire rcvd, w_net w !! id = Some (wire, rcvd) /\ send_inv (w_conf w) wire c /\
    sent_log c ≡ₚ admissible (w_conf w) (reaction known id <$> requests w rcvd).
Proof.
  intros I Hc Hl Hp. destruct (wi_conns _ _ I id c Hc) as ([wire rcvd] & ms & [Hnet [Hs Hrd _] Hans]).
  cbn [fst snd] in *. exists wire, rcvd. split; [done|]. split; [done|].
  unfold due in Hans. rewrite Hp, app_nil_r in Hans. rewrite <-Hans. unfold requests.
  by destruct Hrd as [st -> _|].
Qed.

(** When moreover everything is written. *)
Lemma quiet_answered known w id c :
  world_inv known w -> ns_conns (w_server w) !! id = Some c -> live c ->
  of_conn id (pending w) = [] -> send_status_ c = Send_kDone -> send_data c = [] ->
  exists rcvd, w_net w !! id = Some (stream (sent_log c), rcvd) /\
    sent_log c ≡ₚ admissible (w_conf w) (reaction known id <$> requests w rcvd).
Proof.
  intros I Hc Hl Hp Hst Hsd.
  destruct (handled_answered known w id c I Hc Hl Hp) as (wire & rcvd & Hnet & [_ _ Hph] & Hlog).
  exists rcvd. split; [|done]. rewrite Hnet. destruct Hph as [_ _ Hph| |]; [|congruence..].
  by rewrite <-Hph, Hsd, app_nil_r.
Qed.

(** C2: every request is answered exactly once. At every moment of every run of the server,
    for every connection: the messages it accepted for sending, together with the answers
    its queued requests are still due, are up to order the answers to the requests it
    took from its peer's bytes, those over the send limit left out. So no answer is lost,
    none is sent twice, and none goes to another connection, not even one opened after
    the asker's was closed. The requests taken are the first ones in the bytes received,
    all of them while the connection is live; the bytes sent are the front of the
    encodings of the accepted messages. *)
Theorem every_request_answered_once known s d w id c :
  world_ready known s d -> wreach (fresh_world s d) w -> ns_conns (w_server w) !! id = Some c ->
  exists wire rcvd ms, w_net w !! id = Some (wire, rcvd) /\
    sent_log c ++ due w id ≡ₚ admissible (w_conf w) (reaction known id <$> ms) /\
    ms `prefix_of` requests w rcvd /\ (live c -> ms = requests w rcvd) /\
    wire `prefix_of` stream (sent_log c).
Proof. intros Hr Hw. apply account_of_inv. by eapply wreach_inv. Qed.

(** C8: a server with nothing left to do has said everything. When no request of a live
    connection waits for its service and everything it accepted is written, what its
    peer was sent is the encoding of exactly the answers to all its requests, in some
    order. *)
Theorem idle_connection_answered known s d w id c :
  world_ready known s d -> wreach (fresh_world s d) w -> ns_conns (w_server w) !! id = Some c ->
  live c -> of_conn id (pending w) = [] -> send_status_ c = Send_kDone -> send_data c = [] ->
  exists rcvd answers, w_net w !! id = Some (stream answers, rcvd) /\
    answers ≡ₚ admissible (w_conf w) (reaction known id <$> requests w rcvd).
Proof.
  intros Hr Hw Hc Hl Hp Hst Hsd.
  destruct (quiet_answered known w id c (wreach_inv known s d w Hr Hw) Hc Hl Hp Hst Hsd) as (rcvd & ? & ?).
  by exists rcvd, (sent_log c).
Qed.

(** C7: no event traps the running server: every accept, every event of every connection,
    every round of a service thread, every feed of the token bucket, every adjustment of a
    pool with a usable configuration and every update of
    the settings that does not switch the time-outs off runs to completion, without a
    failed assertion, undefined behaviour or an endless loop. *)
Theorem world_never_traps known s d w e :
  world_ready known s d -> wreach (fresh_world s d) w -> wenabled e w = true ->
  exists w', wstep e w = Done w' /\ wreach (fresh_world s d) w'.
Proof.
  intros Hr Hw He. destruct (wstep_ok known w e) as (w' & E & _); [by eapply wreach_inv|done|].
  exists w'. split; [done|]. by eapply wreach_step.
Qed.

(** The count of connections is right: at every moment it is the number of the connections
    that are open, and every request that waits came from a connection opened before. *)
Lemma connections_counted known s d w :
  world_ready known s d -> wreach (fresh_world s d) w ->
  current_concurrency_ (w_server w) = Z.of_nat (size (ns_conns (w_server w))) /\
  Forall (fun i => full_socket_ i < next_conn (w_server w))%nat (pending w) /\
  map_Forall (fun id _ => id < next_conn (w_server w))%nat (ns_conns (w_server w)).
Proof. intros Hr Hw. destruct (wreach_inv known s d w Hr Hw). split_and!; try done. Qed.

(** ** The services' work ends *)

(** A pool thread has something to do. *)
Definition busy (e : wevent) w : bool :=
  match e with
  | WTake sid =>
      match services_ (w_disp w) !! sid with Some ex => 0 <? SIZE (rpc_queue_ ex) | None => false end
  | WAnswer k => (k <? length (w_hands w))%nat
  | _ => false
  end.

Fixpoint run_busy (es : list wevent) w : option (World S) :=
  match es with
  | [] => Some w
  | e :: es => if busy e w then match wstep e w with Done w' => run_busy es w' | _ => None end else None
  end.

(** A queued request is taken and handled, one taken is handled. *)
Definition work w : nat := 2 * length (all_queued (services_ (w_disp w))) + length (w_hands w).

Lemma busy_step known w e :
  world_inv known w -> busy e w = true ->
  exists w', wstep e w = Done w' /\ world_inv known w' /\ work w = Datatypes.S (work w').
Proof.
  intros I Hb. destruct e as [| |sid|k| | | |]; try done.
  - destruct (take_ok known w sid I) as (w' & E & [I' _]). exists w'. split; [done|]. split; [done|].
    cbn [busy wstep] in *. unfold take in E. destruct (services_ _ !! sid) as [ex|] eqn:He; [|done].
    rewrite pop_request_eq in E. cbn [finish] in E. injection E as <-. unfold work.
    cbn [w_disp w_hands put_executor set_hands services_ set_services fst snd].
    rewrite (all_queued_pop _ _ _ He), length_app.
    rewrite SIZE_queued in Hb. destruct (queued (rpc_queue_ ex)); [done|].
    rewrite length_app. cbn. lia.
  - destruct (answer_ok known w k I Hb) as (w' & E & [I' _]). exists w'. split; [done|]. split; [done|].
    cbn [busy wstep] in *. apply Nat.ltb_lt in Hb.
    destruct (w_hands w !! k) as [[sid i]|] eqn:Hk; [|apply lookup_ge_None in Hk; lia].
    assert (sid ∈ known) as Hsid by (apply (Forall_lookup_1 _ _ _ _ (wi_hands _ _ I) Hk)).
    rewrite <-(dk_known _ _ (wi_disp _ _ I)) in Hsid. apply elem_of_dom in Hsid as [ex He].
    rewrite (run_handler_eq known w k sid i ex) in E by done. injection E as <-. unfold work, answered.
    cbn [w_disp w_hands put_executor set_hands set_server services_ set_services fst snd].
    rewrite insert_id by done. rewrite length_delete by (by eexists). lia.
Qed.

(** No work of the threads ends a connection or touches its bytes. *)
Lemma busy_keeps known w w' e id c :
  world_inv known w -> busy e w = true -> wstep e w = Done w' ->
  ns_conns (w_server w) !! id = Some c -> live c ->
  exists c', ns_conns (w_server w') !! id = Some c' /\ live c'.
Proof.
  intros I Hb E Hc Hl. destruct e as [| |sid|k| | | |]; try done; cbn [wstep busy] in *.
  - unfold take in E. destruct (services_ _ !! sid); [|by injection E as <-; exists c].
    destruct (pop_request _) as [[]| | |]; try done. injection E as <-. by exists c.
  - destruct (w_hands w !! k) as [[sid i]|] eqn:Hk.
    2: { unfold run_handler in E. rewrite Hk in E. injection E as <-. by exists c. }
    destruct (services_ (w_disp w) !! sid) as [ex|] eqn:He.
    2: { unfold run_handler in E. rewrite Hk, He in E. injection E as <-. by exists c. }
    rewrite (run_handler_eq known w k sid i ex) in E by done. injection E as <-. unfold answered. cbn.
    destruct (decide (id = full_socket_ i)) as [->|N].
    + rewrite Hc, lookup_insert_eq. eexists. split; [done|].
      by apply (same_recv_live _ _ _ (sent_same_recv (w_conf w) (reply_of i) c)).
    + exists c. split; [|done]. destruct (ns_conns _ !! full_socket_ i); [|done]. by rewrite lookup_insert_ne.
Qed.

Lemma busy_while_pending known w :
  world_inv known w -> pending w <> [] -> exists e, busy e w = true.
Proof.
  intros I Hp. destruct (w_hands w) as [|h l] eqn:Eh.
  2: { exists (WAnswer 0). cbn. by rewrite Eh. }
  unfold pending in Hp. rewrite Eh, app_nil_r in Hp. unfold all_queued in Hp.
  destruct (decide (Forall (fun p => queued (rpc_queue_ p.2) = []) (map_to_list (services_ (w_disp w))))) as [Ha|Ha].
  - destruct Hp. induction Ha as [|[sid e] m E Ha IH]; [done|]. cbn in *. by rewrite E.
  - apply not_Forall_Exists in Ha; [|apply _]. apply Exists_exists in Ha as ([sid e] & He & Hq).
    exists (WTake sid). cbn. apply elem_of_map_to_list in He. rewrite He, SIZE_queued.
    apply Z.ltb_lt. cbn in Hq. unfold zlen. destruct (queued (rpc_queue_ e)); [done|]. simpl. lia.
Qed.

(** C17: the services' work terminates. As long as requests wait some pool thread can act, and
    without new requests the threads can act exactly twice for every queued request and
    once for every taken one, in whatever order they do: then every answer is given. *)
Theorem service_work_terminates known s d w w' es :
  world_ready known s d -> wreach (fresh_world s d) w -> run_busy es w = Some w' ->
  (length es + work w' = work w)%nat /\
  (length es = work w <-> pending w' = []) /\
  (pending w' <> [] -> exists e, busy e w' = true).
Proof.
  intros Hr Hw Hrun. pose proof (wreach_inv known s d w Hr Hw) as I. clear Hr Hw.
  assert ((length es + work w' = work w)%nat /\ world_inv known w') as [Hlen I'].
  { revert w I Hrun. induction es as [|e es IH]; intros w I Hrun; cbn in Hrun; [by injection Hrun as ->|].
    destruct (busy e w) eqn:Hb; [|done]. destruct (busy_step known w e I Hb) as (w1 & E & I1 & Hk).
    rewrite E in Hrun. destruct (IH w1 I1 Hrun). split; [simpl; lia|done]. }
  split; [done|]. split; [|by apply (busy_while_pending known)].
  rewrite <-Hlen. unfold work, pending. rewrite <-length_zero_iff_nil, length_app, length_fmap. lia.
Qed.
(** ** The settings of a running server *)

(** Every setting in its range, and no token debt. *)
Definition settings_typed (conf : NetConf) : Prop := conf_ok conf /\ 0 <= service_token_ conf.

Lemma spend_typed ec remote s :
  settings_typed (ns_conf s) -> judge ec remote s = Busy \/ judge ec remote s = LetIn ->
  settings_typed (spend (ns_conf s)).
Proof.
  intros [Hc Ht] Hj.
  assert (has_token (ns_conf s) = true) as Htok.
  { unfold judge in Hj. destruct (ec_failed ec); [by destruct Hj|]. destruct remote; [|by destruct Hj].
    destruct (negb (check_safe_ip _ _)); [by destruct Hj|]. by destruct (has_token _); [|destruct Hj]. }
  unfold has_token, spend in *. destruct (service_speed_ _ =? 0); [done|].
  apply andb_prop in Htok as [_ Htok]. simpl in Htok. bool_prop.
  destruct (ns_conf s). split; [exact Hc|simpl in *; lia].
Qed.

Lemma accepted_typed ec remote sock s s' :
  settings_typed (ns_conf s) -> accepted (judge ec remote s) sock s s' -> settings_typed (ns_conf s').
Proof.
  intros Ht Ha. pose proof (spend_typed ec remote s Ht) as Hsp.
  destruct (judge ec remote s); cbn in Ha; try (by subst s').
  - subst s'. apply Hsp. by left.
  - destruct Ha as (c & -> & _). apply Hsp. by right.
Qed.

Lemma feed_typed ec n (c c' : NetConf) :
  settings_typed c -> timed_feed_token_handler ec c = Done (n, c') ->
  settings_typed c' /\ same_limits c c'.
Proof.
  unfold timed_feed_token_handler, feed_service_token, mbind, M_bind, gets, modify, settings_typed, conf_ok.
  intros Ht E. destruct (service_speed_ c =? 0) eqn:Hz; bool_prop.
  { injection E as <- <-. by destruct c. }
  destruct (timed_feed_token_ c) as [t|]; [|by destruct c].
  destruct (expires_from_now _ _). injection E as <- <-. destruct c. simpl in *. split; [|by split]. by intuition.
Qed.

Lemma update_typed (cfg : Config) s ret s' :
  settings_typed (ns_conf s) -> NetServer_module_runtime cfg s = Done (ret, s') ->
  settings_typed (ns_conf s') /\
  send_max_msg_size_ (ns_conf s') = send_max_msg_size_ (ns_conf s) /\
  recv_max_msg_size_ (ns_conf s') = recv_max_msg_size_ (ns_conf s).
Proof.
  intros Ht E. destruct (module_runtime_run cfg s) as [Hno Hok].
  destruct (decide (conf_ok (merge_conf cfg NetConf_new))) as [Hc|Hc].
  - destruct (Hok Hc) as (c' & aborted & E2 & (U1 & U2 & _ & U4 & U5) & _ & (_ & K2 & K3 & K4 & K5 & K6 & K7 & K8)).
    rewrite E in E2. injection E2 as -> ->. split; [|done].
    unfold settings_typed, conf_ok in *. simpl. rewrite U1, U2, U4, U5, K2, K3, K4, K5, K6, K7, K8. intuition.
  - rewrite (Hno Hc) in E. by injection E as <- <-.
Qed.

(** The settings [c'] are in range again, with the limits and the address of [c]. *)
Record settings_kept (c c' : NetConf) : Prop := {
  sk_typed : settings_typed c';
  sk_send : send_max_msg_size_ c' = send_max_msg_size_ c;
  sk_recv : recv_max_msg_size_ c' = recv_max_msg_size_ c
}.

(** An event that can come when updates may switch the time-outs off as well. *)
Definition may_come (e : wevent) w : bool :=
  match e with WRuntime _ => true | _ => wenabled e w end.

(** The states that can be reached then. *)
Inductive ureach (w0 : World S) : World S -> Prop :=
| ureach_start : ureach w0 w0
| ureach_step w e w' : ureach w0 w -> may_come e w = true -> wstep e w = Done w' -> ureach w0 w'.

Fixpoint run_updated (es : list wevent) w : option (World S) :=
  match es with
  | [] => Some w
  | e :: es =>
      if may_come e w then match wstep e w with Done w' => run_updated es w' | _ => None end else None
  end.

Lemma run_updated_reach es (w0 w w' : World S) : ureach w0 w -> run_updated es w = Some w' -> ureach w0 w'.
Proof.
  revert w. induction es as [|e es IH]; intros w Hw; simpl; [congruence|].
  destruct (may_come e w) eqn:He; [|done]. destruct (wstep e w) eqn:Hh; try done.
  apply IH. by eapply ureach_step.
Qed.

Lemma wstep_settings w e w' :
  settings_typed (w_conf w) -> may_come e w = true -> wstep e w = Done w' ->
  settings_kept (w_conf w) (w_conf w').
Proof.
  intros Ht He E. assert (settings_kept (w_conf w) (w_conf w)) as Hsame by done.
  destruct e as [ec remote sock|id e|sid|k|id|ec|sid ec|cfg]; cbn [wstep wenabled may_come] in *.
  - unfold idle_socket_b in He. bool_prop.
    destruct (accept_handler_run ec remote sock (w_server w) (w_disp w)) as (s' & E' & Hs).
    { by split; eapply bool_decide_eq_true_1. } { by apply Nat.ltb_lt. }
    rewrite E' in E. injection E as <-. unfold w_conf in *. cbn.
    pose proof (accepted_typed _ _ _ _ _ Ht Hs) as Ht'. split; [done| |].
    all: destruct (judge _ _ _); cbn in Hs; try (by subst s').
    all: try (subst s'; cbn; apply (spend_limits (ns_conf (w_server w)))).
    all: destruct Hs as (c & -> & _); cbn; apply (spend_limits (ns_conf (w_server w))).
  - destruct (ns_conns _ !! _); [|by injection E as <-]. destruct (w_net w !! id); [|by injection E as <-].
    destruct (handle _ _ _ _); try done. by injection E as <-.
  - unfold take in E. destruct (services_ _ !! _); [|by injection E as <-].
    destruct (pop_request _) as [[]| | |]; try done. by injection E as <-.
  - unfold run_handler in E. destruct (w_hands w !! k) as [[sid i]|]; [|by injection E as <-].
    destruct (services_ _ !! _); [|by injection E as <-].
    destruct (on_connection _ _ _) as [[[] [? ?]]| | |]; try done. by injection E as <-.
  - by injection E as <-.
  - rewrite feed_event_eq in E. destruct (timed_feed_token_handler _ _) as [[n c']| | |] eqn:Ef; try done.
    injection E as <-. apply feed_typed in Ef as [Hc' Hl].
    2: { unfold before_feed. unfold w_conf in Ht. destruct (ec_failed ec); [done|]. by destruct (ns_conf _). }
    pose proof (before_feed_limits ec (w_server w)) as Hb.
    split; [done|..]; unfold w_conf in *; cbn; [rewrite (sl_send _ _ Hl)|rewrite (sl_recv _ _ Hl)]; apply Hb.
  - unfold adjust in E. destruct (services_ _ !! _); [|by injection E as <-].
    destruct (executor_threads_adjust _ _) as [[]| | |]; try done. by injection E as <-.
  - unfold update_settings in E. destruct (NetServer_module_runtime cfg (w_server w)) as [[ret s']| | |] eqn:Es; try done.
    destruct (Dispatcher_module_runtime _ _); try done. injection E as <-.
    destruct (update_typed cfg (w_server w) ret s' Ht Es) as (? & ? & ?). by split.
Qed.
(** C30: the settings of a running server are always in range. What start-up checked holds at
    every later moment: every setting satisfies its range check, whatever was let in, fed
    or updated, updates that switch the time-outs off included; the token bucket is never
    in debt; and the two size limits are those the server started with. *)
Theorem settings_stay_valid (w0 w : World S) :
  settings_typed (w_conf w0) -> ureach w0 w -> settings_kept (w_conf w0) (w_conf w).
Proof.
  intros Ht. induction 1 as [|w e w' _ [IH1 IH2 IH3] He E]; [by split|].
  destruct (wstep_settings w e w' IH1 He E). split; [done|congruence..].
Qed.

(** ** The concurrency limit *)

(** The limit on connections in force, and the connections that are open. *)
Definition conn_limit w : Z := service_concurrency_ (w_conf w).
Definition open_conns w : Z := Z.of_nat (size (ns_conns (w_server w))).

(** The runs in which there always was a limit of [L] connections at most. *)
Inductive limited_reach (L : Z) (w0 : World S) : World S -> Prop :=
| lreach_start : 0 < conn_limit w0 <= L -> limited_reach L w0 w0
| lreach_step w e w' : limited_reach L w0 w -> wenabled e w = true -> wstep e w = Done w' ->
    0 < conn_limit w' <= L -> limited_reach L w0 w'.

Lemma limited_reaches L (w0 w : World S) : limited_reach L w0 w -> wreach w0 w /\ 0 < conn_limit w <= L.
Proof. induction 1 as [|w e w' _ [IH _] He E Hl]; [by split; [constructor|]|]. by split; [eapply wreach_step|]. Qed.

(** The count of the connections grows by one, when one is let in within the limit, or not. *)
Lemma wstep_count known w e w' :
  world_inv known w -> wenabled e w = true -> wstep e w = Done w' ->
  current_concurrency_ (w_server w') <= current_concurrency_ (w_server w) \/
  current_concurrency_ (w_server w') = current_concurrency_ (w_server w) + 1 /\
  (0 < conn_limit w -> current_concurrency_ (w_server w) <= conn_limit w).
Proof.
  intros I He E. destruct e as [ec remote sock|id e|sid|k|id|ec|sid ec|cfg]; cbn [wstep wenabled] in *.
  - unfold idle_socket_b in He. bool_prop.
    destruct (accept_handler_run ec remote sock (w_server w) (w_disp w)) as (s' & E' & Hs).
    { by split; eapply bool_decide_eq_true_1. } { by apply Nat.ltb_lt. }
    rewrite E' in E. injection E as <-. cbn. rewrite (accepted_count _ _ _ _ Hs).
    destruct (bool_decide_reflect (judge ec remote (w_server w) = LetIn)) as [Hj|Hj]; [right|left; lia]. split; [lia|]. intros Hl.
    apply (judge_let_in _ _ _ Hj). unfold conn_limit, w_conf in Hl. lia.
  - left. destruct (ns_conns _ !! _); [|by injection E as <-]. destruct (w_net w !! id); [|by injection E as <-].
    destruct (handle _ _ _ _); try done. by injection E as <-.
  - left. unfold take in E. destruct (services_ _ !! _); [|by injection E as <-].
    destruct (pop_request _) as [[]| | |]; try done. by injection E as <-.
  - left. unfold run_handler in E. destruct (w_hands w !! k) as [[sid i]|]; [|by injection E as <-].
    destruct (services_ _ !! _); [|by injection E as <-].
    destruct (on_connection _ _ _) as [[[] [? ?]]| | |]; try done. by injection E as <-.
  - left. injection E as <-. cbn. lia.
  - left. rewrite feed_event_eq in E. destruct (timed_feed_token_handler _ _) as [[n c']| | |]; try done.
    by injection E as <-.
  - left. unfold adjust in E. destruct (services_ _ !! _); [|by injection E as <-].
    destruct (executor_threads_adjust _ _) as [[]| | |]; try done. by injection E as <-.
  - left. unfold update_settings in E. destruct (NetServer_module_runtime cfg (w_server w)) as [[ret s']| | |] eqn:Es; try done.
    destruct (Dispatcher_module_runtime _ _); try done. injection E as <-. cbn.
    destruct (module_runtime_run cfg (w_server w)) as [Hno Hok].
    destruct (decide (conf_ok (merge_conf cfg NetConf_new))) as [Hc|Hc].
    + destruct (Hok Hc) as (c' & aborted & E2 & _). rewrite Es in E2. injection E2 as _ ->. done.
    + rewrite (Hno Hc) in Es. by injection Es as _ <-.
Qed.

(** C32: the concurrency limit lets one more in. In every run of the server in which the limit is
    set and at most [L], whatever connections come and go and however the limit is changed
    (by updates that do not switch the time-outs off), at most [L] + 1 connections are open
    at a time; only an accept opens one, one at a time, and none while more connections are
    open than the limit in force; but with exactly the limit open, a further acceptable
    peer is still let in. *)
Theorem concurrency_limit_plus_one known s d L w :
  world_ready known s d -> limited_reach L (fresh_world s d) w ->
  open_conns w <= L + 1 /\
  (forall e w', wenabled e w = true -> wstep e w = Done w' -> open_conns w < open_conns w' ->
     open_conns w' = open_conns w + 1 /\ open_conns w <= conn_limit w) /\
  (forall ip sock, wenabled (WAccept ec_success (Some ip) sock) w = true -> check_safe_ip ip (w_conf w) = true ->
     has_token (w_conf w) = true -> open_conns w = conn_limit w ->
     exists w', wstep (WAccept ec_success (Some ip) sock) w = Done w' /\ open_conns w' = conn_limit w + 1).
Proof.
  intros Hr Hw. assert (forall w', wreach (fresh_world s d) w' -> world_inv known w' /\
    current_concurrency_ (w_server w') = open_conns w') as Hcount
    by (intros w' Hw'; pose proof (wreach_inv known s d w' Hr Hw') as I; split; [done|apply (wi_count _ _ I)]).
  destruct (limited_reaches L _ w Hw) as [Hwr Hl]. destruct (Hcount w Hwr) as [I Ec].
  split; [|split].
  - clear Hwr Hl I Ec. induction Hw as [Hl|w e w' Hw IH He E Hl].
    + unfold open_conns. cbn. rewrite (wr_conns _ _ _ Hr), map_size_empty. lia.
    + destruct (limited_reaches L _ w Hw) as [Hwr Hl0].
      destruct (Hcount w Hwr) as [I Ec], (Hcount w') as [_ Ec']; [by eapply wreach_step|].
      pose proof (wstep_count known w e w' I He E). rewrite Ec, Ec' in *. lia.
  - intros e w' He E Hlt. destruct (Hcount w') as [_ Ec']; [by eapply wreach_step|].
    pose proof (wstep_count known w e w' I He E). rewrite Ec, Ec' in *. lia.
  - intros ip sock He Hip Htok Heq. pose proof (wstep_ok known w _ I He) as (w' & E & _).
    exists w'. split; [done|]. destruct (Hcount w') as [_ <-]; [by eapply wreach_step|].
    cbn [wstep wenabled] in *. unfold idle_socket_b in He. bool_prop.
    destruct (accept_handler_run ec_success (Some ip) sock (w_server w) (w_disp w)) as (s' & E' & Hs).
    { by split; eapply bool_decide_eq_true_1. } { by apply Nat.ltb_lt. }
    rewrite E' in E. injection E as <-. cbn. rewrite (accepted_count _ _ _ _ Hs).
    unfold judge. cbn [ec_failed]. unfold conn_limit, w_conf in *. rewrite Hip, Htok. cbn [negb].
    rewrite (proj2 (Z.ltb_ge _ _)), andb_false_r by lia. rewrite bool_decide_true by done. lia.
Qed.

(** ** Switching the time-outs off *)

(** [do_write] on a connection whose timer runs, when the settings say there is none. *)
Lemma do_write_timer_trap conf msg c t :
  assert_stops = true -> ops_cancel_time_out_ conf = 0 -> ops_cancel_timer_ c = Some t -> live c ->
  send_status_ c = Send_kDone -> over_limit conf msg = false -> block_ok c ->
  len (send_data c ++ net_str msg) < 2 ^ 32 ->
  async_send_message conf msg c = AssertFailed.
Proof.
  intros Hstop Hz Ht [Hl1 Hl2] Hst Hov Hb Hlen. unfold async_send_message, over_limit in *. rewrite Hov.
  unfold mbind at 1, M_bind at 1. rewrite send_append_eq. unfold mbind at 1, M_bind at 1, do_write.
  unfold mbind at 1, M_bind at 1. rewrite do_write_guard_eq.
  set (c1 := appended msg c). assert (guard c1 = None) as ->.
  { unfold guard. change (send_status_ c1) with (send_status_ c). change (conn_stat c1) with (conn_stat c).
    change (was_cancelled_ c1) with (was_cancelled_ c). by rewrite Hst, Hl1, Hl2, !bool_decide_true. }
  assert (get_length (buffer_ (send_bound_ c1)) <> 0) as Hn.
  { rewrite get_length_small by done. change (data_ _) with (send_data c ++ net_str msg).
    rewrite zlen_app, zlen_net_str. unfold sizeof_Header. pose proof (zlen_nonneg (send_data c)). pose proof (zlen_nonneg (payload_ msg)). lia. }
  unfold do_write_locked, mbind, M_bind, gets, modify. rewrite (proj2 (Z.eqb_neq _ _)) by done.
  pose proof (next_write_range c1 Hn) as [[? ?] ?]. fold (next_write c1).
  assert (block_ok c1) as Hb1 by exact Hb.
  unfold send_consume. rewrite consume_raw_some by (rewrite ?Hb1; done).
  unfold set_ops_cancel_timeout, mbind, M_bind, gets, safe_assert. cbn. rewrite Hz. cbn.
  rewrite bool_decide_false by congruence. by rewrite Hstop.
Qed.

(** C29: switching the time-outs off stops the server. A valid update that sets
    ops_cancel_time_out to zero leaves the timers of the open connections armed; when a
    service then answers on such a connection, [do_write] finds a timer where the settings
    allow none and its assertion fails. *)
Theorem timeout_disabled_traps known s d w (cfg : Config) w' k sid i c t :
  assert_stops = true -> world_ready known s d -> wreach (fresh_world s d) w ->
  conf_ok (merge_conf cfg NetConf_new) -> ops_cancel_time_out_ (merge_conf cfg NetConf_new) = 0 ->
  wstep (WRuntime cfg) w = Done w' ->
  w_hands w !! k = Some (sid, i) -> ns_conns (w_server w) !! full_socket_ i = Some c ->
  live c -> ops_cancel_timer_ c = Some t -> send_status_ c = Send_kDone ->
  over_limit (w_conf w) (reply_of i) = false -> len (send_data c ++ net_str (reply_of i)) < 2 ^ 32 ->
  wstep (WAnswer k) w' = AssertFailed.
Proof.
  intros Hstop Hr Hw Hok Hz E Hk Hc Hl Ht Hst Hov Hlen. pose proof (wreach_inv known s d w Hr Hw) as I.
  destruct (module_runtime_run cfg (w_server w)) as [_ Hrun].
  destruct (Hrun Hok) as (conf' & aborted & Es & (_ & Hops & _) & _ & (_ & _ & Hsend & _)).
  destruct (Dispatcher_module_runtime_ok known cfg (w_disp w)) as (r & d' & Ed & Hd & _); [apply I|].
  cbn [wstep] in E. unfold update_settings in E. rewrite Es, Ed in E. injection E as <-.
  cbn [wstep]. unfold run_handler. cbn [w_hands w_disp fst snd]. rewrite Hk.
  assert (sid ∈ known) as Hsid by (apply (Forall_lookup_1 _ _ _ _ (wi_hands _ _ I) Hk)).
  rewrite <-(dk_known _ _ Hd) in Hsid. apply elem_of_dom in Hsid as [ex He]. rewrite He.
  unfold on_connection. cbn. rewrite Hc, svc_answers by exact (dk_ok _ _ Hd _ _ He).
  unfold answer_with, zoom, send_if_alive, sink_send, server_sink. cbn [fst snd].
  destruct (wi_conns _ _ I _ _ Hc) as (net & ms & [_ [[Hb _] _] _]).
  rewrite (do_write_timer_trap _ _ _ t); try done; [by rewrite Hops|].
  unfold over_limit in *. by rewrite Hsend.
Qed.
End Props.

(** ** Worked example

    Two clients of the echo server: the first asks the echo service, the second an
    unknown one; the first is answered by a pool thread, the second at once. *)

Definition demo_server : NetServer := mkNetServer demo_conf 0 1 0 ∅ 0 [] [].
Definition demo_start : World unit := fresh_world demo_server demo_dispatcher.

Definition ask (id : nat) (msg : Message) : list wevent :=
  [WConn id (EReadDone (ztake 16 (net_str msg))); WConn id (EReadDone (zdrop 16 (net_str msg)))].

(** Until the request is in the hands of a thread. *)
Definition demo_asked : list wevent :=
  [WAccept ec_success (Some "10.0.0.1"%string) Socket_new; WAccept ec_success (Some "10.0.0.2"%string) Socket_new]
  ++ ask 0 (demo_message 1 hi) ++ ask 1 (demo_message 9 hi) ++ [WTake 1].
(** Until the answers are written. *)
Definition demo_served : list wevent := demo_asked ++ [WAnswer 0; WConn 0 EWriteDone; WConn 1 EWriteDone].

Definition demo_world (es : list wevent) : World unit := default demo_start (run_world es demo_start).

Lemma demo_world_ready : world_ready {[ 1 ]} demo_server demo_dispatcher.
Proof. by split. Defined.

Lemma demo_world_reach es :
  is_Some (run_world es demo_start) -> wreach demo_start (demo_world es).
Proof.
  intros [w Hw]. unfold demo_world. rewrite Hw. eapply run_world_reach; [apply wreach_start|exact Hw].
Defined.

Definition demo_connection (w : World unit) (id : nat) : TcpConnAsync :=
  default (TcpConnAsync_new Socket_new) (ns_conns (w_server w) !! id).

Lemma demo_connection_open es id :
  is_Some (ns_conns (w_server (demo_world es)) !! id) ->
  ns_conns (w_server (demo_world es)) !! id = Some (demo_connection (demo_world es) id).
Proof. intros [c Hc]. unfold demo_connection. by rewrite Hc. Defined.

Lemma demo_asked_runs : is_Some (run_world demo_asked demo_start).
Proof. apply not_eq_None_Some. by vm_compute. Defined.
Lemma demo_served_runs : is_Some (run_world demo_served demo_start).
Proof. apply not_eq_None_Some. by vm_compute. Defined.

(** While the first client's request is in a thread's hands its answer is due. *)
Lemma every_request_answered_once_witness :
  let w := demo_world demo_asked in let c := demo_connection w 0 in
  exists wire rcvd ms, w_net w !! 0%nat = Some (wire, rcvd) /\
    sent_log c ++ due w 0 ≡ₚ admissible (w_conf w) (reaction {[ 1 ]} 0 <$> ms) /\
    ms `prefix_of` requests w rcvd /\ (live c -> ms = requests w rcvd) /\
    wire `prefix_of` stream (sent_log c).
Proof.
  apply (every_request_answered_once {[ 1 ]} demo_server demo_dispatcher (demo_world demo_asked) 0).
  - exact demo_world_ready.
  - apply demo_world_reach, demo_asked_runs.
  - apply demo_connection_open, not_eq_None_Some. by vm_compute.
Defined.

(** At the end both have their answer: an echo, and a refusal. *)
Lemma idle_connection_answered_witness :
  let w := demo_world demo_served in
  (exists rcvd answers, w_net w !! 0%nat = Some (stream answers, rcvd) /\
     answers ≡ₚ admissible (w_conf w) (reaction {[ 1 ]} 0 <$> requests w rcvd)) /\
  w_net w !! 1%nat = Some (net_str (reject_message Resp_INVALID_SERVICE), net_str (demo_message 9 hi)).
Proof.
  split; [|by vm_compute].
  apply (idle_connection_answered {[ 1 ]} demo_server demo_dispatcher (demo_world demo_served) 0
    (demo_connection (demo_world demo_served) 0)).
  - exact demo_world_ready.
  - apply demo_world_reach, demo_served_runs.
  - apply demo_connection_open, not_eq_None_Some. by vm_compute.
  - by vm_compute.
  - by vm_compute.
  - by vm_compute.
  - by vm_compute.
Defined.

Lemma world_never_traps_witness :
  exists w', wstep (WAnswer 0) (demo_world demo_asked) = Done w' /\ wreach demo_start w'.
Proof.
  apply (world_never_traps {[ 1 ]} demo_server demo_dispatcher (demo_world demo_asked) (WAnswer 0)).
  - exact demo_world_ready.
  - apply demo_world_reach, demo_asked_runs.
  - by vm_compute.
Defined.

Definition demo_done : World unit := default demo_start (run_busy [WAnswer 0] (demo_world demo_asked)).

Lemma service_work_terminates_witness :
  (1 + work demo_done = work (demo_world demo_asked))%nat /\
  (1%nat = work (demo_world demo_asked) <-> pending demo_done = []) /\
  (pending demo_done <> [] -> exists e, busy e demo_done = true).
Proof.
  apply (service_work_terminates {[ 1 ]} demo_server demo_dispatcher (demo_world demo_asked) demo_done [WAnswer 0]).
  - exact demo_world_ready.
  - apply demo_world_reach, demo_asked_runs.
  - by vm_compute.
Defined.

(** A server whose settings are in range, with a speed of 5 and at most 1 connection. *)
Definition demo_limited : NetConf :=
  set_service_concurrency_ 1 (set_service_speed_ 5 (set_service_token_ 5
    (set_timed_feed_token_ (Some 1%nat) (set_bind_addr_ "0.0.0.0" (set_bind_port_ 8434 demo_conf))))).
Definition limited_server : NetServer := mkNetServer demo_limited 0 1 0 ∅ 0 [] [].
Definition limited_start : World unit := fresh_world limited_server demo_dispatcher.

(** Two clients are let in, the first asks and gets its echo, a third client is refused; the
    bucket is filled; an update sets the speed to 7 and switches the time-outs off. *)
Definition limited_events : list wevent :=
  demo_asked ++ [WAnswer 0; WConn 0 EWriteDone; WAccept ec_success (Some "10.0.0.3"%string) Socket_new;
    WFeed ec_success; WRuntime (demo_net_config 7)].
Definition limited_end : World unit := default limited_start (run_updated limited_events limited_start).

Lemma limited_typed : settings_typed demo_limited.
Proof. unfold settings_typed, conf_ok, size_limit_ok. cbn. split_and!; try lia; try congruence; auto with lia. Defined.

Lemma limited_runs : run_updated limited_events limited_start = Some limited_end.
Proof.
  assert (bool_decide (is_Some (run_updated limited_events limited_start)) = true) as E by (vm_compute; reflexivity).
  apply bool_decide_eq_true_1 in E as [w E]. unfold limited_end. by rewrite E.
Qed.

Lemma settings_stay_valid_witness :
  settings_kept demo_limited (w_conf limited_end) /\ service_speed_ (w_conf limited_end) = 7 /\
  ops_cancel_time_out_ (w_conf limited_end) = 0 /\ service_token_ (w_conf limited_end) = 5.
Proof.
  split; [|split; [|split]; vm_compute; reflexivity].
  apply (settings_stay_valid limited_start limited_end limited_typed).
  apply (run_updated_reach limited_events limited_start limited_start); [apply ureach_start|exact limited_runs].
Defined.

(** A run whose settings are checked on the way. *)
Fixpoint run_limited (L : Z) (es : list wevent) (w : World unit) : bool :=
  (0 <? conn_limit w) && (conn_limit w <=? L) &&
  match es with
  | [] => true
  | e :: es => wenabled e w && match wstep e w with Done w' => run_limited L es w' | _ => false end
  end.

Lemma run_limited_reach L es (w0 w w' : World unit) :
  limited_reach L w0 w -> run_limited L es w = true -> run_world es w = Some w' -> limited_reach L w0 w'.
Proof.
  revert w. induction es as [|e es IH]; intros w Hw; cbn [run_limited run_world]; [by intros _ [= <-]|].
  intros [_ [He Hr]%andb_prop]%andb_prop. rewrite He. destruct (wstep e w) as [w1| | |] eqn:E; try done.
  apply IH; [|done]. apply (lreach_step L w0 w e w1); [done|done|done|].
  destruct es; cbn [run_limited] in Hr; apply andb_prop in Hr as [[? ?]%andb_prop _]; bool_prop; lia.
Qed.

(** One client is let in, asks, is answered and leaves; then two others come. *)
Definition one_open : list wevent :=
  [WAccept ec_success (Some "10.0.0.1"%string) Socket_new] ++ ask 0 (demo_message 9 hi) ++
  [WConn 0 EWriteDone; WConn 0 (EReadError ec_eof); WRelease 0;
   WAccept ec_success (Some "10.0.0.2"%string) Socket_new].
Definition limited_world (es : list wevent) : World unit := default limited_start (run_world es limited_start).

Lemma limited_world_reach es :
  run_limited 1 es limited_start && bool_decide (is_Some (run_world es limited_start)) = true ->
  limited_reach 1 limited_start (limited_world es).
Proof.
  intros [Hl [w Hw]%bool_decide_eq_true_1]%andb_prop. unfold limited_world. rewrite Hw. cbn.
  apply (run_limited_reach 1 es limited_start limited_start w); [|done|done].
  apply lreach_start. split; vm_compute; [reflexivity|discriminate].
Qed.

Definition next_client : wevent := WAccept ec_success (Some "10.0.0.3"%string) Socket_new.

(** With one open the next is let in, with two open none is. *)
Lemma concurrency_limit_plus_one_witness :
  (exists w', wstep next_client (limited_world one_open) = Done w' /\ open_conns w' = 2) /\
  open_conns (limited_world (one_open ++ [next_client])) <= 2 /\
  (forall e w', wenabled e (limited_world (one_open ++ [next_client])) = true ->
     wstep e (limited_world (one_open ++ [next_client])) = Done w' ->
     open_conns (limited_world (one_open ++ [next_client])) < open_conns w' ->
     open_conns w' = open_conns (limited_world (one_open ++ [next_client])) + 1 /\
     open_conns (limited_world (one_open ++ [next_client])) <= conn_limit (limited_world (one_open ++ [next_client]))).
Proof.
  assert (world_ready {[ 1 ]} limited_server demo_dispatcher) as Hr by (split; [done..|by eexists|done|done]).
  split.
  - destruct (concurrency_limit_plus_one {[ 1 ]} limited_server demo_dispatcher 1 (limited_world one_open) Hr)
      as (_ & _ & Hin); [apply limited_world_reach; vm_compute; reflexivity|].
    apply (Hin "10.0.0.3"%string Socket_new); vm_compute; reflexivity.
  - destruct (concurrency_limit_plus_one {[ 1 ]} limited_server demo_dispatcher 1
      (limited_world (one_open ++ [next_client])) Hr) as (Hle & Hgrow & _);
      [apply limited_world_reach; vm_compute; reflexivity|].
    split; [exact Hle|exact Hgrow].
Defined.

(** The echo of the first client is due when the time-outs are switched off. *)
Lemma timeout_disabled_traps_witness :
  exists w', wstep (WRuntime (demo_net_config 0)) (demo_world demo_asked) = Done w' /\
    wstep (WAnswer 0) w' = AssertFailed.
Proof.
  destruct (wstep (WRuntime (demo_net_config 0)) (demo_world demo_asked)) as [w'| | |] eqn:E.
  2-4: by vm_compute in E.
  exists w'. split; [reflexivity|].
  apply (timeout_disabled_traps {[ 1 ]} demo_server demo_dispatcher (demo_world demo_asked)
    (demo_net_config 0) w' 0 1 (accepted_instance (demo_request 1 hi) 0)
    (demo_connection (demo_world demo_asked) 0) 5).
  - reflexivity.
  - exact demo_world_ready.
  - apply demo_world_reach, demo_asked_runs.
  - unfold conf_ok, size_limit_ok. vm_compute. split_and!; (congruence || by left).
  - vm_compute. reflexivity.
  - exact E.
  - vm_compute. reflexivity.
  - vm_compute. reflexivity.
  - split; vm_compute; reflexivity.
  - vm_compute. reflexivity.
  - vm_compute. reflexivity.
  - vm_compute. reflexivity.
  - vm_compute. reflexivity.
Defined.
