(* ===== verification/ClientConf.v ===== *)
(** * Client/include/RpcClient.h, RpcClientStatus.h: settings and status codes *)

From Stdlib Require Import ZArith Lia Init.Byte.
From stdpp Require Import base list strings.
From S2P Require Import Prelude.

(** [RpcClientStatus : uint8_t]; a status byte of the server is cast into it as it is, so
    the type holds any byte. *)
Abbreviation RpcClientStatus := Z.
Definition Status_OK : RpcClientStatus := 0.
Definition Status_SERVICE_SPECIFIC_ERROR : RpcClientStatus := 1.
Definition Status_INVALID_VERSION : RpcClientStatus := 2.
Definition Status_INVALID_SERVICE : RpcClientStatus := 3.
Definition Status_INVALID_REQUEST : RpcClientStatus := 4.
Definition Status_SYSTEM_ERROR : RpcClientStatus := 5.
Definition Status_NETWORK_BEFORE_ERROR : RpcClientStatus := 10.
Definition Status_NETWORK_CONNECT_ERROR : RpcClientStatus := 11.
Definition Status_NETWORK_SEND_ERROR : RpcClientStatus := 12.
Definition Status_NETWORK_RECV_ERROR : RpcClientStatus := 13.
Definition Status_RPC_CALL_TIMEOUT : RpcClientStatus := 20.
Definition Status_RECV_FORMAT_ERROR : RpcClientStatus := 21.

(** The statuses that come from the client's own side of a call. *)
Definition is_local_status (st : RpcClientStatus) : bool :=
  bool_decide (st ∈ [Status_NETWORK_BEFORE_ERROR; Status_NETWORK_CONNECT_ERROR;
    Status_NETWORK_SEND_ERROR; Status_NETWORK_RECV_ERROR; Status_RPC_CALL_TIMEOUT;
    Status_RECV_FORMAT_ERROR]).

(** The members calls look at; whether a handler and an io_service were supplied. *)
Record RpcClientSetting := mkSetting {
  serv_addr_ : string;
  serv_port_ : Z;              (* uint32_t *)
  cl_send_max_msg_size_ : Z;   (* uint32_t, 0: no limit *)
  cl_recv_max_msg_size_ : Z;   (* uint32_t, 0: no limit *)
  log_level_ : Z;              (* uint32_t *)
  has_handler : bool;
  has_io_service : bool
}.

(** [RpcClientSetting()] *)
Definition RpcClientSetting_new : RpcClientSetting := mkSetting "" 0 0 0 7 false false.

Definition set_serv (addr : string) (port : Z) (s : RpcClientSetting) : RpcClientSetting :=
  mkSetting addr port (cl_send_max_msg_size_ s) (cl_recv_max_msg_size_ s) (log_level_ s)
    (has_handler s) (has_io_service s).
Definition set_cl_send_max (v : Z) (s : RpcClientSetting) : RpcClientSetting :=
  mkSetting (serv_addr_ s) (serv_port_ s) v (cl_recv_max_msg_size_ s) (log_level_ s)
    (has_handler s) (has_io_service s).
Definition set_cl_recv_max (v : Z) (s : RpcClientSetting) : RpcClientSetting :=
  mkSetting (serv_addr_ s) (serv_port_ s) (cl_send_max_msg_size_ s) v (log_level_ s)
    (has_handler s) (has_io_service s).
Definition set_log_level (v : Z) (s : RpcClientSetting) : RpcClientSetting :=
  mkSetting (serv_addr_ s) (serv_port_ s) (cl_send_max_msg_size_ s) (cl_recv_max_msg_size_ s) v
    (has_handler s) (has_io_service s).
Definition set_has_handler (v : bool) (s : RpcClientSetting) : RpcClientSetting :=
  mkSetting (serv_addr_ s) (serv_port_ s) (cl_send_max_msg_size_ s) (cl_recv_max_msg_size_ s)
    (log_level_ s) v (has_io_service s).
Definition set_has_io_service (v : bool) (s : RpcClientSetting) : RpcClientSetting :=
  mkSetting (serv_addr_ s) (serv_port_ s) (cl_send_max_msg_size_ s) (cl_recv_max_msg_size_ s)
    (log_level_ s) (has_handler s) v.
