(* ===== verification/ClientAsync.v ===== *)
(** * Client/TcpConnAsync.{h,cpp} and what RpcClientImpl keeps of its connections

    The read and write chains of an asynchronous client connection and what the wrapper
    makes of a message. The state of a read handler is the connection and the calls made
    of the user's handler ([upcall]s, in order); the handler itself is the user's code.
    RpcClientImpl may drop a connection that still has operations outstanding, which
    hold it by [shared_from_this]: connections live in [ai_conns] under a number, and
    [conn_async_] is the number the pointer refers to. [sent_log] is history. *)

From Stdlib Require Import ZArith Lia Init.Byte.
From stdpp Require Import base list strings gmap.
From S2P Require Import Prelude Endian Message Buffer RpcMessage NetConn ClientConf.

Record TcpConnAsync := mkTcpConnAsync {
  base_ : NetConn;
  recv_bound_ : IOBound;
  send_status_ : SendStatus;
  send_bound_ : IOBound;
  sent_log : list Message
}.

Definition upd_base (f : NetConn -> NetConn) (c : TcpConnAsync) : TcpConnAsync :=
  mkTcpConnAsync (f (base_ c)) (recv_bound_ c) (send_status_ c) (send_bound_ c) (sent_log c).
Definition upd_recv (f : IOBound -> IOBound) (c : TcpConnAsync) : TcpConnAsync :=
  mkTcpConnAsync (base_ c) (f (recv_bound_ c)) (send_status_ c) (send_bound_ c) (sent_log c).
Definition set_send_status (s : SendStatus) (c : TcpConnAsync) : TcpConnAsync :=
  mkTcpConnAsync (base_ c) (recv_bound_ c) s (send_bound_ c) (sent_log c).
Definition upd_send (f : IOBound -> IOBound) (c : TcpConnAsync) : TcpConnAsync :=
  mkTcpConnAsync (base_ c) (recv_bound_ c) (send_status_ c) (f (send_bound_ c)) (sent_log c).
Definition log_sent (m : Message) (c : TcpConnAsync) : TcpConnAsync :=
  mkTcpConnAsync (base_ c) (recv_bound_ c) (send_status_ c) (send_bound_ c) (sent_log c ++ [m]).

Definition on_base {A} (m : M NetConn A) : M TcpConnAsync A :=
  zoom base_ (fun b => upd_base (fun _ => b)) m.

Definition conn_stat (c : TcpConnAsync) : ConnStat := conn_stat_ (base_ c).
Definition recv_data (c : TcpConnAsync) : bytes := data_ (buffer_ (recv_bound_ c)).
Definition send_data (c : TcpConnAsync) : bytes := data_ (buffer_ (send_bound_ c)).

(** [TcpConnAsync(socket, io_service, client_setting, handler)] *)
Definition TcpConnAsync_new (sock : Socket) : TcpConnAsync :=
  let base := NetConn_new sock in
  let base := upd_socket (sock_call_add (CallNoDelay true)) base in
  let base := upd_socket (sock_call_add (CallNonBlocking true)) base in
  mkTcpConnAsync (set_conn_stat kWorking base) IOBound_new Send_kDone IOBound_new [].

(** A call of the user's handler: status, service id, opcode and response. *)
Record upcall := mkUpcall {
  uc_status : RpcClientStatus;
  uc_service_id : Z;
  uc_opcode : Z;
  uc_rsp : bytes
}.

Section ClientAsync.
Context `{Host} `{AssertMode}.
Variable setting : RpcClientSetting.

Definition shutdown_and_close_socket : M TcpConnAsync unit :=
  on_base (sock_shutdown_and_close Shut_kBoth).

Definition ec_closes_socket (ec : error_code) : bool :=
  match ec with
  | ec_connection_reset | ec_timed_out | ec_bad_descriptor => true
  | ec_eof => true
  | ec_operation_aborted => false
  | _ => true
  end.

Definition handle_socket_ec (ec : error_code) : M TcpConnAsync bool :=
  let close_socket := ec_closes_socket ec in
  _ ← when close_socket (on_base (sock_shutdown_and_close Shut_kBoth));
  mret close_socket.

(** ** Sending *)

(** [send_bound_.buffer_.consume(send_bound_.io_block_, sz)] *)
Definition send_consume (sz : Z) : M TcpConnAsync bool := fun c =>
  match consume_raw (Some (io_block_ (send_bound_ c))) sz (buffer_ (send_bound_ c)) with
  | Done (r, st, b) =>
      Done (r, upd_send (fun io => set_buffer b (set_io_block (default [] st) io)) c)
  | _ => Undefined
  end.

(** The tests before [bound_mutex_] is taken; a value is what [do_write] returns at once. *)
Definition do_write_guard : M TcpConnAsync (option bool) :=
  status ← gets send_status_;
  if negb (bool_decide (status = Send_kDone)) then mret (Some true) else
  stat ← gets conn_stat;
  if negb (bool_decide (stat = kWorking)) then mret (Some false) else
  mret None.

(** The critical section. *)
Definition do_write_locked : M TcpConnAsync bool :=
  n ← gets (fun c => get_length (buffer_ (send_bound_ c)));
  if n =? 0 then mret true else
  let to_write := Z.min n kFixedIoBufferSize in
  _ ← send_consume to_write;
  _ ← modify (set_send_status Send_kSend);
  _ ← modify (upd_base (async_write to_write));
  mret true.

Definition do_write : M TcpConnAsync bool :=
  r ← do_write_guard;
  match r with Some b => mret b | None => do_write_locked end.

Definition send_net_message (msg : Message) : M TcpConnAsync bool :=
  if negb (cl_send_max_msg_size_ setting =? 0) &&
     (cl_send_max_msg_size_ setting <? length_ (header_ msg))
  then mret false else
  _ ← modify (upd_send (fun io => set_buffer (append msg (buffer_ io)).2 io));
  _ ← modify (log_sent msg);
  do_write.

Definition write_handler (ec : error_code) (bytes_transferred : Z) : M TcpConnAsync unit :=
  if ec_failed ec then _ ← handle_socket_ec ec; mret tt else
  _ ← safe_assert (0 <? bytes_transferred);
  _ ← modify (set_send_status Send_kDone);
  _ ← do_write;
  mret tt.

(** ** Receiving *)

Definition recv_consume (sz : Z) : M TcpConnAsync bytes := fun c =>
  let '(_, str, b) := consume [] sz (buffer_ (recv_bound_ c)) in
  Done (str, upd_recv (set_buffer b) c).

Definition parse_header : M TcpConnAsync Z :=
  n ← gets (fun c => get_length (buffer_ (recv_bound_ c)));
  if n <? sizeof_Header then mret 1 else
  _ ← safe_assert (sizeof_Header <=? n);
  head_str ← recv_consume sizeof_Header;
  _ ← modify (upd_recv (set_ib_header (header_of_mem head_str)));
  _ ← modify (upd_recv (fun io => set_ib_header (from_net_endian (ib_header_ io)) io));
  h ← gets (fun c => ib_header_ (recv_bound_ c));
  if negb (magic h =? kHeaderMagic) || negb (version h =? kHeaderVersion) then mret (-1) else
  if negb (cl_recv_max_msg_size_ setting =? 0) && (cl_recv_max_msg_size_ setting <? length_ h)
  then mret (-1) else
  mret 0.

(** The second component is the out-parameter [msg]. *)
Definition parse_msg_body : M TcpConnAsync (Z * Message) :=
  n ← gets (fun c => get_length (buffer_ (recv_bound_ c)));
  h ← gets (fun c => ib_header_ (recv_bound_ c));
  if n <? length_ h then mret (1, Message_default) else
  _ ← safe_assert (length_ h <=? n);
  msg_str ← recv_consume (length_ h);
  mret (0, mkMessage h msg_str).

(** [async_recv_wrapper(net_message)]: what the user's handler is called with, if there is
    one. *)
Definition async_recv_wrapper (net_message : Message) : M (list upcall) unit := fun calls =>
  match RpcResponseMessageParse (payload_ net_message) RpcResponseMessage_default with
  | Done (ok, rpc_response_message) =>
      let h := rs_header_ rpc_response_message in
      let u :=
        if negb ok then mkUpcall Status_RECV_FORMAT_ERROR 65535 65535 []
        else if negb (rs_magic h =? kRpcHeaderMagic)
        then mkUpcall Status_RECV_FORMAT_ERROR 65535 65535 []
        else if negb (rs_status h =? response_code Resp_OK)
        then mkUpcall (uint8_t(rs_status h)) 65535 65535 []
        else mkUpcall Status_OK (rs_service_id h) (rs_opcode h) (rs_payload_ rpc_response_message) in
      Done (tt, if has_handler setting then calls ++ [u] else calls)
  | AssertFailed => AssertFailed
  | Undefined => Undefined
  | OutOfFuel => OutOfFuel
  end.

Abbreviation World := (TcpConnAsync * list upcall)%type.

Definition on_conn {A} (m : M TcpConnAsync A) : M World A :=
  zoom fst (fun c w => (c, snd w)) m.

(** [wrapper_handler_(msg)]; RpcClientImpl always binds it to [async_recv_wrapper]. *)
Definition wrapper_handler_ (msg : Message) : M World unit :=
  zoom snd (fun l w => (fst w, l)) (async_recv_wrapper msg).

Definition issue_read (n : Z) (h : read_tag) : M World unit :=
  on_conn (modify (upd_base (async_read n h))).

(** [do_read] and [do_read_msg] call each other while the buffer holds messages. *)
Fixpoint do_read (fuel : nat) : M World bool :=
  match fuel with
  | O => out_of_fuel
  | S fuel =>
      stat ← on_conn (gets conn_stat);
      if negb (bool_decide (stat = kWorking)) then mret false else
      bytes_read ← on_conn (gets (fun c => get_length (buffer_ (recv_bound_ c))));
      if bytes_read <? sizeof_Header then
        _ ← issue_read (sizeof_Header - bytes_read) on_read_handler;
        mret true
      else
        ret ← on_conn parse_header;
        if ret =? 0 then _ ← do_read_msg fuel; mret true
        else if 0 <? ret then _ ← do_read fuel; mret true
        else _ ← on_conn (on_base (sock_shutdown_and_close Shut_kBoth)); mret false
  end
with do_read_msg (fuel : nat) : M World unit :=
  match fuel with
  | O => out_of_fuel
  | S fuel =>
      stat ← on_conn (gets conn_stat);
      if negb (bool_decide (stat = kWorking)) then mret tt else
      n ← on_conn (gets (fun c => get_length (buffer_ (recv_bound_ c))));
      h ← on_conn (gets (fun c => ib_header_ (recv_bound_ c)));
      if n <? length_ h then
        let to_read := Z.min (uint32_t(length_ h - n)) kFixedIoBufferSize in
        issue_read to_read on_read_msg_handler
      else
        r ← on_conn parse_msg_body;
        if fst r =? 0 then
          _ ← wrapper_handler_ (snd r);
          _ ← do_read fuel;
          mret tt
        else if 0 <? fst r then do_read_msg fuel
        else on_conn (on_base (sock_shutdown_and_close Shut_kBoth))
  end.

(** Enough for the bytes that are buffered. *)
Definition read_fuel (w : World) : nat := (2 + length (recv_data (fst w)))%nat.

Definition do_read_ : M World bool := fun w => do_read (read_fuel w) w.
Definition do_read_msg_ : M World unit := fun w => do_read_msg (read_fuel w) w.

Definition recv_net_message : M World bool := do_read_.

(** [recv_bound_.buffer_.append_internal(std::string(io_block_, n))] *)
Definition append_received (n : Z) : M TcpConnAsync unit :=
  modify (upd_recv (fun io =>
    set_buffer (append_internal (ztake n (io_block_ io)) (buffer_ io)).2 io)).

Definition read_handler (ec : error_code) (bytes_transferred : Z) : M World unit :=
  if ec_failed ec then _ ← on_conn (handle_socket_ec ec); mret tt else
  _ ← safe_assert (0 <? bytes_transferred);
  _ ← on_conn (append_received bytes_transferred);
  n ← on_conn (gets (fun c => get_length (buffer_ (recv_bound_ c))));
  if n <? sizeof_Header then _ ← do_read_; mret tt else
  _ ← safe_assert (sizeof_Header <=? n);
  ret ← on_conn parse_header;
  if ret =? 0 then do_read_msg_
  else if 0 <? ret then _ ← do_read_; mret tt
  else on_conn (on_base (sock_shutdown_and_close Shut_kBoth)).

Definition read_msg_handler (ec : error_code) (bytes_transferred : Z) : M World unit :=
  if ec_failed ec then _ ← on_conn (handle_socket_ec ec); mret tt else
  _ ← safe_assert (0 <? bytes_transferred);
  _ ← on_conn (append_received bytes_transferred);
  r ← on_conn parse_msg_body;
  if fst r =? 0 then _ ← wrapper_handler_ (snd r); _ ← do_read_; mret tt
  else if 0 <? fst r then do_read_msg_
  else on_conn (on_base (sock_shutdown_and_close Shut_kBoth)).

(** ** The asynchronous half of RpcClientImpl *)

(** The members only asynchronous calls use; [upcalls] is what the user's handler was told. *)
Record AsyncHalf := mkAsyncHalf {
  ai_conns : gmap nat TcpConnAsync;
  conn_async_ : option nat;
  upcalls : list upcall
}.

Definition set_ai_conns (m : gmap nat TcpConnAsync) (i : AsyncHalf) : AsyncHalf :=
  mkAsyncHalf m (conn_async_ i) (upcalls i).
Definition set_conn_async (c : option nat) (i : AsyncHalf) : AsyncHalf :=
  mkAsyncHalf (ai_conns i) c (upcalls i).
Definition set_upcalls (l : list upcall) (i : AsyncHalf) : AsyncHalf :=
  mkAsyncHalf (ai_conns i) (conn_async_ i) l.

(** Run an operation on connection [k]. *)
Definition on_number {A} (k : nat) (m : M World A) : M AsyncHalf A := fun i =>
  match ai_conns i !! k with
  | None => Undefined
  | Some c =>
      match m (c, upcalls i) with
      | Done (a, (c', l)) => Done (a, set_upcalls l (set_ai_conns (<[k := c']> (ai_conns i)) i))
      | AssertFailed => AssertFailed
      | Undefined => Undefined
      | OutOfFuel => OutOfFuel
      end
  end.

(** A member access through [conn_async_]. *)
Definition on_async {A} (m : M World A) : M AsyncHalf A :=
  p ← gets conn_async_;
  match p with
  | None => undefined
  | Some k => on_number k m
  end.

Definition send_rpc_message_async (rpc_request_message : RpcRequestMessage) : M AsyncHalf bool :=
  on_async (on_conn (send_net_message (Message_of_data (RpcRequestMessage_net_str rpc_request_message)))).

(** [conn_async_.reset(new TcpConnAsync(..))] and [recv_net_message()]. *)
Definition connect_async : M AsyncHalf unit := fun i =>
  let k := fresh (dom (ai_conns i)) in
  (_ ← modify (fun i => set_conn_async (Some k)
       (set_ai_conns (<[k := TcpConnAsync_new Socket_new]> (ai_conns i)) i));
   _ ← on_async recv_net_message; mret tt) i.
End ClientAsync.

Definition AsyncHalf_new : AsyncHalf := mkAsyncHalf ∅ None [].
