(* ===== verification/ClientSync.v ===== *)
(** * Client/TcpConnSync.{h,cpp}, RpcClientImpl and its synchronous calls

    One thread makes a call at a time ([call_mutex_]). The state is the RpcClientImpl with
    the connections it may hold, one for synchronous and one for asynchronous calls, and
    the one call timer both kinds of call share; asio's blocking operations are the class
    [AsioSync] over the state of the network. While a call blocks, the io_service's thread
    may run the call timer's handler: a blocking operation reports whether that happened.
    The members [cwire] and [crcvd] are history: the bytes written and read so far. *)

From Stdlib Require Import ZArith Lia Init.Byte.
From stdpp Require Import base list strings gmap.
From S2P Require Import Prelude Endian Message Buffer RpcMessage NetConn ClientConf ClientAsync.

(** Blocking operations: connect; read at least [n] bytes; write a block. The [bool] tells
    that the call timer expired while the operation blocked. *)
Class AsioSync (P : Type) := {
  asio_connect : P -> error_code * P;
  asio_read : Z -> P -> (error_code * bytes * bool) * P;
  asio_write : bytes -> P -> (error_code * Z * bool) * P
}.

(** [transfer_at_least(n)] into [io_block_], [transfer_exactly(k)]. *)
Class AsioSyncLaws (P : Type) `{AsioSync P} := {
  read_enough n p data fired p' :
    asio_read n p = (ec_success, data, fired, p') -> n <= len data <= kFixedIoBufferSize;
  write_all b p k fired p' : asio_write b p = (ec_success, k, fired, p') -> k = len b
}.

Record TcpConnSync := mkTcpConnSync {
  base_ : NetConn;
  recv_bound_ : IOBound;
  send_bound_ : IOBound
}.

Definition TcpConnSync_new (sock : Socket) : TcpConnSync :=
  let base := NetConn_new sock in
  let base := upd_socket (sock_call_add (CallNoDelay true)) base in
  let base := upd_socket (sock_call_add (CallNonBlocking false)) base in
  mkTcpConnSync (set_conn_stat kWorking base) IOBound_new IOBound_new.

Definition upd_recv (f : IOBound -> IOBound) (c : TcpConnSync) : TcpConnSync :=
  mkTcpConnSync (base_ c) (f (recv_bound_ c)) (send_bound_ c).
Definition upd_send (f : IOBound -> IOBound) (c : TcpConnSync) : TcpConnSync :=
  mkTcpConnSync (base_ c) (recv_bound_ c) (f (send_bound_ c)).
Definition set_base (b : NetConn) (c : TcpConnSync) : TcpConnSync :=
  mkTcpConnSync b (recv_bound_ c) (send_bound_ c).

Definition conn_stat (c : TcpConnSync) : ConnStat := conn_stat_ (base_ c).
Definition recv_data (c : TcpConnSync) : bytes := data_ (buffer_ (recv_bound_ c)).
Definition send_data (c : TcpConnSync) : bytes := data_ (buffer_ (send_bound_ c)).

(** [rpc_call_timer_]: a null pointer, a timer nobody waits for, or one whose handler was
    bound with [sync]. *)
Inductive call_timer :=
| TimerNull
| TimerIdle
| TimerWaits (sync : bool).

#[export] Instance call_timer_eq_dec : EqDecision call_timer.
Proof. solve_decision. Defined.

Record RpcClientImpl (P : Type) := mkImpl {
  conn_sync_ : option TcpConnSync;
  was_timeout_ : bool;
  rpc_call_timer_ : call_timer;
  async_half : AsyncHalf;
  peer : P;
  cwire : bytes;
  crcvd : bytes
}.
Arguments mkImpl {P}.
Arguments conn_sync_ {P}.
Arguments was_timeout_ {P}.
Arguments rpc_call_timer_ {P}.
Arguments async_half {P}.
Arguments peer {P}.
Arguments cwire {P}.
Arguments crcvd {P}.

Section Sync.
Context `{Host} `{AssertMode} {P : Type} `{!AsioSync P}.
Variable setting : RpcClientSetting.
Abbreviation Impl := (RpcClientImpl P).

Definition set_conn (c : option TcpConnSync) (i : Impl) : Impl :=
  mkImpl c (was_timeout_ i) (rpc_call_timer_ i) (async_half i) (peer i) (cwire i) (crcvd i).
Definition set_was_timeout (b : bool) (i : Impl) : Impl :=
  mkImpl (conn_sync_ i) b (rpc_call_timer_ i) (async_half i) (peer i) (cwire i) (crcvd i).
Definition set_timer (t : call_timer) (i : Impl) : Impl :=
  mkImpl (conn_sync_ i) (was_timeout_ i) t (async_half i) (peer i) (cwire i) (crcvd i).
Definition set_async_half (h : AsyncHalf) (i : Impl) : Impl :=
  mkImpl (conn_sync_ i) (was_timeout_ i) (rpc_call_timer_ i) h (peer i) (cwire i) (crcvd i).
Definition set_peer (p : P) (i : Impl) : Impl :=
  mkImpl (conn_sync_ i) (was_timeout_ i) (rpc_call_timer_ i) (async_half i) p (cwire i) (crcvd i).
Definition add_wire (b : bytes) (i : Impl) : Impl :=
  mkImpl (conn_sync_ i) (was_timeout_ i) (rpc_call_timer_ i) (async_half i) (peer i) (cwire i ++ b) (crcvd i).
Definition add_rcvd (b : bytes) (i : Impl) : Impl :=
  mkImpl (conn_sync_ i) (was_timeout_ i) (rpc_call_timer_ i) (async_half i) (peer i) (cwire i) (crcvd i ++ b).

(** A member access through [conn_sync_]; a null pointer is undefined behaviour. *)
Definition on_sync {A} (m : M TcpConnSync A) : M Impl A := fun i =>
  match conn_sync_ i with
  | None => Undefined
  | Some c =>
      match m c with
      | Done (a, c') => Done (a, set_conn (Some c') i)
      | AssertFailed => AssertFailed
      | Undefined => Undefined
      | OutOfFuel => OutOfFuel
      end
  end.

Definition on_base {A} (m : M NetConn A) : M TcpConnSync A := zoom base_ set_base m.

Definition shutdown_and_close_socket : M TcpConnSync unit :=
  on_base (sock_shutdown_and_close Shut_kBoth).

(** An operation of the asynchronous half. *)
Definition on_half {A} (m : M AsyncHalf A) : M Impl A := zoom async_half set_async_half m.

(** ** The call timer *)

Definition rpc_call_timeout (ec : error_code) (sync : bool) : M Impl unit :=
  match ec with
  | ec_success =>
      _ ← modify (set_was_timeout true);
      if sync then on_sync shutdown_and_close_socket
      else on_half (on_async (on_conn ClientAsync.shutdown_and_close_socket))
  | _ => mret tt
  end.

(** The timer's handler runs, if the timer is waited for. *)
Definition timer_fires : M Impl unit :=
  t ← gets rpc_call_timer_;
  match t with
  | TimerWaits sync => _ ← modify (set_timer TimerIdle); rpc_call_timeout ec_success sync
  | _ => mret tt
  end.

(** A wait that was under way is cancelled, whichever kind of call it was for; its handler
    does nothing with [operation_aborted]. *)
Definition set_rpc_call_timeout (sec : Z) (sync : bool) : M Impl unit :=
  if sec =? 0 then mret tt else
  _ ← safe_assert (0 <? sec);
  _ ← modify (set_was_timeout false);
  modify (set_timer (TimerWaits sync)).

(** ** Blocking operations *)

(** [boost::asio::read(socket, buffer(recv_bound_.io_block_), transfer_at_least(n), ec)] *)
Definition sock_read (n : Z) : M Impl (error_code * Z) :=
  p ← gets peer;
  let '(ec, data, fired, p') := asio_read n p in
  _ ← modify (set_peer p');
  _ ← on_sync (modify (upd_recv (fill_io_block data)));
  _ ← when (bool_decide (ec = ec_success)) (modify (add_rcvd data));
  _ ← when fired timer_fires;
  mret (ec, len data).

(** [boost::asio::write(socket, buffer(send_bound_.io_block_, n), transfer_exactly(n), ec)] *)
Definition sock_write (n : Z) : M Impl (error_code * Z) :=
  block ← on_sync (gets (fun c => ztake n (io_block_ (send_bound_ c))));
  p ← gets peer;
  let '(ec, k, fired, p') := asio_write block p in
  _ ← modify (set_peer p');
  _ ← modify (add_wire (ztake k block));
  _ ← when fired timer_fires;
  mret (ec, k).

(** ** TcpConnSync *)

Definition ec_closes_socket (ec : error_code) : bool :=
  match ec with
  | ec_connection_reset | ec_timed_out | ec_bad_descriptor => true
  | ec_eof => true
  | ec_operation_aborted => false
  | _ => true
  end.

Definition handle_socket_ec (ec : error_code) : M TcpConnSync bool :=
  let close_socket := ec_closes_socket ec in
  _ ← when close_socket (on_base (sock_shutdown_and_close Shut_kBoth));
  mret close_socket.

Definition recv_consume (sz : Z) : M TcpConnSync bytes := fun c =>
  let '(_, str, b) := consume [] sz (buffer_ (recv_bound_ c)) in
  Done (str, upd_recv (set_buffer b) c).

Definition parse_header : M TcpConnSync Z :=
  n ← gets (fun c => get_length (buffer_ (recv_bound_ c)));
  if n <? sizeof_Header then mret 1 else
  _ ← safe_assert (sizeof_Header <=? n);
  head_str ← recv_consume sizeof_Header;
  _ ← modify (upd_recv (set_ib_header (header_of_mem head_str)));
  _ ← modify (upd_recv (fun io => set_ib_header (from_net_endian (ib_header_ io)) io));
  h ← gets (fun c => ib_header_ (recv_bound_ c));
  if negb (magic h =? kHeaderMagic) || negb (version h =? kHeaderVersion) then mret (-1) else
  if negb (cl_recv_max_msg_size_ setting =? 0) && (cl_recv_max_msg_size_ setting <? length_ h)
  then mret (-1) else
  mret 0.

(** The second component is the out-parameter [msg]. *)
Definition parse_msg_body : M TcpConnSync (Z * Message) :=
  n ← gets (fun c => get_length (buffer_ (recv_bound_ c)));
  h ← gets (fun c => ib_header_ (recv_bound_ c));
  if n <? length_ h then mret (1, Message_default) else
  _ ← safe_assert (length_ h <=? n);
  msg_str ← recv_consume (length_ h);
  mret (0, mkMessage h msg_str).

(** [recv_bound_.buffer_.append_internal(std::string(io_block_, n))] *)
Definition append_received (n : Z) : M TcpConnSync unit :=
  modify (upd_recv (fun io =>
    set_buffer (append_internal (ztake n (io_block_ io)) (buffer_ io)).2 io)).

(** The two reading loops: [false] when one returned with an error. *)
Fixpoint read_head_loop (fuel : nat) : M Impl bool :=
  match fuel with
  | O => out_of_fuel
  | S fuel =>
      bytes_read ← on_sync (gets (fun c => get_length (buffer_ (recv_bound_ c))));
      if bytes_read <? sizeof_Header then
        r ← sock_read (sizeof_Header - bytes_read);
        if ec_failed (fst r) then _ ← on_sync (handle_socket_ec (fst r)); mret false
        else _ ← on_sync (append_received (snd r)); read_head_loop fuel
      else mret true
  end.

Fixpoint read_body_loop (fuel : nat) : M Impl bool :=
  match fuel with
  | O => out_of_fuel
  | S fuel =>
      n ← on_sync (gets (fun c => get_length (buffer_ (recv_bound_ c))));
      h ← on_sync (gets (fun c => ib_header_ (recv_bound_ c)));
      if n <? length_ h then
        let to_read := Z.min (uint32_t(length_ h - n)) kFixedIoBufferSize in
        r ← sock_read to_read;
        if ec_failed (fst r) then _ ← on_sync (handle_socket_ec (fst r)); mret false
        else _ ← on_sync (append_received (snd r)); read_body_loop fuel
      else mret true
  end.

(** Every round of the body's loop makes progress. *)
Definition body_fuel (c : TcpConnSync) : nat :=
  S (Z.to_nat (length_ (ib_header_ (recv_bound_ c)))).

Definition do_read_msg : M Impl (bool * Message) :=
  stat ← on_sync (gets conn_stat);
  if negb (bool_decide (stat = kWorking)) then mret (false, Message_default) else
  fuel ← on_sync (gets body_fuel);
  ok ← read_body_loop fuel;
  if negb ok then mret (false, Message_default) else
  r ← on_sync parse_msg_body;
  if fst r =? 0 then mret (true, snd r)
  else _ ← on_sync (on_base (sock_shutdown_and_close Shut_kBoth)); mret (false, snd r).

Definition do_read : M Impl (bool * Message) :=
  stat ← on_sync (gets conn_stat);
  if negb (bool_decide (stat = kWorking)) then mret (false, Message_default) else
  ok ← read_head_loop 17;
  if negb ok then mret (false, Message_default) else
  ret ← on_sync parse_header;
  if ret =? 0 then do_read_msg
  else _ ← on_sync (on_base (sock_shutdown_and_close Shut_kBoth)); mret (false, Message_default).

(** [send_bound_.buffer_.consume(send_bound_.io_block_, sz)] *)
Definition send_consume (sz : Z) : M TcpConnSync bool := fun c =>
  match consume_raw (Some (io_block_ (send_bound_ c))) sz (buffer_ (send_bound_ c)) with
  | Done (r, st, b) =>
      Done (r, upd_send (fun io => set_buffer b (set_io_block (default [] st) io)) c)
  | _ => Undefined
  end.

(** The writing loop; one round takes a byte or more off the buffer. *)
Fixpoint write_loop (fuel : nat) : M Impl bool :=
  match fuel with
  | O => out_of_fuel
  | S fuel =>
      n ← on_sync (gets (fun c => get_length (buffer_ (send_bound_ c))));
      if 0 <? n then
        let to_write := Z.min n kFixedIoBufferSize in
        _ ← on_sync (send_consume to_write);
        r ← sock_write to_write;
        if ec_failed (fst r) then _ ← on_sync (handle_socket_ec (fst r)); mret false
        else _ ← safe_assert (snd r =? to_write); write_loop fuel
      else mret true
  end.

Definition do_write : M Impl bool :=
  stat ← on_sync (gets conn_stat);
  if negb (bool_decide (stat = kWorking)) then mret false else
  fuel ← on_sync (gets (fun c => S (length (send_data c))));
  write_loop fuel.

Definition recv_net_message : M Impl (bool * Message) := do_read.

Definition send_net_message (msg : Message) : M Impl bool :=
  if negb (cl_send_max_msg_size_ setting =? 0) &&
     (cl_send_max_msg_size_ setting <? length_ (header_ msg))
  then mret false else
  _ ← on_sync (modify (upd_send (fun io => set_buffer (append msg (buffer_ io)).2 io)));
  do_write.

(** ** RpcClientImpl *)

Definition send_rpc_message (rpc_request_message : RpcRequestMessage) : M Impl bool :=
  send_net_message (Message_of_data (RpcRequestMessage_net_str rpc_request_message)).

Definition recv_rpc_message : M Impl (bool * Message) := recv_net_message.

(** A call failed on the network. *)
Definition call_failed (st : RpcClientStatus) : M Impl (RpcClientStatus * option bytes) :=
  _ ← modify (set_conn None);
  timeout ← gets was_timeout_;
  mret (if (timeout : bool) then Status_RPC_CALL_TIMEOUT else st, None).

(** The end of a call: the answer is parsed and checked. *)
Definition check_response (service_id opcode : Z) (payload : bytes)
    : outcome (RpcClientStatus * option bytes) :=
  match RpcResponseMessageParse payload RpcResponseMessage_default with
  | Done (ok, rpc_response_message) =>
      let h := rs_header_ rpc_response_message in
      Done
        (if negb ok then (Status_RECV_FORMAT_ERROR, None)
         else if negb (rs_magic h =? kRpcHeaderMagic) || negb (rs_service_id h =? service_id) ||
                 negb (rs_opcode h =? opcode) then (Status_RECV_FORMAT_ERROR, None)
         else if negb (rs_status h =? response_code Resp_OK) then (uint8_t(rs_status h), None)
         else (Status_OK, Some (rs_payload_ rpc_response_message)))
  | AssertFailed => AssertFailed
  | Undefined => Undefined
  | OutOfFuel => OutOfFuel
  end.

(** Use the outcome of a computation that changes nothing. *)
Definition from_outcome {A} (r : outcome A) : M Impl A := fun i =>
  match r with
  | Done a => Done (a, i)
  | AssertFailed => AssertFailed
  | Undefined => Undefined
  | OutOfFuel => OutOfFuel
  end.

(** The part of a call after the connection was made. *)
Definition call_connected (service_id opcode : Z) (payload : bytes) (timeout_sec : Z)
    : M Impl (RpcClientStatus * option bytes) :=
  let rpc_request_message := RpcRequestMessage_new service_id opcode payload in
  _ ← when (0 <? timeout_sec) (set_rpc_call_timeout timeout_sec true);
  sent ← send_rpc_message rpc_request_message;
  if negb sent then call_failed Status_NETWORK_SEND_ERROR else
  r ← recv_rpc_message;
  if negb (fst r) then call_failed Status_NETWORK_RECV_ERROR else
  from_outcome (check_response service_id opcode (payload_ (snd r))).

(** [call_RPC(service_id, opcode, payload, respload, timeout_sec)]: the status and, when
    it was assigned, [respload]. *)
Definition call_RPC (service_id opcode : Z) (payload : bytes) (timeout_sec : Z)
    : M Impl (RpcClientStatus * option bytes) :=
  conn ← gets conn_sync_;
  match conn with
  | Some _ => call_connected service_id opcode payload timeout_sec
  | None =>
      p ← gets peer;
      let '(ec, p') := asio_connect p in
      _ ← modify (set_peer p');
      if ec_failed ec then mret (Status_NETWORK_CONNECT_ERROR, None) else
      _ ← modify (set_conn (Some (TcpConnSync_new Socket_new)));
      call_connected service_id opcode payload timeout_sec
  end.

End Sync.

(** [RpcClientImpl(client_setting)] *)
Definition RpcClientImpl_new {P} (p : P) : RpcClientImpl P :=
  mkImpl None false TimerNull AsyncHalf_new p [] [].
