(* ===== verification/ClientImpl.v ===== *)
(** * The asynchronous calls of Client/RpcClientImpl.{h,cpp}, and its destructor

    They work on the same RpcClientImpl as the synchronous calls of ClientSync: the
    connection is another one, the call timer and the time-out flag are the same. *)

From Stdlib Require Import ZArith Lia Init.Byte.
From stdpp Require Import base list strings gmap.
From S2P Require Import Prelude Endian Message Buffer RpcMessage NetConn ClientConf ClientSync ClientAsync.

Section Calls.
Context `{Host} `{AssertMode} {P : Type}.
Variable setting : RpcClientSetting.
Abbreviation Impl := (RpcClientImpl P).

(** The part of a call after the connection was made. *)
Definition call_connected_async (service_id opcode : Z) (payload : bytes) (timeout_sec : Z)
    : M Impl RpcClientStatus :=
  let rpc_request_message := RpcRequestMessage_new service_id opcode payload in
  _ ← when (0 <? timeout_sec) (set_rpc_call_timeout timeout_sec false);
  sent ← on_half (send_rpc_message_async setting rpc_request_message);
  if negb sent then
    _ ← on_half (modify (set_conn_async None));
    timeout ← gets was_timeout_;
    mret (if (timeout : bool) then Status_RPC_CALL_TIMEOUT else Status_NETWORK_SEND_ERROR)
  else mret Status_OK.

(** [call_RPC(service_id, opcode, payload, timeout_sec)]; [ec]: what connecting ends with,
    when it is tried. *)
Definition call_RPC_async (ec : error_code) (service_id opcode : Z) (payload : bytes)
    (timeout_sec : Z) : M Impl RpcClientStatus :=
  conn ← on_half (gets conn_async_);
  match conn with
  | Some _ => call_connected_async service_id opcode payload timeout_sec
  | None =>
      if ec_failed ec then mret Status_NETWORK_CONNECT_ERROR else
      _ ← on_half (connect_async setting);
      call_connected_async service_id opcode payload timeout_sec
  end.

(** [~RpcClientImpl()] *)
Definition RpcClientImpl_close : M Impl unit :=
  conn ← gets conn_sync_;
  _ ← match conn with Some _ => on_sync ClientSync.shutdown_and_close_socket | None => mret tt end;
  conn ← on_half (gets conn_async_);
  match conn with
  | Some _ => on_half (on_async (on_conn shutdown_and_close_socket))
  | None => mret tt
  end.
End Calls.
