(* ===== verification/ClientRead.v ===== *)
(** * The synchronous client's reading and writing, against any peer

    Whatever the network does within asio's guarantees, [do_read] returns, unless a header
    announces a body of nearly 4 GiB and the settings allow it; when it returns a message,
    it is the first one of the bytes received. [do_write] puts what is buffered on the wire
    or reports a failure. *)

From Stdlib Require Import ZArith Lia Init.Byte.
From stdpp Require Import base list strings gmap.
From S2P Require Import Prelude Endian Message Buffer RpcMessage NetConn ClientConf Decode.
From S2P Require Import ClientAsync ClientSync.

Section Read.
Context `{Host} `{AssertMode} {P : Type} `{!AsioSync P} `{!AsioSyncLaws P}.
Variable setting : RpcClientSetting.
Let limit := cl_recv_max_msg_size_ setting.
Abbreviation Impl := (RpcClientImpl P).

(** A body shorter than this, and the rest of the block that ends it, is less than 4 GiB:
    [get_length], a [uint32_t], holds the buffer's true length while it is read. *)
Definition body_bound : Z := 2 ^ 32 - kFixedIoBufferSize.

(** The first message of a byte string, and what follows it. *)
Definition first_message (b : bytes) : option (Message * bytes) :=
  if len b <? 16 then None
  else
    let h := parse_wire_header (ztake 16 b) in
    if accept_header limit h && (length_ h <=? len (zdrop 16 b))
    then Some (mkMessage h (ztake (length_ h) (zdrop 16 b)), zdrop (length_ h) (zdrop 16 b))
    else None.

(** It is the first message the reference parser finds. *)
Lemma first_message_decode b m rest :
  first_message b = Some (m, rest) ->
  decode_all limit (RHead b) =
    let '(ms, st) := decode_all limit (RHead rest) in (m :: ms, st).
Proof.
  unfold first_message. rewrite decode_all_head. destruct (_ <? 16) eqn:E; [done|]. bool_prop.
  destruct (accept_header _ _) eqn:Ha; simpl; [|done].
  destruct (_ <=? _) eqn:El; [|done]. intros [= <- <-]. bool_prop.
  rewrite decode_all_body, (proj2 (Z.ltb_ge _ _)); [done|done|].
  apply parse_wire_header_length_nonneg. unfold zlen in E. lia.
Qed.

(** When the timer runs for an asynchronous call, there is the connection it would close. *)
Definition timer_safe (i : Impl) : Prop :=
  rpc_call_timer_ i = TimerWaits false ->
  exists k, conn_async_ (async_half i) = Some k /\ is_Some (ai_conns (async_half i) !! k).

(** A call uses the connection [c]. *)
Record uses (i : Impl) (c : TcpConnSync) : Prop := mkUses {
  us_conn : conn_sync_ i = Some c;
  us_timer : timer_safe i
}.

Lemma uses_set_conn (i : Impl) c c' : uses i c -> uses (set_conn (Some c') i) c'.
Proof. by intros [_ Ht]. Qed.

Lemma uses_same (i i' : Impl) c :
  uses i c -> conn_sync_ i' = conn_sync_ i -> rpc_call_timer_ i' = rpc_call_timer_ i ->
  async_half i' = async_half i -> uses i' c.
Proof. intros [Hc Ht] E1 E2 E3. split; [by rewrite E1|]. unfold timer_safe. by rewrite E2, E3. Qed.

Lemma uses_fun (i : Impl) c c' : uses i c -> uses i c' -> c = c'.
Proof. intros [Hc _] [Hc' _]. congruence. Qed.

#[local] Hint Extern 0 (uses (set_conn (Some _) _) _) => eapply uses_set_conn; eassumption : core.

Lemma set_conn_same (i : Impl) c : uses i c -> set_conn (Some c) i = i.
Proof. intros [E _]. destruct i. simpl in *. by rewrite E. Qed.

(** What a blocking operation leaves alone, from connection [c] to [c']. *)
Record blocked (i i' : Impl) (c c' : TcpConnSync) : Prop := {
  bl_conn : uses i' c';
  bl_header : ib_header_ (recv_bound_ c') = ib_header_ (recv_bound_ c);
  bl_send : send_bound_ c' = send_bound_ c;
  bl_stat : conn_stat c' = conn_stat c \/ conn_stat c' = kClosed
}.

(** Nothing but the peer's data happened. *)
Record calm (i i' : Impl) (c c' : TcpConnSync) : Prop := {
  ca_stat : conn_stat c' = conn_stat c;
  ca_timeout : was_timeout_ i' = was_timeout_ i
}.

Lemma closed_spec c :
  exists c', shutdown_and_close_socket c = Done (tt, c') /\ conn_stat c' = kClosed /\
    recv_bound_ c' = recv_bound_ c /\ send_bound_ c' = send_bound_ c.
Proof.
  unfold shutdown_and_close_socket, on_base, zoom.
  destruct (sock_shutdown_and_close_spec Shut_kBoth (base_ c)) as (b & -> & Hb & _).
  by eexists.
Qed.

Lemma async_closed_spec ca : exists ca', ClientAsync.shutdown_and_close_socket ca = Done (tt, ca').
Proof.
  unfold ClientAsync.shutdown_and_close_socket, ClientAsync.on_base, zoom.
  destruct (sock_shutdown_and_close_spec Shut_kBoth (ClientAsync.base_ ca)) as (b & -> & _). by eexists.
Qed.

(** The timer's handler while a connection exists. *)
Lemma timer_fires_spec (i : Impl) c :
  uses i c ->
  exists i' c', timer_fires i = Done (tt, i') /\ uses i' c' /\
    recv_bound_ c' = recv_bound_ c /\ send_bound_ c' = send_bound_ c /\
    (conn_stat c' = conn_stat c \/ conn_stat c' = kClosed) /\
    peer i' = peer i /\ cwire i' = cwire i /\ crcvd i' = crcvd i.
Proof.
  intros [Hc Hsafe]. unfold timer_fires, mbind, M_bind, gets, modify.
  destruct (rpc_call_timer_ i) as [| |[]] eqn:Et; [exists i, c; by split_and!; try left..| |].
  - unfold rpc_call_timeout, mbind, M_bind, modify, on_sync; cbn [conn_sync_ set_was_timeout set_timer].
    rewrite Hc. destruct (closed_spec c) as (c' & -> & Hs & Hr & Hw).
    eexists _, c'. split; [done|]. split_and!; try done. by right.
  - destruct (Hsafe Et) as (k & Hk & ca & Ha). unfold rpc_call_timeout, mbind, M_bind, modify.
    destruct (async_closed_spec ca) as (ca' & E). unfold on_half, zoom at 1. cbn [async_half set_was_timeout set_timer].
    unfold on_async, mbind, M_bind, gets. rewrite Hk. unfold on_number. rewrite Ha.
    unfold on_conn, zoom. cbn [fst snd]. rewrite E.
    eexists _, c. split; [done|]. split_and!; try done. by left.
Qed.

Lemma when_timer_spec fired (i : Impl) c :
  uses i c ->
  exists i' c', when fired timer_fires i = Done (tt, i') /\ uses i' c' /\
    recv_bound_ c' = recv_bound_ c /\ send_bound_ c' = send_bound_ c /\
    (conn_stat c' = conn_stat c \/ conn_stat c' = kClosed) /\
    peer i' = peer i /\ cwire i' = cwire i /\ crcvd i' = crcvd i.
Proof.
  intros Hc. destruct fired; [by apply timer_fires_spec|].
  exists i, c. split; [done|]. split_and!; try done. by left.
Qed.

(** A blocking read and what the caller does with its result. *)
Lemma sock_read_spec n (i : Impl) c :
  uses i c ->
  exists ec data i' c', sock_read n i = Done ((ec, len data), i') /\ blocked i i' c c' /\
    io_block_ (recv_bound_ c') = io_block_ (fill_io_block data (recv_bound_ c)) /\
    recv_data c' = recv_data c /\ cwire i' = cwire i /\
    crcvd i' = crcvd i ++ (if ec_failed ec then [] else data) /\
    (ec_failed ec = false -> n <= len data <= kFixedIoBufferSize) /\
    (forall data' p', asio_read n (peer i) = (ec_success, data', false, p') ->
       ec = ec_success /\ data = data' /\ peer i' = p' /\ calm i i' c c').
Proof.
  intros Hc. unfold sock_read, mbind at 1, M_bind at 1, gets at 1.
  destruct (asio_read n (peer i)) as [[[ec data] fired] p'] eqn:Er.
  unfold mbind at 1, M_bind at 1, modify at 1. unfold mbind at 1, M_bind at 1.
  unfold on_sync at 1. cbn [conn_sync_ set_peer]. rewrite (us_conn _ _ Hc). unfold modify at 1.
  unfold mbind at 1, M_bind at 1.
  set (i1 := set_conn _ _).
  assert (exists i2, when (bool_decide (ec = ec_success)) (modify (add_rcvd data)) i1 = Done (tt, i2) /\
    uses i2 (upd_recv (fill_io_block data) c) /\ peer i2 = peer i1 /\ cwire i2 = cwire i1 /\
    crcvd i2 = crcvd i1 ++ (if ec_failed ec then [] else data) /\ was_timeout_ i2 = was_timeout_ i1)
    as (i2 & -> & E1 & E2 & E3 & E4 & E5).
  { destruct Hc as [_ Ht]. destruct ec; simpl; eexists; (split; [done|]); (split; [by split|]); simpl;
      rewrite ?app_nil_r; done. }
  unfold mbind at 1, M_bind at 1.
  destruct (when_timer_spec fired i2 (upd_recv (fill_io_block data) c)) as
    (i3 & c3 & Ew & Hc3 & Hr3 & Hs3 & Hst3 & Hp3 & Hw3 & Hv3); [done|]. rewrite Ew.
  exists ec, data, i3, c3. split; [done|]. split.
  { split; [done|by rewrite Hr3|by rewrite Hs3|done]. }
  unfold recv_data. rewrite Hr3, Hw3, Hv3, E3, E4. split_and!; try done.
  - intros Hec. destruct ec; try done. by eapply read_enough.
  - intros data' p'' [= -> -> -> ->]. rewrite Hp3, E2. split_and!; try done.
    simpl in Ew. injection Ew as <-. destruct E1 as [E1 _], Hc3 as [Hc3 _]. rewrite E1 in Hc3. injection Hc3 as <-. by split.
Qed.

Lemma on_sync_eq {A} (m : M TcpConnSync A) (i : Impl) c a c' :
  uses i c -> m c = Done (a, c') -> on_sync m i = Done (a, set_conn (Some c') i).
Proof. intros [Hc _] Hm. unfold on_sync. by rewrite Hc, Hm. Qed.

(** Reading one block into the buffer: [false] when the read failed. *)
Definition read_block (n : Z) : M Impl bool :=
  r ← sock_read n;
  if ec_failed (fst r) then _ ← on_sync (handle_socket_ec (fst r)); mret false
  else _ ← on_sync (append_received (snd r)); mret true.

Lemma sync_handle_socket_ec_spec ec c :
  exists c', handle_socket_ec ec c = Done (ec_closes_socket ec, c') /\
    recv_bound_ c' = recv_bound_ c /\ send_bound_ c' = send_bound_ c /\
    (conn_stat c' = conn_stat c \/ conn_stat c' = kClosed).
Proof.
  unfold handle_socket_ec, mbind, M_bind, when. destruct (ec_closes_socket ec).
  - destruct (closed_spec c) as (c' & E & Hs & Hr & Hw).
    unfold shutdown_and_close_socket in E. rewrite E. exists c'. by split_and!; try right.
  - exists c. by split_and!; try left.
Qed.

Lemma read_block_spec n (i : Impl) c :
  uses i c -> 0 <= n ->
  exists ok data i' c', read_block n i = Done (ok, i') /\ blocked i i' c c' /\
    recv_data c' = recv_data c ++ data /\ cwire i' = cwire i /\ crcvd i' = crcvd i ++ data /\
    (if ok : bool then n <= len data <= kFixedIoBufferSize else data = []) /\
    (forall data' p', asio_read n (peer i) = (ec_success, data', false, p') ->
       ok = true /\ data = data' /\ peer i' = p' /\ calm i i' c c').
Proof.
  intros Hc Hn. unfold read_block, mbind at 1, M_bind at 1.
  destruct (sock_read_spec n i c Hc) as (ec & data & i1 & c1 & -> & [B1 B2 B3 B4] & Eb & Ed & Ew & Er & Hl & Hcalm).
  cbn [fst snd]. destruct (ec_failed ec) eqn:Hec.
  - destruct (sync_handle_socket_ec_spec ec c1) as (c2 & E & Hr & Hs & Hst).
    unfold mbind, M_bind. rewrite (on_sync_eq _ _ _ _ _ B1 E).
    exists false, [], (set_conn (Some c2) i1), c2. split; [done|]. split.
    { split; [done|by rewrite Hr|by rewrite Hs|]. destruct B4 as [?|?], Hst as [?|?]; (left; congruence) || (right; congruence). }
    unfold recv_data in *. rewrite Hr, !app_nil_r. split_and!; try done.
    { simpl. by rewrite Er, app_nil_r. }
    intros data' p' Ea. by destruct (Hcalm _ _ Ea) as (-> & _).
  - unfold mbind, M_bind. erewrite on_sync_eq by done.
    eexists true, data, _, _. split; [done|]. split; [by split|].
    simpl. rewrite Er. split_and!; try done; [|by apply Hl..|].
    { unfold recv_data at 1; simpl. rewrite Eb. simpl. unfold recv_data in Ed. rewrite Ed.
      by rewrite ztake_app_length by done. }
    intros data' p' Ea. destruct (Hcalm _ _ Ea) as (_ & ? & ? & []). by split_and!.
Qed.

(** Both loops are rounds of [read_block]. *)
Lemma read_head_loop_eq fuel (i : Impl) c :
  uses i c -> len (recv_data c) < 2 ^ 32 ->
  read_head_loop (S fuel) i =
    if len (recv_data c) <? 16
    then (ok ← read_block (16 - len (recv_data c));
          if (ok : bool) then read_head_loop fuel else mret false) i
    else Done (true, i).
Proof.
  intros Hc Hl. cbn [read_head_loop]. unfold mbind at 1, M_bind at 1.
  erewrite on_sync_eq by done. rewrite get_length_small by done. fold (recv_data c).
  change sizeof_Header with 16.
  rewrite (set_conn_same i c Hc).
  destruct (_ <? 16); [|done]. unfold read_block, mbind, M_bind.
  destruct (sock_read _ i) as [[[ec k] i1]| | |]; try done. cbn [fst snd].
  destruct (ec_failed ec); by destruct (on_sync _ i1) as [[? ?]| | |].
Qed.

Lemma read_body_loop_eq fuel (i : Impl) c :
  let h := ib_header_ (recv_bound_ c) in
  uses i c -> len (recv_data c) < 2 ^ 32 -> 0 <= length_ h < 2 ^ 32 ->
  read_body_loop (S fuel) i =
    if len (recv_data c) <? length_ h
    then (ok ← read_block (Z.min (length_ h - len (recv_data c)) kFixedIoBufferSize);
          if (ok : bool) then read_body_loop fuel else mret false) i
    else Done (true, i).
Proof.
  intros h Hc Hl Hh. cbn [read_body_loop].
  pose proof (set_conn_same i c Hc) as Ei.
  unfold mbind at 1, M_bind at 1. erewrite on_sync_eq by done. rewrite Ei.
  unfold mbind at 1, M_bind at 1. erewrite on_sync_eq by done. rewrite Ei.
  rewrite get_length_small by done. fold (recv_data c) h.
  destruct (_ <? _) eqn:E; bool_prop; [|done].
  rewrite uwrap_small by (unfold fits_u; pose proof (zlen_nonneg (recv_data c)); lia).
  unfold read_block, mbind, M_bind.
  destruct (sock_read _ i) as [[[ec k] i1]| | |]; try done. cbn [fst snd].
  destruct (ec_failed ec); by destruct (on_sync _ i1) as [[? ?]| | |].
Qed.

(** ** Whole reads *)

(** A peer that has [rem] to deliver, and delivers it. *)
Variable good : P -> bytes -> Prop.
Hypothesis good_read : forall p rem n, good p rem -> 0 < n <= kFixedIoBufferSize -> n <= len rem ->
  exists data rem' p', asio_read n p = (ec_success, data, false, p') /\ rem = data ++ rem' /\ good p' rem'.

(** The result of a loop that needs [need] bytes in the buffer. *)
Definition filled (need : Z) (i : Impl) (c : TcpConnSync) (r : outcome (bool * Impl)) : Prop :=
  exists ok new i' c', r = Done (ok, i') /\ blocked i i' c c' /\
    recv_data c' = recv_data c ++ new /\ cwire i' = cwire i /\ crcvd i' = crcvd i ++ new /\
    (ok = true -> need <= len (recv_data c')) /\
    len (recv_data c') <= Z.max (len (recv_data c)) (need + kFixedIoBufferSize) /\
    (forall rem, good (peer i) rem -> need <= len (recv_data c ++ rem) ->
       ok = true /\ calm i i' c c' /\ exists rem', rem = new ++ rem' /\ good (peer i') rem').

Lemma filled_now need (i : Impl) c :
  uses i c -> need <= len (recv_data c) -> filled need i c (Done (true, i)).
Proof.
  intros Hc Hn. exists true, [], i, c. rewrite !app_nil_r. split; [done|].
  split; [by split; try left|]. split_and!; try done; [lia|].
  intros rem Hg _. split; [done|]. split; [done|]. by exists rem.
Qed.

(** One more block, then the rest of the loop. *)
Lemma filled_block need n (i : Impl) c (K : M Impl bool) :
  uses i c -> 0 < n <= need - len (recv_data c) -> n <= kFixedIoBufferSize ->
  (forall i' c', uses i' c' -> ib_header_ (recv_bound_ c') = ib_header_ (recv_bound_ c) ->
     len (recv_data c) < len (recv_data c') <= need + kFixedIoBufferSize ->
     n <= len (recv_data c') - len (recv_data c) ->
     filled need i' c' (K i')) ->
  filled need i c ((ok ← read_block n; if (ok : bool) then K else mret false) i).
Proof.
  intros Hc Hn Hn2 HK. unfold mbind, M_bind.
  destruct (read_block_spec n i c Hc) as (ok & data & i1 & c1 & -> & B & Ed & Ew & Er & Hok & Hcalm); [lia|].
  destruct ok; cbn [negb].
  - destruct (HK i1 c1) as (ok & new & i2 & c2 & -> & B2 & Ed2 & Ew2 & Er2 & Hneed & Hmax & Hgood).
    { apply B. } { apply B. } { rewrite Ed, zlen_app. lia. } { rewrite Ed, zlen_app. lia. }
    exists ok, (data ++ new), i2, c2. split; [done|].
    destruct B as [B1 B2' B3 B4], B2 as [C1 C2 C3 C4].
    split. { split; [done|congruence|congruence|]. destruct B4 as [?|?], C4 as [?|?]; (left; congruence) || (right; congruence). }
    rewrite Ed2, Ed, app_assoc. split; [done|]. split; [congruence|]. split; [by rewrite Er2, Er, app_assoc|].
    rewrite Ed2, Ed in Hneed. split; [done|]. split.
    { rewrite Ed2, Ed in Hmax. rewrite !zlen_app in *. lia. }
    intros rem Hg Hl. destruct (good_read (peer i) rem n Hg) as (data' & rem' & p' & Ea & -> & Hg').
    { lia. } { rewrite zlen_app in Hl. lia. }
    destruct (Hcalm _ _ Ea) as (_ & -> & <- & [Ca Cb]).
    destruct (Hgood rem' Hg') as (-> & [Da Db] & rem2 & -> & Hg2).
    { rewrite Ed. rewrite !zlen_app in *. lia. }
    split; [done|]. split; [split; congruence|]. exists rem2. by rewrite app_assoc.
  - subst data. exists false, [], i1, c1. rewrite ?app_nil_r in *. split; [done|]. split; [done|].
    split_and!; try done; [rewrite Ed; lia|].
    intros rem Hg Hl. destruct (good_read (peer i) rem n Hg) as (data' & rem' & p' & Ea & _).
    { lia. } { rewrite zlen_app in Hl. lia. }
    by destruct (Hcalm _ _ Ea).
Qed.

Lemma read_head_loop_spec fuel (i : Impl) c :
  uses i c -> len (recv_data c) < 2 ^ 32 ->
  filled 16 i c (read_head_loop (S (S fuel)) i).
Proof.
  intros Hc Hl. rewrite (read_head_loop_eq _ _ _ Hc Hl).
  destruct (_ <? 16) eqn:E; bool_prop; [|by apply filled_now].
  pose proof (zlen_nonneg (recv_data c)).
  apply filled_block; [done|lia|unfold kFixedIoBufferSize; lia|]. intros i' c' Hc' _ Hd Hn.
  rewrite (read_head_loop_eq _ _ c' Hc') by (unfold kFixedIoBufferSize in *; lia).
  rewrite (proj2 (Z.ltb_ge _ _)) by lia. apply filled_now; [done|lia].
Qed.

Lemma read_body_loop_spec fuel (i : Impl) c :
  let h := ib_header_ (recv_bound_ c) in
  uses i c -> len (recv_data c) < 2 ^ 32 -> 0 <= length_ h < body_bound ->
  (Z.to_nat (length_ h - len (recv_data c)) < fuel)%nat ->
  filled (length_ h) i c (read_body_loop fuel i).
Proof.
  revert i c. induction fuel as [|fuel IH]; intros i c h Hc Hl Hh Hf; [lia|].
  rewrite (read_body_loop_eq _ _ c Hc Hl) by (fold h; unfold body_bound in *; unfold kFixedIoBufferSize in *; lia). fold h.
  destruct (_ <? _) eqn:E; bool_prop; [|by apply filled_now].
  apply filled_block; [done|unfold kFixedIoBufferSize; lia|lia|]. intros i' c' Hc' Eh Hd Hn.
  fold h in Eh. rewrite <-Eh. apply IH; [done| | |]; rewrite ?Eh;
    unfold body_bound, kFixedIoBufferSize in *; lia.
Qed.

(** ** Parsing *)

Definition header_taken (c : TcpConnSync) : TcpConnSync :=
  upd_recv (fun io => mkIOBound (io_block_ io) (parse_wire_header (ztake 16 (recv_data c)))
                        (mkBuffer (zdrop 16 (recv_data c)))) c.

Definition body_taken (c : TcpConnSync) : TcpConnSync :=
  upd_recv (set_buffer (mkBuffer (zdrop (length_ (ib_header_ (recv_bound_ c))) (recv_data c)))) c.

(** The receive limit is a [uint32_t]; 0 is none. *)
Hypothesis limit_fits : fits_u 32 limit.

Lemma sync_parse_header_eq c :
  16 <= len (recv_data c) < 2 ^ 32 ->
  parse_header setting c =
    Done (if accept_header limit (parse_wire_header (ztake 16 (recv_data c))) then 0 else -1,
          header_taken c).
Proof.
  intros [Hl Hu]. unfold parse_header, recv_consume, mbind, M_bind, gets, modify, mret, M_ret.
  rewrite get_length_small by done. fold (recv_data c).
  change sizeof_Header with 16. rewrite (proj2 (Z.ltb_ge _ _)) by done.
  unfold safe_assert. rewrite (proj2 (Z.leb_le _ _)) by done.
  assert (recv_data c <> []) by (intros E; rewrite E in Hl; done).
  rewrite consume_some by done. simpl. fold (recv_data c) limit.
  unfold accept_header, parse_wire_header, header_taken; simpl.
  rewrite (uwrap_small 32 limit) by done.
  destruct (_ =? kHeaderMagic), (_ =? kHeaderVersion), (limit =? 0); simpl; try done.
  rewrite Z.ltb_antisym. by destruct (_ <=? _).
Qed.

Lemma sync_parse_msg_body_eq c :
  len (recv_data c) < 2 ^ 32 -> 0 <= length_ (ib_header_ (recv_bound_ c)) <= len (recv_data c) ->
  parse_msg_body c =
    let h := ib_header_ (recv_bound_ c) in
    Done ((0, mkMessage h (ztake (length_ h) (recv_data c))), body_taken c).
Proof.
  intros Hu [Hh Hle]. unfold parse_msg_body, recv_consume, mbind, M_bind, gets, mret, M_ret.
  rewrite get_length_small by done. fold (recv_data c). cbv zeta.
  rewrite (proj2 (Z.ltb_ge _ _)) by done.
  unfold safe_assert. rewrite (proj2 (Z.leb_le _ _)) by done.
  unfold body_taken. destruct (decide (length_ (ib_header_ (recv_bound_ c)) = 0)) as [E0|N0].
  - rewrite E0, consume_zero. unfold ztake, zdrop; simpl. unfold recv_data. by destruct (buffer_ _).
  - assert (recv_data c <> []) by (intros E'; rewrite E' in Hle; unfold zlen in Hle; simpl in Hle; lia).
    by rewrite consume_some by (done || lia).
Qed.

Lemma accept_limit h : 0 < limit -> accept_header limit h = true -> length_ h <= limit.
Proof.
  intros Hl. unfold accept_header. rewrite (proj2 (Z.eqb_neq limit 0)) by lia. intros Ha. bool_prop.
  rewrite uwrap_small in * by done. simpl in *. by bool_prop.
Qed.

(** A read that was to find [msg] at the front of [b] and what the peer delivers. *)
Definition delivers (find : bytes -> option (Message * bytes)) (b : bytes) (i : Impl) (c : TcpConnSync)
    (r : outcome ((bool * Message) * Impl)) : Prop :=
  exists ok msg new i' c', r = Done ((ok, msg), i') /\
    uses i' c' /\ send_bound_ c' = send_bound_ c /\ cwire i' = cwire i /\
    crcvd i' = crcvd i ++ new /\
    (ok = true -> find (b ++ new) = Some (msg, recv_data c')) /\
    (forall rem msg' rest, good (peer i) rem -> find (b ++ rem) = Some (msg', rest) ->
       ok = true /\ msg = msg' /\ calm i i' c c' /\
       exists rem', rest = recv_data c' ++ rem' /\ good (peer i') rem').

(** The body that follows a header. *)
Definition first_body (h : Header) (b : bytes) : option (Message * bytes) :=
  if length_ h <=? len b then Some (mkMessage h (ztake (length_ h) b), zdrop (length_ h) b) else None.

Lemma delivers_fail find b (i i' : Impl) c c' msg new :
  uses i' c' -> send_bound_ c' = send_bound_ c -> cwire i' = cwire i ->
  crcvd i' = crcvd i ++ new ->
  (forall rem msg' rest, good (peer i) rem -> find (b ++ rem) = Some (msg', rest) -> False) ->
  delivers find b i c (Done ((false, msg), i')).
Proof. intros. exists false, msg, new, i', c'. split_and!; try done. intros. exfalso. eauto. Qed.

Lemma do_read_msg_spec (i : Impl) c :
  let h := ib_header_ (recv_bound_ c) in
  uses i c -> len (recv_data c) < 2 ^ 32 -> 0 <= length_ h < body_bound -> conn_stat c = kWorking ->
  delivers (first_body h) (recv_data c) i c (do_read_msg i).
Proof.
  intros h Hc Hl [Hh Hlim] Hst.
  pose proof (set_conn_same i c Hc) as Ei.
  unfold do_read_msg. unfold mbind at 1, M_bind at 1. erewrite on_sync_eq by done. rewrite Ei.
  rewrite bool_decide_true by done. cbn [negb].
  unfold mbind at 1, M_bind at 1. erewrite on_sync_eq by done. rewrite Ei.
  unfold mbind at 1, M_bind at 1.
  destruct (read_body_loop_spec (body_fuel c) i c Hc Hl) as
    (ok & new & i1 & c1 & -> & [B1 B2 B3 B4] & Ed & Ew & Er & Hneed & Hmax & Hgood).
  { fold h. lia. } { unfold body_fuel. fold h. pose proof (zlen_nonneg (recv_data c)). lia. }
  fold h in Hneed, Hmax, Hgood.
  destruct ok; cbn [negb].
  - specialize (Hneed eq_refl). unfold mbind at 1, M_bind at 1.
    assert (ib_header_ (recv_bound_ c1) = h) as Eh by done.
    pose proof (sync_parse_msg_body_eq c1) as Ep. rewrite Eh in Ep. cbv zeta in Ep.
    rewrite (on_sync_eq _ _ _ _ _ B1 (Ep ltac:(unfold body_bound, kFixedIoBufferSize in *; lia) ltac:(lia))).
    cbn [fst snd Z.eqb]. eexists true, _, new, _, (body_taken c1). split; [done|].
    rewrite <-Ed. split_and!; try done.
    + intros _. unfold first_body. rewrite (proj2 (Z.leb_le _ _)) by done.
      unfold body_taken. by rewrite Eh.
    + intros rem msg' rest Hg Hf. unfold first_body in Hf.
      destruct (_ <=? _) eqn:E in Hf; [|done]. bool_prop. injection Hf as <- <-.
      destruct (Hgood rem Hg E) as (_ & [Ca Cb] & rem' & -> & Hg').
      rewrite app_assoc, <-Ed. split; [done|]. rewrite ztake_app_le, zdrop_app_le by done.
      split; [done|]. split; [by split|]. exists rem'. split; [|done].
      unfold body_taken. by rewrite Eh.
  - apply (delivers_fail _ _ _ _ _ c1 _ new); [done..|].
    intros rem msg' rest Hg Hf. unfold first_body in Hf.
    destruct (_ <=? _) eqn:E in Hf; [|done]. bool_prop. by destruct (Hgood rem Hg E).
Qed.

Lemma first_message_app b new :
  16 <= len b ->
  first_message (b ++ new) =
    if accept_header limit (parse_wire_header (ztake 16 b))
    then first_body (parse_wire_header (ztake 16 b)) (zdrop 16 b ++ new) else None.
Proof.
  intros Hb. pose proof (zlen_nonneg new). unfold first_message, first_body.
  rewrite zlen_app, (proj2 (Z.ltb_ge _ _)), ztake_app_le, zdrop_app_le by lia.
  by destruct (accept_header _ _).
Qed.

Lemma first_message_short b m rest : first_message b = Some (m, rest) -> 16 <= len b.
Proof. unfold first_message. destruct (_ <? 16) eqn:E; [done|]. by bool_prop. Qed.

Lemma do_read_msg_closed (i : Impl) c :
  uses i c -> conn_stat c <> kWorking ->
  do_read_msg i = Done ((false, Message_default), i).
Proof.
  intros Hc Hst. pose proof (set_conn_same i c Hc) as Ei.
  unfold do_read_msg. unfold mbind at 1, M_bind at 1. erewrite on_sync_eq by done. rewrite Ei.
  by rewrite bool_decide_false.
Qed.

(** The part of [do_read] after the header was received. *)
Definition parse_and_read : M Impl (bool * Message) :=
  ret ← on_sync (parse_header setting);
  if ret =? 0 then do_read_msg
  else _ ← on_sync (on_base (sock_shutdown_and_close Shut_kBoth)); mret (false, Message_default).

Lemma do_read_eq (i : Impl) c :
  uses i c -> conn_stat c = kWorking ->
  do_read setting i =
    (ok ← read_head_loop 17; if (ok : bool) then parse_and_read else mret (false, Message_default)) i.
Proof.
  intros Hc Hst. unfold do_read. unfold mbind at 1, M_bind at 1.
  erewrite on_sync_eq by done. rewrite (set_conn_same i c Hc), bool_decide_true by done. cbn [negb].
  unfold mbind, M_bind. by destruct (read_head_loop 17 i) as [[[] ?]| | |].
Qed.

(** At the front of [b] is a header the settings allow that announces a body of [body_bound]
    bytes or more. *)
Definition huge_header (b : bytes) : Prop :=
  16 <= len b /\
  let h := parse_wire_header (ztake 16 b) in accept_header limit h = true /\ body_bound <= length_ h.

(** [r] is a read that has received such a header and goes on to read the body. *)
Definition reads_on (b : bytes) (i : Impl) (r : outcome ((bool * Message) * Impl)) : Prop :=
  exists new i1, r = do_read_msg i1 /\ cwire i1 = cwire i /\ crcvd i1 = crcvd i ++ new /\ huge_header (b ++ new).

(** The header is there and does not announce such a body: the rest of [do_read]. *)
Lemma do_read_parse (i : Impl) c :
  uses i c -> 16 <= len (recv_data c) < 2 ^ 32 ->
  (conn_stat c = kWorking \/ conn_stat c = kClosed) ->
  (accept_header limit (parse_wire_header (ztake 16 (recv_data c))) = true ->
   length_ (parse_wire_header (ztake 16 (recv_data c))) < body_bound) ->
  exists ok msg new i' c', parse_and_read i = Done ((ok, msg), i') /\
    uses i' c' /\ send_bound_ c' = send_bound_ c /\ cwire i' = cwire i /\
    crcvd i' = crcvd i ++ new /\
    (ok = true -> first_message (recv_data c ++ new) = Some (msg, recv_data c')) /\
    (conn_stat c = kWorking ->
     forall rem msg' rest, good (peer i) rem -> first_message (recv_data c ++ rem) = Some (msg', rest) ->
       ok = true /\ msg = msg' /\ calm i i' c c' /\
       exists rem', rest = recv_data c' ++ rem' /\ good (peer i') rem').
Proof.
  intros Hc Hl Hst Hbound. unfold parse_and_read, mbind at 1, M_bind at 1.
  rewrite (on_sync_eq _ _ _ _ _ Hc (sync_parse_header_eq c Hl)).
  set (h := parse_wire_header (ztake 16 (recv_data c))).
  set (i1 := set_conn (Some (header_taken c)) i).
  assert (uses i1 (header_taken c)) as Hu by (by eapply uses_set_conn).
  destruct (accept_header limit h) eqn:Ha; cbn [Z.eqb].
  - destruct Hst as [Hst|Hst].
    + destruct (do_read_msg_spec i1 (header_taken c)) as
        (ok & msg & new & i' & c' & E & Ec & Es & Ew & Er & Hok & Hg); [done| | |done|].
      { unfold recv_data at 1; simpl. rewrite zlen_zdrop by lia. lia. }
      { split; [apply parse_wire_header_length_nonneg; unfold zlen in Hl; lia|by apply Hbound]. }
      change (recv_data (header_taken c)) with (zdrop 16 (recv_data c)) in *.
      change (ib_header_ (recv_bound_ (header_taken c))) with h in *.
      exists ok, msg, new, i', c'. split_and!; try done.
      * intros Ho. rewrite first_message_app by lia. fold h. rewrite Ha. auto.
      * intros _ rem msg' rest Hgd Hf. rewrite first_message_app in Hf by lia. fold h in Hf. rewrite Ha in Hf.
        destruct (Hg rem msg' rest Hgd Hf) as (? & ? & [Ca Cb] & ?). by split_and!.
    + rewrite (do_read_msg_closed i1 (header_taken c)) by (done || (unfold conn_stat in *; simpl; congruence)).
      exists false, Message_default, [], i1, (header_taken c). rewrite !app_nil_r. split_and!; try done.
      intros. congruence.
  - destruct (closed_spec (header_taken c)) as (c' & E & Hs' & Hr & Hw).
    unfold shutdown_and_close_socket in E. unfold mbind at 1, M_bind at 1.
    rewrite (on_sync_eq _ i1 (header_taken c) _ _ Hu E).
    eexists false, Message_default, [], _, c'. split; [done|]. rewrite !app_nil_r. split_and!; try done.
    intros _ rem msg' rest _ Hf. rewrite first_message_app in Hf by lia. fold h in Hf. by rewrite Ha in Hf.
Qed.

(** A read that receives such a header goes on to the body. *)
Lemma do_read_on (i : Impl) c :
  let h := parse_wire_header (ztake 16 (recv_data c)) in
  uses i c -> 16 <= len (recv_data c) < 2 ^ 32 -> accept_header limit h = true ->
  parse_and_read i = do_read_msg (set_conn (Some (header_taken c)) i).
Proof.
  intros h Hc Hl Ha. unfold parse_and_read, mbind at 1, M_bind at 1.
  rewrite (on_sync_eq _ _ _ _ _ Hc (sync_parse_header_eq c Hl)). fold h. by rewrite Ha.
Qed.

(** [do_read] returns; a message it returns is the first of the bytes it was given, and a
    peer that has a message to deliver gets it through. A read that accepts a header of
    nearly 4 GiB is the exception. *)
Lemma do_read_any (i : Impl) c :
  uses i c -> len (recv_data c) < 2 ^ 31 -> conn_stat c = kWorking ->
  delivers first_message (recv_data c) i c (do_read setting i) \/
  reads_on (recv_data c) i (do_read setting i).
Proof.
  intros Hc Hl Hst. rewrite (do_read_eq i c Hc Hst). unfold mbind, M_bind.
  destruct (read_head_loop_spec 15 i c Hc ltac:(lia)) as
    (ok & new & i1 & c1 & -> & [B1 B2 B3 B4] & Ed & Ew & Er & Hneed & Hmax & Hgood).
  destruct ok.
  2: { left. apply (delivers_fail _ _ _ _ _ c1 _ new); [done..|].
    intros rem msg' rest Hgd Hf. by destruct (Hgood rem Hgd ltac:(by eapply first_message_short)). }
  assert (16 <= len (recv_data c1) < 2 ^ 32) as Hl1
    by (split; [by apply Hneed|unfold kFixedIoBufferSize in *; lia]).
  set (h := parse_wire_header (ztake 16 (recv_data c1))).
  destruct (decide (accept_header limit h = true /\ body_bound <= length_ h)) as [[Ha Hb]|Hsmall].
  { right. exists new, (set_conn (Some (header_taken c1)) i1). rewrite (do_read_on i1 c1 B1 Hl1 Ha).
    split; [done|]. split; [done|]. split; [done|]. rewrite <-Ed. split; [apply Hl1|done]. }
  left. destruct (do_read_parse i1 c1) as (ok & msg & new2 & i2 & c2 & E & Ec & Es & Ew2 & Er2 & Hok & Hg);
    [done|done|destruct B4; [left|right]; congruence| |].
  { intros Ha. fold h in Ha |- *. destruct (decide (length_ h < body_bound)); [done|]. destruct Hsmall. split; [done|lia]. }
  exists ok, msg, (new ++ new2), i2, c2. split; [exact E|]. split; [done|]. split; [congruence|].
  split; [congruence|]. split; [by rewrite Er2, Er, app_assoc|].
  rewrite Ed in Hok. rewrite <-app_assoc in Hok. split; [done|].
  intros rem msg' rest Hgd Hf.
  destruct (Hgood rem Hgd) as (_ & [Ca Cb] & rem' & -> & Hg'); [by eapply first_message_short|].
  rewrite app_assoc, <-Ed in Hf.
  destruct (Hg ltac:(congruence) rem' msg' rest Hg' Hf) as (? & ? & [Da Db] & ?).
  split_and!; try done. split; congruence.
Qed.

(** A limit below the bound rules it out. *)
Lemma do_read_spec (i : Impl) c :
  0 < limit < body_bound ->
  uses i c -> len (recv_data c) < 2 ^ 31 -> conn_stat c = kWorking ->
  delivers first_message (recv_data c) i c (do_read setting i).
Proof.
  intros Hlim Hc Hl Hst. destruct (do_read_any i c Hc Hl Hst) as [?|(new & i1 & _ & _ & _ & _ & Ha & Hb)]; [done|].
  pose proof (accept_limit _ ltac:(lia) Ha). lia.
Qed.
End Read.

#[export] Hint Extern 0 (uses (set_conn (Some _) _) _) => eapply uses_set_conn; eassumption : core.
