(* ===== verification/ClientCall.v ===== *)
(** * Synchronous calls: what their results mean

    [write_loop] in closed form, then [call_RPC]: an OK result is a genuine answer, and a
    server that answers gets its answer through. *)

From Stdlib Require Import ZArith Lia Init.Byte.
From stdpp Require Import base list strings gmap.
From S2P Require Import Prelude Endian Message Buffer RpcMessage NetConn ClientConf Decode.
From S2P Require Import ClientAsync ClientSync ClientRead.

Section Write.
Context `{Host} `{AssertMode} {P : Type} `{!AsioSync P} `{!AsioSyncLaws P}.
Abbreviation Impl := (RpcClientImpl P).

(** A peer that takes everything; [w] is what it took so far. *)
Variable takes : P -> bytes -> Prop.
Hypothesis takes_write : forall p w b, takes p w ->
  exists p', asio_write b p = (ec_success, len b, false, p') /\ takes p' (w ++ b).

Definition block_ok (c : TcpConnSync) : Prop := len (io_block_ (send_bound_ c)) = kFixedIoBufferSize.

Definition block_taken (k : Z) (c : TcpConnSync) : TcpConnSync :=
  upd_send (fun io => mkIOBound (ztake k (send_data c) ++ zdrop k (io_block_ io))
                        (ib_header_ io) (mkBuffer (zdrop k (send_data c)))) c.

Lemma send_consume_eq k c :
  block_ok c -> 0 < k <= kFixedIoBufferSize -> k <= len (send_data c) ->
  send_consume k c = Done (true, block_taken k c).
Proof.
  unfold block_ok. intros Hb Hk Hl. unfold send_consume.
  by rewrite consume_raw_some by (rewrite ?Hb; done || lia).
Qed.

Lemma block_taken_ok k c :
  block_ok c -> 0 < k <= kFixedIoBufferSize -> k <= len (send_data c) -> block_ok (block_taken k c).
Proof.
  unfold block_ok. intros Hb Hk Hl. simpl. rewrite zlen_app, zlen_ztake, zlen_zdrop by lia.
  rewrite Hb. lia.
Qed.

Lemma block_taken_front k c :
  0 <= k <= len (send_data c) ->
  ztake k (io_block_ (send_bound_ (block_taken k c))) = ztake k (send_data c).
Proof. intros. simpl. apply ztake_app_length. by rewrite zlen_ztake by lia. Qed.

(** A blocking write of [block], the front of [io_block_]. *)
Lemma sock_write_spec n (i : Impl) c :
  let block := ztake n (io_block_ (send_bound_ c)) in
  uses i c -> len block = n ->
  exists ec k i' c', sock_write n i = Done ((ec, k), i') /\ uses i' c' /\
    send_bound_ c' = send_bound_ c /\ recv_bound_ c' = recv_bound_ c /\
    (conn_stat c' = conn_stat c \/ conn_stat c' = kClosed) /\
    crcvd i' = crcvd i /\ cwire i' = cwire i ++ ztake k block /\
    (ec_failed ec = false -> k = n) /\
    (forall w, takes (peer i) w ->
       ec = ec_success /\ calm i i' c c' /\ takes (peer i') (w ++ block)).
Proof.
  intros block Hc Hl. unfold sock_write. unfold mbind at 1, M_bind at 1.
  pose proof (set_conn_same i c Hc) as Ei.
  erewrite on_sync_eq by done. rewrite Ei. fold block.
  unfold mbind at 1, M_bind at 1, gets at 1.
  destruct (asio_write block (peer i)) as [[[ec k] fired] p'] eqn:Ew.
  unfold mbind at 1, M_bind at 1, modify at 1. unfold mbind at 1, M_bind at 1, modify at 1.
  set (i1 := add_wire _ _). unfold mbind at 1, M_bind at 1.
  destruct (when_timer_spec fired i1 c) as
    (i2 & c2 & Et & Hc2 & Hr2 & Hs2 & Hst2 & Hp2 & Hw2 & Hv2); [by eapply uses_same|]. rewrite Et.
  exists ec, k, i2, c2. rewrite Hw2, Hv2. split_and!; try done.
  - intros Hec. destruct ec; try done. rewrite <-Hl. by eapply write_all.
  - intros w Ht. destruct (takes_write _ _ block Ht) as (p2 & E & Ht2).
    rewrite Ew in E. injection E as -> -> -> ->. simpl in Et. injection Et as <-.
    assert (uses i1 c) as Hc' by (by eapply uses_same).
    by rewrite <-(uses_fun i1 c c2 Hc' Hc2).
Qed.

(** The outcome of writing the buffer of [c]. *)
Definition flushed (i : Impl) (c : TcpConnSync) (r : outcome (bool * Impl)) : Prop :=
  exists ok w i' c', r = Done (ok, i') /\ uses i' c' /\
    recv_bound_ c' = recv_bound_ c /\ (conn_stat c' = conn_stat c \/ conn_stat c' = kClosed) /\
    block_ok c' /\ crcvd i' = crcvd i /\ cwire i' = cwire i ++ w /\
    w `prefix_of` send_data c /\ (ok = true -> w = send_data c /\ send_data c' = []) /\
    (forall v, takes (peer i) v ->
       ok = true /\ calm i i' c c' /\ takes (peer i') (v ++ send_data c)).

(** A round that wrote the front of the buffer, followed by the rest of the loop. *)
Lemma flushed_more k (i i1 : Impl) c c1 r :
  0 <= k -> send_data c1 = zdrop k (send_data c) -> recv_bound_ c1 = recv_bound_ c ->
  (conn_stat c1 = conn_stat c \/ conn_stat c1 = kClosed) ->
  crcvd i1 = crcvd i -> cwire i1 = cwire i ++ ztake k (send_data c) ->
  (forall v, takes (peer i) v -> calm i i1 c c1 /\ takes (peer i1) (v ++ ztake k (send_data c))) ->
  flushed i1 c1 r -> flushed i c r.
Proof.
  intros Hk Ed1 Hr1 Hst1 Hv1 Hw1 Ht1
    (ok & w & i2 & c2 & E2 & Hc2 & Hr2 & Hst2 & Hb2 & Hv2 & Hw2 & Hp2 & Hok2 & Ht2).
  pose proof (ztake_zdrop k (send_data c)) as Esplit. rewrite Ed1 in Hp2, Hok2, Ht2.
  exists ok, (ztake k (send_data c) ++ w), i2, c2. split; [done|]. split; [done|].
  split; [by rewrite Hr2, Hr1|].
  split; [destruct Hst1 as [?|?], Hst2 as [?|?]; (left; congruence) || (right; congruence)|].
  split; [done|]. split; [by rewrite Hv2, Hv1|]. split; [by rewrite Hw2, Hw1, app_assoc|].
  split; [rewrite <-Esplit at 2; by apply prefix_app|]. split.
  - intros Ho. destruct (Hok2 Ho) as [-> ?]. by rewrite Esplit.
  - intros v Ht. destruct (Ht1 v Ht) as ([Ca Cb] & Ht'). destruct (Ht2 _ Ht') as (? & [Da Db] & Ht'').
    split; [done|]. split; [split; congruence|]. by rewrite <-app_assoc, Esplit in Ht''.
Qed.

(** A round whose write failed ends the loop. *)
Lemma flushed_failed k kk ec (i i1 : Impl) c c1 :
  uses i1 c1 -> block_ok c1 -> recv_bound_ c1 = recv_bound_ c ->
  (conn_stat c1 = conn_stat c \/ conn_stat c1 = kClosed) ->
  crcvd i1 = crcvd i -> cwire i1 = cwire i ++ ztake kk (ztake k (send_data c)) ->
  (forall v, ~ takes (peer i) v) ->
  flushed i c ((_ ← on_sync (handle_socket_ec ec); mret false) i1).
Proof.
  intros Hc1 Hb1 Hr1 Hst1 Hv1 Hw1 Hno.
  destruct (sync_handle_socket_ec_spec ec c1) as (c2 & E2 & Hr2 & Hs2 & Hst2).
  unfold mbind, M_bind. rewrite (on_sync_eq _ _ _ _ _ Hc1 E2).
  eexists false, _, _, c2. split; [done|]. split; [done|]. split; [by rewrite Hr2, Hr1|].
  split; [destruct Hst1 as [?|?], Hst2 as [?|?]; (left; congruence) || (right; congruence)|].
  split; [unfold block_ok; by rewrite Hs2|]. split; [done|]. split; [exact Hw1|].
  split; [|split; [done|]].
  - etransitivity; [|exists (zdrop k (send_data c)); by rewrite ztake_zdrop].
    eexists. symmetry. apply ztake_zdrop.
  - intros v Ht. by destruct (Hno v).
Qed.

Lemma write_loop_spec fuel (i : Impl) c :
  uses i c -> block_ok c -> len (send_data c) < 2 ^ 32 ->
  (length (send_data c) < fuel)%nat -> flushed i c (write_loop fuel i).
Proof.
  revert i c. induction fuel as [|fuel IH]; intros i c Hc Hb Hl Hf; [lia|]. cbn [write_loop].
  pose proof (set_conn_same i c Hc) as Ei.
  unfold mbind at 1, M_bind at 1. erewrite on_sync_eq by done. rewrite Ei.
  rewrite get_length_small by done. fold (send_data c). pose proof (zlen_nonneg (send_data c)).
  destruct (0 <? _) eqn:E; bool_prop.
  2: { assert (send_data c = []) as E0 by (apply zlen_nil_inv; lia).
       exists true, [], i, c. rewrite E0, app_nil_r. split_and!; try done; [by left|].
       intros v Ht. rewrite app_nil_r. by split_and!. }
  set (k := Z.min (len (send_data c)) kFixedIoBufferSize).
  assert (0 < k <= kFixedIoBufferSize /\ k <= len (send_data c)) as [Hk Hkl]
    by (unfold k, kFixedIoBufferSize; lia).
  unfold mbind at 1, M_bind at 1. rewrite (on_sync_eq _ _ _ _ _ Hc (send_consume_eq k c Hb Hk Hkl)).
  set (c0 := block_taken k c). set (i0 := set_conn (Some c0) i).
  pose proof (block_taken_front k c ltac:(lia)) as Efront. fold c0 in Efront.
  destruct (sock_write_spec k i0 c0 (uses_set_conn _ _ _ Hc)) as
    (ec & kk & i1 & c1 & Es & Hc1 & Hs1 & Hr1 & Hst1 & Hv1 & Hw1 & Hkk & Ht1).
  { rewrite Efront, zlen_ztake; lia. }
  change (conn_stat c0) with (conn_stat c) in Hst1. change (recv_bound_ c0) with (recv_bound_ c) in Hr1.
  unfold mbind at 1, M_bind at 1. rewrite Es. cbn [fst snd]. rewrite Efront in Hw1, Ht1.
  assert (block_ok c1) as Hb1 by (unfold block_ok; rewrite Hs1; by apply block_taken_ok).
  destruct (ec_failed ec) eqn:Hec.
  - apply (flushed_failed k kk ec i i1 c c1); try done. intros v Ht. by destruct (Ht1 v Ht) as (-> & _).
  - rewrite (Hkk eq_refl) in *. rewrite ztake_all in Hw1 by (rewrite zlen_ztake; lia).
    unfold safe_assert. rewrite Z.eqb_refl. unfold mbind, M_bind, mret, M_ret.
    assert (send_data c1 = zdrop k (send_data c)) as Ed1 by (unfold send_data at 1; by rewrite Hs1).
    apply (flushed_more k i i1 c c1); try done; [lia| |].
    + intros v Ht. destruct (Ht1 v Ht) as (_ & [Ca Cb] & Ht'). split; [by split|exact Ht'].
    + apply IH; [done|done|rewrite Ed1, zlen_zdrop; lia|].
      rewrite Ed1. unfold zdrop. rewrite length_drop. unfold zlen in *. lia.
Qed.

Lemma do_write_spec (i : Impl) c :
  uses i c -> block_ok c -> len (send_data c) < 2 ^ 32 -> conn_stat c = kWorking ->
  flushed i c (do_write i).
Proof.
  intros Hc Hb Hl Hst. unfold do_write.
  pose proof (set_conn_same i c Hc) as Ei.
  unfold mbind at 1, M_bind at 1. erewrite on_sync_eq by done. rewrite Ei.
  rewrite bool_decide_true by done. cbn [negb].
  unfold mbind at 1, M_bind at 1. erewrite on_sync_eq by done. rewrite Ei.
  apply write_loop_spec; [done..|lia].
Qed.
End Write.

Section Check.
Context `{Host} `{AssertMode} {P : Type} `{!AsioSync P}.
Abbreviation Impl := (RpcClientImpl P).

Lemma timeout_set sec (i : Impl) :
  0 <= sec ->
  exists i', when (0 <? sec) (set_rpc_call_timeout sec true) i = Done (tt, i') /\
    (forall c, uses i c -> uses i' c) /\ peer i' = peer i /\ cwire i' = cwire i /\ crcvd i' = crcvd i /\
    (was_timeout_ i = false -> was_timeout_ i' = false).
Proof.
  intros Hs. unfold when, set_rpc_call_timeout. destruct (0 <? sec) eqn:E; bool_prop; [|by exists i].
  rewrite (proj2 (Z.eqb_neq sec 0)) by lia. unfold mbind, M_bind, safe_assert, modify.
  eexists. split; [done|]. split; [|done]. by intros c [Hc _]; split.
Qed.

(** ** Checking the answer *)

(** What an answer of sufficient length means for the call. *)
Definition classify (sid op : Z) (p : bytes) : RpcClientStatus * option bytes :=
  let h := RpcResponseHeader_from_net_endian (RpcResponseHeader_of_mem p) in
  if negb (rs_magic h =? kRpcHeaderMagic) || negb (rs_service_id h =? sid) || negb (rs_opcode h =? op)
  then (Status_RECV_FORMAT_ERROR, None)
  else if negb (rs_status h =? 0) then (rs_status h, None)
  else (Status_OK, Some (zdrop sizeof_RpcResponseHeader p)).

Lemma classify_ok sid op p : (classify sid op p).1 = Status_OK <-> (classify sid op p).2 <> None.
Proof.
  unfold classify. destruct (_ || _ || _); [done|]. destruct (rs_status _ =? 0) eqn:E; bool_prop; done.
Qed.

Lemma check_response_ok sid op p :
  sizeof_RpcResponseHeader <= len p -> check_response sid op p = Done (classify sid op p).
Proof.
  intros Hp. set (h := RpcResponseHeader_from_net_endian (RpcResponseHeader_of_mem p)).
  unfold check_response, classify. fold h. rewrite RpcResponseMessageParse_ok by done.
  cbn [rs_header_ rs_payload_ negb]. fold h. change (response_code Resp_OK) with 0.
  rewrite uwrap_small; [done|]. unfold h; simpl. apply (load_int_fits 1), length_field_at.
  unfold zlen, sizeof_RpcResponseHeader in Hp. lia.
Qed.

Lemma check_response_short sid op p :
  len p < sizeof_RpcResponseHeader ->
  check_response sid op p =
    if assert_stops then AssertFailed else Done (Status_RECV_FORMAT_ERROR, None).
Proof.
  intros Hp. unfold check_response, RpcResponseMessageParse, mbind, M_bind, safe_assert.
  rewrite (proj2 (Z.leb_gt _ _)), (proj2 (Z.ltb_lt _ _)) by done. by destruct assert_stops.
Qed.

(** The answer [p] carries [data] for the call of [op] of service [sid]. *)
Definition carries (sid op : Z) (p data : bytes) : Prop :=
  sizeof_RpcResponseHeader <= len p /\
  let h := RpcResponseHeader_from_net_endian (RpcResponseHeader_of_mem p) in
  rs_magic h = kRpcHeaderMagic /\ rs_service_id h = sid /\ rs_opcode h = op /\
  rs_status h = response_code Resp_OK /\ data = zdrop sizeof_RpcResponseHeader p.

Lemma check_response_genuine sid op p r :
  check_response sid op p = Done (Status_OK, r) -> exists data, r = Some data /\ carries sid op p data.
Proof.
  destruct (decide (sizeof_RpcResponseHeader <= len p)) as [Hl|Hl].
  - rewrite check_response_ok by done. unfold classify.
    destruct (_ || _ || _) eqn:E; [done|]. destruct (rs_status _ =? 0) eqn:E0; simpl.
    + intros [= <-]. bool_prop. eexists. split; [done|]. split; [done|]. by split_and!.
    + intros [= E1 _]. bool_prop. done.
  - rewrite check_response_short by lia. by destruct assert_stops.
Qed.
End Check.

Section Call.
Context `{Host} `{AssertMode} {P : Type} `{!AsioSync P} `{!AsioSyncLaws P}.
Variable setting : RpcClientSetting.
Abbreviation Impl := (RpcClientImpl P).
Let limit := cl_recv_max_msg_size_ setting.

(** The transport message of a request. *)
Definition request_message (sid op : Z) (payload : bytes) : Message :=
  Message_of_data (RpcRequestMessage_net_str (RpcRequestMessage_new sid op payload)).

Definition send_over_limit (msg : Message) : bool :=
  negb (cl_send_max_msg_size_ setting =? 0) && (cl_send_max_msg_size_ setting <? length_ (header_ msg)).

(** A connection between two calls. *)
Record idle (c : TcpConnSync) : Prop := {
  id_stat : conn_stat c = kWorking;
  id_block : block_ok c;
  id_send : send_data c = [];
  id_recv : len (recv_data c) < 2 ^ 31
}.

Lemma idle_new sock : idle (TcpConnSync_new sock).
Proof. by split. Qed.

(** The end of a call, from the result of its read. *)
Definition finish_call (sid op : Z) (r : bool * Message) : M Impl (RpcClientStatus * option bytes) :=
  if negb (fst r) then call_failed Status_NETWORK_RECV_ERROR
  else from_outcome (check_response sid op (payload_ (snd r))).

(** [r] is a call that has sent its request and received [new], where a header announces a
    body of nearly 4 GiB or more, and goes on to read that body. *)
Definition reading_huge (sid op : Z) (payload b : bytes) (i : Impl)
    (r : outcome ((RpcClientStatus * option bytes) * Impl)) : Prop :=
  exists new i1, r = (m ← do_read_msg; finish_call sid op m) i1 /\ huge_header setting (b ++ new) /\
    crcvd i1 = crcvd i ++ new /\ cwire i1 = cwire i ++ net_str (request_message sid op payload).

(** How a call that has a connection ends. *)
Inductive call_ends (sid op : Z) (payload : bytes) (i : Impl) (c : TcpConnSync)
    : outcome ((RpcClientStatus * option bytes) * Impl) -> Prop :=
| ends_failed st w i' :
    st ∈ [Status_NETWORK_SEND_ERROR; Status_NETWORK_RECV_ERROR; Status_RPC_CALL_TIMEOUT] ->
    conn_sync_ i' = None -> cwire i' = cwire i ++ w ->
    w `prefix_of` net_str (request_message sid op payload) ->
    call_ends sid op payload i c (Done ((st, None), i'))
| ends_answered m new i' c' :
    first_message setting (recv_data c ++ new) = Some (m, recv_data c') ->
    crcvd i' = crcvd i ++ new -> cwire i' = cwire i ++ net_str (request_message sid op payload) ->
    uses i' c' ->
    call_ends sid op payload i c (from_outcome (check_response sid op (payload_ m)) i')
| ends_reading r :
    reading_huge sid op payload (recv_data c) i r -> call_ends sid op payload i c r.

Lemma call_failed_eq st (i : Impl) :
  call_failed st i =
    Done ((if was_timeout_ i then Status_RPC_CALL_TIMEOUT else st, None), set_conn None i).
Proof. done. Qed.

Definition queued_conn (msg : Message) (c : TcpConnSync) : TcpConnSync :=
  upd_send (set_buffer (mkBuffer (net_str msg))) c.

Lemma send_net_message_eq msg (i : Impl) c :
  uses i c -> send_data c = [] -> send_over_limit msg = false ->
  send_net_message setting msg i = do_write (set_conn (Some (queued_conn msg c)) i).
Proof.
  intros Hc Hd Ho. unfold send_net_message. fold (send_over_limit msg). rewrite Ho.
  unfold mbind, M_bind. erewrite on_sync_eq by done. do 3 f_equal.
  unfold queued_conn, upd_send, append, append_internal, set_buffer, net_str. simpl.
  unfold send_data in Hd. rewrite Hd. done.
Qed.

Lemma do_read_closed (i : Impl) c :
  uses i c -> conn_stat c <> kWorking ->
  do_read setting i = Done ((false, Message_default), i).
Proof.
  intros Hc Hst. pose proof (set_conn_same i c Hc) as Ei.
  unfold do_read. unfold mbind at 1, M_bind at 1. erewrite on_sync_eq by done. rewrite Ei.
  by rewrite bool_decide_false.
Qed.

Hypothesis limit_fits : fits_u 32 limit.

Lemma request_message_small sid op payload :
  len payload < 2 ^ 31 -> len (net_str (request_message sid op payload)) < 2 ^ 32.
Proof.
  intros Hp. rewrite zlen_net_str. unfold request_message. simpl.
  rewrite zlen_RpcRequestMessage_net_str. simpl. unfold sizeof_Header, sizeof_RpcRequestHeader. lia.
Qed.

Lemma call_connected_ends sid op payload sec (i : Impl) c :
  uses i c -> idle c -> 0 <= sec -> len payload < 2 ^ 31 ->
  call_ends sid op payload i c (call_connected setting sid op payload sec i).
Proof.
  intros Hc [Hst Hb Hd Hr] Hsec Hp. unfold call_connected.
  destruct (timeout_set sec i Hsec) as (i1 & E1 & Hc1 & _ & Hw1 & Hv1 & _). apply Hc1 in Hc. clear Hc1; rename Hc into Hc1.
  unfold mbind at 1, M_bind at 1. rewrite E1. unfold mbind at 1, M_bind at 1, send_rpc_message.
  fold (request_message sid op payload). set (msg := request_message sid op payload).
  destruct (send_over_limit msg) eqn:Ho.
  { unfold send_net_message. fold (send_over_limit msg). rewrite Ho. cbn [mret M_ret negb].
    rewrite call_failed_eq. eapply (ends_failed _ _ _ _ _ _ []); [..|apply prefix_nil].
    - destruct (was_timeout_ i1); apply (bool_decide_unpack _); reflexivity.
    - done.
    - by rewrite app_nil_r. }
  rewrite (send_net_message_eq _ _ _ Hc1 Hd Ho).
  destruct (do_write_spec (fun _ _ => False) ltac:(done) (set_conn (Some (queued_conn msg c)) i1)
    (queued_conn msg c)) as (ok & w & i2 & c2 & E2 & Hc2 & Hr2 & Hst2 & Hb2 & Hv2 & Hw2 & Hp2 & Hok & _);
    [done|done|by apply request_message_small|done|].
  rewrite E2. cbn [cwire crcvd set_conn] in *. change (send_data (queued_conn msg c)) with (net_str msg) in *.
  destruct ok; cbn [negb].
  2: { rewrite call_failed_eq. apply (ends_failed _ _ _ _ _ _ w); [|done| |done].
       - destruct (was_timeout_ i2); apply (bool_decide_unpack _); reflexivity.
       - simpl. by rewrite Hw2, Hw1. }
  destruct (Hok eq_refl) as [-> Hd2]. unfold recv_rpc_message, recv_net_message.
  change (conn_stat (queued_conn msg c)) with (conn_stat c) in Hst2.
  assert (recv_data c2 = recv_data c) as Erd by (unfold recv_data; by rewrite Hr2).
  unfold mbind at 1, M_bind at 1. destruct Hst2 as [Hst2|Hst2].
  2: { rewrite (do_read_closed i2 c2) by (done || congruence). cbn [fst negb]. rewrite call_failed_eq.
       apply (ends_failed _ _ _ _ _ _ (net_str msg)); [|done| |done].
       - destruct (was_timeout_ i2); apply (bool_decide_unpack _); reflexivity.
       - simpl. by rewrite Hw2, Hw1. }
  destruct (do_read_any setting (fun _ _ => False) ltac:(done) limit_fits i2 c2 Hc2) as
    [(ok & m & new & i3 & c3 & E3 & Hc3 & Hs3 & Hw3 & Hv3 & Hok3 & _)|(new & i3 & E3 & Hw3 & Hv3 & Hh)];
    [by rewrite Erd|congruence| |].
  2: { rewrite Erd in Hh. apply ends_reading. exists new, i3. rewrite E3. split; [done|]. split; [done|].
       rewrite Hv3, Hv2, Hv1, Hw3, Hw2, Hw1. done. }
  rewrite E3. cbn [fst snd]. destruct ok; cbn [negb].
  - rewrite Erd in Hok3. apply (ends_answered _ _ _ _ _ m new i3 c3); [by apply Hok3| | |done].
    + by rewrite Hv3, Hv2, Hv1.
    + by rewrite Hw3, Hw2, Hw1.
  - rewrite call_failed_eq. apply (ends_failed _ _ _ _ _ _ (net_str msg)); [|done| |done].
    + destruct (was_timeout_ i3); apply (bool_decide_unpack _); reflexivity.
    + simpl. by rewrite Hw3, Hw2, Hw1.
Qed.

(** ** A whole call *)

(** Between two calls there is no connection, or an idle one; a timer that runs for an
    asynchronous call has a connection to close. *)
Definition between_calls (i : Impl) : Prop :=
  timer_safe i /\ match conn_sync_ i with None => True | Some c => idle c end.

(** Bytes that were received and not used yet. *)
Definition buffered (i : Impl) : bytes :=
  match conn_sync_ i with None => [] | Some c => recv_data c end.

Lemma call_RPC_unfold sid op payload sec (i : Impl) :
  call_RPC setting sid op payload sec i =
    match conn_sync_ i with
    | Some _ => call_connected setting sid op payload sec i
    | None =>
        let '(ec, p') := asio_connect (peer i) in
        if ec_failed ec then Done ((Status_NETWORK_CONNECT_ERROR, None), set_peer p' i)
        else call_connected setting sid op payload sec
               (set_conn (Some (TcpConnSync_new Socket_new)) (set_peer p' i))
    end.
Proof.
  unfold call_RPC. unfold mbind at 1, M_bind at 1, gets at 1. destruct (conn_sync_ i); [done|].
  unfold mbind at 1, M_bind at 1, gets at 1. destruct (asio_connect (peer i)) as [ec p'].
  unfold mbind at 1, M_bind at 1, modify at 1. by destruct (ec_failed ec).
Qed.

Lemma call_RPC_eq sid op payload sec (i : Impl) :
  between_calls i ->
  (exists ec i', call_RPC setting sid op payload sec i = Done ((Status_NETWORK_CONNECT_ERROR, None), i') /\
     (asio_connect (peer i)).1 = ec /\ ec_failed ec = true) \/
  (exists i1 c, call_RPC setting sid op payload sec i = call_connected setting sid op payload sec i1 /\
     uses i1 c /\ idle c /\ recv_data c = buffered i /\
     cwire i1 = cwire i /\ crcvd i1 = crcvd i).
Proof.
  intros [Ht Hb]. unfold buffered. rewrite call_RPC_unfold.
  destruct (conn_sync_ i) as [c|] eqn:Hc.
  { right. exists i, c. by split_and!. }
  destruct (asio_connect (peer i)) as [ec p'] eqn:Ea. destruct (ec_failed ec) eqn:Ee.
  - left. eexists ec, _. by split.
  - right. eexists _, (TcpConnSync_new Socket_new). split; [done|]. split; [by split|].
    split; [apply idle_new|]. done.
Qed.

(** C12: an OK result is genuine. Whatever the network does and whatever the client's limits
    are, a synchronous call that returns OK sent exactly its request, and hands out the
    payload of the first message it received: a response with status OK for the service and
    the opcode of the call. One case is left open: a header within the receive limit (there
    is none by default) that announces a body of nearly 4 GiB, which the call goes on to
    read. The request is shorter than 2 GiB, and the client is between two calls: its
    connection, if it has one, is open with nothing left to send and less than 2 GiB read
    ahead, and a call timer that still waits for an asynchronous call finds that call's
    connection. *)
Theorem call_ok_is_genuine sid op payload sec (i i' : Impl) r :
  between_calls i -> 0 <= sec -> len payload < 2 ^ 31 ->
  call_RPC setting sid op payload sec i = Done ((Status_OK, r), i') ->
  (exists m new data, r = Some data /\ carries sid op (payload_ m) data /\
    first_message setting (buffered i ++ new) = Some (m, buffered i') /\
    crcvd i' = crcvd i ++ new /\ cwire i' = cwire i ++ net_str (request_message sid op payload)) \/
  reading_huge sid op payload (buffered i) i (Done ((Status_OK, r), i')).
Proof.
  intros Hb Hsec Hp Hcall.
  destruct (call_RPC_eq sid op payload sec i Hb) as [(ec & i1 & E & _)|(i1 & c & E & Hc & Hid & Hr & Hw & Hv)];
    rewrite E in Hcall; [done|].
  destruct (call_connected_ends sid op payload sec i1 c Hc Hid Hsec Hp) as [st w i2 Hst|m new i2 c2 Hf Hv2 Hw2 Hc2|r' Hbig].
  - injection Hcall as -> _ _. exfalso. apply (bool_decide_pack _) in Hst. vm_compute in Hst. done.
  - left. unfold from_outcome in Hcall. destruct (check_response sid op (payload_ m)) as [[st r']| | |] eqn:Ec; try done.
    injection Hcall as -> -> <-. destruct (check_response_genuine _ _ _ _ Ec) as (data & -> & Hcar).
    exists m, new, data. rewrite <-Hr, <-Hv, <-Hw. unfold buffered. rewrite (us_conn _ _ Hc2). by split_and!.
  - right. subst r'. destruct Hbig as (new & i2 & Hbig). exists new, i2. by rewrite <-Hr, <-Hv, <-Hw.
Qed.


(** A receive limit below the bound leaves no such header. *)
Lemma limit_no_huge b : 0 < limit < body_bound -> ~ huge_header setting b.
Proof. intros Hl (_ & Ha & Hb). pose proof (accept_limit setting limit_fits _ ltac:(lia) Ha). lia. Qed.
End Call.

(** ** Calls that are answered *)

Section Answered.
Context (H1 : Host) (H2 : endianness) `{AssertMode} {P : Type} `{!AsioSync P} `{!AsioSyncLaws P}.
Variable setting : RpcClientSetting.
Abbreviation Impl := (RpcClientImpl P).
Let limit := cl_recv_max_msg_size_ setting.

(** A peer that takes what is written ([takes]) and delivers what it has ([good]). *)
Variable takes good : P -> bytes -> Prop.
Hypothesis takes_write : forall p w b, takes p w ->
  exists p', asio_write b p = (ec_success, len b, false, p') /\ takes p' (w ++ b).
Hypothesis good_read : forall p rem n, good p rem -> 0 < n <= kFixedIoBufferSize -> n <= len rem ->
  exists data rem' p', asio_read n p = (ec_success, data, false, p') /\ rem = data ++ rem' /\ good p' rem'.
Hypothesis limit_set : 0 < limit < 2 ^ 31.

Lemma call_connected_gets sid op payload sec (i : Impl) c v rem m rest :
  uses i c -> idle c -> 0 <= sec -> len payload < 2 ^ 31 ->
  send_over_limit setting (request_message sid op payload) = false ->
  takes (peer i) v ->
  (forall p, takes p (v ++ net_str (request_message sid op payload)) -> good p rem) ->
  first_message setting (recv_data c ++ rem) = Some (m, rest) ->
  exists i' c' rem', call_connected setting sid op payload sec i =
      from_outcome (check_response sid op (payload_ m)) i' /\
    uses i' c' /\ (len (recv_data c') < 2 ^ 31 -> idle c') /\
    rest = recv_data c' ++ rem' /\ good (peer i') rem' /\
    cwire i' = cwire i ++ net_str (request_message sid op payload).
Proof.
  intros Hc [Hst Hb Hd Hr] Hsec Hp Ho Htk Hans Hf. unfold call_connected.
  destruct (timeout_set sec i Hsec) as (i1 & E1 & Hc1 & Hp1 & Hw1 & _). apply Hc1 in Hc. clear Hc1; rename Hc into Hc1.
  unfold mbind at 1, M_bind at 1. rewrite E1. unfold mbind at 1, M_bind at 1, send_rpc_message.
  fold (request_message sid op payload). set (msg := request_message sid op payload) in *.
  rewrite (send_net_message_eq setting _ _ _ Hc1 Hd Ho).
  destruct (do_write_spec takes takes_write (set_conn (Some (queued_conn msg c)) i1)
    (queued_conn msg c)) as (ok & w & i2 & c2 & E2 & Hc2 & Hr2 & _ & Hb2 & _ & Hw2 & _ & Hok2 & Ht2);
    [done|done|by apply request_message_small|done|].
  change (send_data (queued_conn msg c)) with (net_str msg) in *.
  destruct (Ht2 v) as (-> & [Ca _] & Ht); [simpl; by rewrite Hp1|]. rewrite E2. cbn [negb].
  change (conn_stat (queued_conn msg c)) with (conn_stat c) in Ca.
  assert (recv_data c2 = recv_data c) as Erd by (unfold recv_data; by rewrite Hr2).
  unfold recv_rpc_message, recv_net_message. unfold mbind at 1, M_bind at 1.
  destruct (do_read_spec setting good good_read ltac:(unfold fits_u; lia) i2 c2 ltac:(unfold body_bound, kFixedIoBufferSize; lia) Hc2) as
    (ok & m' & new & i3 & c3 & E3 & Hc3 & Hs3 & Hw3 & _ & _ & Hg3); [by rewrite Erd|congruence|].
  rewrite Erd in Hg3. destruct (Hg3 rem m rest (Hans _ Ht) Hf) as (-> & -> & [Cb _] & rem' & Er & Hg).
  rewrite E3. exists i3, c3, rem'. split; [done|]. split; [done|].
  destruct (Hok2 eq_refl) as [-> Hd2]. split; [|split_and!; [done..|]].
  - intros Hl. split; [congruence|by unfold block_ok; rewrite Hs3| |done]. unfold send_data. by rewrite Hs3.
  - rewrite Hw3, Hw2. cbn [cwire set_conn]. by rewrite Hw1.
Qed.

(** The other host's message, as the client reads it. *)
Lemma first_message_interop data :
  len data <= limit ->
  first_message setting (@net_str H2 (Message_of_data data)) = Some (Message_of_data data, []).
Proof.
  intros Hl. unfold first_message. pose proof (zlen_nonneg data).
  rewrite zlen_net_str. simpl payload_. unfold sizeof_Header.
  rewrite (proj2 (Z.ltb_ge _ _)) by lia.
  assert (ztake 16 (@net_str H2 (Message_of_data data)) =
          @net_str H2 (mkMessage (header_ (Message_of_data data)) [])) as ->.
  { unfold net_str. cbn [payload_ header_ Message_of_data]. rewrite app_nil_r.
    apply ztake_app_length. unfold zlen. by rewrite length_header_mem. }
  assert (zdrop 16 (@net_str H2 (Message_of_data data)) = data) as ->.
  { unfold net_str. cbn [payload_ header_ Message_of_data].
    apply zdrop_app_length. unfold zlen. by rewrite length_header_mem. }
  rewrite <-(app_nil_r (net_str _)), parse_net_str by exact (Message_of_data_wf data).
  cbn [header_ Message_of_data magic version length_ rev1 rev2]. rewrite load_store_zero.
  rewrite (uwrap_small 32 (len data)) by (unfold fits_u; lia).
  unfold accept_header; cbn [magic version length_]. rewrite !Z.eqb_refl.
  rewrite (uwrap_small 32 (cl_recv_max_msg_size_ _)) by (unfold fits_u; fold limit; lia).
  fold limit. rewrite (proj2 (Z.leb_le (len data) limit)), orb_true_r by done. simpl.
  rewrite (proj2 (Z.leb_le _ _)), ztake_all, zdrop_all by lia. do 3 f_equal.
  unfold Message_of_data. by rewrite (uwrap_small 32 (len data)) by (unfold fits_u; lia).
Qed.

(** A first call whose request is answered with the transport message of [p]. *)
Lemma call_RPC_gets sid op payload sec peer0 p :
  0 <= sec -> len payload < 2 ^ 31 -> len p <= limit ->
  send_over_limit setting (request_message sid op payload) = false ->
  (exists p0, asio_connect peer0 = (ec_success, p0) /\ takes p0 []) ->
  (forall q, takes q (net_str (request_message sid op payload)) ->
     good q (@net_str H2 (Message_of_data p))) ->
  exists i', call_RPC setting sid op payload sec (RpcClientImpl_new peer0) =
    from_outcome (check_response sid op p) i'.
Proof.
  intros Hsec Hp Hl Ho (p0 & Ea & Ht) Hans. rewrite call_RPC_unfold. cbn [conn_sync_ RpcClientImpl_new].
  cbn [peer RpcClientImpl_new]. rewrite Ea. cbn [ec_failed].
  edestruct (call_connected_gets sid op payload sec
    (set_conn (Some (TcpConnSync_new Socket_new)) (set_peer p0 (RpcClientImpl_new peer0)))
    (TcpConnSync_new Socket_new) []
    (@net_str H2 (Message_of_data p)) (Message_of_data p) []) as (i' & _ & _ & E & _); try done.
  - by apply first_message_interop.
  - by exists i'.
Qed.

(** The response of a server of either byte order passes the checks. *)
Lemma check_response_reply sid op data :
  fits_u 16 sid -> fits_u 16 op ->
  check_response sid op (@RpcResponseMessage_net_str H2 (RpcResponseMessage_new sid op data)) =
    Done (Status_OK, Some data).
Proof.
  intros Hs Hop. pose proof (zlen_nonneg data).
  rewrite check_response_ok by (rewrite zlen_RpcResponseMessage_net_str; simpl; lia).
  destruct (decode_RpcResponse H2 H1 (response_code Resp_OK) sid op data) as [Eh Ed]; [done..|].
  unfold classify, RpcResponseMessage_new. rewrite Eh, Ed. cbn [rs_magic rs_service_id rs_opcode rs_status].
  by rewrite !Z.eqb_refl.
Qed.

(** A call that is answered succeeds. When the peer takes the request and delivers, in
    whatever blocks, the response a server of either byte order builds for the service
    and opcode of the call, the call returns OK with exactly the response's payload. *)
Lemma call_answered sid op payload sec peer0 data :
  fits_u 16 sid -> fits_u 16 op ->
  0 <= sec -> len payload < 2 ^ 31 -> sizeof_RpcResponseHeader + len data <= limit ->
  send_over_limit setting (request_message sid op payload) = false ->
  (exists p0, asio_connect peer0 = (ec_success, p0) /\ takes p0 []) ->
  (forall q, takes q (net_str (request_message sid op payload)) ->
     good q (@net_str H2 (Message_of_data
       (@RpcResponseMessage_net_str H2 (RpcResponseMessage_new sid op data))))) ->
  exists i', call_RPC setting sid op payload sec (RpcClientImpl_new peer0) =
    Done ((Status_OK, Some data), i').
Proof.
  intros Hs Hop Hsec Hp Hl Ho Hconn Hans.
  destruct (call_RPC_gets sid op payload sec peer0
    (@RpcResponseMessage_net_str H2 (RpcResponseMessage_new sid op data))) as (i' & ->);
    try done; [by rewrite zlen_RpcResponseMessage_net_str|].
  exists i'. unfold from_outcome. by rewrite check_response_reply.
Qed.

(** A rejected call loses its reason. A server rejects with a header whose service id
    and opcode are zero, so the client's check of the ids fails first: the caller sees
    RECV_FORMAT_ERROR, never INVALID_REQUEST or INVALID_SERVICE. *)
Lemma rejected_call_loses_status sid op payload sec peer0 status :
  (sid <> 0 \/ op <> 0) -> 0 <= sec -> len payload < 2 ^ 31 -> sizeof_RpcResponseHeader <= limit ->
  send_over_limit setting (request_message sid op payload) = false ->
  (exists p0, asio_connect peer0 = (ec_success, p0) /\ takes p0 []) ->
  (forall q, takes q (net_str (request_message sid op payload)) ->
     good q (@net_str H2 (Message_of_data
       (@RpcResponseMessage_net_str H2 (RpcResponseMessage_of_status status))))) ->
  exists i', call_RPC setting sid op payload sec (RpcClientImpl_new peer0) =
    Done ((Status_RECV_FORMAT_ERROR, None), i').
Proof.
  intros Hids Hsec Hp Hl Ho Hconn Hans.
  assert (len (@RpcResponseMessage_net_str H2 (RpcResponseMessage_of_status status)) =
          sizeof_RpcResponseHeader) as El by (rewrite zlen_RpcResponseMessage_net_str; done).
  destruct (call_RPC_gets sid op payload sec peer0
    (@RpcResponseMessage_net_str H2 (RpcResponseMessage_of_status status)) Hsec Hp ltac:(lia) Ho Hconn Hans) as (i' & ->).
  exists i'. unfold from_outcome. rewrite check_response_ok by lia.
  destruct (decode_RpcResponse H2 H1 (response_code status) 0 0 []) as [Eh Ed];
    [apply response_code_fits|done..|].
  unfold classify, RpcResponseMessage_of_status. rewrite Eh. cbn [rs_magic rs_service_id rs_opcode].
  rewrite Z.eqb_refl. destruct (0 =? sid) eqn:E1; [|done]. destruct (0 =? op) eqn:E2; [|done].
  bool_prop. lia.
Qed.
End Answered.
