(* ===== verification/Link.v ===== *)
(** * The running server as the peer of a client

    What a synchronous client's blocking operations do when the other end of its socket is
    a connection of the running server ([World]). Bytes the client writes are in flight
    until the server's outstanding read takes them; while the client waits for bytes, the
    server's environment does what a list of events says: other clients connect, send and
    leave, threads take requests and answer them, timers run, settings change. Between
    them the client's own call timer may expire, or its socket operation may fail. An event
    that cannot happen when its turn comes is passed over, so every list is a possible
    course of events. *)

From Stdlib Require Import ZArith Lia Init.Byte.
From stdpp Require Import base list strings gmap.
From S2P Require Import Prelude Endian Message Buffer RpcMessage NetConn External NetConf ClientSync.
From S2P Require Import RpcInstance Service Executor Dispatcher Answering Decode ServerConn ServerSend.
From S2P Require Import ServerRead ServerSystem ServerInv Pending NetServer NetServerProps World WorldInv.

Section Link.
Context `{Host} `{AssertMode} `{SteadyTimer} `{LibConfig} `{BoostString}
  {S : Type} `{!Service S} `{!EQueue RpcInstance}.

(** The server, the number of the client's connection if it was let in, and the bytes on
    their way to the server. *)
Record Conv := mkConv {
  cv_world : World S;
  cv_id : option nat;
  cv_inflight : bytes
}.

(** What may happen while the client waits: something at the server; the client's call timer
    expires, and its handler closes the socket under the operation that waits, which ends
    with [ec]; the operation fails with [ec]. *)
Inductive levent :=
| LServer (e : wevent)
| LExpire (ec : error_code)
| LFail (ec : error_code).

(** With the number of bytes the client read, the events to come, and whether the client
    waits for its call timer. *)
Record Link := mkLink {
  l_conv : Conv;
  l_taken : nat;
  l_events : list levent;
  l_armed : bool
}.

Definition cv_net (s : Conv) : option (bytes * bytes) := id ← cv_id s; w_net (cv_world s) !! id.
(** What the server sent the client, and what it received from it. *)
Definition cv_wire (s : Conv) : bytes := default [] (fst <$> cv_net s).
Definition cv_rcvd (s : Conv) : bytes := default [] (snd <$> cv_net s).

(** The bytes an event takes from those in flight. *)
Definition own_bytes (s : Conv) (e : wevent) : bytes :=
  match cv_id s with Some id => gained id e | None => [] end.

Definition possible (e : wevent) (s : Conv) : bool :=
  wenabled e (cv_world s) &&
  bool_decide (ztake (len (own_bytes s e)) (cv_inflight s) = own_bytes s e).

(** [None]: the server's process is gone. *)
Definition attempt (e : wevent) (s : Conv) : option Conv :=
  if possible e s then
    match wstep e (cv_world s) with
    | Done w => Some (mkConv w (cv_id s) (zdrop (len (own_bytes s e)) (cv_inflight s)))
    | _ => None
    end
  else Some s.

(** How waiting ends: enough bytes are there, or the operation is cut short, by the call
    timer ([fired]) or by itself. *)
Inductive waited :=
| Enough (s : Conv) (es : list levent)
| Cut (ec : error_code) (fired : bool) (s : Conv) (es : list levent).

(** The code of an operation that did not succeed. *)
Definition failure (ec : error_code) : error_code :=
  match ec with ec_success => ec_bad_descriptor | _ => ec end.

(** Let events happen until [n] bytes are there, after the first [t]. A server whose process
    is gone resets the connection; at the end of a course the peer closes. *)
Fixpoint await (armed : bool) (t : nat) (n : Z) (es : list levent) (s : Conv) : waited :=
  if n <=? len (drop t (cv_wire s)) then Enough s es
  else
    match es with
    | [] => Cut ec_eof false s []
    | LServer e :: es =>
        match attempt e s with
        | Some s => await armed t n es s
        | None => Cut ec_connection_reset false s es
        end
    | LExpire ec :: es => if armed then Cut (failure ec) true s es else await armed t n es s
    | LFail ec :: es => Cut (failure ec) false s es
    end.

(** What cuts a write short: nothing happens at the server while a block is handed to the
    socket, but the timer may have expired or the operation may fail. *)
Fixpoint cut_next (armed : bool) (es : list levent) : option (error_code * bool * list levent) :=
  match es with
  | LExpire ec :: es => if armed then Some (failure ec, true, es) else cut_next armed es
  | LFail ec :: es => Some (failure ec, false, es)
  | _ => None
  end.

(** Let all of them happen. *)
Fixpoint run_all (es : list wevent) (s : Conv) : option Conv :=
  match es with
  | [] => Some s
  | e :: es => s ← attempt e s; run_all es s
  end.

Definition put_inflight (b : bytes) (s : Conv) : Conv :=
  mkConv (cv_world s) (cv_id s) (cv_inflight s ++ b).

(** Connecting from address [ip]: the outstanding accept completes. A server that does not
    let the client in closes the socket. *)
Definition link_connect (ip : string) (l : Link) : error_code * Link :=
  let w := cv_world (l_conv l) in
  let e := WAccept ec_success (Some ip) Socket_new in
  if wenabled e w then
    match wstep e w with
    | Done w' =>
        let k := next_conn (w_server w) in
        let id := if bool_decide (is_Some (ns_conns (w_server w') !! k)) then Some k else None in
        (ec_success, mkLink (mkConv w' id []) 0 (l_events l) (l_armed l))
    | _ => (ec_connection_reset, l)
    end
  else (ec_timed_out, l).

(** A read takes what is there, when that is enough, up to the size of the block; the timer
    runs while it waits. *)
Definition link_read (n : Z) (l : Link) : (error_code * bytes * bool) * Link :=
  if n <=? kFixedIoBufferSize then
    match await (l_armed l) (l_taken l) n (l_events l) (l_conv l) with
    | Enough s es =>
        let data := ztake kFixedIoBufferSize (drop (l_taken l) (cv_wire s)) in
        (ec_success, data, false, mkLink s (l_taken l + length data) es (l_armed l))
    | Cut ec fired s es => (ec, [], fired, mkLink s (l_taken l) es (l_armed l && negb fired))
    end
  else (ec_eof, [], false, l).

Definition link_write (b : bytes) (l : Link) : (error_code * Z * bool) * Link :=
  match cut_next (l_armed l) (l_events l) with
  | Some (ec, fired, es) => (ec, 0, fired, mkLink (l_conv l) (l_taken l) es (l_armed l && negb fired))
  | None => (ec_success, len b, false, mkLink (put_inflight b (l_conv l)) (l_taken l) (l_events l) (l_armed l))
  end.

Definition link_asio (ip : string) : AsioSync Link := {|
  asio_connect := link_connect ip;
  asio_read := link_read;
  asio_write := link_write
|}.

Lemma failure_fails ec : failure ec <> ec_success.
Proof. by destruct ec. Qed.

(** What waiting ends with. *)
Lemma await_end armed t n es s :
  match await armed t n es s with
  | Enough s' _ => n <= len (drop t (cv_wire s'))
  | Cut ec _ _ _ => ec <> ec_success
  end.
Proof.
  revert s. induction es as [|e es IH]; intros s; cbn [await];
    (destruct (_ <=? _) eqn:E; bool_prop; [done|]); [done|].
  destruct e as [e|ec|ec]; [destruct (attempt e s); [apply IH|done]|destruct armed; [apply failure_fails|apply IH]|apply failure_fails].
Qed.

Lemma cut_next_fails armed es ec fired es' : cut_next armed es = Some (ec, fired, es') -> ec <> ec_success.
Proof.
  induction es as [|[e|ec1|ec1] es IH]; cbn; [done|done| |intros [= <- _ _]; apply failure_fails].
  destruct armed; [intros [= <- _ _]; apply failure_fails|apply IH].
Qed.

Lemma link_laws ip : @AsioSyncLaws Link (link_asio ip).
Proof.
  split; simpl.
  - intros n l data fired l'. unfold link_read. destruct (n <=? _) eqn:En; [|done].
    pose proof (await_end (l_armed l) (l_taken l) n (l_events l) (l_conv l)) as Ha.
    destruct (await _ _ _ _ _) as [s es|ec f s es]; [|intros E; congruence]. intros [= <- _ _].
    bool_prop. rewrite zlen_ztake_min by (unfold kFixedIoBufferSize; lia). lia.
  - intros b l k fired l'. unfold link_write. destruct (cut_next _ _) as [[[ec f] es]|] eqn:Ec.
    + apply cut_next_fails in Ec. intros E. congruence.
    + by intros [= <- _ _].
Qed.
End Link.
Arguments Conv {_} S {_}.
Arguments Link {_ _} S {_}.

(** ** How a conversation goes on *)

Section Evolution.
Context `{Host} `{AssertMode} `{SteadyTimer} `{!SteadyTimerLaws} `{LibConfig} `{BoostString}
  {S : Type} `{!Service S} `{!Answering S} `{!EQueue RpcInstance} `{!EQueueLaws RpcInstance}.
Variables (known : gset Z) (id : nat).
Implicit Types (s F : Conv S) (l : Link S).

(** The client has the connection [id], which may have ended since. *)
Record linked s : Prop := {
  lk_inv : world_inv known (cv_world s);
  lk_id : cv_id s = Some id;
  lk_old : (id < next_conn (w_server (cv_world s)))%nat;
  lk_net : is_Some (w_net (cv_world s) !! id)
}.

(** What happens adds to the connection's log and to what the client was sent, loses no byte
    on its way to the server, and does not bring a connection back to life. *)
Record evolves s s' : Prop := {
  ev_limits : same_limits (w_conf (cv_world s)) (w_conf (cv_world s'));
  ev_log c' : ns_conns (w_server (cv_world s')) !! id = Some c' ->
    exists c, ns_conns (w_server (cv_world s)) !! id = Some c /\ sent_log c `prefix_of` sent_log c' /\
      (live c' -> live c);
  ev_wire : cv_wire s `prefix_of` cv_wire s';
  ev_rcvd : cv_rcvd s' ++ cv_inflight s' = cv_rcvd s ++ cv_inflight s
}.

#[export] Instance evolves_po : PreOrder evolves.
Proof.
  split.
  - intros s. split; [done| |done..]. intros c' Hc. by exists c'.
  - intros s1 s2 s3 [A1 A2 A3 A4] [B1 B2 B3 B4]. split; [by etransitivity| |by etransitivity|congruence].
    intros c3 Hc3. destruct (B2 c3 Hc3) as (c2 & Hc2 & ? & ?). destruct (A2 c2 Hc2) as (c1 & Hc1 & ? & ?).
    exists c1. split; [done|]. split; [by etransitivity|auto].
Qed.

Lemma cv_net_linked s : linked s -> cv_net s = w_net (cv_world s) !! id.
Proof. intros [_ E _ _]. unfold cv_net. by rewrite E. Qed.

(** An event that happens does not trap the server. *)
Lemma attempt_ok e s : linked s -> exists s', attempt e s = Some s' /\ linked s' /\ evolves s s'.
Proof.
  intros Hl. pose proof Hl as [I Ei Ho [net Hn]]. unfold attempt.
  destruct (possible e s) eqn:Hp; [|by exists s].
  unfold possible in Hp. apply andb_prop in Hp as [He Hb%bool_decide_eq_true_1].
  destruct (wstep_ok known (cv_world s) e I He) as (w' & -> & [I' [L1 L2 L3 L4]]).
  destruct (L4 id net Ho Hn) as (wire & Hn' & Hw).
  eexists. split; [done|]. split.
  - split; [done|done| |]; cbn [cv_world]; [lia|by eexists].
  - unfold own_bytes in *. rewrite Ei in *. split; cbn [cv_world cv_inflight]; [done|by intros; apply L3|..].
    + unfold cv_wire. rewrite (cv_net_linked s Hl). unfold cv_net. cbn. by rewrite Hn, Hn'.
    + unfold cv_rcvd. rewrite (cv_net_linked s Hl). unfold cv_net. cbn. rewrite Hn, Hn'. cbn.
      rewrite <-app_assoc. f_equal. rewrite <-Hb at 1. apply ztake_zdrop.
Qed.

Lemma run_all_ok es s : linked s -> exists F, run_all es s = Some F /\ linked F /\ evolves s F.
Proof.
  revert s. induction es as [|e es IH]; intros s Hs; [by exists s|].
  destruct (attempt_ok e s Hs) as (s1 & E1 & Hs1 & Hev). destruct (IH s1 Hs1) as (F & EF & HF & HevF).
  exists F. cbn [run_all]. rewrite E1. split; [exact EF|]. split; [done|]. by etransitivity.
Qed.

(** Waiting for bytes that will be there ends when only the server acts, and the rest of the
    course is unchanged. *)
Lemma await_ok armed t n es s F :
  linked s -> run_all es s = Some F -> n <= len (drop t (cv_wire F)) ->
  exists s' es', await armed t n (LServer <$> es) s = Enough s' (LServer <$> es') /\ linked s' /\ evolves s s' /\
    run_all es' s' = Some F.
Proof.
  revert s. induction es as [|e es IH]; intros s Hs HF Hn; cbn [await fmap list_fmap].
  - injection HF as ->. rewrite (proj2 (Z.leb_le _ _)) by done. by exists F, [].
  - destruct (n <=? _); [by exists s, (e :: es)|].
    destruct (attempt_ok e s Hs) as (s1 & E1 & Hs1 & Hev). cbn [run_all] in HF. rewrite E1 in *.
    destruct (IH s1 Hs1 HF Hn) as (s' & es' & E & Hs' & Hev' & HF').
    exists s', es'. split; [exact E|]. split; [done|]. split; [by etransitivity|done].
Qed.

(** ** A client that reads what the server sends *)

(** From [s0] the course leads to [F]; of what the server will have sent then the client
    still has [rem] to read. *)
Record reading s0 F l rem : Prop := {
  rg_linked : linked (l_conv l);
  rg_evolves : evolves s0 (l_conv l);
  rg_run : exists es, l_events l = LServer <$> es /\ run_all es (l_conv l) = Some F;
  rg_taken : (l_taken l <= length (cv_wire (l_conv l)))%nat;
  rg_rem : drop (l_taken l) (cv_wire F) = rem
}.

Lemma reading_read ip s0 F l rem n :
  reading s0 F l rem -> 0 < n <= kFixedIoBufferSize -> n <= len rem ->
  exists data rem' l', asio_read (AsioSync:=link_asio ip) n l = (ec_success, data, false, l') /\
    rem = data ++ rem' /\ reading s0 F l' rem'.
Proof.
  intros [R1 R2 (es & Ees & R3) R4 R5] Hn Hl. simpl. unfold link_read. rewrite (proj2 (Z.leb_le _ _)), Ees by lia.
  destruct (await_ok (l_armed l) (l_taken l) n es (l_conv l) F) as (s' & es' & Ea & Hs' & Hev & HF); [done|done|by rewrite R5|].
  rewrite Ea. set (data := ztake _ _). eexists data, (drop (length data) rem), _. split; [done|].
  destruct (run_all_ok es' s' Hs') as (F' & EF & _ & [_ _ [more Hw] _]). rewrite HF in EF. injection EF as <-.
  destruct (ev_wire _ _ Hev) as [add Hadd].
  assert (rem = drop (l_taken l) (cv_wire s') ++ more) as Erem.
  { rewrite <-R5, Hw. apply drop_app_le. rewrite Hadd, length_app. lia. }
  assert (exists rest, drop (l_taken l) (cv_wire s') = data ++ rest) as [rest Er]
    by (eexists; symmetry; apply ztake_zdrop).
  split.
  - rewrite Erem, Er, <-app_assoc, drop_app_length. done.
  - split; cbn [l_conv l_taken l_events]; [done|by etransitivity|by exists es'| |].
    + pose proof (f_equal length Er) as El. rewrite length_drop, length_app in El.
      pose proof (f_equal length Hadd) as El2. rewrite length_app in El2. lia.
    + rewrite <-R5, drop_drop. done.
Qed.

(** A client that writes: nothing else happens meanwhile. *)
Definition writing s0 t es armed l (v : bytes) : Prop :=
  l = mkLink (put_inflight v s0) t (LServer <$> es) armed.

Lemma writing_write ip s0 t es armed l v b :
  writing s0 t es armed l v ->
  exists l', asio_write (AsioSync:=link_asio ip) b l = (ec_success, len b, false, l') /\
    writing s0 t es armed l' (v ++ b).
Proof.
  intros ->. eexists. split; [by destruct es|]. unfold writing, put_inflight. cbn. by rewrite app_assoc.
Qed.
End Evolution.
