(* ===== verification/Session.v ===== *)
(** * Calls to the running server

    A synchronous client and a connection of the running server, end to end: every call
    of a session that is not cut short by its time-out or a socket's failure gets the answer
    the service gives to its own request, whatever else the server does meanwhile. *)

From Stdlib Require Import ZArith Lia Init.Byte.
From stdpp Require Import base list strings gmap.
From S2P Require Import Prelude Endian Message Buffer RpcMessage NetConn External NetConf.
From S2P Require Import RpcInstance Service Executor Dispatcher Answering Decode RpcProps.
From S2P Require Import ClientConf ClientSync ClientRead ClientCall ServerConn ServerSend.
From S2P Require Import ServerRead ServerSystem ServerInv Pending NetServer NetServerProps World WorldInv WorldProps.
From S2P Require Import Link.

Section Session.
Context (client : Host) `{Host} `{AssertMode} `{SteadyTimer} `{!SteadyTimerLaws} `{LibConfig} `{BoostString}
  {S : Type} `{!Service S} `{!Answering S} `{!EQueue RpcInstance} `{!EQueueLaws RpcInstance}.
Variables (setting : RpcClientSetting) (ip : string) (known : gset Z) (id : nat).
Implicit Types (s F : Conv S) (l : Link S).
Abbreviation Impl := (RpcClientImpl (Link S)).

(** A call, and what happens while it is under way. *)
Record Call := mkCall {
  ca_service : Z;
  ca_opcode : Z;
  ca_payload : bytes;
  ca_timeout : Z;
  ca_course : list levent
}.

(** The call's request as the server gets it, and the server's answer. *)
Definition request (a : Call) : bytes :=
  client_request (H:=client) (ca_service a) (ca_opcode a) (ca_payload a).
Definition answer_to (p : bytes) : Message := reaction known id (Message_of_data p).

(** The call timer runs while the call is under way: the call sets it, or an earlier call's
    has not expired. *)
Definition armed (a : Call) (i : Impl) : bool :=
  (0 <? ca_timeout a) || match rpc_call_timer_ i with TimerWaits _ => true | _ => false end.

Definition with_course (a : Call) (i : Impl) : Impl :=
  set_peer (mkLink (l_conv (peer i)) (l_taken (peer i)) (ca_course a) (armed a i)) i.

(** The client's call through the link. *)
Definition make_call (a : Call) (i : Impl) : outcome ((RpcClientStatus * option bytes) * Impl) :=
  call_RPC (H:=client) (AsioSync0:=link_asio ip) setting
    (ca_service a) (ca_opcode a) (ca_payload a) (ca_timeout a) (with_course a i).

(** Calls made one after the other. *)
Fixpoint make_calls (l : list Call) (i : Impl) : outcome (list (RpcClientStatus * option bytes) * Impl) :=
  match l with
  | [] => Done ([], i)
  | a :: l =>
      match make_call a i with
      | Done (r, i') =>
          match make_calls l i' with
          | Done (rs, i'') => Done (r :: rs, i'')
          | AssertFailed => AssertFailed
          | Undefined => Undefined
          | OutOfFuel => OutOfFuel
          end
      | AssertFailed => AssertFailed
      | Undefined => Undefined
      | OutOfFuel => OutOfFuel
      end
  end.

(** ** What is within the limits *)

Definition conf_of s : NetConf := w_conf (cv_world s).

(** A request the server accepts and answers. *)
Definition fits_server (conf : NetConf) (p : bytes) : Prop :=
  len p < 2 ^ 32 /\ accept_header (recv_max_msg_size_ conf) (header_ (Message_of_data p)) = true /\
  over_limit conf (answer_to p) = false.

Definition fits_client (a : Call) : Prop :=
  0 <= ca_timeout a /\ len (ca_payload a) < 2 ^ 31 /\
  send_over_limit setting (Message_of_data (request a)) = false /\
  sizeof_RpcResponseHeader <= len (payload_ (answer_to (request a))) <= cl_recv_max_msg_size_ setting.

Lemma fits_server_same conf conf' p : same_limits conf conf' -> fits_server conf p -> fits_server conf' p.
Proof.
  intros L (A & B & C). unfold fits_server. by rewrite (sl_recv _ _ L), (over_limit_same _ _ L).
Qed.

(** Requests within the limits are transport messages the connection takes. *)
Lemma fitting_stream conf ps :
  Forall (fits_server conf) ps ->
  Forall (fun m => header_wf (header_ m) /\ accept_header (recv_max_msg_size_ conf) (header_ m) = true /\
                   length_ (header_ m) = len (payload_ m)) (Message_of_data <$> ps).
Proof.
  intros Hfit. apply Forall_fmap. eapply Forall_impl; [exact Hfit|]. intros p (Hs & Ha & _). cbn.
  split; [apply Message_of_data_wf|]. split; [done|]. by apply Message_of_data_length.
Qed.

(** ** The state between two calls *)

(** [ps]: the requests so far. *)
Record in_session (ps : list bytes) (i : Impl) : Prop := {
  ss_conn : exists c, uses i c /\ idle c /\ ClientSync.recv_data c = [];
  ss_linked : linked known id (l_conv (peer i));
  ss_sent : let s := l_conv (peer i) in
    cv_rcvd s ++ cv_inflight s = stream (H:=client) (Message_of_data <$> ps);
  ss_fit : Forall (fits_server (conf_of (l_conv (peer i)))) ps;
  ss_log c : ns_conns (w_server (cv_world (l_conv (peer i)))) !! id = Some c ->
    sent_log c ≡ₚ answer_to <$> ps /\ cv_wire (l_conv (peer i)) = stream (sent_log c);
  ss_taken : l_taken (peer i) = length (cv_wire (l_conv (peer i)));
  ss_open : exists c, ns_conns (w_server (cv_world (l_conv (peer i)))) !! id = Some c /\ live c
}.

(** The server is done with the client: it received everything, owes nothing and has
    written everything. *)
Record settled F : Prop := {
  sd_inflight : cv_inflight F = [];
  sd_conn : exists c, ns_conns (w_server (cv_world F)) !! id = Some c /\ live c /\
    send_status_ c = Send_kDone /\ send_data c = [];
  sd_pending : of_conn id (pending (cv_world F)) = []
}.

Definition settled_b F : bool :=
  bool_decide (cv_inflight F = []) &&
  match ns_conns (w_server (cv_world F)) !! id with
  | Some c => live_b c && bool_decide (send_status_ c = Send_kDone) && bool_decide (send_data c = [])
  | None => false
  end &&
  bool_decide (of_conn id (pending (cv_world F)) = []).

Lemma settled_b_true F : settled_b F = true -> settled F.
Proof.
  unfold settled_b, live_b. intros [[E1%bool_decide_eq_true_1 E2]%andb_prop E3%bool_decide_eq_true_1]%andb_prop.
  destruct (ns_conns _ !! id) as [c|] eqn:Hc; [|done].
  apply andb_prop in E2 as [[[El1%bool_decide_eq_true_1 El2%negb_true_iff]%andb_prop E4%bool_decide_eq_true_1]%andb_prop
    E5%bool_decide_eq_true_1].
  split; [done| |done]. exists c. split; [done|]. by split.
Qed.

(** The course [es] settles the server. *)
Definition settles (es : list wevent) s : bool :=
  match run_all es s with Some F => settled_b F | None => false end.

(** The answers given once all requests are handled. *)
Lemma handled_log ps F c :
  linked known id F -> ns_conns (w_server (cv_world F)) !! id = Some c -> live c ->
  of_conn id (pending (cv_world F)) = [] -> cv_rcvd F = stream (H:=client) (Message_of_data <$> ps) ->
  Forall (fits_server (conf_of F)) ps ->
  sent_log c ≡ₚ answer_to <$> ps.
Proof.
  intros HF Hc Hl Hp Hr Hfit.
  destruct (handled_answered known (cv_world F) id c (lk_inv _ _ _ HF) Hc Hl Hp) as (wire & rcvd & Hn & _ & Hlog).
  unfold cv_rcvd in Hr. rewrite (cv_net_linked _ _ _ HF), Hn in Hr. cbn in Hr. subst rcvd.
  rewrite Hlog. unfold requests. rewrite (stream_host client H), decode_stream_all.
  - cbn [fst]. rewrite <-list_fmap_compose. rewrite admissible_all; [done|].
    apply Forall_fmap. eapply Forall_impl; [exact Hfit|]. by intros p (_ & _ & ?).
  - by apply fitting_stream.
Qed.

(** ** One call *)

Lemma wire_put b s : cv_wire (put_inflight b s) = cv_wire s.
Proof. done. Qed.

(** Once all is handled, exactly the answer to [p] was added to the log. *)
Lemma answer_logged ps p s F cF :
  (forall c, ns_conns (w_server (cv_world s)) !! id = Some c ->
     sent_log c ≡ₚ answer_to <$> ps /\ cv_wire s = stream (sent_log c)) ->
  linked known id F -> evolves id s F ->
  ns_conns (w_server (cv_world F)) !! id = Some cF -> live cF -> of_conn id (pending (cv_world F)) = [] ->
  cv_rcvd F = stream (H:=client) (Message_of_data <$> ps ++ [p]) ->
  Forall (fits_server (conf_of s)) (ps ++ [p]) ->
  exists c, ns_conns (w_server (cv_world s)) !! id = Some c /\
    sent_log cF = sent_log c ++ [answer_to p] /\ cv_wire s = stream (sent_log c).
Proof.
  intros Hlog HF Hev HcF Hlive Hp Hr Hfit.
  pose proof (handled_log (ps ++ [p]) F cF HF HcF Hlive Hp Hr) as HlF.
  destruct (ev_log _ _ _ Hev cF HcF) as (c & Hc & [x Hx] & _). destruct (Hlog c Hc) as [Hl Hw].
  exists c. split; [done|]. split; [|done]. rewrite Hx. f_equal.
  apply Permutation_singleton_r. rewrite Hx, fmap_app, Hl in HlF.
  apply (Permutation_app_inv_l (answer_to <$> ps)), HlF.
  eapply Forall_impl; [exact Hfit|]. intros q. apply fits_server_same, (ev_limits _ _ _ Hev).
Qed.

(** Once the server is settled, the client was sent exactly that answer. *)
Lemma answer_on_wire ps p s F :
  (forall c, ns_conns (w_server (cv_world s)) !! id = Some c ->
     sent_log c ≡ₚ answer_to <$> ps /\ cv_wire s = stream (sent_log c)) ->
  linked known id F -> evolves id s F -> settled F ->
  cv_rcvd F = stream (H:=client) (Message_of_data <$> ps ++ [p]) ->
  Forall (fits_server (conf_of s)) (ps ++ [p]) ->
  exists c cF, ns_conns (w_server (cv_world s)) !! id = Some c /\
    ns_conns (w_server (cv_world F)) !! id = Some cF /\
    sent_log cF = sent_log c ++ [answer_to p] /\
    cv_wire F = cv_wire s ++ net_str (answer_to p).
Proof.
  intros Hlog HF Hev [_ (cF & HcF & Hlive & Hst & Hsd) Hp] Hr Hfit.
  destruct (answer_logged ps p s F cF) as (c & Hc & Hx & Hw); [done..|].
  destruct (quiet_answered known (cv_world F) id cF (lk_inv _ _ _ HF) HcF Hlive Hp Hst Hsd) as (rcvd & Hn & _).
  exists c, cF. split; [done|]. split; [done|]. split; [done|].
  unfold cv_wire at 1. rewrite (cv_net_linked _ _ _ HF), Hn. cbn. by rewrite Hx, stream_app, stream_singleton, Hw.
Qed.

(** ... and an earlier moment of that course at which all of it was sent. *)
Lemma settled_before ps p s s' F es c cF :
  linked known id s' -> evolves id s s' -> run_all es s' = Some F ->
  ns_conns (w_server (cv_world s)) !! id = Some c -> ns_conns (w_server (cv_world F)) !! id = Some cF ->
  sent_log c ≡ₚ answer_to <$> ps -> cv_wire s = stream (sent_log c) ->
  sent_log cF = sent_log c ++ [answer_to p] ->
  cv_wire s' = cv_wire s ++ net_str (answer_to p) ->
  forall c', ns_conns (w_server (cv_world s')) !! id = Some c' ->
    sent_log c' ≡ₚ answer_to <$> ps ++ [p] /\ cv_wire s' = stream (sent_log c').
Proof.
  intros Hs' Hev Hrun Hc HcF Hl Hw HlF Hw' c' Hc'.
  destruct (run_all_ok known id es s' Hs') as (F' & EF & HF & HevF). rewrite Hrun in EF. injection EF as <-.
  destruct (ev_log _ _ _ HevF cF HcF) as (c1 & Hc1 & [x Hx] & _). rewrite Hc' in Hc1. injection Hc1 as <-.
  destruct (ev_log _ _ _ Hev c' Hc') as (c2 & Hc2 & [y Hy] & _). rewrite Hc in Hc2. injection Hc2 as <-.
  assert (y ++ x = [answer_to p]) as Eyx.
  { apply (app_inv_head (sent_log c)). by rewrite app_assoc, <-Hy, <-Hx. }
  destruct (account_of_inv known (cv_world s') id c' (lk_inv _ _ _ Hs') Hc') as
    (wire & rcvd & ms & Hn & _ & _ & _ & Hpre).
  assert (cv_wire s' = wire) as Ewire by (unfold cv_wire; by rewrite (cv_net_linked _ _ _ Hs'), Hn).
  destruct y as [|a y].
  - exfalso. rewrite app_nil_r in Hy. rewrite Hy, <-Ewire, Hw', Hw in Hpre. apply prefix_length in Hpre.
    rewrite length_app in Hpre. pose proof (zlen_net_str (answer_to p)). unfold zlen, sizeof_Header in *. lia.
  - injection Eyx as -> Eyx. apply app_eq_nil in Eyx as [-> ->].
    rewrite Hy. split; [by rewrite fmap_app, Hl|]. by rewrite stream_app, stream_singleton, <-Hw.
Qed.

(** What a call asks of the situation it is made in: it is within the limits, its time-out
    does not expire and no operation of its socket fails while it waits, and at the end of
    its course the server is settled. *)
Record call_fits (a : Call) s : Prop := {
  cf_server : fits_server (conf_of s) (request a);
  cf_client : fits_client a;
  cf_settles : exists es, ca_course a = LServer <$> es /\
    settles es (put_inflight (net_str (H:=client) (Message_of_data (request a))) s) = true
}.

(** What the caller is to get. *)
Definition result_of (a : Call) : RpcClientStatus * option bytes :=
  classify (H:=client) (ca_service a) (ca_opcode a) (payload_ (answer_to (request a))).

(** A client that has read all of the settled server's answer is between calls again. *)
Lemma read_up ps p s0 F (i' : Impl) c' :
  (forall c, ns_conns (w_server (cv_world s0)) !! id = Some c ->
     sent_log c ≡ₚ answer_to <$> ps /\ cv_wire s0 = stream (sent_log c)) ->
  linked known id F -> evolves id s0 F -> settled F ->
  cv_rcvd s0 ++ cv_inflight s0 = stream (H:=client) (Message_of_data <$> ps ++ [p]) ->
  Forall (fits_server (conf_of s0)) (ps ++ [p]) ->
  reading known id s0 F (peer i') [] ->
  uses i' c' -> idle c' -> ClientSync.recv_data c' = [] ->
  in_session (ps ++ [p]) i' /\ same_limits (conf_of s0) (conf_of (l_conv (peer i'))).
Proof.
  intros Hlog HlF HevF Hset Hall Hfit [G1 G2 G3 G4 G5] Hc' Hid' Hrd'.
  pose proof (ev_rcvd _ _ _ HevF) as Hrc. rewrite (sd_inflight _ Hset), app_nil_r, Hall in Hrc.
  destruct (answer_on_wire ps p s0 F Hlog HlF HevF Hset Hrc Hfit) as (cs & cF & Hcs & HcF & HlogF & HwF).
  destruct (Hlog cs Hcs) as [Hlogs Hws].
  pose proof (f_equal length G5) as Glen. rewrite length_drop in Glen. cbn in Glen.
  destruct G3 as (es & _ & G3).
  destruct (run_all_ok known id es (l_conv (peer i')) G1) as (F' & EF & _ & [_ Gl Gw _]).
  rewrite G3 in EF. injection EF as <-.
  assert (cv_wire (l_conv (peer i')) = cv_wire F) as Gwire by (apply prefix_length_eq; [done|lia]).
  split; [|apply (ev_limits _ _ _ G2)]. split.
  - by exists c'.
  - done.
  - cbv zeta. rewrite (ev_rcvd _ _ _ G2). exact Hall.
  - eapply Forall_impl; [exact Hfit|]. intros q. apply fits_server_same, (ev_limits _ _ _ G2).
  - eapply (settled_before ps p s0); try done. by rewrite Gwire.
  - rewrite Gwire in *. lia.
  - destruct (sd_conn _ Hset) as (cF' & HcF' & Halive & _).
    destruct (Gl cF' HcF') as (c1 & Hc1 & _ & Hlive). exists c1. split; [done|auto].
Qed.

Hypothesis limit_set : 0 < cl_recv_max_msg_size_ setting < 2 ^ 31.

Lemma call_in_session ps a (i : Impl) :
  in_session ps i -> call_fits a (l_conv (peer i)) ->
  exists i', call_connected (H:=client) (AsioSync0:=link_asio ip) setting
      (ca_service a) (ca_opcode a) (ca_payload a) (ca_timeout a) (with_course a i) =
      Done (result_of a, i') /\ in_session (ps ++ [request a]) i' /\
    same_limits (conf_of (l_conv (peer i))) (conf_of (l_conv (peer i'))).
Proof.
  intros [(c & Hc & Hid & Hrd) Hl Hsent Hfit Hlog Ht _] [Hfs (Hsec & Hpl & Hso & Hrep) (es & Hes & Hset)].
  set (s := l_conv (peer i)) in *. set (p := request a) in *. set (req := Message_of_data p) in *.
  set (s0 := put_inflight (net_str (H:=client) req) s) in *.
  assert (linked known id s0) as Hl0 by (by destruct Hl).
  destruct (run_all_ok known id es s0 Hl0) as (F & HF & HlF & HevF).
  unfold settles in Hset. fold req s0 in Hset. rewrite HF in Hset. apply settled_b_true in Hset.
  assert (Forall (fits_server (conf_of s)) (ps ++ [p])) as Hfit' by (by apply Forall_app_2; [|constructor]).
  assert (cv_rcvd s0 ++ cv_inflight s0 = stream (H:=client) (Message_of_data <$> ps ++ [p])) as Hall.
  { change (cv_rcvd s0) with (cv_rcvd s). cbn [cv_inflight put_inflight s0].
    rewrite app_assoc, Hsent, fmap_app, stream_app. f_equal. symmetry. apply stream_singleton. }
  pose proof (ev_rcvd _ _ _ HevF) as Hrc. rewrite (sd_inflight _ Hset), app_nil_r, Hall in Hrc.
  destruct (answer_on_wire ps p s0 F Hlog HlF HevF Hset Hrc Hfit') as (cs & cF & Hcs & HcF & HlogF & HwF).
  destruct (Hlog cs Hcs) as [Hlogs Hws].
  pose proof (link_laws ip) as Hlaws. change (cv_wire s0) with (cv_wire s) in HwF.
  destruct (call_connected_gets client (AsioSync0:=link_asio ip) setting
    (writing s (l_taken (peer i)) es (armed a i)) (reading known id s0 F)
    (fun l v b => writing_write ip s _ _ _ l v b) (fun l rem n => reading_read known id ip s0 F l rem n) limit_set
    (ca_service a) (ca_opcode a) (ca_payload a) (ca_timeout a) (with_course a i) c []
    (net_str (answer_to p)) (answer_to p) []) as (i' & c' & rem' & E & Hc' & Hid' & Er & Hg & _).
  - by eapply uses_same.
  - done.
  - done.
  - done.
  - done.
  - unfold writing, with_course, put_inflight. cbn [peer set_peer]. rewrite app_nil_r, Hes. by destruct (l_conv (peer i)).
  - intros l ->. cbn [app]. split; cbn [l_conv l_taken l_events]; [done|done|by exists es| |].
    + rewrite Ht. done.
    + rewrite HwF, Ht. by rewrite drop_app_length.
  - rewrite Hrd. cbn [app]. unfold answer_to at 1. rewrite reaction_plain at 1. fold (answer_to p). rewrite (first_message_interop client H).
    + do 2 f_equal. symmetry. apply reaction_plain.
    + done.
    + apply Hrep.
  - symmetry in Er. apply app_eq_nil in Er as [Er ->].
    exists i'. rewrite E. unfold from_outcome. rewrite check_response_ok by apply Hrep. split; [done|].
    apply (read_up ps p s0 F i' c'); try done. apply Hid'. by rewrite Er.
Qed.

Lemma make_call_in_session ps a (i : Impl) :
  in_session ps i -> call_fits a (l_conv (peer i)) ->
  exists i', make_call a i = Done (result_of a, i') /\ in_session (ps ++ [request a]) i' /\
    same_limits (conf_of (l_conv (peer i))) (conf_of (l_conv (peer i'))).
Proof.
  intros Hi Ha. unfold make_call. rewrite call_RPC_unfold.
  destruct (ss_conn _ _ Hi) as (c & [Hc _] & _). cbn [conn_sync_ with_course set_peer]. rewrite Hc.
  by apply (call_in_session ps).
Qed.

(** A connection that was let in is linked to the client, and nothing was said yet. *)
Lemma link_connected (l l1 : Link S) :
  world_inv known (cv_world (l_conv l)) -> link_connect ip l = (ec_success, l1) ->
  cv_id (l_conv l1) = Some id ->
  linked known id (l_conv l1) /\ cv_net (l_conv l1) = Some ([], []) /\ cv_inflight (l_conv l1) = [] /\
  l_taken l1 = 0%nat /\
  exists c, ns_conns (w_server (cv_world (l_conv l1))) !! id = Some c /\ live c /\ sent_log c = [].
Proof.
  intros I Hcon Hid. unfold link_connect in Hcon.
  destruct (wenabled _ _) eqn:He; [|done].
  destruct (wstep_ok known _ _ I He) as (w' & E & [I' L]). rewrite E in Hcon.
  injection Hcon as <-. cbn [l_conv cv_id] in Hid. case_bool_decide as Hopen; [|done]. injection Hid as Hid.
  rewrite Hid in *. destruct Hopen as [k Hk].
  pose proof (wi_fresh _ _ I' id k Hk) as Hlt.
  assert (w_net w' !! id = Some ([], [])) as Hn.
  { cbn [wstep] in E. destruct (accept_handler _ _ _ _) as [[[] [s' d']]| | |]; try done.
    injection E as <-. cbn in *. rewrite bool_decide_false by lia. rewrite <-Hid. apply lookup_insert_eq. }
  split; [split; [done|done|exact Hlt|by eexists]|]. split; [exact Hn|]. split; [done|]. split; [done|].
  exists k. split; [done|]. split; [eapply let_in_live; [exact I|exact He|exact E|]; by rewrite Hid|].
  destruct (account_of_inv known w' id k I' Hk) as (wire & rcvd & ms & Hn' & Hans & Hpre & _).
  rewrite Hn in Hn'. injection Hn' as <- <-.
  unfold requests in Hpre. rewrite decode_all_nil in Hpre. apply prefix_nil_inv in Hpre as ->.
  by apply Permutation_nil_r, app_eq_nil in Hans as [Hlog _].
Qed.

(** It starts a session. *)
Lemma connected_session (l l1 : Link S) (i : Impl) :
  world_inv known (cv_world (l_conv l)) -> link_connect ip l = (ec_success, l1) ->
  cv_id (l_conv l1) = Some id -> conn_sync_ i = Some (ClientSync.TcpConnSync_new Socket_new) -> timer_safe i ->
  peer i = l1 -> in_session [] i.
Proof.
  intros I Hcon Hid Hc Htm <-.
  destruct (link_connected l (peer i) I Hcon Hid) as (Hl & Hnet & Hfl & Ht & k & Hk & Hlive & Hlog).
  split; [|done|by unfold cv_rcvd; rewrite Hnet, Hfl|by constructor| |by unfold cv_wire; rewrite Hnet|by exists k].
  - eexists. split; [by split|]. split; [apply idle_new|done].
  - intros k' Hk'. rewrite Hk in Hk'. injection Hk' as <-. unfold cv_wire. by rewrite Hnet, Hlog.
Qed.
(** ** A session *)

(** Where the client's next call will be made: a client without a connection makes one. *)
Definition next_conv (i : Impl) : Conv S :=
  match conn_sync_ i with
  | Some _ => l_conv (peer i)
  | None => l_conv (link_connect ip (peer i)).2
  end.

(** Every call fits the situation the calls before it lead to. *)
Fixpoint session_fits (l : list Call) (i : Impl) : Prop :=
  match l with
  | [] => True
  | a :: l =>
      call_fits a (next_conv i) /\
      match make_call a i with Done (_, i') => session_fits l i' | _ => False end
  end.

Lemma make_calls_in_session ps (l : list Call) (i : Impl) :
  in_session ps i -> session_fits l i ->
  exists i', make_calls l i = Done (result_of <$> l, i') /\ in_session (ps ++ (request <$> l)) i'.
Proof.
  revert ps i. induction l as [|a l IH]; intros ps i Hi Hl.
  { exists i. by rewrite app_nil_r. }
  destruct Hl as [Ha Hl]. unfold next_conv in Ha.
  destruct (ss_conn _ _ Hi) as (c & [Hc _] & _). rewrite Hc in Ha.
  destruct (make_call_in_session ps a i Hi Ha) as (i1 & E & Hi1 & _). rewrite E in Hl.
  destruct (IH _ i1 Hi1 Hl) as (i2 & E2 & Hi2).
  exists i2. cbn [make_calls]. rewrite E, E2. split; [done|]. by rewrite fmap_cons, cons_middle, app_assoc.
Qed.

(** A client of a server at [w] that has not called yet. *)
Definition new_client (w : World S) : Impl := RpcClientImpl_new (mkLink (mkConv w None []) 0 [] false).

(** The first call is made over the connection it makes. *)
Lemma first_connects (w : World S) :
  world_inv known w -> (link_connect ip (peer (new_client w))).1 = ec_success ->
  cv_id (next_conv (new_client w)) = Some id ->
  exists i, in_session [] i /\ l_conv (peer i) = next_conv (new_client w) /\
    same_limits (w_conf w) (conf_of (l_conv (peer i))) /\
    forall a, make_call a (new_client w) = make_call a i.
Proof.
  intros I Hok Hid. unfold next_conv in *. cbn [conn_sync_ new_client RpcClientImpl_new peer] in *.
  set (l0 := mkLink (mkConv w None []) 0 [] false) in *.
  destruct (link_connect ip l0) as [ec l1] eqn:Ecn. cbn [fst snd] in *. subst ec.
  exists (set_conn (Some (ClientSync.TcpConnSync_new Socket_new)) (set_peer l1 (new_client w))).
  split; [by apply (connected_session l0 l1)|]. split; [done|].
  pose proof Ecn as Hcon. unfold link_connect in Hcon. cbn [l_conv l0 cv_world] in Hcon.
  destruct (wenabled _ _) eqn:He; [|done].
  destruct (wstep_ok known w _ I He) as (w' & E & [_ L]). rewrite E in Hcon. injection Hcon as <-.
  split; [apply (lt_limits _ _ _ L)|]. intros a. unfold make_call. rewrite !call_RPC_unfold.
  cbn [conn_sync_ with_course set_peer new_client RpcClientImpl_new peer set_conn].
  simpl. unfold link_connect. cbn [l_conv cv_world]. by rewrite He, E.
Qed.

(** C3: calls to the running server are answered. A client whose receive limit is set, that
    connects to any reachable state of the server and is let in, and then makes calls one after the other, each within
    the size limits, gets for each what its checks say of the answer the service gives to
    that very request, as long as no call timer expires and no operation of the client's
    socket fails while the client waits. During each call anything may happen at the server
    that its environment allows, to this connection and to all others, as long as in the end
    the server has read the request, handled it and written what it owes. *)
Theorem session_answered (sv : NetServer) d (w : World S) (calls : list Call) :
  world_ready known sv d -> wreach (fresh_world sv d) w ->
  (link_connect ip (peer (new_client w))).1 = ec_success ->
  cv_id (next_conv (new_client w)) = Some id -> session_fits calls (new_client w) ->
  exists i', make_calls calls (new_client w) = Done (result_of <$> calls, i').
Proof.
  intros Hr Hw Hok Hid Hfits.
  destruct (first_connects w (wreach_inv known sv d w Hr Hw) Hok Hid) as (i & Hi & Hconv & _ & Hcall).
  assert (session_fits calls i) as Hfits'.
  { destruct calls as [|a l]; [done|]. destruct Hfits as [Ha Hl]. rewrite Hcall in Hl. split; [|done].
    unfold next_conv at 1. destruct (ss_conn _ _ Hi) as (c & [-> _] & _). by rewrite Hconv. }
  destruct (make_calls_in_session [] calls i Hi Hfits') as (i' & E & _).
  destruct calls as [|a l]; [by eexists|]. exists i'. cbn [make_calls] in *. by rewrite Hcall.
Qed.

(** A positive answer is handed to the caller. *)
Lemma result_of_reply a data :
  fits_u 16 (ca_service a) -> fits_u 16 (ca_opcode a) ->
  answer_to (request a) = Message_of_data (RpcResponseMessage_net_str (RpcResponseMessage_new (ca_service a) (ca_opcode a) data)) ->
  result_of a = (Status_OK, Some data).
Proof.
  intros Hs Ho E. unfold result_of. rewrite E. cbn [payload_ Message_of_data].
  destruct (decode_RpcResponse H client (response_code Resp_OK) (ca_service a) (ca_opcode a) data) as [Eh Ed]; [done..|].
  unfold classify, RpcResponseMessage_new. rewrite Eh, Ed. cbn [rs_magic rs_service_id rs_opcode rs_status].
  by rewrite !Z.eqb_refl.
Qed.
End Session.

(** ** Worked example

    A client on a host of the other byte order connects to a server that has two other
    clients, one with a request in a thread's hands. It calls the echo service, with its
    request arriving in two pieces and the others served in between, and then a service
    the server does not have, while one of the others leaves. *)

From S2P Require Import Demo ServerProps.

Definition session_setting : RpcClientSetting := set_cl_recv_max 4096 RpcClientSetting_new.
Definition from_client (sid : Z) (body : bytes) : bytes :=
  net_str (H:=big_endian) (Message_of_data (client_request (H:=big_endian) sid 7 body)).

Definition echo_course : list wevent :=
  [WAnswer 0; WConn 0 EWriteDone; WConn 2 (EReadDone (ztake 20 (from_client 1 hi))); WTake 1;
   WConn 2 (EReadDone (zdrop 20 (from_client 1 hi)));
   WAccept ec_success (Some "10.0.0.4"%string) Socket_new;
   WTake 1; WConn 1 EWriteDone; WAnswer 0; WConn 2 EWriteDone].
Definition call_echo : Call := mkCall 1 7 hi 5 (LServer <$> echo_course).
Definition unknown_course : list wevent :=
  [WRelease 1; WConn 2 (EReadDone (from_client 9 hi)); WConn 2 EWriteDone].
Definition call_unknown : Call := mkCall 9 7 hi 0 (LServer <$> unknown_course).

Definition busy_server : World unit := demo_world demo_asked.

(** The client after its first call. *)
Definition echo_called : outcome ((RpcClientStatus * option bytes) * RpcClientImpl (Link unit)) :=
  make_call big_endian session_setting "10.0.0.3" call_echo (new_client busy_server).
Definition after_echo : RpcClientImpl (Link unit) :=
  match echo_called with Done (_, i) => i | _ => new_client busy_server end.

Lemma echo_called_done : exists r, echo_called = Done (r, after_echo).
Proof.
  assert (match echo_called with Done _ => true | _ => false end = true) as E by (vm_compute; reflexivity).
  unfold after_echo. destruct echo_called as [[r i]| | |]; [by exists r|done..].
Qed.

Lemma session_answered_witness :
  exists i', make_calls big_endian session_setting "10.0.0.3" [call_echo; call_unknown] (new_client busy_server) =
    Done ([(Status_OK, Some hi); (Status_RECV_FORMAT_ERROR, None)], i').
Proof.
  assert ([(Status_OK, Some hi); (Status_RECV_FORMAT_ERROR, None)] =
          result_of big_endian {[ 1 ]} 2 <$> [call_echo; call_unknown]) as -> by (vm_compute; reflexivity).
  apply (session_answered big_endian session_setting "10.0.0.3" {[ 1 ]} 2 ltac:(split; vm_compute; reflexivity)
    demo_server demo_dispatcher busy_server).
  - exact demo_world_ready.
  - apply demo_world_reach, demo_asked_runs.
  - vm_compute. reflexivity.
  - vm_compute. reflexivity.
  - split.
    + split; [split_and!|split_and!|exists echo_course; split; [reflexivity|]]; vm_compute; (reflexivity || discriminate).
    + fold echo_called. destruct echo_called_done as [r ->].
      split; [|exact I].
      split; [split_and!|split_and!|exists unknown_course; split; [reflexivity|]]; vm_compute; (reflexivity || discriminate).
Defined.

(** Calls that are cut short, from the same state: the request of the first is read and
    queued, but its time-out expires before a thread answers; the second waits without a
    time-out of its own and its read fails; the third, made
    after the echo call, has none either and is ended by the echo call's timer, which runs on. *)
Definition call_slow : Call := mkCall 1 7 hi 5
  [LServer (WConn 2 (EReadDone (from_client 1 hi))); LServer (WTake 1); LExpire ec_eof].
Definition call_cut : Call := mkCall 1 7 hi 0
  [LServer (WConn 2 (EReadDone (from_client 1 hi))); LExpire ec_eof; LFail ec_connection_reset].
Definition call_after : Call := mkCall 9 7 hi 0
  [LServer (WConn 2 (EReadDone (from_client 9 hi))); LExpire ec_eof].
Definition call_results (calls : list Call) : option (list (RpcClientStatus * option bytes)) :=
  match make_calls big_endian session_setting "10.0.0.3" calls (new_client busy_server) with
  | Done (rs, _) => Some rs
  | _ => None
  end.

Example slow_call_times_out : call_results [call_slow] = Some [(Status_RPC_CALL_TIMEOUT, None)].
Proof. vm_compute. reflexivity. Qed.

Example failed_read_ends_call : call_results [call_cut] = Some [(Status_NETWORK_RECV_ERROR, None)].
Proof. vm_compute. reflexivity. Qed.

Example earlier_timer_ends_call :
  call_results [call_echo; call_after] = Some [(Status_OK, Some hi); (Status_RPC_CALL_TIMEOUT, None)].
Proof. vm_compute. reflexivity. Qed.
