(* ===== verification/Course.v ===== *)
(** * A course of events that answers a call

    The running server can always answer: from every reachable state there are events, all
    of them allowed, after which a client's call has its answer. First the outstanding
    reads take what is in flight, then the pool threads work off the queues, then the
    connection's writes complete. *)

From Stdlib Require Import ZArith Lia Init.Byte.
From stdpp Require Import base list strings gmap.
From S2P Require Import Prelude Endian Message Buffer RpcMessage NetConn External NetConf.
From S2P Require Import RpcInstance Service Executor Dispatcher Answering Decode.
From S2P Require Import ClientConf ClientSync ServerConn ServerSend ServerRead ServerSystem ServerInv ServerProps.
From S2P Require Import Pending NetServer NetServerProps World WorldInv WorldProps Link Session.

Section Course.
Context (client : Host) `{Host} `{AssertMode} `{SteadyTimer} `{!SteadyTimerLaws} `{LibConfig} `{BoostString}
  {S : Type} `{!Service S} `{!Answering S} `{!EQueue RpcInstance} `{!EQueueLaws RpcInstance}.
Variables (setting : RpcClientSetting) (ip : string) (known : gset Z) (id : nat).
Implicit Types (s F : Conv S).

Definition conn_of s : option TcpConnAsync := ns_conns (w_server (cv_world s)) !! id.

(** The connection is open and the client's bytes, received or in flight, are whole
    messages it takes. *)
Record open (ms : list Message) s : Prop := {
  op_linked : linked known id s;
  op_conn : exists c, conn_of s = Some c /\ live c;
  op_stream : cv_rcvd s ++ cv_inflight s = stream ms;
  op_fits : Forall (fun m => header_wf (header_ m) /\
    accept_header (recv_max_msg_size_ (conf_of s)) (header_ m) = true /\
    length_ (header_ m) = len (payload_ m)) ms;
  op_limit : 0 < recv_max_msg_size_ (conf_of s) < 2 ^ 31
}.

(** An event that is possible and after which the connection is live happens. *)
Lemma open_attempt ms s e w :
  open ms s -> possible e s = true -> wstep e (cv_world s) = Done w ->
  (exists c, ns_conns (w_server w) !! id = Some c /\ live c) ->
  let s' := mkConv w (cv_id s) (zdrop (len (own_bytes s e)) (cv_inflight s)) in
  attempt e s = Some s' /\ open ms s'.
Proof.
  intros [Hl _ Hst Hf Hlim] Hp E Hc s'.
  assert (attempt e s = Some s') as Ea by (unfold attempt; by rewrite Hp, E).
  destruct (attempt_ok known id e s Hl) as (s1 & E1 & Hl1 & [L _ _ Hr]). rewrite Ea in E1. injection E1 as <-.
  split; [done|]. unfold conf_of in *.
  split; [done|done|by rewrite Hr|unfold conf_of; by rewrite (sl_recv _ _ L)|unfold conf_of; by rewrite (sl_recv _ _ L)].
Qed.

(** ** Reading *)

(** The outstanding read waits for a part of what is in flight. *)
Lemma open_waits ms s c :
  open ms s -> conn_of s = Some c -> live c -> cv_inflight s <> [] ->
  exists n h net ms0 , sk_reads (socket_ (base_ c)) = [(n, h)] /\ 0 < n <= kFixedIoBufferSize /\
    n <= len (cv_inflight s) /\ w_net (cv_world s) !! id = Some net /\
    conn_inv (conf_of s) net.1 net.2 c ms0 /\
    (decode_all (recv_max_msg_size_ (conf_of s)) (RHead (net.2 ++ ztake n (cv_inflight s)))).2 <> RBad.
Proof.
  intros [Hl _ Hst Hf Hlim] Hc Hlive Hne. set (x := cv_inflight s) in *.
  destruct (wi_conns _ _ (lk_inv _ _ _ Hl) id c Hc) as (net & ms0 & [Hn Hinv _]).
  change (w_conf (cv_world s)) with (conf_of s) in Hinv. set (limit := recv_max_msg_size_ (conf_of s)) in *.
  assert (cv_rcvd s = net.2) as Er by (unfold cv_rcvd; by rewrite (cv_net_linked _ _ _ Hl), Hn).
  pose proof (decode_stream_all limit ms Hf) as Hd. rewrite Er in Hst. rewrite <-Hst in Hd.
  pose proof Hinv as [_ Hrs _]. destruct Hrs as [st Hd0 Hh|]; [|done].
  assert (body_nonneg st) as Hbn by (destruct st; [done| |done]; apply Hh).
  pose proof (decode_more limit (RHead net.2) x I) as Hm. cbn [more] in Hm.
  fold limit in Hd0. rewrite Hd, Hd0 in Hm.
  destruct (decode_all _ (more st x)) as [ms2 st2] eqn:E2. injection Hm as _ <-.
  pose proof (decode_continues limit st x ms2 Hbn E2 Hne) as Hx.
  assert (exists n h, sk_reads (socket_ (base_ c)) = [(n, h)] /\ 0 < n <= kFixedIoBufferSize /\ n <= len x)
    as (n & h & Hrd & Hn0 & Hnx).
  { destruct st as [b|hd b|]; [| |done]; cbn in Hh.
    - destruct Hh as (_ & Hb & Hk). eexists _, _. split; [exact Hk|]. pose proof (zlen_nonneg b).
      unfold kFixedIoBufferSize. lia.
    - destruct Hh as (_ & _ & _ & Hb & Hk). eexists _, _. split; [exact Hk|].
      unfold kFixedIoBufferSize in *. lia. }
  exists n, h, net, ms0. split_and!; try done; try lia. intros Hbad.
  pose proof (decode_more limit (RHead (net.2 ++ ztake n x)) (zdrop n x) I) as Hm.
  cbn [more] in Hm. rewrite <-app_assoc, ztake_zdrop, Hd in Hm.
  destruct (decode_all _ (RHead (net.2 ++ ztake n x))) as [ms3 st3]. cbn in Hbad. subst st3. done.
Qed.
(** An event of the client's own connection: what it does to the server. *)
Lemma own_event s e c net y :
  conn_of s = Some c -> w_net (cv_world s) !! id = Some net ->
  handle (conf_of s) id e (conn_view (cv_world s) c net) = Done y ->
  wstep (WConn id e) (cv_world s) = Done (put_view (cv_world s) id y).
Proof. intros Hc Hn E. cbn [wstep]. unfold conn_of in Hc. rewrite Hc, Hn. fold (conf_of s). by rewrite E. Qed.

Lemma own_possible s e c net :
  linked known id s -> 0 < recv_max_msg_size_ (conf_of s) < 2 ^ 31 ->
  conn_of s = Some c -> w_net (cv_world s) !! id = Some net ->
  enabled e (conn_view (cv_world s) c net) = true -> (forall msg, e <> ESend msg) ->
  ztake (len (event_bytes e)) (cv_inflight s) = event_bytes e ->
  own_bytes s (WConn id e) = event_bytes e /\ possible (WConn id e) s = true.
Proof.
  intros Hl Hlim Hc Hn He Hno Hb.
  assert (own_bytes s (WConn id e) = event_bytes e) as Eo.
  { unfold own_bytes. rewrite (lk_id _ _ _ Hl). cbn [gained]. by rewrite decide_True. }
  split; [done|]. unfold possible. rewrite Eo, bool_decide_true by done.
  cbn [wenabled]. unfold conn_of in Hc. rewrite Hc, Hn, He. cbn [andb]. rewrite andb_true_r.
  unfold sized_b. fold (conf_of s). rewrite (proj2 (Z.ltb_lt _ _)), (proj2 (Z.ltb_lt _ _)) by lia. cbn.
  by destruct e; try done; destruct (Hno msg).
Qed.

(** A read that completes takes bytes off those in flight. *)
Lemma read_progress ms s :
  open ms s -> cv_inflight s <> [] ->
  exists e s', attempt e s = Some s' /\ open ms s' /\ (length (cv_inflight s') < length (cv_inflight s))%nat.
Proof.
  intros Ho Hne. pose proof Ho as [Hl (c & Hc & Hlive) _ _ Hlim].
  destruct (open_waits ms s c Ho Hc Hlive Hne) as (n & h & net & ms0 & Hrd & Hn0 & Hnx & Hn & Hinv & Hbad).
  set (x := cv_inflight s) in *. set (e := EReadDone (ztake n x)).
  assert (len (ztake n x) = n) as Elen by (apply zlen_ztake; lia).
  assert (enabled e (conn_view (cv_world s) c net) = true) as Hen.
  { cbn [enabled e sconn conn_view]. rewrite Hrd, Elen, !(proj2 (Z.leb_le _ _)) by lia. done. }
  destruct (own_possible s e c net Hl Hlim Hc Hn Hen) as [Eo Hp]; [done|cbn; by rewrite Elen|].
  destruct (handle_read_done (conf_of s) id (ztake n x) (conn_view (cv_world s) c net) ms0)
    as (y & ms2 & E & _ & Hy); [done|done|by left|].
  destruct (open_attempt ms s (WConn id e) _ Ho Hp (own_event s e c net y Hc Hn E)) as [Ea Ho'].
  { exists (sconn y). split; [apply lookup_insert_eq|by apply Hy]. }
  eexists _, _. split; [exact Ea|]. split; [exact Ho'|]. cbn [cv_inflight]. rewrite Eo. cbn [e event_bytes].
  rewrite Elen. unfold zdrop. rewrite length_drop. fold x. destruct x; [done|]. cbn. lia.
Qed.

Lemma run_all_app es es' s s' : run_all es s = Some s' -> run_all (es ++ es') s = run_all es' s'.
Proof.
  revert s. induction es as [|e es IH]; intros s; cbn [run_all app]; [by intros [= ->]|].
  destruct (attempt e s); [apply IH|done].
Qed.

(** All that is in flight is read. *)
Lemma all_read ms s :
  open ms s -> exists es s', run_all es s = Some s' /\ open ms s' /\ cv_inflight s' = [].
Proof.
  remember (length (cv_inflight s)) as k eqn:Hk. revert s Hk.
  induction (lt_wf k) as [k _ IH]; intros s -> Ho.
  destruct (decide (cv_inflight s = [])) as [E|N]; [by exists [], s|].
  destruct (read_progress ms s Ho N) as (e & s1 & E1 & Ho1 & Hlt).
  destruct (IH _ Hlt s1 eq_refl Ho1) as (es & s' & E & Ho' & Hi).
  exists (e :: es), s'. cbn [run_all]. by rewrite E1.
Qed.

(** ** Serving *)

(** The pool threads work off what waits. *)
Lemma all_handled ms s :
  open ms s -> cv_inflight s = [] ->
  exists es s', run_all es s = Some s' /\ open ms s' /\ cv_inflight s' = [] /\ pending (cv_world s') = [].
Proof.
  remember (work (cv_world s)) as k eqn:Hk. revert s Hk.
  induction (lt_wf k) as [k _ IH]; intros s -> Ho Hi.
  destruct (decide (pending (cv_world s) = [])) as [E|N]; [by exists [], s|].
  pose proof Ho as [Hl (c & Hc & Hlive) _ _ _]. pose proof (lk_inv _ _ _ Hl) as I.
  destruct (busy_while_pending known _ I N) as [e Hb].
  destruct (busy_step known _ e I Hb) as (w' & E & _ & Hw).
  assert (forall id', gained id' e = []) as Hg by (by destruct e).
  assert (own_bytes s e = []) as Eo by (unfold own_bytes; rewrite (lk_id _ _ _ Hl); apply Hg).
  assert (possible e s = true) as Hp.
  { unfold possible. rewrite Eo, bool_decide_true by done. rewrite andb_true_r. by destruct e. }
  destruct (open_attempt ms s e w' Ho Hp E) as [Ea Ho'].
  { by apply (busy_keeps known (cv_world s) w' e id c). }
  set (s1 := mkConv _ _ _) in *. assert (cv_inflight s1 = []) as Hi1 by (subst s1; cbn; by rewrite Eo, Hi).
  destruct (IH (work (cv_world s1)) ltac:(cbn [cv_world s1]; lia) s1 eq_refl Ho' Hi1) as (es & s' & Er & ?).
  exists (e :: es), s'. cbn [run_all]. by rewrite Ea.
Qed.

(** All that is in flight is read and handled. *)
Lemma all_served ms s :
  open ms s -> exists es s', run_all es s = Some s' /\ open ms s' /\ cv_inflight s' = [] /\ pending (cv_world s') = [].
Proof.
  intros Ho. destruct (all_read ms s Ho) as (es1 & s1 & E1 & Ho1 & Hi1).
  destruct (all_handled ms s1 Ho1 Hi1) as (es2 & s2 & E2 & Hs2).
  exists (es1 ++ es2), s2. by rewrite (run_all_app es1 es2 s s1).
Qed.

(** ** Writing *)

(** A write that completes puts more on the wire. *)
Lemma write_progress ms s c :
  open ms s -> conn_of s = Some c -> live c -> sk_writes (socket_ (base_ c)) <> [] ->
  exists e s' c', attempt e s = Some s' /\ open ms s' /\ conn_of s' = Some c' /\ live c' /\
    sent_log c' = sent_log c /\ cv_inflight s' = cv_inflight s /\
    pending (cv_world s') = pending (cv_world s) /\ len (cv_wire s) < len (cv_wire s').
Proof.
  intros Ho Hc Hlive Hw. pose proof Ho as [Hl _ _ _ Hlim].
  destruct (wi_conns _ _ (lk_inv _ _ _ Hl) id c Hc) as (net & ms0 & [Hn Hinv _]).
  change (w_conf (cv_world s)) with (conf_of s) in Hinv.
  assert (enabled EWriteDone (conn_view (cv_world s) c net) = true) as Hen
    by (cbn [enabled sconn conn_view]; by destruct (sk_writes _)).
  destruct (own_possible s EWriteDone c net Hl Hlim Hc Hn Hen) as [Eo Hp]; [done|done|].
  destruct (handle_write_done (conf_of s) id (conn_view (cv_world s) c net) ms0 Hinv Hen) as (y & E & _ & Hy).
  destruct (open_attempt ms s (WConn id EWriteDone) _ Ho Hp (own_event s EWriteDone c net y Hc Hn E)) as [Ea Ho'].
  { exists (sconn y). split; [apply lookup_insert_eq|by apply Hy]. }
  pose proof Hinv as [[Hb Ht [? E2 ?|n E1 E2 Hn0 E4|? E2 ?]] _ _]; [done| |done].
  rewrite (handle_write_done_eq (conf_of s) id (conn_view (cv_world s) c net) n E2 ltac:(lia) Ht Hb) in E. injection E as <-.
  eexists _, _, _. split; [exact Ea|]. split; [exact Ho'|].
  unfold conn_of. cbn [cv_world w_server put_view set_conns ns_conns].
  split; [apply lookup_insert_eq|]. split; [by apply Hy|]. split; [etransitivity; [apply written_log|done]|].
  cbn [cv_inflight]. rewrite Eo. split; [done|]. split; [done|].
  unfold cv_wire, cv_net. rewrite (lk_id _ _ _ Hl). cbn. rewrite Hn, lookup_insert_eq. cbn.
  rewrite zlen_app, zlen_ztake by (unfold block_ok in Hb; cbn in Hb; lia). lia.
Qed.

(** What was accepted for sending is written. *)
Lemma all_written ms s c :
  open ms s -> conn_of s = Some c -> live c -> cv_inflight s = [] ->
  of_conn id (pending (cv_world s)) = [] -> len (stream (sent_log c)) < len (cv_wire s) + 2 ^ 32 ->
  exists es, settles id es s = true.
Proof.
  remember (Z.to_nat (len (stream (sent_log c)) - len (cv_wire s))) as k eqn:Hk. revert s c Hk.
  induction (lt_wf k) as [k _ IH]; intros s c -> Ho Hc Hlive Hi Hp Hlen.
  pose proof Ho as [Hl _ _ _ _].
  destruct (wi_conns _ _ (lk_inv _ _ _ Hl) id c Hc) as (net & ms0 & [Hn [Hs _ Hf] _]).
  assert (cv_wire s = net.1) as Ew by (unfold cv_wire; by rewrite (cv_net_linked _ _ _ Hl), Hn).
  pose proof (flowing_buffered _ _ _ Hs Hf Hlive) as Hd. rewrite <-Ew in Hd.
  destruct (flowing_phase _ _ _ Hs Hf Hlive) as [(Est & _ & Esd & _)|[_ Hw]]; [lia| |].
  - exists []. unfold settles, settled_b. cbn [run_all].
    rewrite Hi, Hp. unfold conn_of in Hc. rewrite Hc. unfold live_b. destruct Hlive as [-> ->].
    by rewrite Est, Esd, !bool_decide_true.
  - destruct (write_progress ms s c Ho Hc Hlive Hw) as (e & s1 & c1 & Ea & Ho1 & Hc1 & Hlive1 & Elog & Ei & Epd & Hlt).
    assert (len (cv_wire s1) <= len (stream (sent_log c))) as Hle.
    { destruct (account_of_inv known (cv_world s1) id c1 (lk_inv _ _ _ (op_linked _ _ Ho1)) Hc1)
        as (wire & rcvd & ms1 & Hn1 & _ & _ & _ & Hpre).
      assert (cv_wire s1 = wire) as -> by (unfold cv_wire; by rewrite (cv_net_linked _ _ _ (op_linked _ _ Ho1)), Hn1).
      rewrite <-Elog. unfold zlen. apply prefix_length in Hpre. lia. }
    destruct (IH (Z.to_nat (len (stream (sent_log c1)) - len (cv_wire s1))) ltac:(rewrite Elog; lia) s1 c1)
      as [es Hes]; try done; [by rewrite Ei|by rewrite Epd|by rewrite Elog; lia|].
    exists (e :: es). unfold settles in *. cbn [run_all]. by rewrite Ea.
Qed.
(** ** A call *)

Hypothesis limit_set : 0 < cl_recv_max_msg_size_ setting < 2 ^ 31.
Abbreviation Impl := (RpcClientImpl (Link S)).

(** The call [a], with the course of events [es] at the server. *)
Definition planned (es : list wevent) (a : Call) : Call :=
  mkCall (ca_service a) (ca_opcode a) (ca_payload a) (ca_timeout a) (LServer <$> es).

(** A server whose receive limit is set, to which the client's request is not too large. *)
Record answerable (a : Call) s : Prop := {
  an_limit : 0 < recv_max_msg_size_ (conf_of s) < 2 ^ 31;
  an_server : fits_server known id (conf_of s) (request client a);
  an_client : fits_client client setting known id a
}.

Lemma in_session_open ps a (i : Impl) :
  in_session client known id ps i -> answerable a (l_conv (peer i)) ->
  open (Message_of_data <$> ps ++ [request client a])
    (put_inflight (net_str (H:=client) (Message_of_data (request client a))) (l_conv (peer i))).
Proof.
  intros [_ Hl Hsent Hfit _ _ Ho] [Hlim Hs _]. cbv zeta in Hsent. split.
  - by destruct Hl.
  - done.
  - change (cv_rcvd (put_inflight ?b ?s)) with (cv_rcvd s). cbn [cv_inflight put_inflight].
    rewrite app_assoc, Hsent, (stream_host H client), fmap_app, stream_app. f_equal. symmetry. apply stream_singleton.
  - apply (fitting_stream known id). by apply Forall_app_2; [|constructor].
  - done.
Qed.

Lemma course_exists ps a (i : Impl) :
  in_session client known id ps i -> answerable a (l_conv (peer i)) ->
  exists es, call_fits client setting known id (planned es a) (l_conv (peer i)).
Proof.
  intros Hi Ha. pose proof (in_session_open ps a i Hi Ha) as Ho. set (s0 := put_inflight _ _) in Ho.
  destruct (all_served _ s0 Ho) as (es & s2 & E & Ho2 & Hi2 & Hp2).
  destruct (run_all_ok known id es s0 (op_linked _ _ Ho)) as (s2' & E' & Hl2 & Hev). rewrite E in E'. injection E' as <-.
  pose proof (op_conn _ _ Ho2) as (c2 & Hc2 & Hlive2).
  destruct (answer_logged client known id ps (request client a) s0 s2 c2) as (c & _ & Hlog & Hw).
  - apply (ss_log _ _ _ _ _ Hi).
  - done.
  - done.
  - done.
  - done.
  - by rewrite Hp2.
  - rewrite (stream_host client H), <-(op_stream _ _ Ho2), Hi2. by rewrite app_nil_r.
  - apply Forall_app_2; [apply (ss_fit _ _ _ _ _ Hi)|constructor; [apply Ha|done]].
  - destruct (all_written _ s2 c2 Ho2 Hc2 Hlive2 Hi2) as [es3 Hes3].
    + by rewrite Hp2.
    + rewrite Hlog, stream_app, stream_singleton, <-Hw, zlen_app, zlen_net_str.
      destruct (ev_wire _ _ _ Hev) as [x ->]. rewrite zlen_app. pose proof (zlen_nonneg x).
      destruct (an_client _ _ Ha) as (_ & _ & _ & Hr). unfold sizeof_Header. lia.
    + exists (es ++ es3). split; [apply Ha|apply Ha|]. exists (es ++ es3). split; [done|].
      unfold settles in *. cbn [ca_course planned]. fold s0. by rewrite (run_all_app _ es3 s0 s2).
Qed.

Lemma answerable_same a s s' : same_limits (conf_of s) (conf_of s') -> answerable a s -> answerable a s'.
Proof. intros L [A B C]. split; [by rewrite (sl_recv _ _ L)|by eapply fits_server_same|done]. Qed.

Lemma calls_complete ps (calls : list Call) (i : Impl) :
  in_session client known id ps i -> Forall (fun a => answerable a (l_conv (peer i))) calls ->
  exists plan i', length plan = length calls /\
    make_calls client setting ip (zip_with planned plan calls) i = Done (result_of client known id <$> calls, i').
Proof.
  revert ps i. induction calls as [|a l IH]; intros ps i Hi Hl; [by exists [], i|].
  inversion Hl as [|? ? Ha Hl']; subst. destruct (course_exists ps a i Hi Ha) as [es Hes].
  destruct (make_call_in_session client setting ip known id limit_set ps (planned es a) i Hi Hes) as (i1 & E & Hi1 & L).
  destruct (IH _ i1 Hi1) as (plan & i' & Hlen & E').
  { eapply Forall_impl; [exact Hl'|]. intros b. by apply answerable_same. }
  exists (es :: plan), i'. cbn [zip_with length make_calls fmap list_fmap]. rewrite E, E', Hlen. done.
Qed.

End Course.

(** ** Worked example

    The two calls of [Session]'s example, with nothing said about what happens meanwhile. *)

From S2P Require Import Demo.

