(* ===== verification/ServerAnswer.v ===== *)
(** * A request's way through the server

    The bytes of a request enter a connection, the Dispatcher queues it, a worker of the
    service runs the handler, the answer leaves on the wire: [server_answer] composes the
    models of these parts, and [server_answer_echo] says what comes out. *)

From Stdlib Require Import ZArith Lia Init.Byte.
From stdpp Require Import base list strings gmap.
From S2P Require Import Prelude Endian Message Buffer RpcMessage NetConn External NetConf.
From S2P Require Import RpcInstance Service Executor Dispatcher Decode ServerConn ServerSend.
From S2P Require Import ServerRead ServerSystem ServerInv Demo RpcProps ServerProps.

Abbreviation Server := (Sys (S:=unit)).

(** One round of the worker of service 1, answering on the connection. *)
Definition serve_one (s : Server) : option Server :=
  match services_ (sdisp s) !! 1 with
  | None => None
  | Some e =>
      match executor_service_round (MsgSink0:=server_sink demo_conf) false false (e, {[ 3%nat := sconn s ]}) with
      | Done (_, (e', conns)) =>
          match conns !! 3%nat with
          | Some c => Some (mkSys c (set_services (<[1 := e']> (services_ (sdisp s))) (sdisp s))
                             (swire s) (srcvd s))
          | None => None
          end
      | _ => None
      end
  end.

(** What the server sends when it receives [inbox] in one piece. *)
Definition server_answer (inbox : bytes) : bytes :=
  match demo_run [EReadDone inbox] with
  | Some s1 =>
      match serve_one s1 with
      | Some s2 =>
          match run_events demo_conf 3 [EWriteDone] s2 with
          | Some s3 => swire s3
          | None => []
          end
      | None => []
      end
  | None => []
  end.

Example server_answers_hi :
  server_answer (net_str (demo_message 1 hi)) =
  net_str (Message_of_data (RpcResponseMessage_net_str (RpcResponseMessage_new 1 7 hi))).
Proof. vm_compute. reflexivity. Qed.

(** ** What comes out *)

Section Echo.
Context (H1 : endianness) (op : Z) (body : bytes).
Hypothesis Hop : fits_u 16 op.
Hypothesis Hbody : 0 < len body <= 1000.

Let p := @client_request H1 1 op body.
Let reply := RpcResponseMessage_new 1 op body.

Lemma p_facts :
  request_ok p /\ request_header p = rq_header_ (RpcRequestMessage_new 1 op body) /\
  zdrop 16 p = body /\ len p = 16 + len body.
Proof.
  destruct (client_request_ok H1 le_host 1 op body) as (Hh & Eh & Ed & El); [done|done|].
  fold p in Hh, Eh, Ed, El. split; [|done]. split; [done|].
  unfold sizeof_RpcRequestHeader. rewrite El. lia.
Qed.

(** The request arrives: it is queued for service 1, and nothing is sent. *)
Lemma request_received :
  exists s1, demo_run [EReadDone (@net_str H1 (Message_of_data p))] = Some s1 /\
    send_inv demo_conf [] (sconn s1) /\ live (sconn s1) /\ sent_log (sconn s1) = [] /\
    swire s1 = [] /\ sdisp s1 = (route p 3 demo_dispatcher).1 /\
    send_status_ (sconn s1) = Send_kDone.
Proof.
  destruct p_facts as (Hok & Eh & Ed & El).
  rewrite (net_str_host H1 le_host). set (inbox := net_str (Message_of_data p)).
  assert (len inbox = 32 + len body) as Ei
    by (unfold inbox; rewrite zlen_net_str; simpl; rewrite El; unfold sizeof_Header; lia).
  unfold demo_run.
  destruct (boot_spec demo_conf 3 Socket_new demo_dispatcher) as
    (s0 & -> & Hs0 & Hl0 & Hh0 & Elog & Estat & Edisp & Ewire & Ercvd); [by split|].
  pose proof Hh0 as (Erd & _ & Er). change (16 - len []) with 16 in Er.
  cbn [run_events enabled handle]. rewrite Er. rewrite (proj2 (Z.leb_le 16 _)) by lia.
  rewrite (proj2 (Z.leb_le _ _)) by (unfold kFixedIoBufferSize; lia). cbn [andb].
  pose proof (read_completion_live demo_conf 3 on_read_handler (RHead []) inbox (sconn s0) (sdisp s0) 16
    Hl0 (si_timer _ _ _ Hs0) (si_block _ _ _ Hs0) Hh0 Er ltac:(lia)) as Hrd.
  rewrite Erd in Hrd. specialize (Hrd ltac:(simpl; lia)). unfold reads_as in Hrd. cbn [more app] in Hrd.
  pose proof (decode_stream (recv_max_msg_size_ demo_conf) [Message_of_data p] []) as Hdec.
  rewrite stream_singleton, app_nil_r, decode_all_nil in Hdec. fold inbox in Hdec.
  rewrite Hdec in Hrd; clear Hdec.
  2: { apply Forall_singleton. pose proof (Message_of_data_length p) as Elen.
       split; [apply Message_of_data_wf|]. rewrite Elen by lia. split; [|done].
       unfold accept_header. rewrite Elen by lia. cbn [magic version header_ Message_of_data].
       rewrite !Z.eqb_refl. simpl. apply Z.leb_le. vm_compute (uint32_t(4096)). lia. }
  destruct Hrd as ([] & c' & E & Hra & Hl & Hh).
  rewrite (run_eq _ _ _ _ _ _ _ _ E). eexists. split; [done|]. cbn [sconn swire sdisp].
  rewrite Edisp. cbn [app routes payload_ Message_of_data] in *. rewrite Ewire.
  assert (instant_reply demo_conf (route p 3 demo_dispatcher).2 = []) as Einst.
  { unfold route. rewrite bool_decide_true by done. rewrite Eh. done. }
  rewrite Edisp in Hra. destruct (route p 3 demo_dispatcher) as [d1 ans] eqn:Eroute. cbn [fst snd] in *.
  rewrite Einst in Hra. split; [|split_and!; try done].
  - apply (ra_inv _ _ _ _ Hra). eapply send_inv_same; [| |exact Hs0]; [by split|done].
  - rewrite (ra_log _ _ _ _ Hra). by rewrite app_nil_r.
  - rewrite (ss_status _ _ (ra_quiet _ _ _ _ Hra eq_refl)). exact Estat.
Qed.

Definition reply_msg : Message := Message_of_data (RpcResponseMessage_net_str reply).

Lemma reply_size : len (net_str reply_msg) = 33 + len body.
Proof.
  unfold reply_msg, reply. rewrite zlen_net_str. simpl. rewrite zlen_RpcResponseMessage_net_str.
  simpl. unfold sizeof_Header, sizeof_RpcResponseHeader. lia.
Qed.

(** The worker answers: the reply is accepted for sending. *)
Lemma request_served (s1 : Server) :
  send_inv demo_conf (swire s1) (sconn s1) -> sdisp s1 = (route p 3 demo_dispatcher).1 ->
  exists d2, serve_one s1 = Some (mkSys (sent demo_conf reply_msg (sconn s1)) d2 (swire s1) (srcvd s1)).
Proof.
  intros Hs Hd. destruct p_facts as (Hok & Eh & Ed & El).
  unfold serve_one. rewrite Hd. unfold route. rewrite bool_decide_true by done. rewrite Eh.
  change (rq_service_id (rq_header_ (RpcRequestMessage_new 1 op body))) with 1.
  change (services_ demo_dispatcher !! 1) with (Some demo_executor). cbn [fst].
  cbn [services_ set_services]. rewrite lookup_insert, decide_True by done.
  unfold executor_service_round, zoom, mbind, M_bind, gets, modify; simpl.
  unfold on_connection; simpl. rewrite lookup_singleton_eq. simpl.
  unfold zoom, reply_rpc_message, send_if_alive; simpl.
  unfold sink_send, server_sink; simpl. rewrite Ed.
  assert (reply_message (accepted_instance p 3) body = reply_msg) as ->
    by (unfold reply_message, accepted_instance; by rewrite Eh).
  rewrite async_send_message_eq by apply Hs. simpl.
  rewrite lookup_partial_alter_eq. simpl. by eexists.
Qed.

(** The reply is written in one block. *)
Lemma answer_written c (d : Dispatcher unit) rcvd :
  send_inv demo_conf [] c -> live c -> sent_log c = [] -> send_status_ c = Send_kDone ->
  match run_events demo_conf 3 [EWriteDone] (mkSys (sent demo_conf reply_msg c) (d : Dispatcher unit) [] rcvd) with
  | Some s3 => swire s3
  | None => []
  end = net_str reply_msg.
Proof.
  intros Hs Hl Elog Est. pose proof reply_size as Hsize.
  assert (send_data c = [] /\ sk_writes (socket_ (base_ c)) = []) as [Esd Ew].
  { destruct (si_phase _ _ _ Hs) as [_ ? E|? E|E _]; [|congruence..].
    by rewrite Elog in E. }
  set (c1 := appended reply_msg c).
  assert (send_data c1 = net_str reply_msg) as Esd1
    by (unfold c1, appended, send_data at 1; simpl; by rewrite Esd).
  assert (sent demo_conf reply_msg c = locked demo_conf c1) as -> by (by apply written_live).
  assert (get_length (buffer_ (send_bound_ c1)) = 33 + len body) as Eg.
  { rewrite get_length_small; change (data_ (buffer_ (send_bound_ c1))) with (send_data c1);
      rewrite Esd1; lia. }
  destruct (locked_writes demo_conf c1) as [Ew1 Ed1]; [lia|].
  rewrite Esd1 in Ed1. change (sk_writes _) with (sk_writes (socket_ (base_ c))) in Ew1 at 2.
  unfold next_write in *. rewrite Eg, Z.min_l in * by (unfold kFixedIoBufferSize; lia).
  destruct (drains demo_conf 3 0 (mkSys (locked demo_conf c1) d [] rcvd)) as (j & s' & Hj & Er & _ & Ewire & Ek).
  { apply locked_inv; [by apply appended_inv|done]. }
  { destruct (locked_same_recv demo_conf c1) as [_ E1 E2 _ _ _]. unfold live; cbn [sconn]. by rewrite E1, E2. }
  { cbn [sconn]. rewrite Ew1, Ew. done. }
  { cbn [sconn]. lia. } { cbn [sconn]. lia. }
  destruct j as [|[|j]]; [| |lia].
  { injection Er as <-. cbn [sconn] in Ek. rewrite Ew1, Ew in Ek. done. }
  change (replicate 1 EWriteDone) with [EWriteDone] in Er. rewrite Er, Ewire. cbn [sconn].
  rewrite locked_log. simpl. rewrite Elog. apply stream_singleton.
Qed.

(** A request gets its answer through the whole server. For every opcode and every body
    of up to 1000 bytes, the bytes of a client's request to the echo service, from a
    client of either byte order, make the server send exactly the bytes of the response
    with that opcode and body, and nothing else. *)
Lemma server_answer_echo :
  server_answer (@net_str H1 (Message_of_data p)) = net_str (Message_of_data (RpcResponseMessage_net_str reply)).
Proof.
  unfold server_answer.
  destruct request_received as (s1 & -> & Hs & Hl & Elog & Ewire & Ed & Est). rewrite <-Ewire in Hs.
  destruct (request_served s1 Hs Ed) as (d2 & ->). rewrite Ewire in *.
  apply answer_written; done.
Qed.
End Echo.
