(* ===== verification/EndToEnd.v ===== *)
(** * A client and a server

    The synchronous client against the server: the peer of the client takes the request
    and answers with what the server put on its wire. *)

From Stdlib Require Import ZArith Lia Init.Byte.
From stdpp Require Import base list strings gmap.
From S2P Require Import Prelude Endian Message Buffer RpcMessage NetConn External NetConf.
From S2P Require Import RpcInstance Service Executor Dispatcher Decode ServerConn ServerSend.
From S2P Require Import ServerRead ServerSystem ServerInv Demo RpcProps ServerProps ServerAnswer.
From S2P Require Import ClientConf ClientSync ClientRead ClientCall.

(** ** A network whose far end answers *)

(** [inbox]: what was written; [taken]: how much of the answer was read. *)
Record LoopPeer := mkLoop { inbox : bytes; taken : Z }.

Section Loop.
Variable respond : bytes -> bytes.

(** Blocks of at least seven bytes, when the answer has them. *)
#[local] Instance loop_asio : AsioSync LoopPeer := {|
  asio_connect := fun _ => (ec_success, mkLoop [] 0);
  asio_write := fun b p => (ec_success, len b, false, mkLoop (inbox p ++ b) (taken p));
  asio_read := fun n p =>
    let rest := zdrop (taken p) (respond (inbox p)) in
    if (n <=? len rest) && (n <=? kFixedIoBufferSize) then
      let data := ztake (Z.max n 7) rest in
      (ec_success, data, false, mkLoop (inbox p) (taken p + len data))
    else (ec_eof, [], false, p)
|}.

#[local] Instance loop_laws : AsioSyncLaws LoopPeer.
Proof.
  split; simpl.
  - intros n p data fired p'. destruct (_ && _) eqn:E; [|done]. intros [= <- _ _]. bool_prop.
    rewrite zlen_ztake_min by lia. unfold kFixedIoBufferSize in *. lia.
  - by intros b p k fired p' [= <- _ _].
Qed.

Definition loop_takes (p : LoopPeer) (w : bytes) : Prop := inbox p = w /\ taken p = 0.
Definition loop_good (p : LoopPeer) (rem : bytes) : Prop :=
  zdrop (taken p) (respond (inbox p)) = rem /\ 0 <= taken p.

Lemma loop_takes_write p w b : loop_takes p w ->
  exists p', asio_write b p = (ec_success, len b, false, p') /\ loop_takes p' (w ++ b).
Proof. intros [<- Ht]. eexists. split; [done|]. by split. Qed.

Lemma loop_good_read p rem n : loop_good p rem -> 0 < n <= kFixedIoBufferSize -> n <= len rem ->
  exists data rem' p', asio_read n p = (ec_success, data, false, p') /\ rem = data ++ rem' /\ loop_good p' rem'.
Proof.
  intros [<- Ht] Hn Hl. simpl.
  rewrite (proj2 (Z.leb_le _ _)), (proj2 (Z.leb_le _ _)) by (done || apply Hn). simpl.
  set (rest := zdrop (taken p) (respond (inbox p))) in *.
  eexists _, (zdrop (Z.max n 7) rest), _. split; [done|]. split; [by rewrite ztake_zdrop|].
  pose proof (zlen_nonneg (ztake (Z.max n 7) rest)).
  split; simpl; [|lia]. rewrite <-zdrop_zdrop by lia. fold rest.
  destruct (decide (Z.max n 7 <= len rest)).
  - by rewrite zlen_ztake by lia.
  - rewrite ztake_all, !zdrop_all by lia. done.
Qed.

Lemma loop_connects p : exists p0, asio_connect p = (ec_success, p0) /\ loop_takes p0 [].
Proof. eexists. split; [done|]. by split. Qed.

Lemma loop_answers w r : respond w = r -> forall q, loop_takes q w -> loop_good q r.
Proof. intros <- q [<- Ht]. split; [|lia]. by rewrite Ht. Qed.
End Loop.


(** ** The echo service, called *)

Section Echo.
Context (H1 : Host) `{AssertMode}.
Variable setting : RpcClientSetting.
Hypothesis limit_set : 1017 <= cl_recv_max_msg_size_ setting < 2 ^ 31.

(** A remote call works from end to end. For every opcode and every body of up to 1000
    bytes, a synchronous call to the echo service, by a client of either byte order and
    connected to the server, returns OK and the body: the request's bytes enter the
    server's connection, are dispatched to the service, handled by its worker, and the
    answer is read and checked by the client. *)
Lemma echo_call_end_to_end op body sec peer0 :
  fits_u 16 op -> 0 < len body <= 1000 -> 0 <= sec ->
  send_over_limit setting (request_message 1 op body) = false ->
  exists i', call_RPC (AsioSync0 := loop_asio server_answer) setting 1 op body sec
    (RpcClientImpl_new peer0) = Done ((Status_OK, Some body), i').
Proof.
  intros Hop Hb Hsec Ho.
  destruct (call_RPC_gets H1 little_endian (AsioSync0 := loop_asio server_answer) (AsioSyncLaws0 := loop_laws server_answer) setting
    loop_takes (loop_good server_answer)
    (loop_takes_write server_answer) (loop_good_read server_answer)
    ltac:(lia) 1 op body sec peer0
    (@RpcResponseMessage_net_str little_endian (RpcResponseMessage_new 1 op body))) as (i' & ->).
  - done.
  - lia.
  - rewrite zlen_RpcResponseMessage_net_str. simpl. unfold sizeof_RpcResponseHeader. lia.
  - done.
  - apply loop_connects.
  - apply loop_answers. by apply server_answer_echo.
  - exists i'. unfold from_outcome. by rewrite check_response_reply.
Qed.
End Echo.

(** ** Worked examples *)

Definition demo_setting : RpcClientSetting := set_cl_recv_max 4096 RpcClientSetting_new.

Lemma echo_call_example :
  exists i', call_RPC (H:=big_endian) (AsioSync0 := loop_asio server_answer) demo_setting 1 7 hi 5
    (RpcClientImpl_new (mkLoop [] 0)) = Done ((Status_OK, Some hi), i').
Proof.
  apply (echo_call_end_to_end big_endian demo_setting).
  - split; vm_compute; [discriminate|reflexivity].
  - split; vm_compute; [discriminate|reflexivity].
  - split; vm_compute; [reflexivity|discriminate].
  - vm_compute. discriminate.
  - reflexivity.
Defined.

(** A request for a service the server does not have. *)
Definition server_rejects (inbox : bytes) : bytes :=
  match demo_run [EReadDone inbox; EWriteDone] with
  | Some s => ServerSystem.swire s
  | None => []
  end.

Lemma rejected_call_example :
  exists i', call_RPC (AsioSync0 := loop_asio server_rejects) demo_setting 9 7 hi 0
    (RpcClientImpl_new (mkLoop [] 0)) = Done ((Status_RECV_FORMAT_ERROR, None), i').
Proof.
  apply (rejected_call_loses_status little_endian little_endian
    (AsioSync0 := loop_asio server_rejects) (AsioSyncLaws0 := loop_laws server_rejects) demo_setting
    loop_takes (loop_good server_rejects)
    (loop_takes_write server_rejects) (loop_good_read server_rejects)) with (status := Resp_INVALID_SERVICE).
  - split; vm_compute; reflexivity.
  - left. discriminate.
  - vm_compute. discriminate.
  - vm_compute. reflexivity.
  - vm_compute. discriminate.
  - reflexivity.
  - apply loop_connects.
  - apply loop_answers. vm_compute. reflexivity.
Defined.


Lemma call_ok_is_genuine_witness :
  let i := RpcClientImpl_new (mkLoop [] 0) in
  exists i', call_RPC (AsioSync0 := loop_asio server_answer) demo_setting 1 7 hi 0 i =
      Done ((Status_OK, Some hi), i') /\
    exists m new data, Some hi = Some data /\ carries 1 7 (payload_ m) data /\
      first_message demo_setting (buffered i ++ new) = Some (m, buffered i') /\
      crcvd i' = crcvd i ++ new /\ cwire i' = cwire i ++ net_str (request_message 1 7 hi).
Proof.
  intros i. eexists. split; [vm_compute; reflexivity|].
  edestruct (call_ok_is_genuine (AsioSync0 := loop_asio server_answer) (AsioSyncLaws0 := loop_laws server_answer) demo_setting
    ltac:(split; vm_compute; (reflexivity || discriminate)) 1 7 hi 0 i) as [Hg|(new & i1 & _ & Hh & _)]; [| | | |exact Hg|].
  - split; [discriminate|exact I].
  - vm_compute. discriminate.
  - vm_compute. reflexivity.
  - vm_compute. reflexivity.
  - exfalso. revert Hh. apply limit_no_huge; split; vm_compute; (reflexivity || discriminate).
Defined.
