(* ===== verification/ClientTimer.v ===== *)
(** * The call timer of the client

    A call that ends does not cancel its timer, and there is one timer for both kinds of
    call. After a call that failed on the network the timer is still waited for, and its
    handler uses the connection the call has dropped; a synchronous call with a time-out
    calls off the time-out of an asynchronous one; a time-out that happened is reported
    again by later calls. *)

From Stdlib Require Import ZArith Lia Init.Byte.
From stdpp Require Import base list strings gmap.
From S2P Require Import Prelude Endian Message Buffer RpcMessage NetConn ClientConf Decode.
From S2P Require Import ClientImpl ClientAsync ClientSync Demo.

(** ** What a synchronous call keeps *)

Section Keeps.
Context `{Host} `{AssertMode} {P : Type} `{!AsioSync P}.
Variable setting : RpcClientSetting.
Abbreviation Impl := (RpcClientImpl P).

(** A fact that survives the timer's handler and what the operations of a call assign. *)
Variable Q : Impl -> Prop.
Hypothesis Q_conn : forall c i, Q i -> Q (set_conn (Some c) i).
Hypothesis Q_peer : forall p i, Q i -> Q (set_peer p i).
Hypothesis Q_wire : forall b i, Q i -> Q (add_wire b i).
Hypothesis Q_rcvd : forall b i, Q i -> Q (add_rcvd b i).
Hypothesis Q_fires : forall i i', timer_fires i = Done (tt, i') -> Q i -> Q i'.

Definition keeps {A} (m : M Impl A) : Prop := forall i a i', m i = Done (a, i') -> Q i -> Q i'.

Lemma keeps_ret {A} (a : A) : keeps (mret a).
Proof. by intros i b i' [= <- <-]. Qed.

Lemma keeps_bind {A B} (m : M Impl A) (k : A -> M Impl B) :
  keeps m -> (forall a, keeps (k a)) -> keeps (m ≫= k).
Proof.
  intros Hm Hk i b i' E Ht. unfold mbind, M_bind in E. destruct (m i) as [[a i1]| | |] eqn:Em; try done.
  eapply Hk; [exact E|]. by eapply Hm.
Qed.

Lemma keeps_gets {A} (f : Impl -> A) : keeps (gets f).
Proof. by intros i b i' [= <- <-]. Qed.

Lemma keeps_modify (f : Impl -> Impl) : (forall i, Q i -> Q (f i)) -> keeps (modify f).
Proof. intros Hf i b i' [= <- <-]. apply Hf. Qed.

Lemma keeps_on_sync {A} (m : M TcpConnSync A) : keeps (on_sync m).
Proof.
  intros i a i' E. unfold on_sync in E. destruct (conn_sync_ i); [|done].
  destruct (m _) as [[b c]| | |]; try done. injection E as <- <-. apply Q_conn.
Qed.

Lemma keeps_safe_assert b : keeps (safe_assert b).
Proof. intros i a i' E HQ. unfold safe_assert in E. repeat case_match; by simplify_eq. Qed.

Lemma keeps_fires b : keeps (when b timer_fires).
Proof. destruct b; [|apply keeps_ret]. intros i [] i' E. by apply Q_fires. Qed.

Lemma keeps_sock_read n : keeps (sock_read n).
Proof.
  unfold sock_read. apply keeps_bind; [apply keeps_gets|]. intros p.
  destruct (asio_read n p) as [[[ec data] fired] p'].
  apply keeps_bind; [apply keeps_modify, Q_peer|]. intros _.
  apply keeps_bind; [apply keeps_on_sync|]. intros _.
  apply keeps_bind; [unfold when; case_match; [apply keeps_modify, Q_rcvd|apply keeps_ret]|]. intros _.
  apply keeps_bind; [apply keeps_fires|]. intros _. apply keeps_ret.
Qed.

Lemma keeps_sock_write n : keeps (sock_write n).
Proof.
  unfold sock_write. apply keeps_bind; [apply keeps_on_sync|]. intros block.
  apply keeps_bind; [apply keeps_gets|]. intros p.
  destruct (asio_write block p) as [[[ec k] fired] p'].
  apply keeps_bind; [apply keeps_modify, Q_peer|]. intros _.
  apply keeps_bind; [apply keeps_modify, Q_wire|]. intros _.
  apply keeps_bind; [apply keeps_fires|]. intros _. apply keeps_ret.
Qed.

(** Follow the structure of a computation. *)
Ltac keep := repeat first
  [ progress cbn beta | progress intros | assumption | apply keeps_sock_read | apply keeps_sock_write
  | match goal with H : keeps _ |- _ => apply H end
  | lazymatch goal with
    | |- keeps (mret _) => apply keeps_ret
    | |- keeps (_ ≫= _) => apply keeps_bind
    | |- keeps (mbind _ _) => apply keeps_bind
    | |- keeps (gets _) => apply keeps_gets
    | |- keeps (on_sync _) => apply keeps_on_sync
    | |- keeps (safe_assert _) => apply keeps_safe_assert
    | |- keeps (if _ then _ else _) => case_match
    | |- keeps (let _ := _ in _) => cbv zeta
    end ].

Lemma keeps_read_head_loop fuel : keeps (read_head_loop fuel).
Proof. induction fuel as [|fuel IH]; [done|]. cbn [read_head_loop]. keep. Qed.

Lemma keeps_read_body_loop fuel : keeps (read_body_loop fuel).
Proof. induction fuel as [|fuel IH]; [done|]. cbn [read_body_loop]. keep. Qed.

Lemma keeps_write_loop fuel : keeps (write_loop fuel).
Proof. induction fuel as [|fuel IH]; [done|]. cbn [write_loop]. keep. Qed.

Lemma keeps_do_read_msg : keeps do_read_msg.
Proof. unfold do_read_msg. keep; apply keeps_read_body_loop. Qed.

Lemma keeps_do_read : keeps (do_read setting).
Proof. unfold do_read. keep; apply keeps_read_head_loop || apply keeps_do_read_msg. Qed.

Lemma keeps_send msg : keeps (send_net_message setting msg).
Proof. unfold send_net_message, do_write. keep. apply keeps_write_loop. Qed.

(** How a call ends that had a connection and its timer set: either it failed, or the
    answer was checked. *)
Lemma call_kept sid op payload (i i' : Impl) r :
  Q i ->
  (sent ← send_rpc_message setting (RpcRequestMessage_new sid op payload);
   if negb sent then call_failed Status_NETWORK_SEND_ERROR else
   r ← recv_rpc_message setting;
   if negb (fst r) then call_failed Status_NETWORK_RECV_ERROR else
   from_outcome (check_response sid op (payload_ (snd r)))) i = Done (r, i') ->
  exists i1, Q i1 /\
    ((exists st, call_failed st i1 = Done (r, i')) \/
     (exists m, check_response sid op (payload_ m) = Done r /\ i' = i1)).
Proof.
  intros HQ E. unfold mbind at 1, M_bind at 1 in E.
  destruct (send_rpc_message _ _ i) as [[sent i1]| | |] eqn:Es; try done.
  pose proof (keeps_send _ _ _ _ Es HQ). destruct sent; cbn [negb] in E; [|exists i1; split; [done|left; by eexists]].
  unfold mbind at 1, M_bind at 1 in E.
  destruct (recv_rpc_message _ i1) as [[[got m] i2]| | |] eqn:Er; try done.
  pose proof (keeps_do_read _ _ _ Er ltac:(done)). cbn [fst snd] in E.
  destruct got; cbn [negb] in E; [|exists i2; split; [done|left; by eexists]].
  exists i2. split; [done|]. right. exists m. unfold from_outcome in E.
  destruct (check_response _ _ _); try done. by injection E as <- <-.
Qed.
End Keeps.

Section Timer.
Context `{Host} `{AssertMode} {P : Type} `{!AsioSync P}.
Variable setting : RpcClientSetting.
Abbreviation Impl := (RpcClientImpl P).

(** The client when the call has a connection, before it sends: [sec] set the timer. *)
Definition armed (sec : Z) (i : Impl) : Impl :=
  if 0 <? sec then set_timer (TimerWaits true) (set_was_timeout false i) else i.

(** A call that did not fail to connect did the rest of its work from such a state. *)
Lemma call_started sid op payload sec (i i' : Impl) st r :
  0 <= sec -> call_RPC setting sid op payload sec i = Done ((st, r), i') ->
  st <> Status_NETWORK_CONNECT_ERROR ->
  exists i1, is_Some (conn_sync_ i1) /\ async_half i1 = async_half i /\
    rpc_call_timer_ i1 = rpc_call_timer_ i /\ was_timeout_ i1 = was_timeout_ i /\
    (sent ← send_rpc_message setting (RpcRequestMessage_new sid op payload);
     if negb sent then call_failed Status_NETWORK_SEND_ERROR else
     r ← recv_rpc_message setting;
     if negb (fst r) then call_failed Status_NETWORK_RECV_ERROR else
     from_outcome (check_response sid op (payload_ (snd r)))) (armed sec i1) = Done ((st, r), i').
Proof.
  intros Hsec Hcall Hst.
  assert (forall i1 : Impl, when (0 <? sec) (set_rpc_call_timeout sec true) i1 = Done (tt, armed sec i1)) as Hset.
  { intros i1. unfold when, armed, set_rpc_call_timeout. destruct (0 <? sec) eqn:E; bool_prop; [|done].
    rewrite (proj2 (Z.eqb_neq _ _)) by lia. done. }
  unfold call_RPC, mbind at 1, M_bind at 1, gets in Hcall. destruct (conn_sync_ i) eqn:Hc.
  - exists i. unfold call_connected in Hcall. unfold mbind at 1, M_bind at 1 in Hcall. rewrite Hset in Hcall.
    by rewrite Hc.
  - unfold mbind at 1, M_bind at 1, gets in Hcall. destruct (asio_connect (peer i)) as [ec p'].
    unfold mbind at 1, M_bind at 1, modify in Hcall. destruct (ec_failed ec); [by injection Hcall as <- _ _|].
    unfold mbind at 1, M_bind at 1 in Hcall. unfold call_connected in Hcall.
    unfold mbind at 1, M_bind at 1 in Hcall. rewrite Hset in Hcall. exists (set_conn (Some (TcpConnSync_new Socket_new)) (set_peer p' i)).
    by split; [eexists|].
Qed.

Ltac timer_cases E :=
  unfold timer_fires, mbind, M_bind, gets, modify, mret, M_ret in E;
  match type of E with context [rpc_call_timer_ ?i] => destruct (rpc_call_timer_ i) as [| |[]] eqn:? end;
  cbv beta iota in E;
  unfold rpc_call_timeout, mbind, M_bind, modify, on_sync, on_half, zoom in E; cbn in E;
  repeat case_match; simplify_eq/=.

(** The timer is waited for on behalf of a synchronous call, or it has expired. *)
Definition ticking (i : Impl) : Prop := was_timeout_ i = true \/ rpc_call_timer_ i = TimerWaits true.

(** C38: the timer of a failed call is fatal. A call with a time-out that drops the connection
    without having timed out, because sending or receiving failed, leaves its timer armed:
    when it expires, the handler dereferences the null connection. *)
Theorem failed_call_timer_undefined sid op payload sec (i i' : Impl) st r :
  0 < sec -> call_RPC setting sid op payload sec i = Done ((st, r), i') ->
  st <> Status_NETWORK_CONNECT_ERROR -> was_timeout_ i' = false -> conn_sync_ i' = None ->
  timer_fires i' = Undefined.
Proof.
  intros Hsec Hcall Hst Hw Hc.
  destruct (call_started sid op payload sec i i' st r) as (i1 & _ & _ & _ & _ & E); [lia|done|done|].
  assert (ticking i') as Ht.
  { destruct (call_kept setting ticking) with (7 := E) as (i2 & Ht & [(st' & E2)|(m & _ & ->)]); try done.
    - intros j j' Ej Hj. unfold ticking in *. timer_cases Ej; intuition congruence.
    - unfold armed, ticking. rewrite (proj2 (Z.ltb_lt _ _)) by done. by right.
    - injection E2 as _ _ <-. exact Ht. }
  destruct Ht as [Ht|Ht]; [congruence|].
  unfold timer_fires, mbind at 1, M_bind at 1, gets. rewrite Ht.
  unfold mbind, M_bind, rpc_call_timeout, modify, on_sync. cbn. unfold mbind, M_bind. cbn. by rewrite Hc.
Qed.

(** C39: a synchronous call calls off the time-out of an asynchronous one. The two kinds of call
    share one timer: when it runs for an asynchronous call and a synchronous call with a
    time-out follows, the synchronous call leaves the asynchronous connection alone, and
    from then on the timer's handler does too, although nothing was answered there. *)
Theorem sync_call_takes_timer sid op payload sec (i i' : Impl) st r :
  0 < sec -> rpc_call_timer_ i = TimerWaits false ->
  call_RPC setting sid op payload sec i = Done ((st, r), i') -> st <> Status_NETWORK_CONNECT_ERROR ->
  async_half i' = async_half i /\
  rpc_call_timer_ i' <> TimerWaits false /\
  forall i'', timer_fires i' = Done (tt, i'') -> async_half i'' = async_half i.
Proof.
  intros Hsec Hti Hcall Hst.
  destruct (call_started sid op payload sec i i' st r) as (i1 & _ & Eh & _ & _ & E); [lia|done|done|].
  pose (Q := fun j : Impl => async_half j = async_half i /\ rpc_call_timer_ j <> TimerWaits false).
  assert (forall j j', timer_fires j = Done (tt, j') -> Q j -> Q j') as Hfires.
  { intros j j' Ej [Hj Hn]. unfold Q. timer_cases Ej; intuition congruence. }
  assert (Q i') as [Hh Hn].
  { destruct (call_kept setting Q) with (7 := E) as (i2 & Ht & [(st' & E2)|(m & _ & ->)]); try done.
    - unfold Q, armed. by rewrite (proj2 (Z.ltb_lt _ _)).
    - injection E2 as _ _ <-. exact Ht. }
  split; [done|]. split; [done|]. intros i'' E'. apply (Hfires i' i'' E'). by split.
Qed.

(** A time-out is reported again. The flag of a time-out is reset only by a call that sets
    one: after a time-out, of whichever kind of call, a synchronous call without a
    time-out that fails on the network yields RPC_CALL_TIMEOUT. *)
Lemma stale_timeout_reported sid op payload (i i' : Impl) st r :
  was_timeout_ i = true -> call_RPC setting sid op payload 0 i = Done ((st, r), i') ->
  st <> Status_NETWORK_CONNECT_ERROR -> conn_sync_ i' = None -> st = Status_RPC_CALL_TIMEOUT.
Proof.
  intros Hw Hcall Hst Hc.
  destruct (call_started sid op payload 0 i i' st r) as (i1 & Hi1 & _ & _ & Ew & E); [lia|done|done|].
  pose (Q := fun j : Impl => was_timeout_ j = true /\ is_Some (conn_sync_ j)).
  destruct (call_kept setting Q) with (7 := E) as (i2 & [Hw2 Hc2] & [(st' & E2)|(m & _ & ->)]); try done.
  - intros c j [Hj _]. by split.
  - intros j j' Ej [Hj Hs]. unfold Q. timer_cases Ej; eauto.
  - unfold Q, armed. simpl. by rewrite Ew.
  - unfold call_failed, mbind, M_bind, modify, gets in E2. cbn in E2. rewrite Hw2 in E2. by injection E2 as <- _ _.
  - rewrite Hc in Hc2. by apply is_Some_None in Hc2.
Qed.
End Timer.

(** A server that takes the request and closes the connection. *)
#[local] Instance closing_peer : AsioSync unit := {|
  asio_connect := fun _ => (ec_success, tt);
  asio_read := fun _ _ => (ec_eof, [], false, tt);
  asio_write := fun b _ => (ec_success, len b, false, tt)
|}.

Lemma failed_call_timer_undefined_witness :
  exists i', call_RPC RpcClientSetting_new 1 7 [x68; x69] 5 (RpcClientImpl_new tt) =
      Done ((Status_NETWORK_RECV_ERROR, None), i') /\
    timer_fires i' = Undefined.
Proof.
  eexists. split; [vm_compute; reflexivity|].
  eapply (failed_call_timer_undefined RpcClientSetting_new 1 7 [x68; x69] 5 (RpcClientImpl_new tt)).
  - reflexivity.
  - vm_compute. reflexivity.
  - discriminate.
  - reflexivity.
  - reflexivity.
Defined.

(** An asynchronous call with a time-out, then a synchronous one. *)
Lemma sync_call_takes_timer_witness :
  exists i i', call_RPC_async RpcClientSetting_new ec_success 1 7 [x68; x69] 5 (RpcClientImpl_new tt) =
      Done (Status_OK, i) /\
    call_RPC RpcClientSetting_new 1 7 [x68; x69] 5 i = Done ((Status_NETWORK_RECV_ERROR, None), i') /\
    async_half i' = async_half i /\ rpc_call_timer_ i' <> TimerWaits false /\
    forall i'', timer_fires i' = Done (tt, i'') -> async_half i'' = async_half i.
Proof.
  eexists _, _. split; [vm_compute; reflexivity|]. split; [vm_compute; reflexivity|].
  eapply (sync_call_takes_timer RpcClientSetting_new 1 7 [x68; x69] 5).
  - reflexivity.
  - vm_compute. reflexivity.
  - vm_compute. reflexivity.
  - vm_compute. discriminate.
Defined.
