(* ===== verification/ClientAsyncRead.v ===== *)
(** * Receiving on an asynchronous client connection

    The read path refines the reference parser [decode]: run from a buffer, it calls the
    user's handler for the messages [decode] finds there, in order, and then waits for
    what [decode] says is missing. It leaves the sending side alone. *)

From Stdlib Require Import ZArith Lia Init.Byte.
From stdpp Require Import base list strings gmap.
From S2P Require Import Prelude Endian Message Buffer RpcMessage NetConn ClientConf Decode.
From S2P Require Import ClientAsync.

Section Read.
Context `{Host} `{AssertMode}.
Variable setting : RpcClientSetting.
Let limit := cl_recv_max_msg_size_ setting.
Abbreviation World := (TcpConnAsync * list upcall)%type.

(** The receive limit is a [uint32_t]. *)
Hypothesis limit_fits : fits_u 32 limit.

(** ** The wrapper *)

(** What the handler is told of a message. *)
Definition unwrap (m : Message) : upcall :=
  let h := RpcResponseHeader_from_net_endian (RpcResponseHeader_of_mem (payload_ m)) in
  if (len (payload_ m) <? sizeof_RpcResponseHeader) || negb (rs_magic h =? kRpcHeaderMagic)
  then mkUpcall Status_RECV_FORMAT_ERROR 65535 65535 []
  else if negb (rs_status h =? response_code Resp_OK) then mkUpcall (rs_status h) 65535 65535 []
  else mkUpcall Status_OK (rs_service_id h) (rs_opcode h)
         (zdrop sizeof_RpcResponseHeader (payload_ m)).

Definition notify (ms : list Message) : list upcall :=
  if has_handler setting then unwrap <$> ms else [].

Lemma notify_app ms1 ms2 : notify (ms1 ++ ms2) = notify ms1 ++ notify ms2.
Proof. unfold notify. case_match; [apply fmap_app|done]. Qed.

(** A message that does not trip the parser's assertion. *)
Definition tolerated (m : Message) : Prop :=
  assert_stops = false \/ sizeof_RpcResponseHeader <= len (payload_ m).

Lemma async_recv_wrapper_eq m l :
  tolerated m -> async_recv_wrapper setting m l = Done (tt, l ++ notify [m]).
Proof.
  intros Ht. unfold async_recv_wrapper, notify, unwrap. simpl fmap.
  destruct (decide (sizeof_RpcResponseHeader <= len (payload_ m))) as [Hp|Hp].
  - rewrite RpcResponseMessageParse_ok by done. cbn [rs_header_ rs_payload_ negb].
    rewrite (proj2 (Z.ltb_ge _ _)) by done. rewrite uwrap_small
      by (simpl; apply (load_int_fits 1), length_field_at; unfold zlen, sizeof_RpcResponseHeader in Hp; lia).
    destruct (has_handler setting); [|by rewrite app_nil_r]. simpl. by repeat case_match.
  - destruct Ht as [Ha|]; [|done].
    unfold RpcResponseMessageParse, mbind, M_bind, safe_assert. rewrite Ha.
    rewrite (proj2 (Z.leb_gt _ _)), (proj2 (Z.ltb_lt _ _)) by lia. simpl.
    destruct (has_handler setting); [done|by rewrite app_nil_r].
Qed.

(** ** Parsing *)

Definition header_taken (c : TcpConnAsync) : TcpConnAsync :=
  upd_recv (fun io => mkIOBound (io_block_ io) (parse_wire_header (ztake 16 (recv_data c)))
                        (mkBuffer (zdrop 16 (recv_data c)))) c.

Definition body_taken (c : TcpConnAsync) : TcpConnAsync :=
  upd_recv (set_buffer (mkBuffer (zdrop (length_ (ib_header_ (recv_bound_ c))) (recv_data c)))) c.

Lemma async_parse_header_eq c :
  16 <= len (recv_data c) < 2 ^ 32 ->
  parse_header setting c =
    Done (if accept_header limit (parse_wire_header (ztake 16 (recv_data c))) then 0 else -1,
          header_taken c).
Proof.
  intros [Hl Hu]. unfold parse_header, recv_consume, mbind, M_bind, gets, modify, mret, M_ret.
  rewrite get_length_small by done. fold (recv_data c).
  change sizeof_Header with 16. rewrite (proj2 (Z.ltb_ge _ _)) by done.
  unfold safe_assert. rewrite (proj2 (Z.leb_le _ _)) by done.
  assert (recv_data c <> []) by (intros E; rewrite E in Hl; done).
  rewrite consume_some by done. simpl. fold (recv_data c) limit.
  unfold accept_header, parse_wire_header, header_taken; simpl. rewrite (uwrap_small 32 limit) by done.
  destruct (_ =? kHeaderMagic), (_ =? kHeaderVersion), (limit =? 0); simpl; try done.
  rewrite Z.ltb_antisym. by destruct (_ <=? _).
Qed.

Lemma async_parse_msg_body_eq c :
  len (recv_data c) < 2 ^ 32 -> 0 <= length_ (ib_header_ (recv_bound_ c)) ->
  parse_msg_body c =
    let h := ib_header_ (recv_bound_ c) in
    if len (recv_data c) <? length_ h then Done ((1, Message_default), c)
    else Done ((0, mkMessage h (ztake (length_ h) (recv_data c))), body_taken c).
Proof. clear limit_fits limit.
  intros Hu Hh. unfold parse_msg_body, recv_consume, mbind, M_bind, gets, mret, M_ret.
  rewrite get_length_small by done. fold (recv_data c). cbv zeta.
  destruct (_ <? _) eqn:E; bool_prop; [done|].
  unfold safe_assert. rewrite (proj2 (Z.leb_le _ _)) by done.
  unfold body_taken. destruct (decide (length_ (ib_header_ (recv_bound_ c)) = 0)) as [E0|N0].
  - rewrite E0, consume_zero. unfold ztake, zdrop; simpl. unfold recv_data. by destruct (buffer_ _).
  - assert (recv_data c <> []) by (intros E'; rewrite E' in E; unfold zlen in E; simpl in E; lia).
    by rewrite consume_some by (done || lia).
Qed.

(** ** States of the connection *)

(** Two connections with the same sending side. *)
Record same_send (c c' : TcpConnAsync) : Prop := {
  ss_status : send_status_ c' = send_status_ c;
  ss_send : send_bound_ c' = send_bound_ c;
  ss_log : sent_log c' = sent_log c;
  ss_writes : sk_writes (socket_ (base_ c')) = sk_writes (socket_ (base_ c))
}.

#[export] Instance same_send_po : PreOrder same_send.
Proof. split; [by split|]. intros c1 c2 c3 [] []. split; congruence. Qed.

Record ready (c : TcpConnAsync) : Prop := {
  rd_stat : conn_stat c = kWorking;
  rd_reads : sk_reads (socket_ (base_ c)) = [];
  rd_size : len (recv_data c) < 2 ^ 32
}.

Definition good_header (h : Header) : Prop :=
  0 <= length_ h < 2 ^ 32 /\ accept_header limit h = true.

Definition live (c : TcpConnAsync) : Prop := conn_stat c = kWorking.

Definition holds (st : rstate) (c : TcpConnAsync) : Prop :=
  match st with
  | RHead b =>
      recv_data c = b /\ len b < 16 /\
      sk_reads (socket_ (base_ c)) = [(16 - len b, on_read_handler)]
  | RBody h b =>
      recv_data c = b /\ ib_header_ (recv_bound_ c) = h /\ good_header h /\ len b < length_ h /\
      sk_reads (socket_ (base_ c)) = [(Z.min (length_ h - len b) kFixedIoBufferSize, on_read_msg_handler)]
  | RBad => False
  end.

(** The outcome of reading: waiting for more, or closed. *)
Definition waits (st : rstate) (c : TcpConnAsync) : Prop :=
  match st with
  | RBad => conn_stat c = kClosed /\ sk_reads (socket_ (base_ c)) = []
  | _ => live c /\ holds st c
  end.

Lemma async_header_taken_ready c : ready c -> ready (header_taken c).
Proof. clear limit_fits limit.
  intros []. split; try done. unfold recv_data at 1; simpl.
  rewrite zlen_zdrop by lia. pose proof (zlen_nonneg (recv_data c)). lia.
Qed.

Lemma async_header_taken_good c :
  16 <= len (recv_data c) -> accept_header limit (parse_wire_header (ztake 16 (recv_data c))) = true ->
  good_header (ib_header_ (recv_bound_ (header_taken c))).
Proof.
  intros Hl Ha. split; [|done]. simpl.
  apply (parse_wire_header_wf (ztake 16 (recv_data c))).
  unfold ztake. rewrite length_take. unfold zlen in Hl. lia.
Qed.

Lemma async_body_taken_ready c :
  0 <= length_ (ib_header_ (recv_bound_ c)) -> ready c -> ready (body_taken c).
Proof. clear limit_fits limit.
  intros Hh []. split; try done. unfold recv_data at 1; simpl.
  rewrite zlen_zdrop by lia. pose proof (zlen_nonneg (recv_data c)). lia.
Qed.

Lemma async_close_eq c :
  exists c', on_base (sock_shutdown_and_close Shut_kBoth) c = Done (tt, c') /\
    same_send c c' /\ conn_stat c' = kClosed /\
    sk_reads (socket_ (base_ c')) = sk_reads (socket_ (base_ c)) /\ recv_bound_ c' = recv_bound_ c.
Proof.
  destruct (sock_shutdown_and_close_spec Shut_kBoth (base_ c)) as (b & Eb & Es & Er & Ew).
  unfold on_base, zoom. rewrite Eb. eexists; split; [done|]. by split_and!.
Qed.

Lemma async_on_conn_eq {A} (m : M TcpConnAsync A) c (l : list upcall) a c' :
  m c = Done (a, c') -> on_conn m (c, l) = Done (a, (c', l)).
Proof. intros E. unfold on_conn, zoom; simpl. by rewrite E. Qed.

(** The read path from parser state [st]. *)
Definition reads_as {A} (m : M World A) (st : rstate) (c : TcpConnAsync) (l : list upcall) : Prop :=
  let '(ms, st') := decode_all limit st in
  Forall tolerated ms ->
  exists a c', m (c, l) = Done (a, (c', l ++ notify ms)) /\ same_send c c' /\ waits st' c'.

Lemma async_reads_as_unit {A B} (m : M World A) (b : B) st c l :
  reads_as m st c l -> reads_as (m ≫= fun _ => mret b) st c l.
Proof.
  unfold reads_as, mbind, M_bind, mret, M_ret. destruct (decode_all limit st) as [ms st'].
  intros Hm Ht. destruct (Hm Ht) as (a & c' & -> & Hr & Hw). eauto 6.
Qed.

(** ** The rounds *)

Lemma async_do_read_ready fuel c (l : list upcall) :
  ready c ->
  do_read setting (Datatypes.S fuel) (c, l) =
    if len (recv_data c) <? 16 then
      Done (true, (upd_base (async_read (16 - len (recv_data c)) on_read_handler) c, l))
    else (ret ← on_conn (parse_header setting);
          if ret =? 0 then _ ← do_read_msg setting fuel; mret true
          else if 0 <? ret then _ ← do_read setting fuel; mret true
          else _ ← on_conn (on_base (sock_shutdown_and_close Shut_kBoth)); mret false) (c, l).
Proof.
  intros []. cbn [do_read]. unfold mbind at 1, M_bind at 1. erewrite async_on_conn_eq by done.
  rewrite rd_stat0. cbn [negb]. rewrite (bool_decide_true (kWorking = kWorking)) by done. cbn [negb].
  unfold mbind at 1, M_bind at 1. erewrite async_on_conn_eq by done.
  rewrite get_length_small by done. fold (recv_data c). change sizeof_Header with 16.
  by destruct (_ <? 16).
Qed.

Lemma async_do_read_msg_ready fuel c (l : list upcall) :
  let h := ib_header_ (recv_bound_ c) in
  ready c -> good_header h ->
  do_read_msg setting (Datatypes.S fuel) (c, l) =
    if len (recv_data c) <? length_ h then
      Done (tt, (upd_base (async_read (Z.min (length_ h - len (recv_data c)) kFixedIoBufferSize)
                            on_read_msg_handler) c, l))
    else (_ ← wrapper_handler_ setting (mkMessage h (ztake (length_ h) (recv_data c)));
          _ ← do_read setting fuel; mret tt) (body_taken c, l).
Proof.
  intros h [] [Hh _]. subst h. cbn [do_read_msg].
  unfold mbind at 1, M_bind at 1. erewrite async_on_conn_eq by done.
  rewrite rd_stat0. rewrite (bool_decide_true (kWorking = kWorking)) by done. cbn [negb].
  unfold mbind at 1, M_bind at 1. erewrite async_on_conn_eq by done.
  unfold mbind at 1, M_bind at 1. erewrite async_on_conn_eq by done.
  rewrite get_length_small by done. fold (recv_data c).
  destruct (_ <? _) eqn:E; bool_prop.
  - by rewrite uwrap_small by (split; pose proof (zlen_nonneg (recv_data c)); lia).
  - unfold mbind at 1, M_bind at 1. erewrite async_on_conn_eq
      by (rewrite async_parse_msg_body_eq by (done || lia); cbv zeta;
          rewrite (proj2 (Z.ltb_ge _ _)) by done; done).
    done.
Qed.

(** A header is parsed: the message follows, or the connection is closed. *)
Lemma async_head_round {A} (K : Z -> M World A) c l :
  let h := parse_wire_header (ztake 16 (recv_data c)) in
  ready c -> 16 <= len (recv_data c) ->
  (accept_header limit h = true ->
   reads_as (K 0) (RBody h (zdrop 16 (recv_data c))) (header_taken c) l) ->
  (forall c', on_base (sock_shutdown_and_close Shut_kBoth) (header_taken c) = Done (tt, c') ->
   exists a, K (-1) (header_taken c, l) = Done (a, (c', l))) ->
  reads_as (ret ← on_conn (parse_header setting); K ret) (RHead (recv_data c)) c l.
Proof.
  intros h Hc Hl Hacc Hbad. unfold reads_as. rewrite decode_all_head.
  rewrite (proj2 (Z.ltb_ge _ _)) by done. fold h. unfold mbind, M_bind.
  rewrite (async_on_conn_eq _ _ _ _ _ (async_parse_header_eq c (conj Hl (rd_size _ Hc)))). fold h.
  destruct (accept_header limit h) eqn:Ha.
  - specialize (Hacc eq_refl). unfold reads_as in Hacc.
    destruct (decode_all _ _) as [ms st']. intros Ht. destruct (Hacc Ht) as (a & c' & Em & Hr & Hw).
    rewrite Em. eexists _, _. split; [done|]. split; [|done]. etransitivity; [|exact Hr]. by split.
  - intros _. destruct (async_close_eq (header_taken c)) as (c' & Ec & Hr & Hs & Hk & _).
    destruct (Hbad c' Ec) as [a Ea]. rewrite Ea. eexists _, _.
    replace (l ++ notify []) with l by (unfold notify; case_match; by rewrite app_nil_r).
    split; [done|]. split; [etransitivity; [|exact Hr]; by split|].
    split; [done|]. rewrite Hk. apply Hc.
Qed.

(** A complete body: the handler is called and reading goes on. *)
Lemma async_body_round {A} (K : M World A) c l :
  let h := ib_header_ (recv_bound_ c) in
  ready c -> good_header h -> length_ h <= len (recv_data c) ->
  (forall l', reads_as K (RHead (recv_data (body_taken c))) (body_taken c) l') ->
  reads_as (fun w => (_ ← wrapper_handler_ setting (mkMessage h (ztake (length_ h) (recv_data c))); K)
                       (body_taken (fst w), snd w))
    (RBody h (recv_data c)) c l.
Proof.
  intros h Hc [[Hh0 Hh1] Ha] Hl HK. unfold reads_as. rewrite decode_all_body by done.
  rewrite (proj2 (Z.ltb_ge _ _)) by done. cbn [fst snd].
  change (zdrop (length_ h) (recv_data c)) with (recv_data (body_taken c)).
  set (m := mkMessage h _). specialize (HK (l ++ notify [m])). unfold reads_as in HK.
  destruct (decode_all limit (RHead _)) as [ms st']. intros Ht. apply Forall_cons_1 in Ht as [Htm Ht].
  destruct (HK Ht) as (a & c' & Em & Hr & Hw). unfold mbind, M_bind, wrapper_handler_, zoom.
  cbn [fst snd]. rewrite async_recv_wrapper_eq, Em by done. eexists _, _.
  split; [by rewrite <-app_assoc, <-notify_app|]. split; [|done]. etransitivity; [|exact Hr]. by split.
Qed.

Lemma async_issue_head c :
  ready c -> len (recv_data c) < 16 ->
  let c' := upd_base (async_read (16 - len (recv_data c)) on_read_handler) c in
  same_send c c' /\ waits (RHead (recv_data c)) c'.
Proof. intros [? E ?] Hl. split; [by split|]. split; [done|]. split_and!; [done|done|]. simpl. by rewrite E. Qed.

Lemma async_issue_body c :
  let h := ib_header_ (recv_bound_ c) in
  ready c -> good_header h -> len (recv_data c) < length_ h ->
  let c' := upd_base (async_read (Z.min (length_ h - len (recv_data c)) kFixedIoBufferSize)
                       on_read_msg_handler) c in
  same_send c c' /\ waits (RBody h (recv_data c)) c'.
Proof.
  intros h [? E ?] Hg Hl. split; [by split|]. split; [done|]. split_and!; try done. simpl. by rewrite E.
Qed.

Lemma notify_nil l : l ++ notify [] = l.
Proof. unfold notify. case_match; apply app_nil_r. Qed.

Lemma async_read_specs fuel :
  (forall c (l : list upcall), ready c -> (need (RHead (recv_data c)) <= fuel)%nat ->
     reads_as (do_read setting fuel) (RHead (recv_data c)) c l) /\
  (forall c (l : list upcall), ready c -> good_header (ib_header_ (recv_bound_ c)) ->
     (need (RBody (ib_header_ (recv_bound_ c)) (recv_data c)) <= fuel)%nat ->
     reads_as (do_read_msg setting fuel) (RBody (ib_header_ (recv_bound_ c)) (recv_data c)) c l).
Proof.
  induction fuel as [|fuel [IHr IHm]]; [split; intros; simpl in *; lia|]. split.
  - intros c l Hc Hfuel. unfold reads_as. rewrite async_do_read_ready by done.
    destruct (len (recv_data c) <? 16) eqn:E; bool_prop.
    { rewrite decode_all_head, (proj2 (Z.ltb_lt _ _)) by done. intros _.
      eexists _, _. rewrite notify_nil. split; [done|]. by apply async_issue_head. }
    apply (async_head_round (fun ret => if ret =? 0 then _ ← do_read_msg setting fuel; mret true
          else if 0 <? ret then _ ← do_read setting fuel; mret true
          else _ ← on_conn (on_base (sock_shutdown_and_close Shut_kBoth)); mret false)); [done..| |].
    + intros Ha. pose proof (async_header_taken_good c E Ha) as Hg.
      apply (async_reads_as_unit (do_read_msg setting fuel) true _ (header_taken c)).
      apply (IHm (header_taken c)); [by apply async_header_taken_ready|done|].
      simpl in *. unfold recv_data at 1; simpl. rewrite length_zdrop. unfold zlen in E. lia.
    + intros c' Ec. exists false. simpl. unfold mbind, M_bind. by rewrite (async_on_conn_eq _ _ _ _ _ Ec).
  - intros c l Hc Hg Hfuel. unfold reads_as. rewrite async_do_read_msg_ready by done.
    destruct (len (recv_data c) <? _) eqn:E; bool_prop.
    { rewrite decode_all_body, (proj2 (Z.ltb_lt _ _)) by (done || apply Hg). intros _.
      eexists _, _. rewrite notify_nil. split; [done|]. by apply async_issue_body. }
    apply (async_body_round (_ ← do_read setting fuel; mret tt)); [done..|].
    intros l'. apply async_reads_as_unit, IHr; [apply async_body_taken_ready; [apply Hg|done]|].
    unfold recv_data at 1; simpl in *. rewrite length_zdrop. lia.
Qed.
End Read.
