(* ===== verification/ClientAsyncSend.v ===== *)
(** * Sending on an asynchronous client connection

    The client's write chain is the server's, without timers and cancellation: a client
    connection is embedded as a server connection, and [do_write], [send_net_message] and
    a completed write are those of the server there. The server's invariant of what
    reaches the wire carries over. *)

From Stdlib Require Import ZArith Lia Init.Byte.
From stdpp Require Import base list strings gmap.
From S2P Require Import Prelude Endian Message Buffer RpcMessage NetConn External NetConf ClientConf.
From S2P Require Import Decode ServerConn ServerSend ServerRead ServerInv ClientAsync ClientAsyncRead.

(** Settings without time-outs; the timers do not matter. *)
Definition plain_conf : NetConf (H:=Concrete.timer) := NetConf_new.

Definition embed (c : TcpConnAsync) : ServerConn.TcpConnAsync :=
  ServerConn.mkTcpConnAsync (base_ c) false None (recv_bound_ c) (send_status_ c)
    (send_bound_ c) (sent_log c).
Definition unembed (s : ServerConn.TcpConnAsync) : TcpConnAsync :=
  mkTcpConnAsync (ServerConn.base_ s) (ServerConn.recv_bound_ s) (ServerConn.send_status_ s)
    (ServerConn.send_bound_ s) (ServerConn.sent_log s).

Section Send.
Context `{Host} `{AssertMode}.
Variable setting : RpcClientSetting.

(** The invariant of the sending side. *)
Definition send_ok (wire : bytes) (c : TcpConnAsync) : Prop := send_inv plain_conf wire (embed c).

(** Sending does not stall on an open connection. *)
Definition send_flows (c : TcpConnAsync) : Prop := flowing (embed c).

Lemma send_flows_same c c' : same_send c c' -> (live c' -> live c) -> send_flows c -> send_flows c'.
Proof.
  intros [E1 E2 E3 E4] Hl Hf. apply (flowing_same (embed c)); [by split| |done].
  intros [Hs _]. split; [by apply Hl|done].
Qed.

(** After a write, as the server does it. *)
Definition after_write (c : TcpConnAsync) : TcpConnAsync := unembed (written plain_conf (embed c)).

Lemma embed_after_write c : embed (after_write c) = written plain_conf (embed c).
Proof. unfold after_write, written, locked. by repeat case_match. Qed.

Lemma embed_block wire c : send_ok wire c -> len (io_block_ (send_bound_ c)) = kFixedIoBufferSize.
Proof. intros [Hb _ _]. exact Hb. Qed.

Lemma async_do_write_guard_eq c : do_write_guard c = Done (guard (embed c), c).
Proof.
  unfold do_write_guard, guard, mbind, M_bind, gets, mret, M_ret.
  change (ServerConn.send_status_ (embed c)) with (send_status_ c).
  change (ServerConn.conn_stat (embed c)) with (conn_stat c).
  change (ServerConn.was_cancelled_ (embed c)) with false.
  by repeat case_match.
Qed.

(** The critical section, as the server runs it. The server's sets the status where the
    client's returns at once, so they agree when the buffer is not empty or no write is
    under way. *)
Lemma async_do_write_locked_eq c :
  len (io_block_ (send_bound_ c)) = kFixedIoBufferSize ->
  send_status_ c = Send_kDone \/ get_length (buffer_ (send_bound_ c)) <> 0 ->
  do_write_locked c = Done (true, unembed (locked plain_conf (embed c))).
Proof.
  intros Hb Hs. unfold do_write_locked, locked, mbind, M_bind, gets, mret, M_ret, modify.
  change (ServerConn.send_bound_ (embed c)) with (send_bound_ c).
  destruct (_ =? 0) eqn:E; bool_prop.
  { destruct Hs as [Es|]; [|done]. destruct c. simpl in Es. by subst. }
  pose proof (next_write_range (embed c) E) as [[Hk1 Hk2] Hk3].
  change (Z.min (get_length (buffer_ (send_bound_ c))) kFixedIoBufferSize) with (next_write (embed c)).
  unfold send_consume. rewrite consume_raw_some by (rewrite ?Hb; done). done.
Qed.

Lemma async_do_write_eq c :
  len (io_block_ (send_bound_ c)) = kFixedIoBufferSize ->
  do_write c = Done (default true (guard (embed c)), after_write c).
Proof.
  intros Hb. unfold do_write, after_write, written, mbind, M_bind. rewrite async_do_write_guard_eq.
  destruct (guard (embed c)) as [r|] eqn:Eg; [by destruct c|]. rewrite async_do_write_locked_eq; [done|done|].
  left. unfold guard in Eg. case_match eqn:Es; [done|]. bool_prop. by apply bool_decide_eq_true in Es.
Qed.

Definition queued (msg : Message) (c : TcpConnAsync) : TcpConnAsync :=
  unembed (appended msg (embed c)).

Definition too_long (msg : Message) : bool :=
  negb (cl_send_max_msg_size_ setting =? 0) && (cl_send_max_msg_size_ setting <? length_ (header_ msg)).

Lemma send_net_message_async_eq msg c :
  len (io_block_ (send_bound_ c)) = kFixedIoBufferSize ->
  send_net_message setting msg c =
    if too_long msg then Done (false, c)
    else Done (default true (guard (embed c)), after_write (queued msg c)).
Proof.
  intros Hb. unfold send_net_message. fold (too_long msg). destruct (too_long msg); [done|].
  unfold mbind, M_bind, modify.
  assert (log_sent msg (upd_send (fun io => set_buffer (append msg (buffer_ io)).2 io) c) = queued msg c) as ->.
  { unfold queued, appended, unembed, log_sent, upd_send, set_buffer, net_str; simpl.
    unfold append, append_internal; simpl. by rewrite app_assoc. }
  by rewrite async_do_write_eq.
Qed.

(** The connection after a message was given to it. *)
Definition after_send (msg : Message) (c : TcpConnAsync) : TcpConnAsync :=
  if too_long msg then c else after_write (queued msg c).

Lemma queued_ok wire msg c : send_ok wire c -> send_ok wire (queued msg c).
Proof. apply appended_inv. Qed.

Lemma after_write_ok wire c : send_ok wire c -> send_ok wire (after_write c).
Proof. intros Hc. unfold send_ok. rewrite embed_after_write. by apply written_inv. Qed.

Lemma after_write_flows c : (send_status_ c = Send_kSend -> send_flows c) -> send_flows (after_write c).
Proof. intros Hf. unfold send_flows. rewrite embed_after_write. by apply written_flowing. Qed.

(** Writing leaves the receiving side alone. *)
Lemma after_write_recv c :
  recv_bound_ (after_write c) = recv_bound_ c /\ conn_stat (after_write c) = conn_stat c /\
  sk_reads (socket_ (base_ (after_write c))) = sk_reads (socket_ (base_ c)).
Proof. destruct (written_same_recv plain_conf (embed c)) as [E1 E2 _ E3 _ _]. done. Qed.

Lemma after_write_log c : sent_log (after_write c) = sent_log c.
Proof. unfold after_write, written, locked. by repeat case_match. Qed.

Lemma same_send_ok wire c c' : same_send c c' -> send_ok wire c -> send_ok wire c'.
Proof.
  intros [E1 E2 E3 E4] Hc. eapply send_inv_same; [|done|exact Hc]. by split.
Qed.

(** What was written is the front of what was accepted. *)
Lemma send_ok_wire wire c : send_ok wire c -> wire `prefix_of` stream (sent_log c).
Proof. apply (send_inv_wire plain_conf wire (embed c)). Qed.

(** An open connection has written everything, or is writing. *)
Lemma send_flows_phase wire c :
  send_ok wire c -> send_flows c -> live c -> len (stream (sent_log c)) < len wire + 2 ^ 32 ->
  wire = stream (sent_log c) \/ sk_writes (socket_ (base_ c)) <> [].
Proof.
  intros Hs Hf Hl Hu. assert (ServerRead.live (embed c)) as Hl' by by split.
  pose proof (flowing_buffered plain_conf wire (embed c) Hs Hf Hl') as Hb.
  change (ServerConn.sent_log (embed c)) with (sent_log c) in *.
  destruct (flowing_phase plain_conf wire (embed c) Hs Hf Hl') as [(_ & _ & _ & ?)|[_ ?]];
    [lia|by left|by right].
Qed.

(** A completed write: the block is on the wire. *)
Lemma write_done_ok wire c n base' :
  send_ok wire c -> sk_writes (socket_ (base_ c)) = [n] ->
  sk_writes (socket_ base') = [] ->
  0 < n /\ send_ok (wire ++ ztake n (io_block_ (send_bound_ c)))
    (set_send_status Send_kDone (upd_base (fun _ => base') c)).
Proof.
  intros [Hb Ht [E1 E2 E3|k E1 E2 Hk E4|E1 E2 E3]] Ew E'; simpl in *; [congruence| |congruence].
  assert (n = k) as -> by congruence. split; [lia|]. split; [done|done|].
  apply phase_idle; [done|done|]. rewrite <-app_assoc. exact E4.
Qed.

(** A failed write ends the writing: the front of the block may be on the wire. *)
Lemma write_failed_ok wire c n k base' :
  send_ok wire c -> sk_writes (socket_ (base_ c)) = [n] -> 0 <= k <= n ->
  sk_writes (socket_ base') = [] ->
  send_ok (wire ++ ztake k (io_block_ (send_bound_ c))) (upd_base (fun _ => base') c) /\
  send_status_ c = Send_kSend.
Proof.
  intros [Hb Ht [E1 E2 E3|k' E1 E2 Hk E4|E1 E2 E3]] Ew Hk' E'; simpl in *; [congruence| |congruence].
  assert (n = k') as -> by congruence. split; [|done]. split; [done|done|].
  apply phase_failed; [done|done|]. change (ServerConn.sent_log (embed _)) with (sent_log c).
  rewrite <-E4. apply prefix_app, prefix_app_r, ztake_prefix. lia.
Qed.
End Send.
