(* ===== verification/ClientRace.v ===== *)
(** * The user's thread and the io_service's inside the client's [do_write]

    As on the server, [do_write] of the client's connection tests [send_status_] before it
    takes [bound_mutex_]. It is reached by a thread of the user, from [send_net_message],
    and by a thread of the io_service, from [write_handler]. Here both take steps: the
    append, or the completion that sets the status back; the tests; the critical section.
    A schedule exists after which two writes are outstanding on the same [io_block_]. *)

From Stdlib Require Import ZArith Lia Init.Byte.
From stdpp Require Import base list strings gmap.
From S2P Require Import Prelude Endian Message Buffer RpcMessage NetConn External NetConf ClientConf.
From S2P Require Import Decode ServerConn ServerSend ServerRead ServerProps ServerRace.
From S2P Require Import ClientAsync ClientAsyncRead ClientAsyncSend.

(** Where a thread is: in [send_net_message] or, with the number of bytes written, in
    [write_handler]. *)
Inductive client_pc :=
| CpSend (msg : Message)       (* the user's thread, about to append *)
| CpWritten (ec : error_code) (bytes_transferred : Z)   (* the io_service's, about to handle the completion *)
| CpTest                       (* about to test send_status_ and the connection *)
| CpLocked                     (* passed the tests, about to take the mutex *)
| CpReturned.

Section Race.
Context `{Host} `{AssertMode}.
Variable setting : RpcClientSetting.

Definition client_thread_step (p : client_pc) : M TcpConnAsync client_pc :=
  match p with
  | CpSend msg =>
      if negb (cl_send_max_msg_size_ setting =? 0) &&
         (cl_send_max_msg_size_ setting <? length_ (header_ msg))
      then mret CpReturned else
      _ ← modify (upd_send (fun io => set_buffer (append msg (buffer_ io)).2 io));
      _ ← modify (log_sent msg);
      mret CpTest
  | CpWritten ec bytes_transferred =>
      if ec_failed ec then _ ← handle_socket_ec ec; mret CpReturned else
      _ ← safe_assert (0 <? bytes_transferred);
      _ ← modify (set_send_status Send_kDone);
      mret CpTest
  | CpTest =>
      r ← do_write_guard;
      mret (match r with Some _ => CpReturned | None => CpLocked end)
  | CpLocked => _ ← do_write_locked; mret CpReturned
  | CpReturned => mret CpReturned
  end.

Abbreviation run_client := (run_threads client_thread_step).

(** A thread that is not interrupted does what [send_net_message], or [write_handler], does. *)
Lemma client_send_alone msg c :
  len (io_block_ (send_bound_ c)) = kFixedIoBufferSize ->
  exists r c' ps, send_net_message setting msg c = Done (r, c') /\
    run_client [0; 0; 0]%nat ([CpSend msg], c) = Done (ps, c').
Proof.
  intros Hb. unfold run_threads, step_thread, client_thread_step, send_net_message; simpl.
  destruct (negb _ && _); [by eexists _, _, _|]. unfold mbind, M_bind, modify, mret, M_ret. simpl.
  set (c1 := log_sent msg _). assert (len (io_block_ (send_bound_ c1)) = kFixedIoBufferSize) as Hb1 by done.
  rewrite (async_do_write_eq c1 Hb1), async_do_write_guard_eq. unfold after_write, written.
  destruct (guard (embed c1)) as [b|] eqn:Eg.
  - eexists _, _, _. split; [done|]. simpl. by destruct c.
  - simpl. rewrite async_do_write_locked_eq; [by eexists _, _, _|done|].
    left. unfold guard in Eg. case_match eqn:Es; [done|]. bool_prop. by apply bool_decide_eq_true in Es.
Qed.

Lemma client_written_alone n c :
  0 < n -> len (io_block_ (send_bound_ c)) = kFixedIoBufferSize ->
  exists c' ps, write_handler ec_success n c = Done (tt, c') /\
    run_client [0; 0; 0]%nat ([CpWritten ec_success n], c) = Done (ps, c').
Proof.
  intros Hn Hb. unfold run_threads, step_thread, client_thread_step, write_handler; simpl.
  unfold mbind, M_bind, modify, mret, M_ret, safe_assert. rewrite (proj2 (Z.ltb_lt _ _)) by done. simpl.
  set (c1 := set_send_status Send_kDone c). assert (len (io_block_ (send_bound_ c1)) = kFixedIoBufferSize) as Hb1 by done.
  rewrite (async_do_write_eq c1 Hb1), async_do_write_guard_eq. unfold after_write, written.
  destruct (guard (embed c1)) as [b|] eqn:Eg.
  - eexists _, _. split; [done|]. simpl. by destruct c.
  - simpl. rewrite async_do_write_locked_eq; [by eexists _, _|done|by left].
Qed.

(** What the second critical section finds after the first. *)
Lemma client_locked_again c :
  len (io_block_ (send_bound_ c)) = kFixedIoBufferSize -> send_status_ c = Send_kDone ->
  kFixedIoBufferSize < len (send_data c) < 2 ^ 32 ->
  let n2 := Z.min (len (send_data c) - kFixedIoBufferSize) kFixedIoBufferSize in
  exists c1 c2, do_write_locked c = Done (true, c1) /\ do_write_locked c1 = Done (true, c2) /\
    sk_writes (socket_ (base_ c2)) = sk_writes (socket_ (base_ c)) ++ [kFixedIoBufferSize; n2] /\
    ztake n2 (io_block_ (send_bound_ c2)) = ztake n2 (zdrop kFixedIoBufferSize (send_data c)).
Proof.
  intros Hb Hs Hl n2.
  assert (get_length (buffer_ (ServerConn.send_bound_ (embed c))) = len (send_data c)) as Eg
    by (apply get_length_small, Hl).
  assert (timer_ok plain_conf (embed c)) as Ht by done.
  destruct (locked_again plain_conf (embed c) Ht Hb Hl) as (s2 & E2 & Ew & Eb).
  exists (unembed (locked plain_conf (embed c))), (unembed s2).
  split; [apply async_do_write_locked_eq; auto|].
  destruct (locked_writes plain_conf (embed c)) as [_ El]; [rewrite Eg; unfold kFixedIoBufferSize in *; lia|].
  set (c1 := unembed (locked plain_conf (embed c))) in *.
  assert (embed c1 = locked plain_conf (embed c)) as Ee.
  { unfold c1, locked. by repeat case_match. }
  split; [|done]. rewrite <-Ee in E2.
  rewrite do_write_locked_eq in E2 by (rewrite ?Ee; apply (locked_same_recv plain_conf (embed c)); done).
  injection E2 as <-. apply async_do_write_locked_eq.
  - apply (locked_same_recv plain_conf (embed c)), Hb.
  - right. assert (len (send_data c1) = len (send_data c) - next_write (embed c)) as El1
      by (rewrite <-(f_equal (fun s => len (ServerConn.send_data s)) Ee) in El; exact El).
    assert (next_write (embed c) = kFixedIoBufferSize) as En
      by (unfold next_write; rewrite Eg; lia).
    rewrite get_length_small; change (data_ (buffer_ (send_bound_ c1))) with (send_data c1);
      unfold kFixedIoBufferSize in *; lia.
Qed.

(** The unlocked test of [send_status_] lets two writes start. When a write completes with
    more than one block left to send, or the user's message makes it so, and the user's
    thread appends and tests after the completion set the status back and before the
    io_service's thread enters the critical section, two writes are outstanding and the
    block the first one is to send was overwritten by the second. *)
Lemma client_do_write_race n msg c :
  0 < n -> live c -> sk_writes (socket_ (base_ c)) = [] -> len (io_block_ (send_bound_ c)) = kFixedIoBufferSize ->
  too_long setting msg = false -> kFixedIoBufferSize < len (send_data c ++ net_str msg) < 2 ^ 32 ->
  let rest := send_data c ++ net_str msg in
  let n2 := Z.min (len rest - kFixedIoBufferSize) kFixedIoBufferSize in
  exists c', run_client [0; 1; 1; 0; 0; 1]%nat ([CpWritten ec_success n; CpSend msg], c) =
      Done ([CpReturned; CpReturned], c') /\
    sk_writes (socket_ (base_ c')) = [kFixedIoBufferSize; n2] /\
    ztake n2 (io_block_ (send_bound_ c')) = ztake n2 (zdrop kFixedIoBufferSize rest).
Proof.
  intros Hn Hl Hw Hb Ho Hlen rest n2. set (c1 := set_send_status Send_kDone c). set (c2 := queued msg c1).
  assert (client_thread_step (CpWritten ec_success n) c = Done (CpTest, c1)) as E1.
  { cbn. unfold mbind, M_bind, safe_assert. by rewrite (proj2 (Z.ltb_lt _ _)). }
  assert (client_thread_step (CpSend msg) c1 = Done (CpTest, c2)) as E2.
  { cbn. fold (too_long setting msg). rewrite Ho. unfold mbind, M_bind, modify.
    do 2 f_equal. unfold c2, queued, appended, unembed, log_sent, upd_send, set_buffer, net_str; simpl.
    unfold append, append_internal; simpl. by rewrite app_assoc. }
  assert (client_thread_step CpTest c2 = Done (CpLocked, c2)) as E3.
  { cbn. unfold mbind, M_bind. rewrite async_do_write_guard_eq. unfold guard.
    change (ServerConn.conn_stat (embed c2)) with (conn_stat c). unfold live in Hl. rewrite Hl.
    by rewrite !bool_decide_true by done. }
  assert (send_data c2 = rest) as Ed by done.
  destruct (client_locked_again c2) as (c3 & c4 & E4 & E5 & Ew & Eb); [done|done|by rewrite Ed|].
  exists c4. rewrite Ed in *. change (sk_writes (socket_ (base_ c2))) with (sk_writes (socket_ (base_ c))) in Ew.
  rewrite Hw in Ew. split; [|done].
  erewrite run_threads_step by (reflexivity || exact E1). erewrite run_threads_step by (reflexivity || exact E2).
  do 2 (erewrite run_threads_step by (reflexivity || exact E3)).
  erewrite run_threads_step by (reflexivity || (cbn; unfold mbind, M_bind; rewrite E4; reflexivity)).
  by erewrite run_threads_step by (reflexivity || (cbn; unfold mbind, M_bind; rewrite E5; reflexivity)).
Qed.
End Race.

From S2P Require Import Demo.

(** A request of 5000 bytes is being written; its first block completes while the user makes
    the next call: the second block and the third are written at once, from one block. *)
Definition race_start : TcpConnAsync :=
  upd_base (upd_socket (fun s => mkSocket (sk_calls s) (sk_reads s) []))
    (after_send RpcClientSetting_new (Message_of_data (replicate 5000 x61)) (TcpConnAsync_new Socket_new)).

Example client_race_example :
  match run_threads (client_thread_step RpcClientSetting_new) [0; 1; 1; 0; 0; 1]%nat
    ([CpWritten ec_success 2048; CpSend (Message_of_data [x62; x63])], race_start) with
  | Done (_, c) => sk_writes (socket_ (base_ c)) = [2048; 938]
  | _ => False
  end.
Proof. vm_compute. reflexivity. Qed.
