(* ===== verification/ClientAsyncSystem.v ===== *)
(** * An asynchronous client connection and its environment

    The connection as a state machine, like the server's: messages are sent, operations
    complete or fail, the call timer or the destructor closes the socket, each handled by
    the function of the source, which runs from start to end: a call of the user's thread
    that meets a completion inside [do_write] is the subject of ClientRace. [cl_inv] holds
    in every reachable state. *)

From Stdlib Require Import ZArith Lia Init.Byte.
From stdpp Require Import base list strings gmap.
From S2P Require Import Prelude Endian Message Buffer RpcMessage NetConn ClientConf Decode.
From S2P Require Import ClientAsync ClientAsyncRead ClientAsyncSend.

Section System.
Context `{Host} `{AssertMode}.
Variable setting : RpcClientSetting.
Let limit := cl_recv_max_msg_size_ setting.
Abbreviation World := (TcpConnAsync * list upcall)%type.

(** [awire]: the bytes the server was sent; [arcvd]: the bytes asio delivered. *)
Record ASys := mkASys {
  aconn : TcpConnAsync;
  acalls : list upcall;
  awire : bytes;
  arcvd : bytes
}.

Inductive aevent :=
| ASend (msg : Message)                   (* a call sends its request *)
| AReadDone (data : bytes)                (* the outstanding read completes *)
| AReadError (ec : error_code)
| AWriteDone                              (* the outstanding write completes *)
| AWriteError (ec : error_code) (k : Z)   (* it fails after [k] bytes *)
| AClose.                                 (* the call timer, or the destructor *)

Definition a_read_popped (c : TcpConnAsync) : TcpConnAsync :=
  upd_base (upd_socket (fun s => mkSocket (sk_calls s) (tail (sk_reads s)) (sk_writes s))) c.
Definition a_write_popped (c : TcpConnAsync) : TcpConnAsync :=
  upd_base (upd_socket (fun s => mkSocket (sk_calls s) (sk_reads s) (tail (sk_writes s)))) c.

Definition a_delivered (data : bytes) (c : TcpConnAsync) : TcpConnAsync :=
  upd_recv (fill_io_block data) (a_read_popped c).

#[export] Instance a_live_dec c : Decision (live c).
Proof. unfold live. apply _. Defined.

(** [operation_aborted] reports a closed socket. *)
Definition a_may_fail (ec : error_code) (c : TcpConnAsync) : bool :=
  ec_failed ec && (negb (bool_decide (ec = ec_operation_aborted)) || negb (bool_decide (live c))).

Definition a_enabled (e : aevent) (s : ASys) : bool :=
  match e with
  | AReadDone data =>
      match sk_reads (socket_ (base_ (aconn s))) with
      | (n, _) :: _ => (n <=? len data) && (len data <=? kFixedIoBufferSize)
      | [] => false
      end
  | AReadError ec =>
      match sk_reads (socket_ (base_ (aconn s))) with
      | _ :: _ => a_may_fail ec (aconn s)
      | [] => false
      end
  | AWriteDone => match sk_writes (socket_ (base_ (aconn s))) with _ :: _ => true | [] => false end
  | AWriteError ec k =>
      match sk_writes (socket_ (base_ (aconn s))) with
      | n :: _ => (0 <=? k) && (k <=? n) && a_may_fail ec (aconn s)
      | [] => false
      end
  | _ => true
  end.

Definition a_run {A} (m : M World A) (c : TcpConnAsync) (s : ASys) (wire rcvd : bytes) : outcome ASys :=
  match m (c, acalls s) with
  | Done (_, (c', l')) => Done (mkASys c' l' wire rcvd)
  | AssertFailed => AssertFailed
  | Undefined => Undefined
  | OutOfFuel => OutOfFuel
  end.

Definition a_read_completion (h : read_tag) : error_code -> Z -> M World unit :=
  match h with
  | on_read_handler => read_handler setting
  | on_read_msg_handler => read_msg_handler setting
  end.

Definition a_handle (e : aevent) (s : ASys) : outcome ASys :=
  let c := aconn s in
  match e with
  | ASend msg => a_run (on_conn (send_net_message setting msg)) c s (awire s) (arcvd s)
  | AReadDone data =>
      match sk_reads (socket_ (base_ c)) with
      | (_, h) :: _ =>
          a_run (a_read_completion h ec_success (len data)) (a_delivered data c) s
            (awire s) (arcvd s ++ data)
      | [] => Done s
      end
  | AReadError ec =>
      match sk_reads (socket_ (base_ c)) with
      | (_, h) :: _ => a_run (a_read_completion h ec 0) (a_read_popped c) s (awire s) (arcvd s)
      | [] => Done s
      end
  | AWriteDone =>
      match sk_writes (socket_ (base_ c)) with
      | n :: _ =>
          a_run (on_conn (write_handler ec_success n)) (a_write_popped c) s
            (awire s ++ ztake n (io_block_ (send_bound_ c))) (arcvd s)
      | [] => Done s
      end
  | AWriteError ec k =>
      a_run (on_conn (write_handler ec k)) (a_write_popped c) s
        (awire s ++ ztake k (io_block_ (send_bound_ c))) (arcvd s)
  | AClose => a_run (on_conn shutdown_and_close_socket) c s (awire s) (arcvd s)
  end.

(** The connection as [call_RPC] starts it. *)
Definition a_boot : outcome ASys :=
  let s := mkASys (TcpConnAsync_new Socket_new) [] [] [] in
  a_run (recv_net_message setting) (aconn s) s [] [].

Inductive a_reach : ASys -> Prop :=
| a_reach_boot s : a_boot = Done s -> a_reach s
| a_reach_step s e s' : a_reach s -> a_enabled e s = true -> a_handle e s = Done s' -> a_reach s'.

(** Run a list of events; [None]: one of them is not enabled or fails. *)
Fixpoint a_run_events (es : list aevent) (s : ASys) : option ASys :=
  match es with
  | [] => Some s
  | e :: es =>
      if a_enabled e s then
        match a_handle e s with Done s' => a_run_events es s' | _ => None end
      else None
  end.

Lemma a_run_events_reach es s s' : a_reach s -> a_run_events es s = Some s' -> a_reach s'.
Proof.
  revert s. induction es as [|e es IH]; intros s Hs; simpl; [congruence|].
  destruct (a_enabled e s) eqn:He; [|done]. destruct (a_handle e s) eqn:Hh; try done.
  apply IH. by eapply a_reach_step.
Qed.

(** ** The completion of a read *)

Hypothesis limit_fits : fits_u 32 limit.

Definition a_arrived (data : bytes) (c : TcpConnAsync) : TcpConnAsync :=
  upd_recv (fun io => set_buffer (mkBuffer (recv_data c ++ data)) (fill_io_block data io)) (a_read_popped c).

Lemma a_append_received_eq data c :
  append_received (len data) (a_delivered data c) = Done (tt, a_arrived data c).
Proof.
  unfold append_received, modify, a_arrived, a_delivered, upd_recv, set_buffer, fill_io_block,
    append_internal, a_read_popped; simpl.
  by rewrite ztake_app_length by done.
Qed.

Lemma a_read_handler_start data c (l : list upcall) :
  0 < len data -> len (recv_data c ++ data) < 2 ^ 32 ->
  read_handler setting ec_success (len data) (a_delivered data c, l) =
    if len (recv_data c ++ data) <? 16 then (_ ← do_read_ setting; mret tt) (a_arrived data c, l)
    else (ret ← on_conn (parse_header setting);
          if ret =? 0 then do_read_msg_ setting
          else if 0 <? ret then _ ← do_read_ setting; mret tt
          else on_conn (on_base (sock_shutdown_and_close Shut_kBoth))) (a_arrived data c, l).
Proof.
  intros Hd Hs. unfold read_handler. cbn [ec_failed]. unfold mbind at 1, M_bind at 1.
  unfold safe_assert. rewrite (proj2 (Z.ltb_lt _ _)) by done.
  unfold mbind at 1, M_bind at 1. erewrite async_on_conn_eq by apply a_append_received_eq.
  unfold mbind at 1, M_bind at 1. erewrite async_on_conn_eq by done.
  change (recv_data c ++ data) with (data_ (buffer_ (recv_bound_ (a_arrived data c)))) in *.
  rewrite get_length_small by done. change sizeof_Header with 16.
  destruct (_ <? 16) eqn:E; bool_prop; [done|].
  rewrite (proj2 (Z.leb_le _ _)) by done. done.
Qed.

Lemma a_read_msg_handler_start data c (l : list upcall) :
  0 < len data ->
  read_msg_handler setting ec_success (len data) (a_delivered data c, l) =
    (r ← on_conn parse_msg_body;
     if fst r =? 0 then _ ← wrapper_handler_ setting (snd r); _ ← do_read_ setting; mret tt
     else if 0 <? fst r then do_read_msg_ setting
     else on_conn (on_base (sock_shutdown_and_close Shut_kBoth))) (a_arrived data c, l).
Proof.
  intros Hd. unfold read_msg_handler. cbn [ec_failed]. unfold mbind at 1, M_bind at 1.
  unfold safe_assert. rewrite (proj2 (Z.ltb_lt _ _)) by done.
  unfold mbind at 1, M_bind at 1. by erewrite async_on_conn_eq by apply a_append_received_eq.
Qed.

Lemma a_do_read__spec c (l : list upcall) :
  ready c -> reads_as setting (do_read_ setting) (RHead (recv_data c)) c l.
Proof. intros. apply async_read_specs; [done|done|]. unfold read_fuel. simpl. lia. Qed.

Lemma a_do_read_msg__spec c (l : list upcall) :
  ready c -> good_header setting (ib_header_ (recv_bound_ c)) ->
  reads_as setting (do_read_msg_ setting) (RBody (ib_header_ (recv_bound_ c)) (recv_data c)) c l.
Proof. intros. apply async_read_specs; [done|done|done|]. unfold read_fuel. simpl. lia. Qed.

(** On a live connection a completed read is parsed as far as it goes. *)
Lemma a_completion_live h st data c (l : list upcall) n :
  live c -> holds setting st c -> sk_reads (socket_ (base_ c)) = [(n, h)] ->
  0 < len data -> len (recv_data c ++ data) < 2 ^ 32 ->
  reads_as setting (fun _ => a_read_completion h ec_success (len data) (a_delivered data c, l))
    (more st data) (a_arrived data c) l.
Proof.
  intros Hl Hh Hr Hd Hs.
  assert (ready (a_arrived data c)) as Hready by (split; [done|simpl; by rewrite Hr|done]).
  destruct st as [b|hd b|]; [| |done]; destruct Hh as (<- & Hh); unfold reads_as.
  - destruct Hh as [_ Hk]. rewrite Hk in Hr. simplify_eq. cbn [a_read_completion more].
    rewrite a_read_handler_start by done. change (recv_data c ++ data) with (recv_data (a_arrived data c)) in *.
    destruct (_ <? 16) eqn:E; bool_prop; [by apply async_reads_as_unit, a_do_read__spec|].
    apply (async_head_round setting limit_fits (fun ret =>
      if ret =? 0 then do_read_msg_ setting
      else if 0 <? ret then _ ← do_read_ setting; mret tt
      else on_conn (on_base (sock_shutdown_and_close Shut_kBoth)))); [done..| |].
    + intros Ha. apply (a_do_read_msg__spec (header_taken (a_arrived data c)));
        [by apply async_header_taken_ready|by apply async_header_taken_good].
    + intros c' Ec. exists tt. simpl. by rewrite (async_on_conn_eq _ _ _ _ _ Ec).
  - destruct Hh as (<- & Hg & _ & Hk). rewrite Hk in Hr. simplify_eq. cbn [a_read_completion more].
    rewrite a_read_msg_handler_start by done.
    change (recv_data c ++ data) with (recv_data (a_arrived data c)) in *.
    change (ib_header_ (recv_bound_ c)) with (ib_header_ (recv_bound_ (a_arrived data c))) in *.
    unfold mbind at 1, M_bind at 1.
    pose proof (async_parse_msg_body_eq (a_arrived data c) Hs (proj1 (proj1 Hg))) as Ep. cbv zeta in Ep.
    destruct (_ <? _) eqn:E in Ep; bool_prop; rewrite (async_on_conn_eq _ _ _ _ _ Ep);
      [by apply a_do_read_msg__spec|].
    assert (forall l', reads_as setting (_ ← do_read_ setting; mret tt)
      (RHead (recv_data (body_taken (a_arrived data c)))) (body_taken (a_arrived data c)) l') as HK
      by (intros l'; apply async_reads_as_unit, a_do_read__spec, async_body_taken_ready; [apply Hg|done]).
    exact (async_body_round setting _ (a_arrived data c) l Hready Hg E HK).
Qed.

(** A connection that is not live reads nothing more. *)
Lemma a_do_read_dead fuel c (l : list upcall) :
  ~ live c -> do_read setting (Datatypes.S fuel) (c, l) = Done (false, (c, l)) /\
              do_read_msg setting (Datatypes.S fuel) (c, l) = Done (tt, (c, l)).
Proof.
  intros Hl. cbn [do_read do_read_msg].
  split; unfold mbind at 1, M_bind at 1; erewrite async_on_conn_eq by done;
    by rewrite bool_decide_false by done.
Qed.

Lemma a_do_read__dead c (l : list upcall) :
  ~ live c -> (_ ← do_read_ setting; mret tt) (c, l) = Done (tt, (c, l)) /\
              do_read_msg_ setting (c, l) = Done (tt, (c, l)).
Proof.
  intros Hl. destruct (a_do_read_dead (1 + length (recv_data c)) c l Hl) as [E1 E2].
  split; [|exact E2]. unfold mbind, M_bind, do_read_. unfold read_fuel. cbn [fst].
  change (2 + length (recv_data c))%nat with (Datatypes.S (1 + length (recv_data c))).
  by rewrite E1.
Qed.

(** A read that completes after the connection was closed: one message at most. *)
Lemma a_completion_dead h st data c (l : list upcall) n :
  ~ live c -> holds setting st c -> sk_reads (socket_ (base_ c)) = [(n, h)] ->
  0 < len data -> len (recv_data c ++ data) < 2 ^ 32 ->
  Forall (tolerated) (decode_all limit (more st data)).1 ->
  exists ms c', ms `prefix_of` (decode_all limit (more st data)).1 /\
    a_read_completion h ec_success (len data) (a_delivered data c, l) =
      Done (tt, (c', l ++ notify setting ms)) /\
    same_send c c' /\ ~ live c' /\ sk_reads (socket_ (base_ c')) = [].
Proof.
  intros Hl Hh Hr Hd Hs.
  assert (~ live (a_arrived data c)) as Hl' by done.
  assert (sk_reads (socket_ (base_ (a_arrived data c))) = []) as Hr' by (simpl; by rewrite Hr).
  destruct st as [b|hd b|]; [| |done]; destruct Hh as (<- & Hh).
  - destruct Hh as [_ Hk]. rewrite Hk in Hr. simplify_eq. intros _. cbn [a_read_completion].
    rewrite a_read_handler_start by done. change (recv_data c ++ data) with (recv_data (a_arrived data c)) in *.
    exists []. rewrite notify_nil.
    destruct (_ <? 16) eqn:E; bool_prop.
    { exists (a_arrived data c). split; [apply prefix_nil|]. by split; [apply a_do_read__dead|]. }
    unfold mbind at 1, M_bind at 1.
    rewrite (async_on_conn_eq _ _ _ _ _ (async_parse_header_eq setting limit_fits _ (conj E Hs))).
    destruct (accept_header _ _); simpl.
    + exists (header_taken (a_arrived data c)). split; [apply prefix_nil|]. by split; [apply a_do_read__dead|].
    + destruct (async_close_eq (header_taken (a_arrived data c))) as (c' & Ec & Hss & Hst & Hk' & _).
      rewrite (async_on_conn_eq _ _ _ _ _ Ec). exists c'. split; [apply prefix_nil|]. split; [done|].
      split; [etransitivity; [|exact Hss]; by split|]. split; [unfold live; congruence|]. by rewrite Hk'.
  - destruct Hh as (<- & Hg & _ & Hk). rewrite Hk in Hr. simplify_eq. cbn [a_read_completion more].
    rewrite a_read_msg_handler_start by done.
    change (recv_data c ++ data) with (recv_data (a_arrived data c)) in *.
    change (ib_header_ (recv_bound_ c)) with (ib_header_ (recv_bound_ (a_arrived data c))) in *.
    set (c1 := a_arrived data c) in *. set (h := ib_header_ (recv_bound_ c1)) in *.
    destruct Hg as [Hh Ha]. rewrite decode_all_body by apply Hh.
    unfold mbind at 1, M_bind at 1.
    pose proof (async_parse_msg_body_eq c1 Hs (proj1 Hh)) as Ep. cbv zeta in Ep. fold h in Ep.
    destruct (_ <? _) eqn:E; bool_prop; rewrite (async_on_conn_eq _ _ _ _ _ Ep); cbn [fst snd Z.eqb Z.ltb].
    { intros _. exists [], c1. rewrite notify_nil. split; [apply prefix_nil|]. by split; [apply a_do_read__dead|]. }
    set (m := mkMessage h (ztake (length_ h) (recv_data c1))).
    destruct (decode_all limit (RHead _)) as [ms st']. cbn [fst]. intros Ht.
    apply Forall_cons_1 in Ht as [Htm _]. exists [m], (body_taken c1). split; [by eexists|].
    unfold mbind at 1, M_bind at 1, wrapper_handler_, zoom. cbn [fst snd].
    rewrite async_recv_wrapper_eq by done. cbn [fst]. by split; [apply a_do_read__dead|].
Qed.
End System.
