(* ===== verification/ClientAsyncInv.v ===== *)
(** * The invariant of an asynchronous client connection

    What reached the server is the front of the messages sent, and the user's handler was
    called for the messages [decode] finds in the bytes received. *)

From Stdlib Require Import ZArith Lia Init.Byte.
From stdpp Require Import base list strings gmap.
From S2P Require Import Prelude Endian Message Buffer RpcMessage NetConn ClientConf Decode.
From S2P Require Import ServerSend ClientAsync ClientAsyncRead ClientAsyncSend ClientAsyncSystem.

Section Inv.
Context `{Host} `{AssertMode}.
Variable setting : RpcClientSetting.
Let limit := cl_recv_max_msg_size_ setting.
Abbreviation World := (TcpConnAsync * list upcall)%type.

Inductive a_rd_inv (rcvd : bytes) (c : TcpConnAsync) (l : list upcall) : Prop :=
| a_rd_reading ms st :
    decode_all limit (RHead rcvd) = (ms, st) -> holds setting st c -> l = notify setting ms ->
    a_rd_inv rcvd c l
| a_rd_final ms :
    ms `prefix_of` (decode_all limit (RHead rcvd)).1 -> l = notify setting ms ->
    sk_reads (socket_ (base_ c)) = [] -> ~ live c -> a_rd_inv rcvd c l.

Record a_inv (s : ASys) : Prop := {
  ai_send : send_ok (awire s) (aconn s);
  ai_read : a_rd_inv (arcvd s) (aconn s) (acalls s);
  ai_flow : send_flows (aconn s)
}.

(** The message an event sends, unless it is over the limit. *)
Definition a_event_sends (e : aevent) : list Message :=
  match e with ASend msg => if too_long setting msg then [] else [msg] | _ => [] end.

(** An event keeps the invariant, and a connection that ended stays ended. *)
Record a_step_ok (e : aevent) (s s' : ASys) : Prop := {
  as_inv : a_inv s';
  as_dead : ~ live (aconn s) -> ~ live (aconn s');
  as_log : sent_log (aconn s') = sent_log (aconn s) ++ a_event_sends e
}.

(** The receive buffer stays below 4 GiB. *)
Definition a_sized (rcvd : bytes) : Prop := 0 < limit < 2 ^ 31 \/ len rcvd < 2 ^ 32.

(** No received message trips the assertion of the response parser. *)
Definition all_tolerated (rcvd : bytes) : Prop :=
  Forall tolerated (decode_all limit (RHead rcvd)).1.

(** Both hold of the bytes received earlier. *)
Lemma a_sized_app r r' : a_sized (r ++ r') -> a_sized r.
Proof. unfold a_sized. rewrite zlen_app. pose proof (zlen_nonneg r'). lia. Qed.

Lemma all_tolerated_app r r' : all_tolerated (r ++ r') -> all_tolerated r.
Proof.
  unfold all_tolerated. change (RHead (r ++ r')) with (more (RHead r) r'). rewrite decode_more by done.
  destruct (decode_all limit (RHead r)) as [ms1 st1]. destruct (decode_all limit (more st1 r')) as [ms2 st2].
  simpl. apply Forall_app.
Qed.

(** Handlers the receiving side does not notice. *)
Lemma a_rd_inv_same rcvd c c' l :
  recv_bound_ c' = recv_bound_ c -> sk_reads (socket_ (base_ c')) = sk_reads (socket_ (base_ c)) ->
  (~ live c -> ~ live c') -> a_rd_inv rcvd c l -> a_rd_inv rcvd c' l.
Proof.
  intros E1 E2 E3 [ms st Hd Hh Hm | ms Hp Hm Hr Hl].
  - eapply a_rd_reading; [done| |done].
    destruct st; [| |done]; simpl in *; unfold recv_data in *; by rewrite E1, E2.
  - eapply a_rd_final; [done|done|by rewrite E2|auto].
Qed.

Lemma a_sized_buffer rcvd data n h rs l c :
  a_rd_inv rcvd c l -> a_sized (rcvd ++ data) -> sk_reads (socket_ (base_ c)) = (n, h) :: rs ->
  len data <= kFixedIoBufferSize -> len (recv_data c ++ data) < 2 ^ 32.
Proof.
  intros [ms st Hd Hh Hm | ms Hp Hm Hr Hl] Hs Er Hk; [|congruence].
  rewrite zlen_app. destruct Hs as [Hs|Hs].
  - unfold kFixedIoBufferSize in *.
    destruct st as [b|hd b|]; [| |done]; destruct Hh as (-> & Hh); [lia|].
    destruct Hh as (_ & [_ Ha] & Hb & _). unfold accept_header in Ha. fold limit in Ha.
    rewrite (proj2 (Z.eqb_neq limit 0)) in Ha by lia. bool_prop.
    rewrite uwrap_small in * by (unfold fits_u; lia). simpl in *. bool_prop. lia.
  - rewrite zlen_app in Hs. pose proof (decode_rest limit (RHead rcvd)) as Hrest.
    rewrite Hd in Hrest. simpl in Hrest.
    destruct st as [b|hd b|]; [| |done]; destruct Hh as (-> & _); simpl in Hrest; lia.
Qed.

Lemma a_run_eq {A} (m : M World A) c (s : ASys) wire rcvd a c' l' :
  m (c, acalls s) = Done (a, (c', l')) -> a_run m c s wire rcvd = Done (mkASys c' l' wire rcvd).
Proof. intros E. unfold a_run. by rewrite E. Qed.

(** ** The handlers *)

Lemma a_handle_send msg s :
  a_inv s -> exists s', a_handle setting (ASend msg) s = Done s' /\ a_step_ok (ASend msg) s s' /\
    s' = mkASys (after_send setting msg (aconn s)) (acalls s) (awire s) (arcvd s).
Proof.
  intros Hinv. pose proof Hinv as [Hs Hr Hf]. pose proof (embed_block _ _ Hs) as Hb. cbn [a_handle].
  unfold after_send.
  destruct (too_long setting msg) eqn:Ht.
  - eexists. split; [eapply a_run_eq, async_on_conn_eq; rewrite send_net_message_async_eq, Ht by done; done|].
    split; [|done]. split; [by destruct s|done|]. cbn. by rewrite Ht, app_nil_r.
  - eexists. split; [eapply a_run_eq, async_on_conn_eq; rewrite send_net_message_async_eq, Ht by done; done|].
    destruct (after_write_recv (queued msg (aconn s))) as (E1 & E2 & E3).
    assert (~ live (aconn s) -> ~ live (after_write (queued msg (aconn s)))) as Hl
      by (unfold live; by rewrite E2).
    split; [|done]. split; [|exact Hl|].
    2: { cbn [aconn a_event_sends]. by rewrite Ht, (after_write_log (queued msg (aconn s))). }
    split; [by apply after_write_ok, queued_ok| |].
    + eapply (a_rd_inv_same _ (aconn s)); [exact E1|exact E3|exact Hl|done].
    + apply after_write_flows. intros Es Hw. specialize (Hf Hw). cbn in Es, Hf |- *. by rewrite Es in *.
Qed.

Hypothesis limit_fits : fits_u 32 limit.

(** The invariant's part of a completed read. *)
Lemma a_completion_inv rcvd data h n c l rs :
  a_rd_inv rcvd c l -> sk_reads (socket_ (base_ c)) = (n, h) :: rs -> n <= len data ->
  len (recv_data c ++ data) < 2 ^ 32 -> all_tolerated (rcvd ++ data) ->
  exists c' l', a_read_completion setting h ec_success (len data) (a_delivered data c, l) =
      Done (tt, (c', l')) /\
    same_send c c' /\ a_rd_inv (rcvd ++ data) c' l' /\ (~ live c -> ~ live c') /\
    (live c -> (decode_all limit (RHead (rcvd ++ data))).2 <> RBad -> live c').
Proof.
  intros [ms st Hd Hh Hm | ms Hp Hm Hr Hl] Er Hn Hs Htol; [|congruence].
  assert (rs = [] /\ 0 < n) as [-> Hn0].
  { destruct st; simpl in Hh; [| |done]; destruct Hh as (?&?&Hh);
      [|destruct Hh as ([[??]?]&?&Hh)]; rewrite Hh in Er; simplify_eq; split; try done;
      unfold kFixedIoBufferSize; lia. }
  pose proof (decode_more limit (RHead rcvd) data I) as Hmore. rewrite Hd in Hmore. cbn [more] in Hmore.
  unfold all_tolerated in Htol. rewrite Hmore in Htol.
  destruct (decode_all limit (more st data)) as [ms2 st2] eqn:E2. cbn [fst] in Htol.
  apply Forall_app in Htol as [_ Ht2].
  assert (same_send c (a_arrived data c)) as Hss by by split.
  destruct (decide (live c)) as [Hl|Hl].
  - pose proof (a_completion_live setting limit_fits h st data c l n Hl Hh Er ltac:(lia) Hs) as Hrc.
    unfold reads_as in Hrc. fold limit in Hrc. rewrite E2 in Hrc.
    destruct (Hrc Ht2) as ([] & c' & Ec & Hra & Hw). eexists _, _. split; [exact Ec|].
    split; [by transitivity (a_arrived data c)|].
    rewrite Hm, <-notify_app, Hmore. destruct st2 as [b|hd b|].
    1,2: split; [by eapply a_rd_reading; [done|apply Hw|]|split; [done|intros; apply Hw]].
    destruct Hw as [Hcl Hk]. split; [|by split].
    eapply (a_rd_final _ _ _ (ms ++ ms2)); [by rewrite Hmore|done|done|]. unfold live. congruence.
  - destruct (a_completion_dead setting limit_fits h st data c l n Hl Hh Er ltac:(lia) Hs)
      as (ms3 & c' & Hpre & Ec & Hra & Hl' & Hk); [fold limit; by rewrite E2|].
    fold limit in Hpre. rewrite E2 in Hpre. eexists _, _. split; [exact Ec|]. split; [done|].
    split; [|done]. eapply (a_rd_final _ _ _ (ms ++ ms3)); [|by rewrite Hm, notify_app|done|done].
    rewrite Hmore. by apply prefix_app.
Qed.

Lemma a_handle_read_done data s :
  a_inv s -> a_enabled (AReadDone data) s = true -> a_sized (arcvd s ++ data) ->
  all_tolerated (arcvd s ++ data) ->
  exists s', a_handle setting (AReadDone data) s = Done s' /\ a_step_ok (AReadDone data) s s' /\
    (live (aconn s) -> (decode_all limit (RHead (arcvd s ++ data))).2 <> RBad -> live (aconn s')) /\
    awire s' = awire s.
Proof.
  intros [Hs Hr Hf] He Hsz Ht. cbn [a_enabled a_handle] in *.
  destruct (sk_reads (socket_ (base_ (aconn s)))) as [|[n h] rs] eqn:Er; [done|]. bool_prop.
  destruct (a_completion_inv (arcvd s) data h n (aconn s) (acalls s) rs)
    as (c' & l' & E & Hss & Hr' & Hdead & Hl); [done|done|done|by eapply a_sized_buffer|done|].
  rewrite (a_run_eq _ _ _ _ _ _ _ _ E). eexists. split; [done|]. split; [|done].
  split; [|done|by rewrite app_nil_r; apply Hss].
  split; [by eapply same_send_ok|done|]. eapply send_flows_same; [exact Hss| |done].
  intros Hc'. by destruct (decide (live (aconn s))); [|destruct Hdead].
Qed.

(** A failed completion ends the connection. *)
Lemma a_handle_socket_ec_ends ec c :
  a_may_fail ec c = true ->
  exists b c', handle_socket_ec ec c = Done (b, c') /\ same_send c c' /\
    recv_bound_ c' = recv_bound_ c /\ sk_reads (socket_ (base_ c')) = sk_reads (socket_ (base_ c)) /\ ~ live c'.
Proof.
  intros Hf. unfold handle_socket_ec, mbind, M_bind, when. unfold a_may_fail in Hf.
  destruct (ec_closes_socket ec) eqn:Ecl.
  - destruct (async_close_eq c) as (c' & Ec & Hss & Hst & Hk & Hr). rewrite Ec.
    eexists _, _. split; [done|]. split_and!; try done. unfold live. congruence.
  - exists false, c. split_and!; try done. destruct ec; try done.
    intros Hl. rewrite (bool_decide_true (live c)) in Hf by done.
    rewrite (bool_decide_true (ec_operation_aborted = _)) in Hf by done. done.
Qed.

Lemma a_completion_failed h ec c (l : list upcall) :
  ec_failed ec = true ->
  a_read_completion setting h ec 0 (c, l) = (_ ← on_conn (handle_socket_ec ec); mret tt) (c, l).
Proof. intros He. destruct h; simpl; unfold read_handler, read_msg_handler; by rewrite He. Qed.

Lemma a_handle_read_error ec s :
  a_inv s -> a_enabled (AReadError ec) s = true ->
  exists s', a_handle setting (AReadError ec) s = Done s' /\ a_step_ok (AReadError ec) s s'.
Proof.
  intros [Hs Hr Hf] He. cbn [a_enabled a_handle] in *.
  destruct (sk_reads (socket_ (base_ (aconn s)))) as [|[n h] rs] eqn:Er; [done|].
  assert (ec_failed ec = true) as Hec by (unfold a_may_fail in He; by bool_prop).
  destruct (a_handle_socket_ec_ends ec (a_read_popped (aconn s)) He) as (b & c' & E & Hss & Erc & Erd & Hl).
  erewrite a_run_eq by (rewrite a_completion_failed by done; unfold mbind, M_bind;
    by rewrite (async_on_conn_eq _ _ _ _ _ E)).
  eexists. split; [done|]. split; [|done|rewrite app_nil_r; exact (ss_log _ _ Hss)]. split; simpl.
  - eapply same_send_ok; [|exact Hs]. etransitivity; [|exact Hss]. by split.
  - destruct Hr as [ms st Hd Hh Hm | ms Hp Hm Hr _]; [|congruence].
    eapply (a_rd_final _ _ _ ms); [by rewrite Hd|done| |done]. rewrite Erd. simpl.
    destruct st; simpl in Hh; [destruct Hh as (?&?&Hh)|destruct Hh as (?&?&?&?&Hh)|done]; by rewrite Hh.
  - by intros [? _].
Qed.

(** At most one write is outstanding. *)
Lemma send_ok_writes wire c n rs :
  send_ok wire c -> sk_writes (socket_ (base_ c)) = n :: rs -> rs = [] /\ 0 < n.
Proof.
  intros [_ _ [? E ?|k ? E [? ?] ?|? E ?]] Ew; simpl in E; rewrite E in Ew; by simplify_eq.
Qed.

Lemma a_handle_write_done s :
  a_inv s -> a_enabled AWriteDone s = true ->
  exists s', a_handle setting AWriteDone s = Done s' /\ a_step_ok AWriteDone s s' /\
    (live (aconn s) -> live (aconn s')) /\ len (awire s) < len (awire s') /\
    acalls s' = acalls s /\ arcvd s' = arcvd s.
Proof.
  intros [Hs Hr Hf] He. cbn [a_enabled a_handle] in *.
  destruct (sk_writes (socket_ (base_ (aconn s)))) as [|n rs] eqn:Ew; [done|].
  destruct (send_ok_writes _ _ _ _ Hs Ew) as [-> Hn].
  set (c1 := set_send_status Send_kDone (a_write_popped (aconn s))).
  assert (send_ok (awire s ++ ztake n (io_block_ (send_bound_ (aconn s)))) c1) as Hc1
    by (eapply write_done_ok; [done|done|simpl; by rewrite Ew]).
  erewrite a_run_eq.
  2: { apply async_on_conn_eq. unfold write_handler, mbind, M_bind, safe_assert; simpl.
       rewrite (proj2 (Z.ltb_lt _ _)) by lia. unfold modify. fold c1.
       by rewrite async_do_write_eq by (by eapply embed_block). }
  destruct (after_write_recv c1) as (E1 & E2 & E3).
  assert (~ live (aconn s) -> ~ live (after_write c1)) as Hl by (unfold live; by rewrite E2).
  eexists. split; [done|]. split.
  - split; [|exact Hl|rewrite app_nil_r; exact (after_write_log c1)].
    split; [by apply after_write_ok| |by apply after_write_flows].
    eapply (a_rd_inv_same _ (aconn s)); [exact E1|exact E3|exact Hl|done].
  - split; [unfold live; cbn; by rewrite E2|]. split; [|done]. cbn.
    rewrite zlen_app, zlen_ztake_min by lia. rewrite (embed_block _ _ Hs). unfold kFixedIoBufferSize. lia.
Qed.

Lemma a_handle_write_error ec k s :
  a_inv s -> a_enabled (AWriteError ec k) s = true ->
  exists s', a_handle setting (AWriteError ec k) s = Done s' /\ a_step_ok (AWriteError ec k) s s' /\
    send_status_ (aconn s') = Send_kSend /\ sk_writes (socket_ (base_ (aconn s'))) = [] /\ ~ live (aconn s').
Proof.
  intros [Hs Hr _] He. cbn [a_enabled a_handle] in *.
  destruct (sk_writes (socket_ (base_ (aconn s)))) as [|n rs] eqn:Ew; [done|]. bool_prop.
  destruct (send_ok_writes _ _ _ _ Hs Ew) as [-> Hn].
  set (c1 := a_write_popped (aconn s)).
  assert (sk_writes (socket_ (base_ c1)) = []) as Ew1 by (simpl; by rewrite Ew).
  destruct (write_failed_ok _ _ n k (base_ c1) Hs Ew) as [Hc1 Hst]; [lia|done|].
  assert (ec_failed ec = true) as Hec by (unfold a_may_fail in *; by bool_prop).
  destruct (a_handle_socket_ec_ends ec c1) as (b & c' & E & Hss & Erc & Erd & Hl); [done|].
  erewrite a_run_eq.
  2: { apply async_on_conn_eq. unfold write_handler. rewrite Hec. fold c1.
       unfold mbind, M_bind. by rewrite E. }
  eexists. split; [done|]. split_and!; simpl; [|by rewrite (ss_status _ _ Hss)|by rewrite (ss_writes _ _ Hss)|done].
  split; [|done|rewrite app_nil_r; exact (ss_log _ _ Hss)]. split; simpl; [by eapply same_send_ok| |by intros [? _]].
  eapply (a_rd_inv_same _ (aconn s)); [exact Erc|exact Erd|done|done].
Qed.

Lemma a_handle_close s :
  a_inv s -> exists s', a_handle setting AClose s = Done s' /\ a_step_ok AClose s s' /\ ~ live (aconn s').
Proof.
  intros [Hs Hr _]. destruct (async_close_eq (aconn s)) as (c' & Ec & Hss & Hst & Hk & Hrb).
  assert (~ live c') as Hl by (unfold live; congruence).
  eexists. split; [by eapply a_run_eq, async_on_conn_eq|]. split; [|done].
  split; [|done|rewrite app_nil_r; exact (ss_log _ _ Hss)].
  split; simpl; [by eapply same_send_ok| |by intros [? _]]. by eapply (a_rd_inv_same _ (aconn s)).
Qed.

(** The bytes an event delivers. *)
Definition a_event_bytes (e : aevent) : bytes :=
  match e with AReadDone data => data | _ => [] end.

Lemma a_handle_progress e s :
  a_inv s -> a_enabled e s = true -> a_sized (arcvd s ++ a_event_bytes e) ->
  all_tolerated (arcvd s ++ a_event_bytes e) ->
  exists s', a_handle setting e s = Done s' /\ a_step_ok e s s'.
Proof.
  intros Hs He Hsz Ht. destruct e as [msg|data|ec| |ec k|].
  - destruct (a_handle_send msg s Hs) as (s' & ? & ? & _); eauto.
  - destruct (a_handle_read_done data s Hs He Hsz Ht) as (s' & ? & ? & _); eauto.
  - by apply a_handle_read_error.
  - destruct (a_handle_write_done s Hs He) as (s' & ? & ? & _); eauto.
  - destruct (a_handle_write_error ec k s Hs He) as (s' & ? & ? & _); eauto.
  - destruct (a_handle_close s Hs) as (s' & ? & ? & _); eauto.
Qed.

Lemma a_run_rcvd {A} (m : M World A) c (s s' : ASys) wire rcvd : a_run m c s wire rcvd = Done s' -> arcvd s' = rcvd.
Proof. unfold a_run. intros. by repeat case_match; simplify_eq. Qed.

Lemma a_run_wire {A} (m : M World A) c (s s' : ASys) wire rcvd : a_run m c s wire rcvd = Done s' -> awire s' = wire.
Proof. unfold a_run. intros. by repeat case_match; simplify_eq. Qed.

(** What the server was sent is not taken back. *)
Lemma a_handle_wire e (s s' : ASys) : a_handle setting e s = Done s' -> awire s `prefix_of` awire s'.
Proof.
  intros Hh. destruct e as [msg|data|ec| |ec k|]; cbn [a_handle] in *; repeat case_match; simplify_eq;
    first [done | by rewrite (a_run_wire _ _ _ _ _ _ Hh) | rewrite (a_run_wire _ _ _ _ _ _ Hh); by apply prefix_app_r].
Qed.

Lemma a_handle_rcvd e (s s' : ASys) :
  a_enabled e s = true -> a_handle setting e s = Done s' -> arcvd s' = arcvd s ++ a_event_bytes e.
Proof.
  intros He Hh. destruct e as [msg|data|ec| |ec k|]; cbn [a_handle a_enabled a_event_bytes] in *;
    rewrite ?app_nil_r; repeat (case_match; [done|]); repeat case_match; simplify_eq;
    eauto using a_run_rcvd.
Qed.

(** ** Reachable states *)

Lemma a_boot_inv : exists s, a_boot setting = Done s /\ a_inv s /\ live (aconn s) /\ arcvd s = [] /\
  awire s = [] /\ sent_log (aconn s) = [] /\ send_status_ (aconn s) = Send_kDone.
Proof.
  assert (ready (TcpConnAsync_new Socket_new)) as Hready by done.
  pose proof (a_do_read__spec setting limit_fits _ [] Hready) as Hrd. unfold reads_as in Hrd.
  change (recv_data (TcpConnAsync_new Socket_new)) with (@nil Byte.byte) in Hrd.
  rewrite decode_all_nil in Hrd. destruct (Hrd (Forall_nil_2 _)) as (a & c' & E & Hss & Hl & Hw).
  unfold a_boot, recv_net_message. erewrite a_run_eq by exact E.
  eexists. split; [done|]. simpl. split_and!; try done; [|by rewrite (ss_log _ _ Hss)|by rewrite (ss_status _ _ Hss)].
  split; simpl.
  - eapply same_send_ok; [exact Hss|]. split; [done|done|]. by apply phase_idle.
  - apply (a_rd_reading _ _ _ [] (RHead [])); [done|done|]. done.
  - by eapply send_flows_same; [exact Hss|done|].
Qed.

Lemma a_reach_inv s : a_reach setting s -> a_sized (arcvd s) -> all_tolerated (arcvd s) -> a_inv s.
Proof.
  induction 1 as [s E|s e s' Hr IH He Hh]; intros Hsz Ht.
  - destruct a_boot_inv as (s0 & E0 & Hi & _). congruence.
  - rewrite (a_handle_rcvd _ _ _ He Hh) in Hsz, Ht.
    destruct (a_handle_progress e s) as (s1 & E1 & [Hi _ _]); try done; [|congruence].
    apply IH; [by eapply a_sized_app|by eapply all_tolerated_app].
Qed.
End Inv.
