(* ===== verification/ClientAsyncProps.v ===== *)
(** * Properties of asynchronous calls

    What the user's handler is told, what reaches the server, what the status of a call
    means, and calls that are lost after a failed write. *)

From Stdlib Require Import ZArith Lia Init.Byte.
From stdpp Require Import base list strings gmap.
From S2P Require Import Prelude Endian Message Buffer RpcMessage NetConn ClientConf Decode.
From S2P Require Import ServerSend ClientAsync ClientAsyncRead ClientAsyncSend ClientAsyncSystem.
From S2P Require Import ClientAsyncInv Demo.

Section Connection.
Context `{Host} `{AssertMode}.
Variable setting : RpcClientSetting.
Let limit := cl_recv_max_msg_size_ setting.
Hypothesis limit_fits : fits_u 32 limit.

(** C14: the user's handler is told of exactly the answers of the byte stream. At every moment of
    every run the calls made of it are, in order and once each, those for the first messages the
    reference parser finds in the bytes received; while the connection is open they are
    for all of them, and it waits for precisely what the parser misses. *)
Theorem async_upcalls_stream (s : ASys) :
  a_reach setting s -> a_sized setting (arcvd s) -> all_tolerated setting (arcvd s) ->
  let '(all, st) := decode_all limit (RHead (arcvd s)) in
  exists ms, ms `prefix_of` all /\ acalls s = notify setting ms /\
    (live (aconn s) -> ms = all /\ holds setting st (aconn s)).
Proof.
  intros Hr Hs Ht. destruct (a_reach_inv setting limit_fits s Hr Hs Ht) as [_ [ms st Hd Hh Hm|ms Hp Hm Hk Hl]].
  - fold limit in Hd. rewrite Hd. by exists ms.
  - fold limit in Hp. destruct (decode_all _ _) as [all st]. exists ms. by split_and!.
Qed.

(** C15: the requests of asynchronous calls reach the server whole and in order: what was
    written is always the front of the encodings of the messages accepted for sending,
    and one block of at most 2048 bytes is being written at a time: as long as no two
    threads are inside the connection's [do_write] at once, the user's call and the
    completion of a write each running to its end before the other (ClientRace shows what
    happens otherwise). *)
Theorem async_wire_in_order (s : ASys) :
  a_reach setting s -> a_sized setting (arcvd s) -> all_tolerated setting (arcvd s) ->
  awire s `prefix_of` stream (sent_log (aconn s)) /\
  (sk_writes (socket_ (base_ (aconn s))) = [] \/
   exists n, sk_writes (socket_ (base_ (aconn s))) = [n] /\ 0 < n <= kFixedIoBufferSize).
Proof.
  intros Hr Hs Ht. destruct (a_reach_inv setting limit_fits s Hr Hs Ht) as [Hsend _ _].
  split; [by apply send_ok_wire|]. destruct Hsend as [_ _ [? E2 _|n ? E2 Hn _|? E2 _]]; eauto.
Qed.

(** C16: no event traps the connection of an asynchronous client, as long as every answer is
    long enough for a response header (or assertions only log): the sending of a request,
    each completion of a read or a write, each failure and the closing run to their end.
    (The client's call timer is not among the connection's events: Exchange,
    ClientAsyncTimer.) *)
Theorem async_never_traps (s : ASys) e :
  a_reach setting s -> a_enabled e s = true -> a_sized setting (arcvd s ++ a_event_bytes e) ->
  all_tolerated setting (arcvd s ++ a_event_bytes e) ->
  exists s', a_handle setting e s = Done s' /\ a_reach setting s'.
Proof.
  intros Hr He Hsz Ht. destruct (a_handle_progress setting limit_fits e s) as (s' & Eh & _); try done.
  - apply a_reach_inv; [done|done|by eapply a_sized_app|by eapply all_tolerated_app].
  - exists s'. split; [done|]. by eapply a_reach_step.
Qed.
End Connection.

(** ** Answers *)

Section Answers.
Context (H1 H2 : Host) `{AssertMode}.
#[local] Existing Instance H1.
Variable setting : RpcClientSetting.
Let limit := cl_recv_max_msg_size_ setting.
Hypothesis limit_fits : fits_u 32 limit.

(** An answer of a server, and what the handler should be told of it. *)
Definition answer_payload (a : Z * Z * bytes) : bytes :=
  let '(sid, op, data) := a in @RpcResponseMessage_net_str H2 (RpcResponseMessage_new sid op data).
Definition answer_message (a : Z * Z * bytes) : Message := Message_of_data (answer_payload a).
Definition answer_upcall (a : Z * Z * bytes) : upcall :=
  let '(sid, op, data) := a in mkUpcall Status_OK sid op data.

(** Ids of 16 bits, and a size within the limit and 32 bits. *)
Definition answer_fits (a : Z * Z * bytes) : Prop :=
  let '(sid, op, data) := a in
  fits_u 16 sid /\ fits_u 16 op /\ sizeof_RpcResponseHeader + len data < 2 ^ 32 /\ (limit = 0 \/ sizeof_RpcResponseHeader + len data <= limit).

Lemma answer_unwrap a : answer_fits a -> unwrap (answer_message a) = answer_upcall a.
Proof.
  destruct a as [[sid op] data]. intros (Hs & Ho & _). unfold answer_message, answer_upcall, answer_payload, unwrap.
  cbn [payload_ Message_of_data].
  destruct (decode_RpcResponse H2 H1 (response_code Resp_OK) sid op data) as [Eh Ed]; [done..|].
  unfold RpcResponseMessage_new. rewrite Eh, Ed. cbn [rs_magic rs_service_id rs_opcode rs_status].
  rewrite zlen_RpcResponseMessage_net_str. cbn [rs_payload_]. pose proof (zlen_nonneg data).
  rewrite (proj2 (Z.ltb_ge _ _)) by lia. by rewrite !Z.eqb_refl.
Qed.

Lemma answer_accepted a :
  answer_fits a ->
  header_wf (header_ (answer_message a)) /\ accept_header limit (header_ (answer_message a)) = true /\
  length_ (header_ (answer_message a)) = len (payload_ (answer_message a)) /\
  tolerated (answer_message a).
Proof.
  destruct a as [[sid op] data]. intros (_ & _ & Hl & Hlim). pose proof (zlen_nonneg data).
  set (p := @RpcResponseMessage_net_str H2 (RpcResponseMessage_new sid op data)).
  assert (len p = sizeof_RpcResponseHeader + len data) as Ep by (unfold p; rewrite zlen_RpcResponseMessage_net_str; reflexivity).
  change (answer_message (sid, op, data)) with (Message_of_data p).
  split; [apply Message_of_data_wf|]. unfold Message_of_data; cbn [header_ payload_ length_].
  unfold sizeof_RpcResponseHeader in *.
  rewrite (uwrap_small 32 (len p)) by (unfold fits_u; lia).
  split_and!; [|done|right; cbn [payload_]; unfold sizeof_RpcResponseHeader; lia].
  unfold accept_header; cbn [magic version length_]. rewrite !Z.eqb_refl; simpl.
  rewrite (uwrap_small 32 limit) by done. destruct Hlim as [->|Hlim]; [done|].
  rewrite (proj2 (Z.leb_le _ _)) by lia. apply orb_true_r.
Qed.

Lemma answers_delivered (s : ASys) answers :
  a_reach setting s -> a_sized setting (arcvd s) -> live (aconn s) -> has_handler setting = true ->
  arcvd s = @stream H2 (answer_message <$> answers) -> Forall answer_fits answers ->
  acalls s = answer_upcall <$> answers /\ recv_data (aconn s) = [] /\
  sk_reads (socket_ (base_ (aconn s))) = [(16, on_read_handler)].
Proof.
  intros Hr Hs Hl Hh Es Ha.
  assert (decode_all limit (RHead (arcvd s)) = (answer_message <$> answers, RHead [])) as Hd.
  { rewrite Es. change answer_message with (Message_of_data ∘ answer_payload).
    rewrite (list_fmap_compose answer_payload Message_of_data answers).
    rewrite (stream_host H2 H1), <-list_fmap_compose. apply decode_stream_all.
    apply Forall_fmap. eapply Forall_impl; [exact Ha|]. intros a Hfit.
    by destruct (answer_accepted a Hfit) as (? & ? & ? & _). }
  assert (all_tolerated setting (arcvd s)) as Ht.
  { unfold all_tolerated. fold limit. rewrite Hd. apply Forall_fmap. eapply Forall_impl; [exact Ha|].
    intros a Hfit. apply (answer_accepted a Hfit). }
  destruct (a_reach_inv setting limit_fits s Hr Hs Ht) as [_ [ms st Hd' Hh' Hm|? ? ? ? Hc]]; [|done].
  fold limit in Hd'. rewrite Hd in Hd'. injection Hd' as <- <-. destruct Hh' as (-> & _ & ->).
  split; [|done]. rewrite Hm. unfold notify. rewrite Hh, <-list_fmap_compose.
  apply list_fmap_ext. intros i a Hi. apply answer_unwrap.
  by eapply Forall_lookup_1.
Qed.

(** Answers reach the handler. When a server of any byte order wrote the answers [answers],
    an open connection has told the handler of each, OK with its service, opcode and
    payload, whatever blocks they arrived in, and waits for a next one. *)
Lemma async_answers_delivered (s : ASys) answers :
  a_reach setting s -> a_sized setting (arcvd s) -> live (aconn s) -> has_handler setting = true ->
  arcvd s = @stream H2 (answer_message <$> answers) -> Forall answer_fits answers ->
  acalls s = answer_upcall <$> answers /\ recv_data (aconn s) = [] /\
  sk_reads (socket_ (base_ (aconn s))) = [(16, on_read_handler)].
Proof. apply answers_delivered. Qed.
End Answers.

(** ** Worked examples *)

(** A handler was supplied; answers of at most 4096 bytes are taken. *)
Definition a_demo_setting : RpcClientSetting := mkSetting "127.0.0.1" 8434 0 4096 7 true false.

Definition a_demo_run (es : list aevent) : option ASys :=
  match a_boot a_demo_setting with
  | Done s => a_run_events a_demo_setting es s
  | _ => None
  end.

Lemma a_demo_run_reach es s : a_demo_run es = Some s -> a_reach a_demo_setting s.
Proof.
  unfold a_demo_run. destruct (a_boot _) eqn:E; try done. apply a_run_events_reach. by constructor.
Qed.

Lemma a_demo_fits : fits_u 32 (cl_recv_max_msg_size_ a_demo_setting).
Proof. by split. Qed.

Lemma a_demo_sized b : a_sized a_demo_setting b.
Proof. by left. Qed.

(** Two answers of a big-endian server, in two pieces. *)
Definition a_demo_answers : list (Z * Z * bytes) := [(1, 7, [x68; x69]); (2, 8, [])].
Definition a_demo_stream : bytes := stream (answer_message big_endian <$> a_demo_answers).
Definition a_demo_reads : list aevent :=
  [AReadDone (ztake 20 a_demo_stream); AReadDone (zdrop 20 a_demo_stream)].

(** A request of 3000 bytes, the first block written. *)
Definition a_demo_sends : list aevent := [ASend (Message_of_data (replicate 3000 x61)); AWriteDone].

Lemma async_upcalls_stream_witness :
  exists s, a_demo_run a_demo_reads = Some s /\
    let '(all, st) := decode_all (cl_recv_max_msg_size_ a_demo_setting) (RHead (arcvd s)) in
    exists ms, ms `prefix_of` all /\ acalls s = notify a_demo_setting ms /\
      (live (aconn s) -> ms = all /\ holds a_demo_setting st (aconn s)).
Proof.
  eexists. split; [vm_compute; reflexivity|]. apply (async_upcalls_stream a_demo_setting a_demo_fits).
  - apply (a_demo_run_reach a_demo_reads). vm_compute. reflexivity.
  - apply a_demo_sized.
  - repeat (apply Forall_cons; split; [right; vm_compute; discriminate|]). apply Forall_nil. exact I.
Defined.

Lemma async_wire_in_order_witness :
  exists s, a_demo_run a_demo_sends = Some s /\ len (awire s) = 2048 /\
    awire s `prefix_of` stream (sent_log (aconn s)) /\
    (sk_writes (socket_ (base_ (aconn s))) = [] \/
     exists n, sk_writes (socket_ (base_ (aconn s))) = [n] /\ 0 < n <= kFixedIoBufferSize).
Proof.
  eexists. split; [vm_compute; reflexivity|]. split; [vm_compute; reflexivity|].
  apply (async_wire_in_order a_demo_setting a_demo_fits).
  - apply (a_demo_run_reach a_demo_sends). vm_compute. reflexivity.
  - apply a_demo_sized.
  - apply Forall_nil. exact I.
Defined.

Lemma async_never_traps_witness :
  exists s, a_demo_run a_demo_sends = Some s /\
    exists s', a_handle a_demo_setting AWriteDone s = Done s' /\ a_reach a_demo_setting s'.
Proof.
  eexists. split; [vm_compute; reflexivity|]. apply (async_never_traps a_demo_setting a_demo_fits).
  - apply (a_demo_run_reach a_demo_sends). vm_compute. reflexivity.
  - vm_compute. reflexivity.
  - apply a_demo_sized.
  - apply Forall_nil. exact I.
Defined.

