(* ===== verification/ClientAsyncCalls.v ===== *)
(** * Asynchronous calls of RpcClientImpl

    What a call does on every branch, and calls that return OK though nothing will ever be
    written. *)

From Stdlib Require Import ZArith Lia Init.Byte.
From stdpp Require Import base list strings gmap.
From S2P Require Import Prelude Endian Message Buffer RpcMessage NetConn ClientConf Decode.
From S2P Require Import ServerSend ClientSync ClientCall ClientAsync ClientImpl ClientAsyncRead ClientAsyncSend.
From S2P Require Import ClientAsyncSystem ClientAsyncInv ClientAsyncProps Demo.

Section Calls.
Context `{Host} `{AssertMode} {P : Type}.
Variable setting : RpcClientSetting.
Abbreviation Impl := (RpcClientImpl P).
Let limit := cl_recv_max_msg_size_ setting.

(** A connection whose I/O block has its size, as every connection has. *)
Definition sane (c : TcpConnAsync) : Prop := len (io_block_ (send_bound_ c)) = kFixedIoBufferSize.

(** The connections of a client, and the number [conn_async_] refers to. *)
Definition conns (i : Impl) : gmap nat TcpConnAsync := ai_conns (async_half i).
Definition current (i : Impl) : option nat := conn_async_ (async_half i).

Definition client_ok (i : Impl) : Prop :=
  forall k, current i = Some k -> exists c, conns i !! k = Some c /\ sane c.

(** A connection just made: it waits for a header. *)
Definition opened : TcpConnAsync :=
  upd_base (async_read 16 on_read_handler) (TcpConnAsync_new Socket_new).

(** The connection refuses a message: it is too long, or the socket was closed while
    nothing was being written. *)
Definition refuses (msg : Message) (c : TcpConnAsync) : bool :=
  too_long setting msg ||
  (bool_decide (send_status_ c = Send_kDone) && negb (bool_decide (conn_stat c = kWorking))).

(** The client once the call timer was set. *)
Definition timed (sec : Z) (i : Impl) : Impl :=
  if 0 <? sec then set_timer (TimerWaits false) (set_was_timeout false i) else i.

Definition with_conn (k : nat) (c : TcpConnAsync) (i : Impl) : Impl :=
  set_async_half (set_ai_conns (<[k := c]> (conns i)) (async_half i)) i.
Definition point_to (p : option nat) (i : Impl) : Impl :=
  set_async_half (set_conn_async p (async_half i)) i.

Lemma with_conn_lookup k c i : conns (with_conn k c i) !! k = Some c.
Proof. apply lookup_insert_eq. Qed.

Lemma with_conn_twice k c c' i : with_conn k c' (with_conn k c i) = with_conn k c' i.
Proof. unfold with_conn, conns, set_async_half, set_ai_conns. cbn. by rewrite insert_insert_eq. Qed.

Lemma with_conn_id k c i : conns i !! k = Some c -> with_conn k c i = i.
Proof. intros Hc. unfold with_conn. rewrite insert_id by done. by destruct i as [? ? ? []]. Qed.

Lemma on_async_eq {A} (m : M TcpConnAsync A) (i : Impl) k c a c' :
  current i = Some k -> conns i !! k = Some c -> m c = Done (a, c') ->
  on_half (on_async (on_conn m)) i = Done (a, with_conn k c' i).
Proof.
  intros Hk Hc E. unfold on_half, zoom, on_async, mbind, M_bind, gets.
  unfold current, conns in *. rewrite Hk. unfold on_number. rewrite Hc.
  rewrite (async_on_conn_eq _ _ _ _ _ E). unfold with_conn, conns. by destruct (async_half i).
Qed.

Lemma guard_refuses c :
  guard (embed c) = Some false <->
  bool_decide (send_status_ c = Send_kDone) && negb (bool_decide (conn_stat c = kWorking)) = true.
Proof.
  unfold guard. change (ServerConn.send_status_ (embed c)) with (send_status_ c).
  change (ServerConn.conn_stat (embed c)) with (conn_stat c).
  change (ServerConn.was_cancelled_ (embed c)) with false.
  destruct (bool_decide _), (bool_decide _); simpl; naive_solver.
Qed.

Lemma timed_set sec (i : Impl) :
  0 <= sec -> when (0 <? sec) (set_rpc_call_timeout sec false) i = Done (tt, timed sec i).
Proof.
  intros Hs. unfold timed, when. destruct (0 <? sec) eqn:E; bool_prop; [|done].
  unfold set_rpc_call_timeout. rewrite (proj2 (Z.eqb_neq _ _)) by lia.
  unfold mbind, M_bind, safe_assert, modify. by rewrite (proj2 (Z.ltb_lt _ _)) by done.
Qed.

Lemma timed_half sec (i : Impl) : async_half (timed sec i) = async_half i.
Proof. unfold timed. by case_match. Qed.

(** What an accepted message does to the connection. *)
Lemma after_send_accepted msg c :
  refuses msg c = false -> after_send setting msg c = after_write (queued msg c).
Proof. unfold refuses, after_send. by destruct (too_long setting msg). Qed.

Lemma call_connected_async_eq sid op payload sec (i : Impl) k c :
  current i = Some k -> conns i !! k = Some c -> sane c -> 0 <= sec ->
  let msg := request_message sid op payload in
  let i' := with_conn k (after_send setting msg c) (timed sec i) in
  call_connected_async setting sid op payload sec i =
    if refuses msg c
    then Done (if was_timeout_ (timed sec i) then Status_RPC_CALL_TIMEOUT else Status_NETWORK_SEND_ERROR,
               point_to None i')
    else Done (Status_OK, i').
Proof.
  intros Hk Hc Hb Hs msg. pose proof (timed_half sec i) as E1. cbv zeta.
  unfold call_connected_async. unfold mbind at 1, M_bind at 1. rewrite timed_set by done.
  pose proof (send_net_message_async_eq setting msg c Hb) as Em.
  unfold mbind at 1, M_bind at 1, send_rpc_message_async. fold (request_message sid op payload). fold msg.
  unfold refuses, after_send. unfold current, conns in Hk, Hc. rewrite <-E1 in Hk, Hc.
  destruct (too_long setting msg); cbn [orb]; rewrite (on_async_eq _ _ k c _ _ Hk Hc Em); [done|].
  destruct (_ && _) eqn:Er; [by rewrite (proj2 (guard_refuses c) Er)|].
  assert (default true (guard (embed c)) = true) as ->; [|done].
  destruct (guard (embed c)) as [[]|] eqn:Eg; [done| |done].
  apply guard_refuses in Eg. congruence.
Qed.

Lemma connect_async_eq (i : Impl) :
  on_half (connect_async setting) i =
    let k := fresh (dom (conns i)) in Done (tt, point_to (Some k) (with_conn k opened i)).
Proof.
  unfold on_half, zoom, connect_async, conns. set (k := fresh _). unfold mbind at 1, M_bind at 1, modify.
  unfold mbind, M_bind, on_async, gets. cbn [conn_async_ set_conn_async]. unfold mbind, M_bind, on_number.
  cbn [ai_conns conn_async_ upcalls set_conn_async set_ai_conns]. rewrite lookup_insert_eq.
  unfold recv_net_message, do_read_, read_fuel. cbn [fst].
  change (2 + length _)%nat with 2%nat. rewrite async_do_read_ready by done.
  change (recv_data (TcpConnAsync_new Socket_new)) with (@nil Byte.byte). change (len [] <? 16) with true.
  cbv iota. unfold mret, M_ret, point_to, with_conn, set_upcalls, set_ai_conns, set_conn_async. cbn.
  by rewrite insert_insert_eq.
Qed.

Lemma on_half_current (i : Impl) : on_half (gets conn_async_) i = Done (current i, i).
Proof. unfold on_half, zoom, gets, current. by destruct i. Qed.

(** C24: an asynchronous call on every branch. Without a connection and when none can be made the
    call yields NETWORK_CONNECT_ERROR and changes nothing. Otherwise it uses the connection there is
    or a new one. A message over the send limit, or a closed idle connection, makes it drop
    the connection and yield RPC_CALL_TIMEOUT or NETWORK_SEND_ERROR; in every other case
    it yields OK and the request is the next message accepted for sending. The configured
    server address is an address (asio's parser throws at another text). *)
Theorem async_call_status ec sid op payload sec (i : Impl) :
  client_ok i -> 0 <= sec ->
  let msg := request_message sid op payload in
  exists st i', call_RPC_async setting ec sid op payload sec i = Done (st, i') /\
  ((current i = None /\ ec_failed ec = true /\ st = Status_NETWORK_CONNECT_ERROR /\ i' = i) \/
   exists k c, (conns i !! k = Some c /\ current i = Some k \/
                conns i !! k = None /\ current i = None /\ ec_failed ec = false /\ c = opened) /\
     (if refuses msg c
      then current i' = None /\
        st = (if was_timeout_ i && (sec =? 0) then Status_RPC_CALL_TIMEOUT else Status_NETWORK_SEND_ERROR)
      else st = Status_OK /\ current i' = Some k /\
        exists c', conns i' !! k = Some c' /\ sent_log c' = sent_log c ++ [msg])).
Proof.
  intros Hok Hs msg. unfold call_RPC_async, mbind at 1, M_bind at 1. rewrite on_half_current.
  assert (forall i1 k c, current i1 = Some k -> conns i1 !! k = Some c -> sane c ->
    was_timeout_ i1 = was_timeout_ i ->
    exists st i', call_connected_async setting sid op payload sec i1 = Done (st, i') /\
     (if refuses msg c
      then current i' = None /\
        st = (if was_timeout_ i && (sec =? 0) then Status_RPC_CALL_TIMEOUT else Status_NETWORK_SEND_ERROR)
      else st = Status_OK /\ current i' = Some k /\
        exists c', conns i' !! k = Some c' /\ sent_log c' = sent_log c ++ [msg])) as Hcall.
  { intros i1 k c Hk Hc Hb Hw. pose proof (timed_half sec i1) as E1.
    pose proof (call_connected_async_eq sid op payload sec i1 k c Hk Hc Hb Hs) as E. cbv zeta in E.
    fold msg in E. rewrite E. destruct (refuses msg c) eqn:Er.
    - eexists _, _. split; [done|]. split; [done|]. rewrite <-Hw. unfold timed.
      destruct (0 <? sec) eqn:E0; bool_prop; simpl.
      + by rewrite (proj2 (Z.eqb_neq _ _)), andb_false_r by lia.
      + replace sec with 0 by lia. by rewrite andb_true_r.
    - eexists _, _. split; [done|]. split; [done|].
      split; [by unfold current in *; cbn; rewrite E1|].
      eexists. rewrite with_conn_lookup, after_send_accepted, after_write_log by done. by split. }
  destruct (current i) as [k|] eqn:Hk.
  - destruct (Hok k Hk) as (c & Hc & Hb). destruct (Hcall i k c Hk Hc Hb eq_refl) as (st & i' & E & Hres).
    eexists _, _. split; [exact E|]. right. exists k, c. split; [by left|done].
  - destruct (ec_failed ec) eqn:Hec; [eexists _, _; split; [done|by left]|].
    unfold mbind, M_bind. rewrite connect_async_eq. cbv zeta. set (k := fresh _).
    destruct (Hcall (point_to (Some k) (with_conn k opened i)) k opened) as (st & i' & E & Hres);
      [done|apply with_conn_lookup|done|done|].
    eexists _, _. split; [exact E|]. right. exists k, opened. split; [right|done].
    split; [|done]. apply not_elem_of_dom, is_fresh.
Qed.

(** ** Calls after a failed write *)

(** The write chain has stopped: the status says a write is under way, and there is none. *)
Definition stalled (c : TcpConnAsync) : Prop :=
  sane c /\ send_status_ c = Send_kSend /\ sk_writes (socket_ (base_ c)) = [].

(** A list of calls without a time-out, made one after the other. *)
Fixpoint calls (ec : error_code) (reqs : list (Z * Z * bytes)) : M Impl (list RpcClientStatus) :=
  match reqs with
  | [] => mret []
  | (sid, op, payload) :: reqs =>
      st ← call_RPC_async setting ec sid op payload 0;
      sts ← calls ec reqs;
      mret (st :: sts)
  end.

Lemma stalled_call ec sid op payload (i : Impl) k c :
  current i = Some k -> conns i !! k = Some c -> stalled c ->
  too_long setting (request_message sid op payload) = false ->
  exists c', call_RPC_async setting ec sid op payload 0 i = Done (Status_OK, with_conn k c' i) /\ stalled c'.
Proof.
  intros Hk Hc (Hb & Hs & Hw) Ht.
  pose proof (call_connected_async_eq sid op payload 0 i k c Hk Hc Hb ltac:(done)) as E. cbv zeta in E.
  assert (refuses (request_message sid op payload) c = false) as Hr
    by (unfold refuses; by rewrite Ht, Hs, bool_decide_false).
  rewrite Hr in E. eexists. split.
  - unfold call_RPC_async, mbind, M_bind. by rewrite on_half_current, Hk, E.
  - rewrite after_send_accepted by done. unfold after_write, written, guard.
    change (ServerConn.send_status_ (embed (queued _ c))) with (send_status_ c). rewrite Hs.
    by rewrite bool_decide_false by done.
Qed.

Lemma stalled_calls ec reqs (i : Impl) k c :
  current i = Some k -> conns i !! k = Some c -> stalled c ->
  Forall (fun '(sid, op, payload) => too_long setting (request_message sid op payload) = false) reqs ->
  exists c', calls ec reqs i = Done (replicate (length reqs) Status_OK, with_conn k c' i) /\ stalled c'.
Proof.
  revert i c. induction reqs as [|[[sid op] payload] reqs IH]; intros i c Hk Hc Hst Hall.
  { exists c. by rewrite with_conn_id. }
  apply Forall_cons_1 in Hall as [Ht Hall].
  destruct (stalled_call ec sid op payload i k c Hk Hc Hst Ht) as (c1 & E1 & Hst1).
  destruct (IH (with_conn k c1 i) c1) as (c2 & E2 & Hst2); [done|apply with_conn_lookup|done|done|].
  exists c2. split; [|done]. cbn [calls]. unfold mbind, M_bind. rewrite E1, E2.
  unfold mret, M_ret. by rewrite with_conn_twice.
Qed.

Hypothesis limit_fits : fits_u 32 limit.

(** C25: calls are lost after a failed write. When the write that is under way on a connection
    fails, the send status is not reset: from then on any number of calls on that
    connection yield OK, the connection is kept, and no write is ever issued for them. *)
Theorem async_lost_calls (s : ASys) e n ec reqs (i : Impl) k :
  a_reach setting s -> a_sized setting (arcvd s) -> all_tolerated setting (arcvd s) ->
  a_enabled (AWriteError e n) s = true ->
  Forall (fun '(sid, op, payload) => too_long setting (request_message sid op payload) = false) reqs ->
  exists s', a_handle setting (AWriteError e n) s = Done s' /\
  (current i = Some k -> conns i !! k = Some (aconn s') ->
   exists c' i', calls ec reqs i = Done (replicate (length reqs) Status_OK, i') /\
     current i' = Some k /\ conns i' !! k = Some c' /\ sk_writes (socket_ (base_ c')) = []).
Proof.
  intros Hr Hsz Ht He Hall. pose proof (a_reach_inv setting limit_fits s Hr Hsz Ht) as Hinv.
  destruct (a_handle_write_error setting e n s Hinv He) as (s' & E & [Hinv' _ _] & Hst & Hw & _).
  exists s'. split; [done|]. intros Hk Hc.
  assert (stalled (aconn s')) as Hstall by (split_and!; [apply (embed_block (awire s')), Hinv'|done|done]).
  destruct (stalled_calls ec reqs i k (aconn s') Hk Hc Hstall Hall) as (c' & Ec & _ & _ & Hw').
  exists c', (with_conn k c' i). split; [done|]. split; [done|]. by rewrite with_conn_lookup.
Qed.
End Calls.

(** ** Worked examples *)

(** A client that uses the asynchronous connection [c]. *)
Definition demo_client (c : TcpConnAsync) : RpcClientImpl unit :=
  set_async_half (mkAsyncHalf {[ 0%nat := c ]} (Some 0%nat) []) (RpcClientImpl_new tt).

Lemma async_call_status_witness :
  client_ok (RpcClientImpl_new tt) /\ 0 <= 5 /\
  exists st i', call_RPC_async a_demo_setting ec_success 1 7 [x68; x69] 5 (RpcClientImpl_new tt) = Done (st, i') /\
  ((current (RpcClientImpl_new tt) = None /\ ec_failed ec_success = true /\ st = Status_NETWORK_CONNECT_ERROR /\
    i' = (RpcClientImpl_new tt)) \/
   exists k c, (conns (RpcClientImpl_new tt) !! k = Some c /\ current (RpcClientImpl_new tt) = Some k \/
                conns (RpcClientImpl_new tt) !! k = None /\ current (RpcClientImpl_new tt) = None /\
                ec_failed ec_success = false /\ c = opened) /\
     (if refuses a_demo_setting (request_message 1 7 [x68; x69]) c
      then current i' = None /\
        st = (if was_timeout_ (RpcClientImpl_new tt) && (5 =? 0) then Status_RPC_CALL_TIMEOUT
              else Status_NETWORK_SEND_ERROR)
      else st = Status_OK /\ current i' = Some k /\
        exists c', conns i' !! k = Some c' /\ sent_log c' = sent_log c ++ [request_message 1 7 [x68; x69]])).
Proof.
  assert (client_ok (RpcClientImpl_new tt)) as Hok by discriminate.
  split; [exact Hok|]. split; [lia|].
  apply (async_call_status a_demo_setting ec_success 1 7 [x68; x69] 5 (RpcClientImpl_new tt) Hok). lia.
Defined.

(** The connection's state when the write is under way, and a client that uses it. *)
Lemma async_lost_calls_witness :
  exists s, a_demo_run [ASend (request_message 1 7 [x68; x69])] = Some s /\
  exists s', a_handle a_demo_setting (AWriteError ec_connection_reset 0) s = Done s' /\
  exists c' i', calls a_demo_setting ec_success [(1, 7, [x68]); (1, 8, [])]
      (demo_client (aconn s')) = Done ([Status_OK; Status_OK], i') /\
    current i' = Some 0%nat /\ conns i' !! 0%nat = Some c' /\ sk_writes (socket_ (base_ c')) = [].
Proof.
  eexists. split; [vm_compute; reflexivity|].
  eexists. split; [vm_compute; reflexivity|].
  match goal with |- context [ demo_client (aconn ?s) ] =>
  edestruct (async_lost_calls (P:=unit) a_demo_setting a_demo_fits) with (e := ec_connection_reset) (n := 0)
    (k := 0%nat) (ec := ec_success) (reqs := [(1, 7, [x68]); (1, 8, @nil Byte.byte)])
    (i := demo_client (aconn s))
    as (s' & E & Hcalls) end.
  - apply (a_demo_run_reach [ASend (request_message 1 7 [x68; x69])]). vm_compute. reflexivity.
  - apply a_demo_sized.
  - apply Forall_nil. exact I.
  - vm_compute. reflexivity.
  - repeat (apply Forall_cons; split; [vm_compute; reflexivity|]). apply Forall_nil. exact I.
  - apply Hcalls; [reflexivity|]. vm_compute in E. injection E as <-. reflexivity.
Defined.
