(* ===== verification/ClientAsyncTimer.v ===== *)
(** * The call timer of asynchronous calls

    Nothing cancels the timer of an asynchronous call when its answer arrives; what that
    does to the connection. *)

From Stdlib Require Import ZArith Lia Init.Byte.
From stdpp Require Import base list strings gmap.
From S2P Require Import Prelude Endian Message Buffer RpcMessage NetConn ClientConf Decode.
From S2P Require Import ClientSync ClientCall ClientAsync ClientImpl ClientAsyncRead ClientAsyncSystem ClientAsyncProps ClientAsyncCalls Demo.

Section Timer.
Context `{Host} `{AssertMode} {P : Type}.
Variable setting : RpcClientSetting.
Abbreviation World := (TcpConnAsync * list upcall)%type.
Abbreviation Impl := (RpcClientImpl P).

(** Handlers the io_service runs for connections, one after the other. *)
Fixpoint conn_runs (es : list (nat * M World unit)) : M Impl unit :=
  match es with
  | [] => mret tt
  | (k, m) :: es => _ ← on_half (on_number k m); conn_runs es
  end.

(** A client whose call timer runs, over connection [k]. *)
Definition timing (k : nat) (i : Impl) : Prop :=
  current i = Some k /\ is_Some (conns i !! k) /\ rpc_call_timer_ i = TimerWaits false.

Lemma timing_number k k' (m : M World unit) (i i' : Impl) :
  timing k i -> on_half (on_number k' m) i = Done (tt, i') -> timing k i'.
Proof.
  intros (Hc & Hk & Ht) E. unfold on_half, zoom, on_number in E. unfold current, conns in *.
  destruct (ai_conns (async_half i) !! k') as [c|] eqn:Ek; [|done].
  destruct (m _) as [[[] [c' l]]| | |]; simplify_eq. split; [done|]. split; [|done]. cbn.
  destruct (decide (k = k')) as [->|N]; [rewrite lookup_insert_eq|rewrite lookup_insert_ne by done]; eauto.
Qed.

Lemma timing_runs k es i i' : timing k i -> conn_runs es i = Done (tt, i') -> timing k i'.
Proof.
  revert i. induction es as [|[k' m] es IH]; intros i Hi E; [by injection E as <-|].
  cbn [conn_runs] in E. unfold mbind, M_bind in E.
  destruct (on_half (on_number k' m) i) as [[[] i1]| | |] eqn:E1; try done.
  apply (IH i1); [by eapply timing_number|done].
Qed.

Lemma timing_fires k (i : Impl) :
  timing k i -> exists i' c, timer_fires i = Done (tt, i') /\ was_timeout_ i' = true /\
    current i' = Some k /\ conns i' !! k = Some c /\ conn_stat c = kClosed.
Proof.
  intros (Hc & [c Hk] & Ht). destruct (async_close_eq c) as (c' & Ec & _ & Hst & _).
  unfold timer_fires, rpc_call_timeout, mbind at 1, M_bind at 1, gets. rewrite Ht.
  unfold mbind, M_bind, modify. erewrite (on_async_eq shutdown_and_close_socket _ k c) by done.
  eexists _, c'. split; [done|]. split; [done|]. split; [done|]. split; [|done]. apply with_conn_lookup.
Qed.

Lemma ok_call_times ec sid op payload sec i i' :
  0 < sec -> client_ok i -> call_RPC_async setting ec sid op payload sec i = Done (Status_OK, i') ->
  exists k, timing k i'.
Proof.
  intros Hs Hok E.
  assert (forall i1 k c, current i1 = Some k -> conns i1 !! k = Some c -> sane c ->
    call_connected_async setting sid op payload sec i1 = Done (Status_OK, i') -> timing k i') as Hcall.
  { intros i1 k c Hk Hc Hb E1. pose proof (timed_half sec i1) as E2.
    pose proof (call_connected_async_eq setting sid op payload sec i1 k c Hk Hc Hb ltac:(lia)) as Eq.
    cbv zeta in Eq. rewrite Eq in E1. destruct (refuses _ _ _); [by destruct (was_timeout_ _)|]. injection E1 as <-.
    split; [unfold current in *; cbn; by rewrite E2|]. split; [rewrite with_conn_lookup; eauto|].
    unfold timed. by rewrite (proj2 (Z.ltb_lt _ _)). }
  unfold call_RPC_async, mbind at 1, M_bind at 1 in E. rewrite on_half_current in E. destruct (current i) as [k|] eqn:Hk.
  - destruct (Hok k Hk) as (c & Hc & Hb). exists k. by eapply (Hcall i k c).
  - destruct (ec_failed ec); [done|]. unfold mbind, M_bind in E. rewrite connect_async_eq in E.
    cbv zeta in E. eexists. eapply Hcall; [| | |exact E]; [done|apply with_conn_lookup|done].
Qed.

(** The timer of a failed asynchronous call is fatal. A call with a time-out whose request is
    refused drops the connection and leaves its timer armed: the handler goes through a
    null pointer. *)
Lemma failed_async_call_timer_undefined ec sid op payload sec st (i i' : Impl) :
  0 < sec -> client_ok i -> call_RPC_async setting ec sid op payload sec i = Done (st, i') ->
  st <> Status_OK -> st <> Status_NETWORK_CONNECT_ERROR -> timer_fires i' = Undefined.
Proof.
  intros Hs Hok E Hst Hst'.
  assert (forall i1 k c, current i1 = Some k -> conns i1 !! k = Some c -> sane c ->
    call_connected_async setting sid op payload sec i1 = Done (st, i') -> timer_fires i' = Undefined) as Hcall.
  { intros i1 k c Hk Hc Hb E1.
    pose proof (call_connected_async_eq setting sid op payload sec i1 k c Hk Hc Hb ltac:(lia)) as Eq.
    cbv zeta in Eq. rewrite Eq in E1. destruct (refuses _ _ _); [|by injection E1 as <-].
    injection E1 as _ <-. unfold timed. by rewrite (proj2 (Z.ltb_lt _ _)). }
  unfold call_RPC_async, mbind at 1, M_bind at 1 in E. rewrite on_half_current in E. destruct (current i) as [k|] eqn:Hk.
  - destruct (Hok k Hk) as (c & Hc & Hb). by eapply (Hcall i k c).
  - destruct (ec_failed ec); [by injection E as <-|]. unfold mbind, M_bind in E. rewrite connect_async_eq in E.
    cbv zeta in E. eapply Hcall; [| | |exact E]; [done|apply with_conn_lookup|done].
Qed.

(** C26: the time-out of an asynchronous call is not called off by its answer. After a call with
    a time-out yielded OK, whatever handlers run for the connections, answers received
    included, the timer when it expires closes the connection later calls share. *)
Theorem async_timer_outlives_answer ec sid op payload sec (i i' i'' : Impl) es :
  0 < sec -> client_ok i -> call_RPC_async setting ec sid op payload sec i = Done (Status_OK, i') ->
  conn_runs es i' = Done (tt, i'') ->
  exists k c i3, current i'' = Some k /\ timer_fires i'' = Done (tt, i3) /\
    was_timeout_ i3 = true /\ current i3 = Some k /\ conns i3 !! k = Some c /\
    conn_stat c = kClosed.
Proof.
  intros Hs Hok E Er. destruct (ok_call_times _ _ _ _ _ _ _ Hs Hok E) as [k Ht].
  pose proof (timing_runs _ _ _ _ Ht Er) as Ht'. destruct (timing_fires k i'' Ht') as (i3 & c & Hf).
  exists k, c, i3. split; [apply Ht'|done].
Qed.
End Timer.

(** ** Worked example *)

(** The answer arrives on connection 0. *)
Definition demo_answer_arrives : nat * M (TcpConnAsync * list upcall) unit :=
  (0%nat, fun w =>
     let data := net_str (answer_message little_endian (1, 7, [x68; x69])) in
     a_read_completion a_demo_setting on_read_handler ec_success (len data) (a_delivered data w.1, w.2)).

Lemma async_timer_outlives_answer_witness :
  exists i' i'', call_RPC_async a_demo_setting ec_success 1 7 [x68; x69] 5
      (demo_client opened) = Done (Status_OK, i') /\
    conn_runs [demo_answer_arrives] i' = Done (tt, i'') /\
    upcalls (async_half i'') = [mkUpcall Status_OK 1 7 [x68; x69]] /\
    exists k c i3, current i'' = Some k /\ timer_fires i'' = Done (tt, i3) /\
      was_timeout_ i3 = true /\ current i3 = Some k /\ conns i3 !! k = Some c /\ conn_stat c = kClosed.
Proof.
  eexists _, _. split; [vm_compute; reflexivity|]. split; [vm_compute; reflexivity|]. split; [vm_compute; reflexivity|].
  eapply (async_timer_outlives_answer a_demo_setting ec_success 1 7 [x68; x69] 5
    (demo_client opened)).
  - lia.
  - intros k Hk. injection Hk as <-. exists opened. split; reflexivity.
  - vm_compute. reflexivity.
  - instantiate (1 := [demo_answer_arrives]). vm_compute. reflexivity.
Defined.

(** A call whose request is over the send limit. *)
Definition demo_small_limit : RpcClientSetting := mkSetting "127.0.0.1" 8434 10 4096 7 true false.

Lemma failed_async_call_example :
  exists i', call_RPC_async demo_small_limit ec_success 1 7 [x68; x69] 5 (demo_client opened) =
      Done (Status_NETWORK_SEND_ERROR, i') /\ timer_fires i' = Undefined.
Proof.
  eexists. split; [vm_compute; reflexivity|].
  eapply (failed_async_call_timer_undefined demo_small_limit ec_success 1 7 [x68; x69] 5 Status_NETWORK_SEND_ERROR
    (demo_client opened)).
  - reflexivity.
  - intros k Hk. injection Hk as <-. exists opened. split; reflexivity.
  - vm_compute. reflexivity.
  - discriminate.
  - discriminate.
Defined.
