(* ===== verification/Exchange.v ===== *)
(** * An asynchronous client of the running server

    An RpcClientImpl that makes asynchronous calls over one connection, and the running
    server at the other end. The user's threads call, the client's io_service completes
    reads and writes and runs the call timer, and anything may happen at the server, in
    any order. What the client's completed writes put on the wire is in flight until the
    server's reads take it; what the client's reads deliver is what the server sent. *)

From Stdlib Require Import ZArith Lia Init.Byte.
From stdpp Require Import base list strings gmap.
From S2P Require Import Prelude Endian Message Buffer RpcMessage NetConn External NetConf.
From S2P Require Import RpcInstance Service Executor Dispatcher Answering Decode RpcProps.
From S2P Require Import ServerConn ServerSend ServerRead ServerSystem ServerInv Pending NetServer NetServerProps.
From S2P Require Import World WorldInv WorldProps Link Session.
From S2P Require Import ClientConf ClientSync ClientCall ClientAsync ClientImpl ClientAsyncRead ClientAsyncSend.
From S2P Require Import ClientAsyncSystem ClientAsyncInv ClientAsyncProps ClientAsyncCalls.

Section Exchange.
Context (client : Host) `{Host} `{AssertMode} `{SteadyTimer} `{LibConfig} `{BoostString}
  {S : Type} `{!Service S} `{!Answering S} `{!EQueue RpcInstance}.
Variables (setting : RpcClientSetting) (ip : string) (known : gset Z) (id : nat).
Abbreviation Impl := (RpcClientImpl unit).

(** The client, the bytes its connection wrote and those asio delivered to it, and the
    server with the bytes on their way to it. *)
Record Exchange := mkExchange {
  ex_impl : Impl;
  ex_sent : bytes;
  ex_rcvd : bytes;
  ex_conv : Conv S
}.

Inductive xevent :=
| XCall (sid op : Z) (payload : bytes) (sec : Z)   (* the user calls *)
| XTimer                                           (* the call timer expires *)
| XConn (e : aevent)                               (* an operation of the client's socket ends *)
| XServer (e : wevent).                            (* something happens at the server *)

(** The number of the client's connection. *)
Definition num : nat := fresh (dom (conns (RpcClientImpl_new tt))).

Definition set_impl (i : Impl) (x : Exchange) : Exchange := mkExchange i (ex_sent x) (ex_rcvd x) (ex_conv x).
Definition set_conv (s : Conv S) (x : Exchange) : Exchange := mkExchange (ex_impl x) (ex_sent x) (ex_rcvd x) s.

(** The client's connection as its own state machine sees it. *)
Definition view (c : TcpConnAsync) (x : Exchange) : ASys :=
  mkASys c (upcalls (async_half (ex_impl x))) (ex_sent x) (ex_rcvd x).

(** What the connection wrote is on its way to the server. *)
Definition put_client (s : ASys) (x : Exchange) : Exchange :=
  mkExchange
    (set_async_half (set_upcalls (acalls s) (set_ai_conns (<[num := aconn s]> (conns (ex_impl x)))
       (async_half (ex_impl x)))) (ex_impl x))
    (awire s) (arcvd s) (put_inflight (drop (length (ex_sent x)) (awire s)) (ex_conv x)).

(** A request both ends take, whose answer both ends take. *)
Definition within_limits (conf : NetConf) (p : bytes) : bool :=
  let answer := answer_to known id p in
  (len p <? 2 ^ 32) && accept_header (recv_max_msg_size_ conf) (header_ (Message_of_data p)) &&
  negb (over_limit conf answer) && (sizeof_RpcResponseHeader <=? len (payload_ answer)) &&
  (len (payload_ answer) <=? cl_recv_max_msg_size_ setting).

(** Reads deliver the next of the bytes the server sent. *)
Definition delivers (e : aevent) (x : Exchange) : bool :=
  match e with
  | ASend _ | AClose => false
  | AReadDone data =>
      bool_decide (ztake (len data) (drop (length (ex_rcvd x)) (cv_wire (ex_conv x))) = data)
  | _ => true
  end.

(** A call is made while the client has its connection: after a refused call the client has
    dropped it, and the next call would make another. The timer expires whenever it is waited
    for, also when the client has no connection any more. *)
Definition xenabled (e : xevent) (x : Exchange) : bool :=
  match e with
  | XCall sid op payload sec =>
      bool_decide (current (ex_impl x) = Some num) && (0 <=? sec) &&
      within_limits (conf_of (ex_conv x)) (client_request (H:=client) sid op payload)
  | XTimer =>
      match rpc_call_timer_ (ex_impl x) with
      | TimerWaits _ => true
      | _ => false
      end
  | XConn e =>
      match conns (ex_impl x) !! num with
      | Some c => a_enabled e (view c x) && delivers e x
      | None => false
      end
  | XServer _ => true
  end.

(** Continue with the result of a computation that must finish. *)
Definition x_finish {A} (r : outcome A) (k : A -> Exchange) : outcome Exchange :=
  match r with
  | Done a => Done (k a)
  | AssertFailed => AssertFailed
  | Undefined => Undefined
  | OutOfFuel => OutOfFuel
  end.

(** A server's event that is not possible when its turn comes is passed over. *)
Definition xstep (e : xevent) (x : Exchange) : outcome Exchange :=
  match e with
  | XCall sid op payload sec =>
      x_finish (call_RPC_async (H:=client) setting ec_success sid op payload sec (ex_impl x))
        (fun r => set_impl r.2 x)
  | XTimer => x_finish (timer_fires (ex_impl x)) (fun r => set_impl r.2 x)
  | XConn e =>
      match conns (ex_impl x) !! num with
      | Some c => x_finish (a_handle (H:=client) setting e (view c x)) (fun s => put_client s x)
      | None => Done x
      end
  | XServer e =>
      match attempt e (ex_conv x) with
      | Some s => Done (set_conv s x)
      | None => Undefined
      end
  end.

(** The first call connects, to a server at [w]; the call goes on from here. *)
Definition x_boot (w : World S) : option Exchange :=
  match link_connect ip (mkLink (mkConv w None []) 0 [] false) with
  | (ec_success, l) =>
      match on_half (connect_async (H:=client) setting) (RpcClientImpl_new tt) with
      | Done (_, i) => Some (mkExchange i [] [] (l_conv l))
      | _ => None
      end
  | _ => None
  end.

(** The states that can be reached, with the events that led there. *)
Inductive xreach (x0 : Exchange) : list xevent -> Exchange -> Prop :=
| xreach_start : xreach x0 [] x0
| xreach_step es x e x' :
    xreach x0 es x -> xenabled e x = true -> xstep e x = Done x' -> xreach x0 (es ++ [e]) x'.

(** Run a list of events; [None]: one of them is not enabled or fails. *)
Fixpoint xrun (es : list xevent) (x : Exchange) : option Exchange :=
  match es with
  | [] => Some x
  | e :: es =>
      if xenabled e x then
        match xstep e x with Done x' => xrun es x' | _ => None end
      else None
  end.

(** The requests of the calls made, unless they are over the client's own limit. *)
Definition x_asks (e : xevent) : list Message :=
  match e with
  | XCall sid op payload _ => a_event_sends setting (ASend (request_message (H:=client) sid op payload))
  | _ => []
  end.
Definition asks (es : list xevent) : list Message := concat (x_asks <$> es).

(** What the user's handler was told. *)
Definition told (x : Exchange) : list upcall := upcalls (async_half (ex_impl x)).

(** What it is to be told: the client's view of the services' answers to the calls. *)
Definition genuine (es : list xevent) : list upcall :=
  notify (H:=client) setting (reaction known id <$> asks es).

Lemma asks_app es es' : asks (es ++ es') = asks es ++ asks es'.
Proof. unfold asks. by rewrite fmap_app, concat_app. Qed.

Lemma xrun_reach es x0 es0 x x' : xreach x0 es0 x -> xrun es x = Some x' -> xreach x0 (es0 ++ es) x'.
Proof.
  revert es0 x. induction es as [|e es IH]; intros es0 x Hx; simpl; [intros [= <-]; by rewrite app_nil_r|].
  destruct (xenabled e x) eqn:He; [|done]. destruct (xstep e x) eqn:Hh; try done.
  intros E. rewrite cons_middle, app_assoc. eapply IH; [by eapply xreach_step|done].
Qed.

Lemma xrun_app es es' x x' : xrun es x = Some x' -> xrun (es ++ es') x = xrun es' x'.
Proof.
  revert x. induction es as [|e es IH]; intros x; cbn [xrun app]; [by intros [= ->]|].
  destruct (xenabled e x); [|done]. destruct (xstep e x); try done. apply IH.
Qed.

(** A first call is the connecting and the call that follows. *)
Lemma first_call sid op payload sec i :
  on_half (connect_async (H:=client) setting) (RpcClientImpl_new tt) = Done (tt, i) ->
  call_RPC_async (H:=client) setting ec_success sid op payload sec (RpcClientImpl_new tt) =
    call_RPC_async (H:=client) setting ec_success sid op payload sec i.
Proof.
  intros E. unfold call_RPC_async. unfold mbind at 1 3, M_bind at 1 3. rewrite !on_half_current.
  cbn [current async_half RpcClientImpl_new AsyncHalf_new conn_async_].
  unfold mbind, M_bind. cbn [ec_failed]. rewrite E.
  rewrite connect_async_eq in E. by injection E as <-.
Qed.
End Exchange.
Arguments Exchange {_} S {_}.

(** ** The invariant *)

Section Invariant.
Context (client : Host) `{Host} `{AssertMode} `{SteadyTimer} `{!SteadyTimerLaws} `{LibConfig} `{BoostString}
  {S : Type} `{!Service S} `{!Answering S} `{!EQueue RpcInstance} `{!EQueueLaws RpcInstance}.
Variables (setting : RpcClientSetting) (ip : string) (known : gset Z) (id : nat).
Let limit := cl_recv_max_msg_size_ setting.
Implicit Types (s : Conv S) (x : Exchange S).

(** Requests as [within_limits] has them. *)
Record fits (conf : NetConf) (p : bytes) : Prop := {
  ft_server : fits_server known id conf p;
  ft_answer : sizeof_RpcResponseHeader <= len (payload_ (answer_to known id p)) <= limit
}.

Lemma within_limits_true conf p : within_limits setting known id conf p = true -> fits conf p.
Proof.
  unfold within_limits. intros [[[[E1 E2]%andb_prop E3]%andb_prop E4]%andb_prop E5]%andb_prop. bool_prop.
  split; [|by split]. split; [done|]. split; [done|]. done.
Qed.

Lemma fits_same conf conf' p : same_limits conf conf' -> fits conf p -> fits conf' p.
Proof. intros L [A B]. split; [by eapply fits_server_same|done]. Qed.

Lemma answers_of (ps : list bytes) : answer_to known id <$> ps = reaction known id <$> (Message_of_data <$> ps).
Proof. by rewrite <-list_fmap_compose. Qed.

(** What the server sent is the front of answers to some of the requests, each once. *)
Definition sent_answers (ps : list bytes) s : Prop :=
  exists log, cv_wire s `prefix_of` stream log /\ log ⊆+ answer_to known id <$> ps.

Lemma sent_answers_app ps ps' s : sent_answers ps s -> sent_answers (ps ++ ps') s.
Proof.
  intros (log & Hw & Hl). exists log. split; [done|]. rewrite fmap_app.
  by apply submseteq_inserts_r.
Qed.

Record x_inv (c : TcpConnAsync) (ps : list bytes) x : Prop := {
  xi_conn : conns (ex_impl x) !! num = Some c;
  xi_client : a_inv (H:=client) setting (view c x);
  xi_timer : rpc_call_timer_ (ex_impl x) <> TimerWaits true;
  xi_linked : linked known id (ex_conv x);
  xi_sent : ex_sent x = cv_rcvd (ex_conv x) ++ cv_inflight (ex_conv x);
  xi_rcvd : ex_rcvd x `prefix_of` cv_wire (ex_conv x);
  xi_log : sent_log c = Message_of_data <$> ps;
  xi_fits : Forall (fits (conf_of (ex_conv x))) ps;
  xi_answers : sent_answers ps (ex_conv x);
  xi_current : current (ex_impl x) = Some num \/ current (ex_impl x) = None
}.

(** ** The server's side *)

(** A prefix of the requests' bytes holds a prefix of the requests. *)
Lemma requests_prefix conf ps r :
  Forall (fits conf) ps -> r `prefix_of` stream (H:=client) (Message_of_data <$> ps) ->
  (decode_all (recv_max_msg_size_ conf) (RHead r)).1 `prefix_of` Message_of_data <$> ps.
Proof.
  intros Hf Hr. rewrite (stream_host client H) in Hr. eapply decode_prefix; [|exact Hr].
  eapply (fitting_stream known id). eapply Forall_impl; [exact Hf|]. by intros p [? _].
Qed.

Lemma answers_of_served ps s c' :
  linked known id s -> ns_conns (w_server (cv_world s)) !! id = Some c' ->
  Forall (fits (conf_of s)) ps -> cv_rcvd s `prefix_of` stream (H:=client) (Message_of_data <$> ps) ->
  sent_answers ps s.
Proof.
  intros Hl Hc Hf Hr.
  destruct (account_of_inv known (cv_world s) id c' (lk_inv _ _ _ Hl) Hc) as (wire & rcvd & ms & Hn & Hans & Hms & _ & Hw).
  unfold cv_rcvd in Hr. rewrite (cv_net_linked _ _ _ Hl), Hn in Hr. cbn in Hr.
  exists (ServerConn.sent_log c'). split; [unfold cv_wire; by rewrite (cv_net_linked _ _ _ Hl), Hn|].
  assert (ms `prefix_of` Message_of_data <$> ps) as [rest Hrest].
  { etransitivity; [exact Hms|]. by apply requests_prefix. }
  transitivity (admissible (conf_of s) (reaction known id <$> ms)).
  - fold (conf_of s) in Hans. rewrite <-Hans. by apply submseteq_inserts_r.
  - transitivity (reaction known id <$> ms).
    + unfold admissible. apply sublist_submseteq, sublist_filter.
    + rewrite answers_of, Hrest, fmap_app.
      by apply submseteq_inserts_r.
Qed.

Lemma attempt_answers e ps s s' :
  linked known id s -> attempt e s = Some s' -> Forall (fits (conf_of s)) ps ->
  cv_rcvd s' `prefix_of` stream (H:=client) (Message_of_data <$> ps) ->
  sent_answers ps s -> sent_answers ps s'.
Proof.
  intros Hl Ha Hf Hr Hs. destruct (attempt_ok known id e s Hl) as (s1 & E1 & Hl1 & Hev). rewrite Ha in E1. injection E1 as <-.
  assert (Forall (fits (conf_of s')) ps) as Hf'
    by (eapply Forall_impl; [exact Hf|]; intros p; apply fits_same, (ev_limits _ _ _ Hev)).
  destruct (ns_conns (w_server (cv_world s')) !! id) as [c'|] eqn:Hc; [by eapply answers_of_served|].
  assert (cv_wire s' = cv_wire s) as Ew.
  { unfold attempt in Ha. destruct (possible e s); [|by injection Ha as <-].
    destruct (wstep e (cv_world s)) as [w'| | |] eqn:E; try done. injection Ha as <-. cbn in Hc.
    destruct (wstep_net e (cv_world s) w' id E (lk_old _ _ _ Hl)) as [[? Hk]|En]; [congruence|].
    unfold cv_wire, cv_net. cbn [cv_id cv_world]. rewrite (lk_id _ _ _ Hl). cbn. by rewrite En. }
  destruct Hs as (log & Hw & Hlog). exists log. by rewrite Ew.
Qed.

(** ** The client's side *)

Hypothesis limit_set : 0 < limit < 2 ^ 31.

(** The answers are messages the client takes and can parse. *)
Definition taken (m : Message) : Prop :=
  (header_wf (header_ m) /\ accept_header limit (header_ m) = true /\ length_ (header_ m) = len (payload_ m)) /\
  tolerated m.

Lemma answer_taken conf p : fits conf p -> taken (answer_to known id p).
Proof.
  intros [_ [Hlo Hhi]]. unfold answer_to in *. rewrite reaction_plain in *. set (q := payload_ _) in *.
  cbn [payload_ Message_of_data] in Hlo, Hhi. split; [|by right].
  assert (len q < 2 ^ 32) as Hq by lia. split; [apply Message_of_data_wf|].
  rewrite Message_of_data_length by done. split; [|done]. unfold accept_header.
  rewrite Message_of_data_length by done. cbn [header_ Message_of_data magic version].
  rewrite !Z.eqb_refl, (uwrap_small 32 limit) by (unfold fits_u; lia). cbn.
  by rewrite (proj2 (Z.leb_le _ limit)), orb_true_r.
Qed.

Lemma answers_taken conf ps log :
  Forall (fits conf) ps -> log ⊆+ answer_to known id <$> ps -> Forall taken log.
Proof.
  intros Hf Hl. apply Forall_forall. intros m Hm. eapply elem_of_submseteq in Hm; [|exact Hl].
  apply list_elem_of_fmap in Hm as (p & -> & Hp). eapply answer_taken. by eapply Forall_forall in Hf.
Qed.

Lemma answers_host ps log : log ⊆+ answer_to known id <$> ps -> stream (H:=H) log = stream (H:=client) log.
Proof.
  intros Hl. assert (log = Message_of_data <$> (payload_ <$> log)) as ->; [|apply stream_host].
  rewrite <-list_fmap_compose. rewrite <-(list_fmap_id log) at 1. apply list_fmap_ext. intros i m Hm.
  eapply list_elem_of_lookup_2, elem_of_submseteq in Hm; [|exact Hl].
  apply list_elem_of_fmap in Hm as (p & -> & _). unfold answer_to. cbn. apply reaction_plain.
Qed.

(** What the client gets of them parses to the first of them. *)
Lemma answers_prefix ps log r conf :
  Forall (fits conf) ps -> log ⊆+ answer_to known id <$> ps -> r `prefix_of` stream (H:=H) log ->
  (decode_all (H:=client) limit (RHead r)).1 `prefix_of` log /\
  (decode_all (H:=client) limit (RHead r)).2 <> RBad /\ all_tolerated (H:=client) setting r.
Proof.
  intros Hf Hl Hr. rewrite (answers_host ps) in Hr by done. pose proof (answers_taken conf ps log Hf Hl) as Ht.
  destruct (decode_prefix (H:=client) limit log r) as [Hp Hb]; [|done|].
  { eapply Forall_impl; [exact Ht|]. by intros m [? _]. }
  split; [done|]. split; [done|]. destruct Hp as [rest Hp]. unfold all_tolerated. fold limit.
  rewrite Hp in Ht. apply Forall_app in Ht as [Ht _]. eapply Forall_impl; [exact Ht|]. by intros m [_ ?].
Qed.

(** What the handler was told is genuine. *)
Lemma notify_submseteq l1 l2 : l1 ⊆+ l2 -> notify (H:=client) setting l1 ⊆+ notify (H:=client) setting l2.
Proof. intros Hl. unfold notify. case_match; [by apply fmap_submseteq|done]. Qed.

Lemma x_inv_genuine c ps x :
  x_inv c ps x -> told x ⊆+ notify (H:=client) setting (reaction known id <$> (Message_of_data <$> ps)).
Proof.
  intros [X1 X2 X3 X4 X5 X6 X7 X8 (log & Hw & Hl) _].
  destruct (answers_prefix ps log (ex_rcvd x) (conf_of (ex_conv x)) X8 Hl) as [Hp _]; [by etransitivity|].
  assert (exists ms, ms `prefix_of` log /\ told x = notify (H:=client) setting ms) as (ms & Hms & ->).
  { destruct (ai_read _ _ X2) as [ms st Hd _ Hm|ms Hms Hm _ _]; exists ms; (split; [|exact Hm]).
    - cbn [arcvd view] in Hd. fold limit in Hd. by rewrite Hd in Hp.
    - etransitivity; [exact Hms|exact Hp]. }
  rewrite <-answers_of. apply notify_submseteq.
  rewrite <-Hl. destruct Hms as [rest ->]. by apply submseteq_inserts_r.
Qed.

(** ** The steps *)

Lemma limit_fits : fits_u 32 limit.
Proof. unfold fits_u. lia. Qed.

(** The client's part changes, the server's does not. *)
Lemma x_inv_client c c' ps ps' x i' :
  x_inv c ps x -> conns i' !! num = Some c' -> upcalls (async_half i') = told x ->
  rpc_call_timer_ i' <> TimerWaits true -> current i' = Some num \/ current i' = None ->
  a_inv (H:=client) setting (mkASys c' (told x) (ex_sent x) (ex_rcvd x)) ->
  sent_log c' = Message_of_data <$> ps ++ ps' -> Forall (fits (conf_of (ex_conv x))) ps' ->
  x_inv c' (ps ++ ps') (set_impl i' x).
Proof.
  intros [X1 X2 X3 X4 X5 X6 X7 X8 X9 X10] Hc Hu Ht Hcu Hi Hl Hf. split; try done.
  - unfold view. cbn [ex_impl set_impl]. by rewrite Hu.
  - by apply Forall_app.
  - by apply sent_answers_app.
Qed.

Lemma call_step c ps x sid op payload sec :
  x_inv c ps x -> xenabled client setting known id (XCall sid op payload sec) x = true ->
  exists x' c' ps', xstep client setting (XCall sid op payload sec) x = Done x' /\ x_inv c' (ps ++ ps') x' /\
    Message_of_data <$> ps' = x_asks client setting (XCall sid op payload sec).
Proof.
  intros Hx He. pose proof Hx as [X1 X2 X3 X4 X5 X6 X7 X8 X9 X10]. cbn [xenabled xstep] in *.
  apply andb_prop in He as [[Hk%bool_decide_eq_true_1 Hs%Z.leb_le]%andb_prop Hw%within_limits_true].
  set (p := client_request sid op payload) in *.
  pose proof (a_handle_send (H:=client) setting (request_message (H:=client) sid op payload) _ X2) as (s' & _ & [Hi _ Hl] & ->).
  cbn [aconn view acalls awire arcvd] in *.
  pose proof (embed_block (H:=client) _ _ (ai_send _ _ X2)) as Hb.
  pose proof (call_connected_async_eq (H:=client) setting sid op payload sec (ex_impl x) num c Hk X1 Hb Hs) as E.
  cbv zeta in E. set (c' := after_send setting _ c) in *. set (i1 := with_conn num c' (timed sec (ex_impl x))) in *.
  assert (exists st i', call_RPC_async (H:=client) setting ec_success sid op payload sec (ex_impl x) = Done (st, i') /\
    (i' = i1 \/ i' = point_to None i1)) as (st & i' & Ec & Hi').
  { unfold call_RPC_async, mbind, M_bind. rewrite on_half_current, Hk, E. case_match; eauto. }
  rewrite Ec. exists (set_impl i' x), c', (if too_long setting (request_message (H:=client) sid op payload) then [] else [p]).
  split; [done|]. split; [|unfold x_asks, a_event_sends; by destruct (too_long _ _)].
  apply (x_inv_client c); [done|by destruct Hi' as [->| ->]; apply lookup_insert_eq| | | | | |].
  - unfold told. rewrite <-(timed_half sec (ex_impl x)). by destruct Hi' as [->| ->].
  - assert (rpc_call_timer_ i' = rpc_call_timer_ (timed sec (ex_impl x))) as -> by (by destruct Hi' as [->| ->]).
    unfold timed. by destruct (0 <? sec).
  - destruct Hi' as [->| ->]; [left|by right]. rewrite <-Hk. unfold i1, timed. by destruct (0 <? sec).
  - done.
  - rewrite Hl, X7, fmap_app. f_equal. unfold a_event_sends. by destruct (too_long _ _).
  - destruct (too_long _ _); [by constructor|by constructor].
Qed.

(** The call timer expires: after a refused call its handler goes through a null pointer. *)
Lemma timer_step_undefined x :
  xenabled client setting known id XTimer x = true -> rpc_call_timer_ (ex_impl x) <> TimerWaits true ->
  current (ex_impl x) = None -> xstep client setting XTimer x = Undefined.
Proof.
  cbn [xenabled xstep]. intros He Ht Hc. destruct (rpc_call_timer_ (ex_impl x)) as [| |[]] eqn:Et; try done.
  unfold timer_fires, rpc_call_timeout, mbind at 1, M_bind at 1, gets. rewrite Et. unfold mbind, M_bind, modify.
  unfold on_half, zoom, on_async, mbind, M_bind, gets. cbn. unfold current in Hc. by rewrite Hc.
Qed.

Lemma timer_step c ps x :
  x_inv c ps x -> xenabled client setting known id XTimer x = true -> current (ex_impl x) = Some num ->
  exists x' c', xstep client setting XTimer x = Done x' /\ x_inv c' ps x'.
Proof.
  intros Hx He Hk. pose proof Hx as [X1 X2 X3 _ _ _ X7 _ _ X10]. cbn [xenabled xstep] in *.
  destruct (rpc_call_timer_ (ex_impl x)) as [| |[]] eqn:Et; try done.
  destruct (a_handle_close (H:=client) setting _ X2) as (s' & Eh & [Hi _ Hl] & _).
  destruct (async_close_eq c) as (c' & Ec & _).
  cbn [a_handle aconn view] in Eh.
  rewrite (a_run_eq _ _ _ _ _ _ _ _ (async_on_conn_eq _ _ _ _ _ Ec)) in Eh. injection Eh as <-.
  cbn [aconn] in Hl. rewrite app_nil_r in Hl.
  exists (set_impl (with_conn num c' (set_was_timeout true (set_timer TimerIdle (ex_impl x)))) x), c'.
  split.
  - unfold timer_fires, rpc_call_timeout, mbind at 1, M_bind at 1, gets. rewrite Et.
    unfold mbind, M_bind, modify. by erewrite (on_async_eq shutdown_and_close_socket _ num c) by done.
  - rewrite <-(app_nil_r ps). apply (x_inv_client c); [done|by apply with_conn_lookup|done|done|by left|done| |done].
    by rewrite app_nil_r, Hl.
Qed.

Lemma delivers_prefix e x :
  delivers e x = true -> ex_rcvd x `prefix_of` cv_wire (ex_conv x) ->
  ex_rcvd x ++ a_event_bytes e `prefix_of` cv_wire (ex_conv x).
Proof.
  intros Hd Hr. destruct e; cbn [a_event_bytes]; rewrite ?app_nil_r; try done.
  destruct Hr as [rest Hr]. cbn [delivers] in Hd. rewrite Hr, drop_app_length in *.
  apply bool_decide_eq_true_1 in Hd. apply prefix_app. rewrite <-Hd at 1. eexists. symmetry. apply ztake_zdrop.
Qed.

(** What arrives at the client never trips an assertion of its parser. *)
Lemma x_inv_tolerated c ps x r :
  x_inv c ps x -> r `prefix_of` cv_wire (ex_conv x) ->
  (decode_all (H:=client) limit (RHead r)).2 <> RBad /\ all_tolerated (H:=client) setting r.
Proof.
  intros [_ _ _ _ _ _ _ X8 (log & Hw & Hl) _] Hr.
  destruct (answers_prefix ps log r (conf_of (ex_conv x)) X8 Hl) as (_ & ? & ?); [by etransitivity|done].
Qed.

Lemma conn_put c ps x e (s' : ASys) :
  x_inv c ps x -> a_enabled e (view c x) = true -> delivers e x = true ->
  a_handle (H:=client) setting e (view c x) = Done s' -> a_step_ok (H:=client) setting e (view c x) s' ->
  x_inv (aconn s') ps (put_client s' x).
Proof.
  intros [X1 X2 X3 X4 X5 X6 X7 X8 X9 X10] He Hd Eh [Hi _ Hl].
  assert (a_event_sends setting e = []) as Ee by (by destruct e).
  rewrite Ee, app_nil_r in Hl. cbn [aconn view] in Hl.
  pose proof (a_handle_wire (H:=client) setting e _ _ Eh) as [new Hnew].
  pose proof (a_handle_rcvd (H:=client) setting e _ _ He Eh) as Hr. cbn [awire arcvd view] in *.
  split; cbn [ex_impl ex_sent ex_rcvd ex_conv put_client]; try done.
  - apply lookup_insert_eq.
  - unfold view. cbn [ex_impl ex_sent ex_rcvd async_half upcalls set_async_half set_upcalls put_client]. by destruct s'.
  - by destruct X4.
  - cbn [cv_inflight put_inflight]. change (cv_rcvd (put_inflight ?b ?s)) with (cv_rcvd s).
    by rewrite app_assoc, <-X5, Hnew, drop_app_length.
  - rewrite Hr. by apply delivers_prefix.
  - by rewrite Hl.
Qed.

Lemma conn_step c ps x e :
  x_inv c ps x -> xenabled client setting known id (XConn e) x = true ->
  exists x' c', xstep client setting (XConn e) x = Done x' /\ x_inv c' ps x'.
Proof.
  intros Hx He. cbn [xenabled xstep] in *. rewrite (xi_conn _ _ _ Hx) in *. apply andb_prop in He as [He Hd].
  destruct (x_inv_tolerated c ps x _ Hx (delivers_prefix e x Hd (xi_rcvd _ _ _ Hx))) as [_ Ht].
  destruct (a_handle_progress (H:=client) setting limit_fits e (view c x)) as (s' & Eh & Hok);
    [apply Hx|done|by left|done|].
  rewrite Eh. eexists _, _. split; [done|]. by eapply conn_put.
Qed.

Lemma server_step c ps x e :
  x_inv c ps x -> exists s', attempt e (ex_conv x) = Some s' /\ evolves id (ex_conv x) s' /\
    x_inv c ps (set_conv s' x).
Proof.
  intros [X1 X2 X3 X4 X5 X6 X7 X8 X9 X10].
  destruct (attempt_ok known id e (ex_conv x) X4) as (s' & E & Hl & Hev). exists s'. split; [done|]. split; [done|].
  split; cbn [ex_impl ex_sent ex_rcvd ex_conv set_conv]; try done.
  - rewrite X5. symmetry. apply Hev.
  - etransitivity; [exact X6|]. apply Hev.
  - eapply Forall_impl; [exact X8|]. intros p. apply fits_same, Hev.
  - apply (attempt_answers e ps (ex_conv x) s'); try done. rewrite <-X7.
    etransitivity; [|exact (send_ok_wire (H:=client) _ _ (ai_send _ _ X2))]. cbn [awire view]. rewrite X5, <-(ev_rcvd _ _ _ Hev). by apply prefix_app_r.
Qed.

(** The one event that traps: the call timer expires after a refused call. *)
Definition strands (e : xevent) x : Prop := e = XTimer /\ current (ex_impl x) = None.

Lemma x_step_ok c ps x e :
  x_inv c ps x -> xenabled client setting known id e x = true ->
  (exists x' c' ps', xstep client setting e x = Done x' /\ x_inv c' (ps ++ ps') x' /\
    Message_of_data <$> ps' = x_asks client setting e) \/
  strands e x /\ xstep client setting e x = Undefined.
Proof.
  intros Hx He. destruct e as [sid op payload sec| |e|e]; [left; by eapply call_step|..].
  - destruct (xi_current _ _ _ Hx) as [Hc|Hc].
    + destruct (timer_step c ps x Hx He Hc) as (x' & c' & ? & ?). left. exists x', c', []. by rewrite app_nil_r.
    + right. split; [by split|]. by apply timer_step_undefined; [|apply Hx|].
  - destruct (conn_step c ps x e Hx He) as (x' & c' & ? & ?). left. exists x', c', []. by rewrite app_nil_r.
  - destruct (server_step c ps x e Hx) as (s' & E & _ & Hx'). left. cbn [xstep]. rewrite E.
    exists (set_conv s' x), c, []. by rewrite app_nil_r.
Qed.

(** ** The start *)

Lemma opened_inv : a_inv (H:=client) setting (mkASys opened [] [] []).
Proof.
  split; cbn [aconn acalls awire arcvd].
  - split; [done|done|]. by apply phase_idle.
  - apply (a_rd_reading _ _ _ _ [] (RHead [])); [done|done|]. unfold notify. by case_match.
  - done.
Qed.

Lemma x_boot_inv (w : World S) x0 :
  world_inv known w -> x_boot client setting ip w = Some x0 -> cv_id (ex_conv x0) = Some id ->
  x_inv opened [] x0 /\ current (ex_impl x0) = Some num /\
  exists c, ns_conns (w_server (cv_world (ex_conv x0))) !! id = Some c /\ ServerRead.live c.
Proof.
  intros I E Hid. unfold x_boot in E. destruct (link_connect ip _) as [ec l] eqn:Ec.
  destruct ec; try done. rewrite connect_async_eq in E. injection E as <-. cbn [ex_conv] in Hid.
  destruct (link_connected ip known id (mkLink (mkConv w None []) 0 [] false) l I Ec Hid) as (Hl & Hnet & Hfl & _ & c & Hc & Hlive & _).
  split; [|by split; [|exists c]].
  assert (cv_wire (l_conv l) = [] /\ cv_rcvd (l_conv l) = []) as [Ew Er] by (unfold cv_wire, cv_rcvd; by rewrite Hnet).
  split; cbn [ex_impl ex_sent ex_rcvd ex_conv]; try done.
  - exact opened_inv.
  - by rewrite Er, Hfl.
  - apply prefix_nil.
  - exists []. by rewrite Ew.
  - by left.
Qed.

Lemma xreach_inv c ps x0 es x :
  x_inv c ps x0 -> xreach client setting known id x0 es x ->
  exists c' ps', x_inv c' (ps ++ ps') x /\ Message_of_data <$> ps' = asks client setting es.
Proof.
  intros H0x. induction 1 as [|es x e x' _ (c1 & ps1 & Hx & Ea) He E].
  - exists c, []. by rewrite app_nil_r.
  - destruct (x_step_ok c1 _ x e Hx He) as [(x1 & c' & ps' & E' & Hx' & Ea')|[_ E']]; rewrite E in E'; [|done].
    injection E' as <-.
    exists c', (ps1 ++ ps'). rewrite app_assoc. split; [done|].
    rewrite fmap_app, asks_app, Ea, Ea'. unfold asks. cbn. by rewrite app_nil_r.
Qed.

(** C5: an asynchronous client of the running server, its receive limit set, is told only what
    is true. From every
    reachable state of the server that lets it in, whatever calls within the size limits
    the user makes over the connection, however reads, writes, failures and the call timer
    interleave, and whatever else happens at the server: what the user's handler was told
    are, up to order, what the services' answers to the calls made say, for each call at
    most once. And no handler traps but one: every event that can come is handled, except
    that a call timer that expires after a call was refused, when the client has dropped its
    connection, goes through a null pointer. *)
Theorem async_upcalls_genuine (sv : NetServer) d (w : World S) x0 es x :
  world_ready known sv d -> wreach (fresh_world sv d) w ->
  x_boot client setting ip w = Some x0 -> cv_id (ex_conv x0) = Some id ->
  xreach client setting known id x0 es x ->
  told x ⊆+ genuine client setting known id es /\
  forall e, xenabled client setting known id e x = true ->
    (exists x', xstep client setting e x = Done x') \/
    e = XTimer /\ current (ex_impl x) = None /\ xstep client setting e x = Undefined.
Proof.
  intros Hr Hw Hb Hid Hx.
  destruct (x_boot_inv w x0 (wreach_inv known sv d w Hr Hw) Hb Hid) as (H0x & _).
  destruct (xreach_inv opened [] x0 es x H0x Hx) as (c & ps & Hinv & Ea).
  split; [unfold genuine; rewrite <-Ea; by eapply (x_inv_genuine c)|]. intros e He.
  destruct (x_step_ok c ps x e Hinv He) as [(x' & _ & _ & E & _)|[[-> Hc] E]]; eauto.
Qed.
End Invariant.

(** ** Worked example

    A client on a host of the other byte order, of the server of [Session]'s example, with
    other clients and a request in a thread's hands. It calls the echo service with a
    time-out, and then a service the server does not have. The second answer overtakes
    the first; in the end the timer runs, although both were answered. *)

From S2P Require Import Demo ServerProps ClientAsyncProps.

Definition x_demo_request (sid : Z) : bytes := client_request (H:=big_endian) sid 7 hi.
Definition x_demo_written (sid : Z) : bytes := net_str (H:=big_endian) (Message_of_data (x_demo_request sid)).
Definition x_demo_answer (sid : Z) : bytes := net_str (answer_to {[ 1 ]} 2 (x_demo_request sid)).

Definition x_demo_events : list xevent :=
  [XCall 1 7 hi 5; XServer (WAnswer 0); XCall 9 7 hi 0; XConn AWriteDone;
   XServer (WConn 2 (EReadDone (ztake 20 (x_demo_written 1)))); XServer (WConn 0 EWriteDone);
   XServer (WConn 2 (EReadDone (zdrop 20 (x_demo_written 1)))); XServer (WTake 1); XConn AWriteDone;
   XServer (WConn 2 (EReadDone (x_demo_written 9))); XServer (WConn 2 EWriteDone);
   XConn (AReadDone (x_demo_answer 9)); XServer (WTake 1); XServer (WAnswer 0); XServer (WAnswer 0);
   XServer (WConn 2 EWriteDone); XConn (AReadDone (ztake 18 (x_demo_answer 1)));
   XConn (AReadDone (zdrop 18 (x_demo_answer 1))); XTimer].

Definition x_idle : Exchange unit := mkExchange (RpcClientImpl_new tt) [] [] (mkConv busy_server None []).
Definition x_demo_start : Exchange unit := default x_idle (x_boot big_endian a_demo_setting "10.0.0.3" busy_server).
Definition x_demo_end : Exchange unit :=
  default x_idle (xrun big_endian a_demo_setting {[ 1 ]} 2 x_demo_events x_demo_start).

Lemma x_demo_starts : x_boot big_endian a_demo_setting "10.0.0.3" busy_server = Some x_demo_start.
Proof.
  assert (bool_decide (is_Some (x_boot big_endian a_demo_setting "10.0.0.3" busy_server)) = true) as E
    by (vm_compute; reflexivity).
  apply bool_decide_eq_true_1 in E as [x E]. unfold x_demo_start. by rewrite E.
Qed.

Lemma x_demo_ends : xrun big_endian a_demo_setting {[ 1 ]} 2 x_demo_events x_demo_start = Some x_demo_end.
Proof.
  assert (bool_decide (is_Some (xrun big_endian a_demo_setting {[ 1 ]} 2 x_demo_events x_demo_start)) = true) as E
    by (vm_compute; reflexivity).
  apply bool_decide_eq_true_1 in E as [x E]. unfold x_demo_end. by rewrite E.
Qed.

(** The one event that traps comes about: the server's end closes, the client's read fails,
    the next call, with a time-out, is refused, and then the timer expires. *)
Definition x_refused_events : list xevent := [XConn (AReadError ec_eof); XCall 1 7 hi 5].
Definition x_refused : Exchange unit :=
  default x_idle (xrun big_endian a_demo_setting {[ 1 ]} 2 x_refused_events x_demo_start).

Example refused_call_timer_traps :
  xenabled big_endian a_demo_setting {[ 1 ]} 2 XTimer x_refused = true /\
  match xstep big_endian a_demo_setting XTimer x_refused with Undefined => true | _ => false end = true.
Proof. split; vm_compute; reflexivity. Qed.

Lemma async_upcalls_genuine_witness :
  told x_demo_end = [mkUpcall (response_code Resp_INVALID_SERVICE) 65535 65535 []; mkUpcall Status_OK 1 7 hi] /\
  told x_demo_end ⊆+ genuine big_endian a_demo_setting {[ 1 ]} 2 x_demo_events /\
  forall e, xenabled big_endian a_demo_setting {[ 1 ]} 2 e x_demo_end = true ->
    (exists x', xstep big_endian a_demo_setting e x_demo_end = Done x') \/
    e = XTimer /\ current (ex_impl x_demo_end) = None /\ xstep big_endian a_demo_setting e x_demo_end = Undefined.
Proof.
  split; [vm_compute; reflexivity|].
  apply (async_upcalls_genuine big_endian a_demo_setting "10.0.0.3" {[ 1 ]} 2 ltac:(split; vm_compute; reflexivity)
    demo_server demo_dispatcher busy_server x_demo_start x_demo_events).
  - exact demo_world_ready.
  - apply demo_world_reach, demo_asked_runs.
  - exact x_demo_starts.
  - vm_compute. reflexivity.
  - apply (xrun_reach big_endian a_demo_setting {[ 1 ]} 2 x_demo_events x_demo_start [] x_demo_start); [constructor|].
    exact x_demo_ends.
Defined.
