(* ===== verification/ExchangeCourse.v ===== *)
(** * A course of events that answers asynchronous calls

    While both ends of an asynchronous client's connection are open there are events, all
    of them allowed, after which the user's handler was told of every call: the client's
    writes complete, the server serves what is in flight and writes what it owes, and the
    client's reads complete. *)

From Stdlib Require Import ZArith Lia Init.Byte.
From stdpp Require Import base list strings gmap.
From S2P Require Import Prelude Endian Message Buffer RpcMessage NetConn External NetConf.
From S2P Require Import RpcInstance Service Executor Dispatcher Answering Decode RpcProps.
From S2P Require Import ServerConn ServerSend ServerRead ServerSystem ServerInv Pending NetServer NetServerProps.
From S2P Require Import World WorldInv WorldProps Link Session Course.
From S2P Require Import ClientConf ClientSync ClientCall ClientAsync ClientImpl ClientAsyncRead ClientAsyncSend.
From S2P Require Import ClientAsyncSystem ClientAsyncInv ClientAsyncProps ClientAsyncCalls Exchange.

Section Course.
Context (client : Host) `{Host} `{AssertMode} `{SteadyTimer} `{!SteadyTimerLaws} `{LibConfig} `{BoostString}
  {S : Type} `{!Service S} `{!Answering S} `{!EQueue RpcInstance} `{!EQueueLaws RpcInstance}.
Variables (setting : RpcClientSetting) (ip : string) (known : gset Z) (id : nat).
Let limit := cl_recv_max_msg_size_ setting.
Hypothesis limit_set : 0 < limit < 2 ^ 31.
Implicit Types (s F : Conv S) (x : Exchange S).
Abbreviation Inv := (x_inv client setting known id).
Abbreviation run := (xrun client setting known id).

Definition answered_by s : Prop := exists k, conn_of id s = Some k /\ ServerRead.live k.

(** Both ends are open. *)
Record both_open (c : TcpConnAsync) (ps : list bytes) x : Prop := {
  bo_inv : Inv c ps x;
  bo_client : live c;
  bo_server : answered_by (ex_conv x)
}.

(** An operation of the client's socket completes. *)
Lemma own_step c ps x e (y : ASys) :
  both_open c ps x -> a_enabled e (view c x) = true -> delivers e x = true ->
  a_handle (H:=client) setting e (view c x) = Done y -> a_step_ok (H:=client) setting e (view c x) y ->
  live (aconn y) ->
  run [XConn e] x = Some (put_client y x) /\ both_open (aconn y) ps (put_client y x).
Proof.
  intros [Hx Hl Hs] He Hd Eh Hok Hl'. split.
  - cbn [xrun xenabled xstep]. by rewrite (xi_conn _ _ _ _ _ _ _ Hx), He, Hd, Eh.
  - split; [|done|exact Hs]. by eapply conn_put.
Qed.

(** ** The client writes *)

Lemma write_step c ps x :
  both_open c ps x -> sk_writes (socket_ (base_ c)) <> [] ->
  exists e x' c', run [e] x = Some x' /\ both_open c' ps x' /\ len (ex_sent x) < len (ex_sent x') /\
    conf_of (ex_conv x') = conf_of (ex_conv x).
Proof.
  intros Hx Hw.
  assert (a_enabled AWriteDone (view c x) = true) as He by (cbn [a_enabled view aconn]; by destruct (sk_writes _)).
  destruct (a_handle_write_done (H:=client) setting (view c x)) as (y & Eh & Hok & Hl & Hlen & _);
    [apply Hx|done|].
  destruct (own_step c ps x AWriteDone y) as [Er Ho]; try done; [by apply Hl, Hx|].
  eexists _, _, _. split; [exact Er|]. by split.
Qed.

Lemma all_sent c ps x :
  both_open c ps x -> len (stream (H:=client) (Message_of_data <$> ps)) < 2 ^ 32 ->
  exists es x' c', run es x = Some x' /\ both_open c' ps x' /\
    ex_sent x' = stream (H:=client) (Message_of_data <$> ps) /\ conf_of (ex_conv x') = conf_of (ex_conv x).
Proof.
  intros Hx Hlen. set (all := stream _) in *.
  remember (Z.to_nat (len all - len (ex_sent x))) as k eqn:Hk. revert x c Hk Hx.
  induction (lt_wf k) as [k _ IH]; intros x c -> Hx.
  pose proof (bo_inv _ _ _ Hx) as Hinv. pose proof (xi_client _ _ _ _ _ _ _ Hinv) as [Hs _ Hf].
  pose proof (xi_log _ _ _ _ _ _ _ Hinv) as Elog. cbn [aconn awire view] in *.
  assert (forall x c, both_open c ps x -> len (ex_sent x) <= len all) as Hle.
  { intros x1 c1 [[_ [Hs1 _ _] _ _ _ _ Elog1 _ _] _ _]. apply (send_ok_wire (H:=client)) in Hs1.
    cbn [aconn awire view] in Hs1. rewrite Elog1 in Hs1. apply prefix_length in Hs1. unfold zlen. subst all. lia. }
  destruct (send_flows_phase (H:=client) (ex_sent x) c Hs Hf (bo_client _ _ _ Hx)) as [E|Hw].
  - rewrite Elog. fold all. pose proof (zlen_nonneg (ex_sent x)). lia.
  - exists [], x, c. split; [done|]. split; [done|]. split; [|done]. by rewrite E, Elog.
  - destruct (write_step c ps x Hx Hw) as (e & x1 & c1 & E1 & Hx1 & Hlt & Ec). pose proof (Hle _ _ Hx1).
    destruct (IH (Z.to_nat (len all - len (ex_sent x1))) ltac:(lia) x1 c1 eq_refl Hx1)
      as (es & x' & c' & E & Hx' & Es & Ec').
    exists ([e] ++ es), x', c'. rewrite (xrun_app client setting known id [e] es x x1 E1).
    split; [exact E|]. split; [done|]. split; [done|]. congruence.
Qed.

(** ** The server serves *)

Lemma served c ps x es s' :
  both_open c ps x -> run_all es (ex_conv x) = Some s' -> answered_by s' ->
  run (XServer <$> es) x = Some (set_conv s' x) /\ both_open c ps (set_conv s' x).
Proof.
  intros [Hx Hl _] E Hs'.
  assert (run (XServer <$> es) x = Some (set_conv s' x) /\ Inv c ps (set_conv s' x)) as [Er Hi]; [|by split].
  clear Hl Hs'. revert x Hx E. induction es as [|e es IH]; intros x Hx E.
  - injection E as <-. by destruct x.
  - destruct (server_step client setting known id c ps x e Hx) as (s1 & E1 & _ & Hx1).
    cbn [run_all] in E. rewrite E1 in E. destruct (IH _ Hx1 E) as [Er Hi]. split; [|exact Hi].
    cbn [fmap list_fmap xrun xenabled xstep]. rewrite E1. exact Er.
Qed.

(** The client's requests are a stream the server takes. *)
Lemma exchange_open c ps x :
  both_open c ps x -> ex_sent x = stream (H:=client) (Message_of_data <$> ps) ->
  0 < recv_max_msg_size_ (conf_of (ex_conv x)) < 2 ^ 31 ->
  open known id (Message_of_data <$> ps) (ex_conv x).
Proof.
  intros [[X1 X2 X3 X4 X5 X6 X7 X8 X9 X10] _ Hs] Es Hlim. split; [done|done| |  |done].
  - rewrite <-X5, Es. apply stream_host.
  - apply (fitting_stream known id). eapply Forall_impl; [exact X8|]. by intros p [? _].
Qed.

(** Two lists of the same messages are equally long. *)
Lemma zlen_stream_perm (l l' : list Message) : l ≡ₚ l' -> len (stream l) = len (stream l').
Proof.
  assert (forall m l, len (stream (m :: l)) = len (net_str m) + len (stream l)) as Ec
    by (intros m k; change (m :: k) with ([m] ++ k); by rewrite stream_app, stream_singleton, zlen_app).
  induction 1; rewrite ?Ec; lia.
Qed.

Lemma all_answered c ps x :
  both_open c ps x -> ex_sent x = stream (H:=client) (Message_of_data <$> ps) ->
  0 < recv_max_msg_size_ (conf_of (ex_conv x)) < 2 ^ 31 ->
  len (stream (answer_to known id <$> ps)) < 2 ^ 32 ->
  exists es x' log, run es x = Some x' /\ both_open c ps x' /\
    cv_wire (ex_conv x') = stream log /\ log ≡ₚ answer_to known id <$> ps.
Proof.
  intros Hx Es Hlim Hlen.
  destruct (all_served known id _ _ (exchange_open c ps x Hx Es Hlim)) as (es1 & s1 & E1 & Ho1 & Hi1 & Hp1).
  pose proof (op_conn _ _ _ _ Ho1) as (k1 & Hk1 & Hlive1).
  assert (forall s k, cv_inflight s = [] -> linked known id s -> of_conn id (pending (cv_world s)) = [] ->
    conn_of id s = Some k -> ServerRead.live k -> both_open c ps (set_conv s x) ->
    ServerConn.sent_log k ≡ₚ answer_to known id <$> ps) as Hlog.
  { intros s k Hi Hl Hp Hk Hlive [Hxs _ _]. apply (handled_log client known id ps s k); try done.
    - pose proof (xi_sent _ _ _ _ _ _ _ Hxs) as Er. cbn [ex_sent ex_conv set_conv] in Er.
      by rewrite Hi, app_nil_r, Es in Er.
    - eapply Forall_impl; [apply (xi_fits _ _ _ _ _ _ _ Hxs)|]. by intros p [? _]. }
  destruct (served c ps x es1 s1 Hx E1) as [Er1 Hx1]; [by exists k1|].
  pose proof (op_linked _ _ _ _ Ho1) as Hl1.
  assert (of_conn id (pending (cv_world s1)) = []) as Hpid by (by rewrite Hp1).
  destruct (all_written known id _ s1 k1 Ho1 Hk1 Hlive1 Hi1 Hpid) as [es2 Hset].
  { rewrite (zlen_stream_perm _ _ (Hlog s1 k1 Hi1 Hl1 Hpid Hk1 Hlive1 Hx1)). pose proof (zlen_nonneg (cv_wire s1)). lia. }
  unfold settles in Hset. destruct (run_all es2 s1) as [F|] eqn:E2; [|done].
  apply settled_b_true in Hset as [Hi (k & Hk & Hlive & Hst & Hsd) Hp].
  destruct (served c ps (set_conv s1 x) es2 F Hx1 E2) as [Er2 Hx2]; [by exists k|].
  pose proof (xi_linked _ _ _ _ _ _ _ (bo_inv _ _ _ Hx2)) as Hl. cbn [ex_conv set_conv] in Hl.
  destruct (quiet_answered known (cv_world F) id k (lk_inv _ _ _ Hl) Hk Hlive Hp Hst Hsd) as (rcvd & Hn & _).
  exists ((XServer <$> es1) ++ (XServer <$> es2)), (set_conv F (set_conv s1 x)), (ServerConn.sent_log k).
  split; [by rewrite (xrun_app client setting known id _ _ _ _ Er1)|]. split; [done|]. split.
  - cbn [ex_conv set_conv]. unfold cv_wire. by rewrite (cv_net_linked _ _ _ Hl), Hn.
  - by apply (Hlog F k).
Qed.

(** ** The client reads *)

(** The client finds all answers in their stream. *)
Lemma answers_decode conf ps log :
  Forall (fits setting known id conf) ps -> log ⊆+ answer_to known id <$> ps ->
  decode_all (H:=client) limit (RHead (stream (H:=client) log)) = (log, RHead []).
Proof.
  intros Hf Hl. apply decode_stream_all.
  eapply Forall_impl; [exact (answers_taken setting known id limit_set conf ps log Hf Hl)|]. by intros m [? _].
Qed.

(** The outstanding read waits for a part of what the server sent. *)
Lemma client_waits c ps x log rest :
  both_open c ps x -> cv_wire (ex_conv x) = stream log -> log ⊆+ answer_to known id <$> ps ->
  stream (H:=H) log = ex_rcvd x ++ rest -> rest <> [] ->
  exists n h, sk_reads (socket_ (base_ c)) = [(n, h)] /\ 0 < n <= kFixedIoBufferSize /\ n <= len rest.
Proof.
  intros [[X1 X2 X3 X4 X5 X6 X7 X8 X9 X10] Hl _] Ew Hlog Er Hne. rewrite (answers_host client known id ps log Hlog) in Er.
  pose proof (answers_decode _ ps log X8 Hlog) as Hd.
  rewrite Er in Hd. destruct (ai_read _ _ X2) as [ms st Hd0 Hh _|]; [|done]. cbn [arcvd aconn view] in *.
  assert (body_nonneg st) as Hbn by (destruct st; [done| |done]; apply Hh).
  pose proof (decode_more (H:=client) limit (RHead (ex_rcvd x)) rest I) as Hm. cbn [more] in Hm.
  fold limit in Hd0. rewrite Hd, Hd0 in Hm.
  destruct (decode_all _ (more st rest)) as [ms2 st2] eqn:E2. injection Hm as _ <-.
  pose proof (decode_continues (H:=client) limit st rest ms2 Hbn E2 Hne) as Hx.
  destruct st as [b|hd b|]; [| |done]; cbn in Hh.
  - destruct Hh as (_ & Hb & Hk). eexists _, _. split; [exact Hk|]. pose proof (zlen_nonneg b).
    unfold kFixedIoBufferSize. lia.
  - destruct Hh as (_ & _ & _ & Hb & Hk). eexists _, _. split; [exact Hk|]. unfold kFixedIoBufferSize in *. lia.
Qed.

Lemma read_step c ps x log :
  both_open c ps x -> cv_wire (ex_conv x) = stream log -> log ⊆+ answer_to known id <$> ps ->
  ex_rcvd x <> stream log ->
  exists e x' c', run [e] x = Some x' /\ both_open c' ps x' /\ cv_wire (ex_conv x') = stream log /\
    len (ex_rcvd x) < len (ex_rcvd x').
Proof.
  intros Hx Ew Hlog Hne. pose proof (bo_inv _ _ _ Hx) as Hinv.
  pose proof (xi_rcvd _ _ _ _ _ _ _ Hinv) as [rest Er]. rewrite Ew in Er.
  destruct (client_waits c ps x log rest Hx Ew Hlog Er) as (n & h & Hrd & Hn & Hle).
  { intros ->. by rewrite app_nil_r in Er. }
  set (data := ztake n rest). assert (len data = n) as Elen by (apply zlen_ztake; lia).
  assert (a_enabled (AReadDone data) (view c x) = true) as He
    by (cbn [a_enabled view aconn]; rewrite Hrd, Elen, !(proj2 (Z.leb_le _ _)) by lia; done).
  assert (delivers (AReadDone data) x = true) as Hd
    by (cbn [delivers]; rewrite Ew, Er, drop_app_length, Elen; by apply bool_decide_eq_true_2).
  destruct (x_inv_tolerated client setting known id limit_set c ps x _ Hinv
    (delivers_prefix _ x Hd (xi_rcvd _ _ _ _ _ _ _ Hinv))) as [Hbad Ht].
  destruct (a_handle_read_done (H:=client) setting (limit_fits setting limit_set) data (view c x)) as (y & Eh & Hok & Hl & _);
    [apply Hinv|done|by left|done|].
  destruct (own_step c ps x (AReadDone data) y) as [Es Ho]; try done; [apply Hl; [apply Hx|done]|].
  eexists _, _, _. split; [exact Es|]. split; [done|]. split; [done|]. cbn [ex_rcvd put_client].
  rewrite (a_handle_rcvd (H:=client) setting _ _ _ He Eh). cbn [arcvd view a_event_bytes]. rewrite zlen_app. lia.
Qed.

Lemma all_received c ps x log :
  both_open c ps x -> cv_wire (ex_conv x) = stream log -> log ⊆+ answer_to known id <$> ps ->
  exists es x' c', run es x = Some x' /\ both_open c' ps x' /\ ex_rcvd x' = stream log.
Proof.
  intros Hx Ew Hlog. remember (Z.to_nat (len (stream log) - len (ex_rcvd x))) as k eqn:Hk. revert x c Hk Hx Ew.
  induction (lt_wf k) as [k _ IH]; intros x c -> Hx Ew.
  destruct (decide (ex_rcvd x = stream log)) as [E|N]; [by exists [], x, c|].
  destruct (read_step c ps x log Hx Ew Hlog N) as (e & x1 & c1 & E1 & Hx1 & Ew1 & Hlt).
  pose proof (xi_rcvd _ _ _ _ _ _ _ (bo_inv _ _ _ Hx1)) as Hle%prefix_length. rewrite Ew1 in Hle.
  destruct (IH (Z.to_nat (len (stream log) - len (ex_rcvd x1))) ltac:(unfold zlen in *; lia) x1 c1 eq_refl Hx1 Ew1)
    as (es & x' & c' & E & Hx' & Er).
  exists ([e] ++ es), x', c'. rewrite (xrun_app client setting known id [e] es x x1 E1). by split.
Qed.

(** A client that has received all answers has told its handler of each. *)
Lemma received_told c ps x log :
  both_open c ps x -> ex_rcvd x = stream log -> log ≡ₚ answer_to known id <$> ps ->
  told x ≡ₚ notify (H:=client) setting (reaction known id <$> (Message_of_data <$> ps)).
Proof.
  intros [[X1 X2 X3 X4 X5 X6 X7 X8 X9 X10] Hl _] Er Hlog.
  assert (log ⊆+ answer_to known id <$> ps) as Hsub by (by rewrite Hlog).
  rewrite (answers_host client known id ps log Hsub) in Er.
  pose proof (answers_decode _ ps log X8 Hsub) as Hd.
  destruct (ai_read _ _ X2) as [ms st Hd0 _ Hm|]; [|done]. cbn [arcvd aconn acalls view] in *.
  fold limit in Hd0. rewrite Er, Hd in Hd0. injection Hd0 as <- _.
  unfold told. rewrite Hm, <-answers_of.
  unfold notify. case_match; [by apply fmap_Permutation|done].
Qed.

(** ** All of it *)

(** The client's connection and the server's end of it are open. *)
Definition in_touch x : Prop :=
  (exists c, conns (ex_impl x) !! num = Some c /\ live c) /\ answered_by (ex_conv x).

Definition in_touch_b x : bool :=
  match conns (ex_impl x) !! num with Some c => bool_decide (live c) | None => false end &&
  match conn_of id (ex_conv x) with Some k => live_b k | None => false end.

Lemma in_touch_b_true x : in_touch_b x = true -> in_touch x.
Proof.
  unfold in_touch_b, in_touch, answered_by, live_b. intros [E1 E2]%andb_prop.
  destruct (conns _ !! num) as [c|]; [|done]. destruct (conn_of id _) as [k|]; [|done].
  apply bool_decide_eq_true_1 in E1. apply andb_prop in E2 as [E2%bool_decide_eq_true_1 E3%negb_true_iff].
  split; [by exists c|by exists k].
Qed.

(** Events that make no calls end where no request was added. *)
Lemma silent_run c c' ps es x x' :
  Inv c ps x -> run es x = Some x' -> Inv c' ps x' -> asks client setting es = [].
Proof.
  intros Hx E Hx'.
  destruct (xreach_inv client setting known id limit_set c ps x es x' Hx) as (c1 & ps1 & Hx1 & <-).
  { apply (xrun_reach client setting known id es x [] x); [constructor|done]. }
  assert (c1 = c') as -> by (pose proof (xi_conn _ _ _ _ _ _ _ Hx'); pose proof (xi_conn _ _ _ _ _ _ _ Hx1); congruence).
  pose proof (xi_log _ _ _ _ _ _ _ Hx1) as El. rewrite (xi_log _ _ _ _ _ _ _ Hx'), fmap_app in El.
  by apply (app_inv_head (Message_of_data <$> ps)); rewrite app_nil_r.
Qed.

(** C6: asynchronous calls can always be answered. Whatever a client of the running server
    and everybody else did so far, as long as both ends of its connection are open there
    are events, none of them a call and all of them allowed, after which the user's
    handler has been told, up to order, exactly what the services' answers to all calls
    say: each once, and nothing else. The calls are within the size limits, both ends
    have a limit on what they receive, and the requests and the answers of the connection are
    shorter than 4 GiB in total. *)
Theorem async_calls_can_be_answered (sv : NetServer) d (w : World S) x0 history x :
  world_ready known sv d -> wreach (fresh_world sv d) w ->
  x_boot client setting ip w = Some x0 -> cv_id (ex_conv x0) = Some id ->
  xreach client setting known id x0 history x -> in_touch x ->
  0 < recv_max_msg_size_ (conf_of (ex_conv x)) < 2 ^ 31 ->
  let requests := asks client setting history in
  len (stream (H:=client) requests) < 2 ^ 32 -> len (stream (reaction known id <$> requests)) < 2 ^ 32 ->
  exists es x', run es x = Some x' /\ asks client setting es = [] /\
    told x' ≡ₚ genuine client setting known id history.
Proof.
  intros Hr Hw Hb Hid Hx [(c & Hc & Hlive) Hserver] Hlim requests Hq Ha. unfold genuine. fold requests.
  destruct (x_boot_inv client setting ip known id w x0 (wreach_inv known sv d w Hr Hw) Hb Hid) as (H0x & _).
  destruct (xreach_inv client setting known id limit_set opened [] x0 history x H0x Hx) as (c1 & ps & Hinv & Ea).
  assert (c1 = c) as -> by (pose proof (xi_conn _ _ _ _ _ _ _ Hinv); congruence).
  fold requests in Ea. rewrite <-Ea in *. rewrite <-answers_of in Ha. cbn [app] in Hinv.
  destruct (all_sent c ps x) as (es1 & x1 & c1 & E1 & Hx1 & Es1 & Ec1); [by split|done|].
  rewrite <-Ec1 in Hlim.
  destruct (all_answered c1 ps x1 Hx1 Es1 Hlim Ha) as (es2 & x2 & log & E2 & Hx2 & Ew & Hlog).
  destruct (all_received c1 ps x2 log Hx2 Ew) as (es3 & x3 & c3 & E3 & Hx3 & Er); [by rewrite Hlog|].
  assert (run (es1 ++ es2 ++ es3) x = Some x3) as E
    by (by rewrite (xrun_app client setting known id _ _ _ _ E1), (xrun_app client setting known id _ _ _ _ E2)).
  exists (es1 ++ es2 ++ es3), x3. split; [done|]. split; [|by eapply received_told].
  by apply (silent_run c c3 ps _ x x3 Hinv E), Hx3.
Qed.
End Course.

(** ** Worked example

    [Exchange]'s client after two calls, before anything else happened. *)

From S2P Require Import Demo ServerProps ClientAsyncProps.

Definition x_two_calls : list xevent := [XCall 1 7 hi 5; XCall 9 7 hi 0].
Definition x_called : Exchange unit :=
  default x_idle (xrun big_endian a_demo_setting {[ 1 ]} 2 x_two_calls x_demo_start).

Lemma x_called_runs : xrun big_endian a_demo_setting {[ 1 ]} 2 x_two_calls x_demo_start = Some x_called.
Proof.
  assert (bool_decide (is_Some (xrun big_endian a_demo_setting {[ 1 ]} 2 x_two_calls x_demo_start)) = true) as E
    by (vm_compute; reflexivity).
  apply bool_decide_eq_true_1 in E as [x E]. unfold x_called. by rewrite E.
Qed.

Lemma async_calls_can_be_answered_witness :
  told x_called = [] /\
  exists es x', xrun big_endian a_demo_setting {[ 1 ]} 2 es x_called = Some x' /\
    asks big_endian a_demo_setting es = [] /\
    told x' ≡ₚ [mkUpcall Status_OK 1 7 hi; mkUpcall (response_code Resp_INVALID_SERVICE) 65535 65535 []].
Proof.
  split; [vm_compute; reflexivity|].
  assert ([mkUpcall Status_OK 1 7 hi; mkUpcall (response_code Resp_INVALID_SERVICE) 65535 65535 []] =
    genuine big_endian a_demo_setting {[ 1 ]} 2 x_two_calls) as -> by (vm_compute; reflexivity).
  apply (async_calls_can_be_answered big_endian a_demo_setting "10.0.0.3" {[ 1 ]} 2
    ltac:(split; vm_compute; reflexivity) demo_server demo_dispatcher busy_server x_demo_start x_two_calls).
  - exact demo_world_ready.
  - apply demo_world_reach, demo_asked_runs.
  - exact x_demo_starts.
  - vm_compute. reflexivity.
  - apply (xrun_reach big_endian a_demo_setting {[ 1 ]} 2 x_two_calls x_demo_start [] x_demo_start); [constructor|].
    exact x_called_runs.
  - apply in_touch_b_true. vm_compute. reflexivity.
  - split; vm_compute; reflexivity.
  - vm_compute. reflexivity.
  - vm_compute. reflexivity.
Defined.
