(* ===== verification/AsyncEndToEnd.v ===== *)
(** * An asynchronous client and a server

    The asynchronous connection against [server_answer], the server's parts composed. *)

From Stdlib Require Import ZArith Lia Init.Byte.
From stdpp Require Import base list strings gmap.
From S2P Require Import Prelude Endian Message Buffer RpcMessage NetConn External ClientConf Decode Demo RpcProps.
From S2P Require Import ServerAnswer ClientCall ClientAsync ClientAsyncRead ClientAsyncSystem ClientAsyncInv.
From S2P Require Import ClientAsyncProps.

Section Echo.
Context (H1 : Host) `{AssertMode}.
#[local] Existing Instance H1.
Variable setting : RpcClientSetting.
Let limit := cl_recv_max_msg_size_ setting.
Hypothesis limit_fits : fits_u 32 limit.

(** What the server answers to the request of a call. *)
Lemma echo_answer op body :
  fits_u 16 op -> 0 < len body <= 1000 ->
  server_answer (stream [request_message 1 op body]) = @stream le_host [answer_message le_host (1, op, body)].
Proof. intros Hop Hb. rewrite !stream_singleton. by apply (server_answer_echo H1 op body). Qed.

(** An asynchronous call through client and server. When the request of a call of the echo
    service was written and what the server puts on its wire for it has arrived, in
    whatever blocks both happened, the user's handler has been told exactly once: OK, the
    service, the opcode, and the payload of the call. *)
Lemma async_echo_end_to_end (s : ASys) op body :
  a_reach setting s -> live (aconn s) -> has_handler setting = true ->
  fits_u 16 op -> 0 < len body <= 1000 -> limit = 0 \/ 1017 <= limit ->
  sent_log (aconn s) = [request_message 1 op body] ->
  awire s = stream (sent_log (aconn s)) -> arcvd s = server_answer (awire s) ->
  acalls s = [mkUpcall Status_OK 1 op body].
Proof.
  intros Hr Hl Hh Hop Hb Hlim Elog Ew Er. rewrite Ew, Elog, echo_answer in Er by done.
  assert (len (RpcResponseMessage_net_str (H:=le_host) (RpcResponseMessage_new 1 op body)) = 17 + len body) as Ep
    by (rewrite zlen_RpcResponseMessage_net_str; reflexivity).
  destruct (answers_delivered H1 le_host setting limit_fits s [(1, op, body)]) as (E & _); try done.
  - right. rewrite Er, stream_singleton, zlen_net_str. cbn [payload_ answer_message Message_of_data answer_payload].
    rewrite Ep. unfold sizeof_Header. lia.
  - apply Forall_singleton. split; [done|]. split; [done|]. unfold sizeof_RpcResponseHeader. fold limit. lia.
Qed.
End Echo.

(** ** Worked example *)

(** A call is sent, written in one block, and its answer arrives in two. *)
Definition demo_exchange : list aevent :=
  let request := request_message 1 7 [x68; x69] in
  let answer := server_answer (net_str request) in
  [ASend request; AWriteDone; AReadDone (ztake 18 answer); AReadDone (zdrop 18 answer)].

Lemma async_echo_example :
  exists s, a_demo_run demo_exchange = Some s /\ acalls s = [mkUpcall Status_OK 1 7 [x68; x69]].
Proof.
  eexists. split; [vm_compute; reflexivity|].
  apply (async_echo_end_to_end le_host a_demo_setting a_demo_fits).
  - apply (a_demo_run_reach demo_exchange). vm_compute. reflexivity.
  - reflexivity.
  - reflexivity.
  - split; done.
  - split; vm_compute; congruence.
  - right. vm_compute. discriminate.
  - reflexivity.
  - vm_compute. reflexivity.
  - vm_compute. reflexivity.
Defined.
