(* ===== verification/RpcClient.v ===== *)
(** * Client/RpcClient.cpp: the client the user sees

    Construction from an address, a configuration file, a configuration section or a
    settings object, and the forwarding of calls. A constructor that throws yields no
    object. RpcClientImpl copies the settings. *)

From Stdlib Require Import ZArith Lia Init.Byte.
From stdpp Require Import base list strings gmap.
From S2P Require Import Prelude Endian Message Buffer RpcMessage NetConn External ClientConf.
From S2P Require Import ClientAsync ClientImpl ClientSync Demo.

Record ClientImpl (P : Type) := mkClientImpl {
  im_setting : RpcClientSetting;
  im_impl : RpcClientImpl P
}.
Arguments mkClientImpl {P}.
Arguments im_setting {P}.
Arguments im_impl {P}.

Record RpcClient (P : Type) := mkRpcClient {
  initialized_ : bool;
  client_setting_ : RpcClientSetting;
  impl_ : option (ClientImpl P)
}.
Arguments mkRpcClient {P}.
Arguments initialized_ {P}.
Arguments client_setting_ {P}.
Arguments impl_ {P}.

Section Client.
Context `{Host} `{AssertMode} `{LibConfig} {P : Type} `{!AsioSync P}.
Abbreviation Client := (RpcClient P).

Definition set_initialized (b : bool) (c : Client) : Client :=
  mkRpcClient b (client_setting_ c) (impl_ c).
Definition upd_setting (f : RpcClientSetting -> RpcClientSetting) (c : Client) : Client :=
  mkRpcClient (initialized_ c) (f (client_setting_ c)) (impl_ c).
Definition set_impl (i : option (ClientImpl P)) (c : Client) : Client :=
  mkRpcClient (initialized_ c) (client_setting_ c) i.

(** A new implementation object; [p]: the network. *)
Definition ClientImpl_new (setting : RpcClientSetting) (p : P) : ClientImpl P :=
  mkClientImpl setting (RpcClientImpl_new p).

(** [RpcClientImpl::init()]; [service_ok]: what a new roo::IoService's [init] returns. *)
Definition RpcClientImpl_init (service_ok : bool) : M (ClientImpl P) bool :=
  setting ← gets im_setting;
  if has_io_service setting then mret true else
  if negb service_ok then mret false else
  _ ← modify (fun i => mkClientImpl (set_has_io_service true (im_setting i)) (im_impl i));
  mret true.

(** [RpcClient()] *)
Definition RpcClient_new : Client := mkRpcClient false RpcClientSetting_new None.

(** [init(addr, port)], whose port is a [uint16_t]. *)
Definition RpcClient_init_addr (service_ok : bool) (p : P) (addr : string) (port : Z) : M Client bool :=
  initialized ← gets initialized_;
  if (initialized : bool) then mret true else
  _ ← modify (upd_setting (set_serv addr (uint16_t(port))));
  setting ← gets client_setting_;
  match RpcClientImpl_init service_ok (ClientImpl_new setting p) with
  | Done (ok, impl) =>
      _ ← modify (set_impl (Some impl));
      if negb ok then mret false else
      _ ← modify (set_initialized true);
      mret true
  | _ => undefined
  end.

(** [lookupValue] of an unsigned member: whether it was there; the member is assigned. *)
Definition lookup_member (setting : Setting) (name : string) (put : Z -> RpcClientSetting -> RpcClientSetting)
    : M Client bool :=
  match setting_uint setting name with
  | None => mret false
  | Some v => _ ← modify (upd_setting (put v)); mret true
  end.

(** [init(setting)]: fields are assigned as they are read. *)
Definition RpcClient_init_setting (service_ok : bool) (p : P) (setting : Setting) : M Client bool :=
  found ← (match setting_string setting "serv_addr" with
           | None => mret false
           | Some addr =>
               _ ← modify (upd_setting (fun s => set_serv addr (serv_port_ s) s));
               lookup_member setting "serv_port" (fun v s => set_serv (serv_addr_ s) v s)
           end);
  addr ← gets (fun c => serv_addr_ (client_setting_ c));
  port ← gets (fun c => serv_port_ (client_setting_ c));
  if negb found || bool_decide (addr = ""%string) || (port <=? 0) then mret false else
  found ← lookup_member setting "send_max_msg_size" set_cl_send_max;
  v ← gets (fun c => cl_send_max_msg_size_ (client_setting_ c));
  if found && (v <? 0) then mret false else
  found ← lookup_member setting "recv_max_msg_size" set_cl_recv_max;
  v ← gets (fun c => cl_recv_max_msg_size_ (client_setting_ c));
  if found && (v <? 0) then mret false else
  found ← lookup_member setting "log_level" set_log_level;
  v ← gets (fun c => log_level_ (client_setting_ c));
  if found && (7 <? v) then mret false else
  addr ← gets (fun c => serv_addr_ (client_setting_ c));
  port ← gets (fun c => serv_port_ (client_setting_ c));
  RpcClient_init_addr service_ok p addr port.

(** [init(cfgFile)]; [file]: the configuration read from the file, [None] when reading or
    parsing throws. *)
Definition RpcClient_init_file (service_ok : bool) (p : P) (file : option Config) : M Client bool :=
  match file with
  | None => mret false
  | Some cfg =>
      match lookup_setting cfg "rpc.client" with
      | None => mret false
      | Some setting => RpcClient_init_setting service_ok p setting
      end
  end.

(** A constructor: [None] when it throws. *)
Definition construct (init : M Client bool) (c : Client) : outcome (option Client) :=
  match init c with
  | Done (true, c') => Done (Some c')
  | Done (false, _) => Done None
  | AssertFailed => AssertFailed
  | Undefined => Undefined
  | OutOfFuel => OutOfFuel
  end.

(** The members before [init] in the constructors that take a handler. *)
Definition with_handler (handler : bool) : Client :=
  upd_setting (set_has_handler handler) RpcClient_new.

Definition RpcClient_of_addr service_ok p addr port (handler : bool) : outcome (option Client) :=
  construct (RpcClient_init_addr service_ok p addr port) (with_handler handler).
Definition RpcClient_of_file service_ok p file (handler : bool) : outcome (option Client) :=
  construct (RpcClient_init_file service_ok p file) (with_handler handler).
Definition RpcClient_of_section service_ok p setting (handler : bool) : outcome (option Client) :=
  construct (RpcClient_init_setting service_ok p setting) (with_handler handler).
Definition RpcClient_of_setting service_ok p (setting : RpcClientSetting) : outcome (option Client) :=
  construct (RpcClient_init_addr service_ok p (serv_addr_ setting) (serv_port_ setting))
    (upd_setting (fun _ => setting) RpcClient_new).

(** Run an operation of the implementation. *)
Definition on_impl {A} (i : ClientImpl P) (m : M (ClientImpl P) A) : M Client A := fun c =>
  match m i with
  | Done (a, i') => Done (a, set_impl (Some i') c)
  | AssertFailed => AssertFailed
  | Undefined => Undefined
  | OutOfFuel => OutOfFuel
  end.

Definition RpcClient_call (service_id opcode : Z) (payload : bytes) (timeout_sec : Z)
    : M Client (RpcClientStatus * option bytes) :=
  initialized ← gets initialized_;
  impl ← gets impl_;
  match initialized : bool, impl with
  | true, Some i =>
      on_impl i (zoom im_impl (fun s i => mkClientImpl (im_setting i) s)
        (call_RPC (im_setting i) service_id opcode payload timeout_sec))
  | _, _ => mret (Status_NETWORK_BEFORE_ERROR, None)
  end.

(** The asynchronous call; [ec]: what connecting ends with, when it is tried. *)
Definition RpcClient_call_async (ec : error_code) (service_id opcode : Z) (payload : bytes) (timeout_sec : Z)
    : M Client RpcClientStatus :=
  initialized ← gets initialized_;
  impl ← gets impl_;
  match initialized : bool, impl with
  | true, Some i =>
      handler ← gets (fun c => has_handler (client_setting_ c));
      if negb handler then mret Status_NETWORK_BEFORE_ERROR else
      on_impl i (zoom im_impl (fun s i => mkClientImpl (im_setting i) s)
        (call_RPC_async (im_setting i) ec service_id opcode payload timeout_sec))
  | _, _ => mret Status_NETWORK_BEFORE_ERROR
  end.
End Client.

(** ** Construction from a configuration *)

Section Construction.
Context `{Host} `{AssertMode} `{LibConfig} `{!LibConfigLaws} {P : Type} `{!AsioSync P}.

(** A section that makes a client: the address and the port are there and not empty, and a
    log level, when given, is at most 7. *)
Definition section_ok (setting : Setting) : bool :=
  match setting_string setting "serv_addr", setting_uint setting "serv_port" with
  | Some addr, Some port => negb (bool_decide (addr = ""%string)) && (0 <? port)
  | _, _ => false
  end && (default 0 (setting_uint setting "log_level") <=? 7).

(** The settings it gives. *)
Definition section_setting (setting : Setting) (handler : bool) : RpcClientSetting :=
  mkSetting (default ""%string (setting_string setting "serv_addr"))
    (uint16_t(default 0 (setting_uint setting "serv_port")))
    (default 0 (setting_uint setting "send_max_msg_size"))
    (default 0 (setting_uint setting "recv_max_msg_size"))
    (default 7 (setting_uint setting "log_level"))
    handler false.

Lemma init_addr_eq (p : P) addr port (c : RpcClient P) :
  initialized_ c = false -> has_io_service (client_setting_ c) = false ->
  RpcClient_init_addr true p addr port c =
    Done (true, mkRpcClient true (set_serv addr (uint16_t(port)) (client_setting_ c))
      (Some (ClientImpl_new (set_has_io_service true
        (set_serv addr (uint16_t(port)) (client_setting_ c))) p))).
Proof.
  destruct c as [init [] impl]; cbn in *; intros -> ->.
  done.
Qed.

Lemma uint_not_negative setting name v : setting_uint setting name = Some v -> (v <? 0) = false.
Proof. intros [? ?]%setting_uint_fits. apply Z.ltb_ge. done. Qed.

(** C37: a client made from a configuration section. When an io_service can be made, the constructor
    succeeds exactly when the address and the port are there and not empty and the log level is at
    most 7; size limits are never refused. The client has the configured settings, except
    that its port is the configured one modulo 65536, and an io_service of its own. *)
Theorem client_from_section (p : P) (setting : Setting) (handler : bool) :
  RpcClient_of_section true p setting handler =
    Done (if section_ok setting
          then Some (mkRpcClient true (section_setting setting handler)
                 (Some (ClientImpl_new (set_has_io_service true (section_setting setting handler)) p)))
          else None).
Proof.
  unfold RpcClient_of_section, construct, RpcClient_init_setting, lookup_member, section_ok, section_setting.
  unfold mbind, M_bind, gets, modify. cbn.
  destruct (setting_string setting "serv_addr") as [addr|]; cbn; [|done].
  destruct (setting_uint setting "serv_port") as [port|]; cbn; [|done].
  rewrite Z.leb_antisym. destruct (bool_decide (addr = "")), (0 <? port); cbn; try done.
  destruct (setting_uint setting "send_max_msg_size") as [sm|] eqn:Hs; cbn;
    try rewrite (uint_not_negative _ _ _ Hs); cbn;
  (destruct (setting_uint setting "recv_max_msg_size") as [rm|] eqn:Hr; cbn;
    try rewrite (uint_not_negative _ _ _ Hr); cbn);
  (destruct (setting_uint setting "log_level") as [lv|] eqn:Hl; cbn;
    [rewrite (Z.ltb_antisym lv 7); destruct (lv <=? 7); cbn; [|done]|]);
  rewrite init_addr_eq; done.
Qed.
End Construction.

(** ** Worked example *)

(** A network where nothing connects. *)
#[local] Instance no_network : AsioSync unit := {|
  asio_connect := fun _ => (ec_timed_out, tt);
  asio_read := fun _ _ => (ec_eof, [], false, tt);
  asio_write := fun _ _ => (ec_eof, 0, false, tt)
|}.

(** A section whose port does not fit 16 bits. *)
Definition demo_section : Setting :=
  SGroup [("serv_addr", VString "127.0.0.1"); ("serv_port", VInt (65536 + 8434)); ("log_level", VInt 6)]%string.

Lemma client_from_section_witness :
  exists c, RpcClient_of_section true tt demo_section true = Done (Some c) /\
    client_setting_ c = mkSetting "127.0.0.1" 8434 0 0 6 true false.
Proof.
  pose proof (client_from_section (H1:=libconfig) tt demo_section true) as Hc.
  eexists. split; [exact Hc|reflexivity].
Defined.
