(* ===== verification/Captain.v ===== *)
(** * Captain.{h,cpp}: start-up and shutdown

    [Captain::init] over the settings file and the outcomes of the roo library's and asio's
    calls, collected in [Boot]. Neither it nor [main] catches exceptions: one that asio
    throws ends the process. The Dispatcher is the other singleton it fills. The clean-up of a
    failed start is left to the caller, which exits. *)

From Stdlib Require Import ZArith Lia Init.Byte.
From stdpp Require Import base list strings gmap.
From S2P Require Import Prelude Endian Message Buffer RpcMessage NetConn External NetConf.
From S2P Require Import RpcInstance Service XtraTaskService Executor Dispatcher Decode ServerConn NetServer.
From S2P Require Import ServiceProps NetServerProps Demo.

Section Captain.
Context `{Host} `{AssertMode} `{SteadyTimer} `{LibConfig} `{BoostString} `{ProtoBuf}
  `{!EQueue RpcInstance} (stack : ExecutorConf).

(** The demo service with its local variables' first values. *)
#[local] Instance xtra_service : Service XtraTaskService := XtraTask_is_Service stack.

(** What the roo library's calls return: the timer's and the setting's [init], the
    configuration read, the creation of the io threads and of the executor's threads, and
    the executor's [add_timer]; and whether asio takes a text as an address and can listen
    on the endpoint, or throws. *)
Record Boot := mkBoot {
  timer_init_ok : bool;
  setting_init_ok : bool;
  get_setting : option Config;
  io_threads_ok : bool;
  exec_threads_ok : bool;
  add_timer_ok : bool;
  address_ok : string -> bool;
  listen_ok : bool
}.

(** The pointers, [None] or [false] when null: the timer with the calls made on it, the setting
    with what its [get_setting] returns; [log_]: the level and path of [log_init]. *)
Record Captain := mkCaptain {
  cap_initialized_ : bool;
  net_server_ptr_ : option NetServer;
  setting_ptr_ : option (option Config);
  status_ptr_ : bool;
  timer_ptr_ : option (list pool_call);
  log_ : option (Z * string)
}.

(** [Captain()] *)
Definition Captain_new : Captain := mkCaptain false None None false None None.

Definition set_cap_initialized (b : bool) (c : Captain) : Captain :=
  mkCaptain b (net_server_ptr_ c) (setting_ptr_ c) (status_ptr_ c) (timer_ptr_ c) (log_ c).
Definition set_net_server (s : option NetServer) (c : Captain) : Captain :=
  mkCaptain (cap_initialized_ c) s (setting_ptr_ c) (status_ptr_ c) (timer_ptr_ c) (log_ c).
Definition set_setting_ptr (s : option (option Config)) (c : Captain) : Captain :=
  mkCaptain (cap_initialized_ c) (net_server_ptr_ c) s (status_ptr_ c) (timer_ptr_ c) (log_ c).
Definition set_status_ptr (b : bool) (c : Captain) : Captain :=
  mkCaptain (cap_initialized_ c) (net_server_ptr_ c) (setting_ptr_ c) b (timer_ptr_ c) (log_ c).
Definition set_timer_ptr (t : option (list pool_call)) (c : Captain) : Captain :=
  mkCaptain (cap_initialized_ c) (net_server_ptr_ c) (setting_ptr_ c) (status_ptr_ c) t (log_ c).
Definition set_log (l : option (Z * string)) (c : Captain) : Captain :=
  mkCaptain (cap_initialized_ c) (net_server_ptr_ c) (setting_ptr_ c) (status_ptr_ c) (timer_ptr_ c) l.

(** [setting_ptr()->get_setting()] *)
Definition captain_setting : M Captain (option Config) :=
  p ← gets setting_ptr_;
  _ ← safe_assert (bool_decide (is_Some p));
  match p with Some conf => mret conf | None => undefined end.

(** Run an operation of the server behind [net_server_ptr_]. *)
Definition on_net_server {A} (m : M NetServer A) : M Captain A := fun c =>
  match net_server_ptr_ c with
  | None => Undefined
  | Some s => zoom (fun _ => s) (fun s' c => set_net_server (Some s') c) m c
  end.

(** [timer_ptr_->threads_join()] *)
Definition timer_threads_join : M Captain unit := fun c =>
  match timer_ptr_ c with
  | None => Undefined
  | Some calls => Done (tt, set_timer_ptr (Some (calls ++ [CallJoin])) c)
  end.

Definition log_init (cfg : Config) : M Captain unit :=
  let log_level := lookupValue_int cfg "log_level" 0 in
  let log_level := if (log_level <=? 0) || (7 <? log_level) then 7 else log_level in
  let log_path := lookupValue_string cfg "log_path" "" in
  let log_path := if bool_decide (log_path = "") then "./log" else log_path in
  modify (set_log (Some (log_level, log_path))).

Definition XTRA_TASK_SERVICE : Z := 1.

Definition on_captain {A} (m : M Captain A) : M (Captain * Dispatcher XtraTaskService) A :=
  zoom fst (fun c st => (c, snd st)) m.
Definition on_dispatcher {A} (m : M (Dispatcher XtraTaskService) A)
    : M (Captain * Dispatcher XtraTaskService) A :=
  zoom snd (fun d st => (fst st, d)) m.

(** The part of [init] before the services. *)
Definition init_framework (b : Boot) : M Captain bool :=
  _ ← modify (set_timer_ptr (Some []));
  if negb (timer_init_ok b) then mret false else
  _ ← modify (set_setting_ptr (Some (get_setting b)));
  if negb (setting_init_ok b) then mret false else
  setting_ptr ← captain_setting;
  match setting_ptr with
  | None => mret false
  | Some cfg =>
      _ ← log_init cfg;
      _ ← modify (set_status_ptr true);
      _ ← modify (set_net_server (Some NetServer_new));
      conf ← captain_setting;
      on_net_server (NetServer_init conf (address_ok b) (io_threads_ok b))
  end.

(** [Captain::init(cfgFile)] *)
Definition Captain_init (b : Boot) : M (Captain * Dispatcher XtraTaskService) bool :=
  initialized ← on_captain (gets cap_initialized_);
  if (initialized : bool) then mret false else
  ok ← on_captain (init_framework b);
  if negb (ok : bool) then mret false else
  conf ← on_captain captain_setting;
  r ← lift (XtraTaskService_init stack conf) (XtraTaskService_new "XtraTaskService");
  if negb r.1 then mret false else
  _ ← on_dispatcher (register_service XTRA_TASK_SERVICE r.2 (exec_threads_ok b) (add_timer_ok b));
  ok ← on_dispatcher Dispatcher_init;
  if negb (ok : bool) then mret false else
  _ ← on_captain (on_net_server (service (listen_ok b)));
  _ ← on_captain (modify (set_cap_initialized true));
  mret true.

Definition service_graceful : M Captain bool :=
  _ ← timer_threads_join;
  _ ← on_net_server io_service_stop_graceful;
  mret true.

Definition service_joinall : M Captain bool :=
  _ ← timer_threads_join;
  _ ← on_net_server io_service_join;
  mret true.
End Captain.

(** ** Start-up *)

(** A start fails, ends the process, or succeeds: of the part before the services, and of the
    program. *)
Inductive framework_start (C : Type) := FrameworkFails | FrameworkAborts | FrameworkStarts (cfg : C).
Arguments FrameworkFails {C}.
Arguments FrameworkAborts {C}.
Arguments FrameworkStarts {C}.

Inductive start_result (C : Type) := StartFails | StartAborts | StartServes (cfg : C) (conf : ExecutorConf).
Arguments StartFails {C}.
Arguments StartAborts {C}.
Arguments StartServes {C}.

Section StartUp.
Context `{Host} `{AssertMode} `{SteadyTimer} `{!SteadyTimerLaws} `{LibConfig} `{BoostString}
  `{ProtoBuf} `{!EQueue RpcInstance}.
Context (stack : ExecutorConf).
#[local] Hint Extern 0 (Service XtraTaskService) => exact (xtra_service stack) : typeclass_instances.

(** The settings a configuration gives a fresh server, but for the feed timer. *)
Definition server_conf (cfg : Config) : NetConf := merge_conf cfg NetConf_new.

Lemma load_conf_new (cfg : Config) :
  exists b c, on_conf (load_conf_ptr (Some cfg)) NetServer_new = Done (b, set_ns_conf c NetServer_new) /\
    (b = true <-> conf_ok (server_conf cfg)) /\ (b = true -> c = server_conf cfg).
Proof.
  destruct (load_conf_spec cfg NetConf_new) as (b & c & Hload & Hb & Hc). exists b, c. split; [|done].
  unfold on_conf, zoom. simpl. by rewrite Hload.
Qed.

(** A bind address asio does not take. *)
Lemma NetServer_init_throws (cfg : Config) address threads_ok :
  conf_ok (server_conf cfg) -> address (bind_addr_ (server_conf cfg)) = false ->
  NetServer_init (Some cfg) address threads_ok NetServer_new = AssertFailed.
Proof.
  intros Hok Ha. destruct (load_conf_new cfg) as (b & c & Hl & Hb & Hc).
  rewrite (proj2 Hb Hok) in Hl. specialize (Hc (proj2 Hb Hok)). subst c. clear Hb.
  unfold NetServer_init, mbind, M_bind. rewrite Hl. cbn [negb]. unfold on_conf, zoom, gets.
  cbn [negb set_ns_conf ns_conf NetServer_new]. by rewrite Ha.
Qed.

Lemma NetServer_init_spec (cfg : Config) address (threads_ok : bool) :
  (conf_ok (server_conf cfg) -> address (bind_addr_ (server_conf cfg)) = true) ->
  exists b s, NetServer_init (Some cfg) address threads_ok NetServer_new = Done (b, s) /\
    (b = true <-> conf_ok (server_conf cfg) /\ threads_ok = true) /\
    accepting s = 0%nat /\ ns_conns s = ∅ /\ current_concurrency_ s = 0 /\
    (b = true -> ns_calls s = [CallInitThreads (io_thread_number_ (server_conf cfg));
        CallAttachRuntime "NetServer"; CallAttachStatus "NetServer"] /\
      exists timer, ns_conf s = set_timed_feed_token_ timer (server_conf cfg) /\
      (timer = None <-> service_speed_ (server_conf cfg) = 0)).
Proof.
  intros Haddr. destruct (load_conf_new cfg) as (b & c & Hl & Hb & Hc).
  unfold NetServer_init, mbind, M_bind. rewrite Hl. destruct b.
  2:{ eexists _, _. split; [reflexivity|]. split_and!; try done. rewrite <-Hb. by intuition. }
  specialize (Hc eq_refl) as ->.
  assert (conf_ok (server_conf cfg)) as Hok by (by apply Hb). clear Hb Hl.
  unfold on_conf, zoom, gets, when, modify. cbn [negb set_ns_conf ns_conf NetServer_new].
  rewrite (Haddr Hok). cbn [negb set_ns_conf ns_conf NetServer_new].
  destruct (service_speed_ (server_conf cfg) =? 0) eqn:Hs; cbn [negb].
  - apply Z.eqb_eq in Hs. destruct threads_ok; cbn; eexists _, _; (split; [reflexivity|]); cbn;
      split_and!; try (done || by intuition); intros _; (split; [done|]); exists None; (split; [done|]); split; [by intros _|done].
  - apply Z.eqb_neq in Hs.
    match goal with |- context [start_feed_timer ?s] => destruct (start_feed_timer_eq s) as (t & Ht & ->) end.
    cbn. destruct threads_ok; cbn; eexists _, _; (split; [reflexivity|]); cbn;
      split_and!; try (done || by intuition); intros _; (split; [done|]); eexists; (split; [done|]); split; [done|intros E; destruct (Hs E)].
Qed.

(** Whether the executor's pool is adjusted by a timer. *)
Definition adjusts (c : ExecutorConf) : bool :=
  (exec_thread_number_ c <? exec_thread_number_hard_ c) && (0 <? exec_thread_step_size_ c).

Lemma Executor_init_eq {S : Type} `{!Service S} (s : S) (c : ExecutorConf) init_ok timer_ok :
  svc_get_executor_conf s = Done (c, s) -> assert_stops && (exec_thread_number_ c <=? 0) = false ->
  exists e, Executor_init init_ok timer_ok (Executor_new s) =
      Done (init_ok && (negb (adjusts c) || timer_ok), e) /\
    service_impl_ e = s /\ conf_ e = c /\ rpc_queue_ e = EQ_new.
Proof.
  intros Hs Hc. unfold Executor_init, on_service, zoom, mbind, M_bind, modify. simpl. rewrite Hs.
  assert (forall X : Executor S, safe_assert (0 <? exec_thread_number_ c) X = Done (tt, X)) as Hassert.
  { intros X. unfold safe_assert. rewrite Z.ltb_antisym. by destruct (_ <=? 0), assert_stops. }
  rewrite Hassert. fold (adjusts c). simpl.
  destruct init_ok; simpl; [|by eexists].
  destruct (adjusts c), timer_ok; simpl; by eexists.
Qed.

Lemma Executor_init_traps {S : Type} `{!Service S} (s : S) (c : ExecutorConf) init_ok timer_ok :
  assert_stops = true -> svc_get_executor_conf s = Done (c, s) -> exec_thread_number_ c <= 0 ->
  Executor_init init_ok timer_ok (Executor_new s) = AssertFailed.
Proof.
  intros Hstop Hs Hc. unfold Executor_init, on_service, zoom, mbind, M_bind. simpl. rewrite Hs.
  unfold safe_assert. rewrite (proj2 (Z.ltb_ge _ _) Hc). simpl. by rewrite Hstop.
Qed.

(** What the start before the services comes to. *)
Definition framework_of (b : Boot) : framework_start Config :=
  match get_setting b with
  | None => FrameworkFails
  | Some cfg =>
      if negb (timer_init_ok b && setting_init_ok b && bool_decide (conf_ok (server_conf cfg))) then FrameworkFails
      else if negb (address_ok b (bind_addr_ (server_conf cfg))) then FrameworkAborts
      else if io_threads_ok b then FrameworkStarts cfg else FrameworkFails
  end.

(** The server before it accepts. *)
Definition server_initialised (cfg : Config) (s : NetServer) : Prop :=
  accepting s = 0%nat /\ ns_conns s = ∅ /\ current_concurrency_ s = 0 /\
  ns_calls s = [CallInitThreads (io_thread_number_ (server_conf cfg));
    CallAttachRuntime "NetServer"; CallAttachStatus "NetServer"] /\
  exists timer, ns_conf s = set_timed_feed_token_ timer (server_conf cfg) /\
    (timer = None <-> service_speed_ (server_conf cfg) = 0).

Lemma init_framework_spec (b : Boot) :
  match framework_of b with
  | FrameworkFails => exists c, init_framework b Captain_new = Done (false, c) /\ cap_initialized_ c = false /\
      forall s, net_server_ptr_ c = Some s -> accepting s = 0%nat
  | FrameworkAborts => init_framework b Captain_new = AssertFailed
  | FrameworkStarts cfg => exists c s, init_framework b Captain_new = Done (true, c) /\ cap_initialized_ c = false /\
      setting_ptr_ c = Some (Some cfg) /\ timer_ptr_ c = Some [] /\ status_ptr_ c = true /\
      net_server_ptr_ c = Some s /\ server_initialised cfg s
  end.
Proof.
  destruct b as [t st cfg io ex ad address listen]. unfold framework_of, init_framework, mbind, M_bind. simpl.
  destruct t; simpl. 2:{ destruct cfg; by eexists. }
  destruct st; simpl. 2:{ destruct cfg; by eexists. }
  unfold captain_setting, mbind, M_bind, safe_assert. simpl.
  destruct cfg as [cfg|]; simpl; [|by eexists].
  unfold on_net_server. simpl. unfold zoom.
  change (lookupValue_string cfg "rpc.network.bind_addr" "") with (bind_addr_ (server_conf cfg)).
  destruct (decide (conf_ok (server_conf cfg))) as [Hok|Hok]; [rewrite (bool_decide_true _ Hok)|rewrite (bool_decide_false _ Hok)]; cbn [negb].
  - destruct (address (bind_addr_ (server_conf cfg))) eqn:Ha; cbn [negb].
    2: { by rewrite NetServer_init_throws. }
    destruct (NetServer_init_spec cfg address io (fun _ => Ha)) as (ok & s & Hi & Hb & Hs1 & Hs2 & Hs3 & Hs4).
    rewrite Hi. destruct io.
    + assert (ok = true) as -> by (by apply Hb). destruct (Hs4 eq_refl) as [Hcalls Ht]. eexists _, s. by split_and!.
    + destruct ok; [by destruct (proj1 Hb eq_refl)|]. eexists. split; [done|]. split; [done|]. by intros s' [= <-].
  - destruct (NetServer_init_spec cfg address io ltac:(done)) as (ok & s & Hi & Hb & Hs1 & _).
    rewrite Hi. destruct ok; [by destruct (proj1 Hb eq_refl)|].
    eexists. split; [done|]. split; [done|]. by intros s' [= <-].
Qed.

(** The executor under the demo service's id after a start with configuration [c]. *)
Definition registered (b : Boot) (c : ExecutorConf) : bool :=
  exec_threads_ok b && (negb (adjusts c) || add_timer_ok b).

(** What [init] gives the demo service for its entry in the configuration. *)
Definition service_conf (cfg : Config) : option ExecutorConf :=
  entry ← conf_entry "rpc.services" "XtraTaskService" (Some cfg);
  accept_conf stack entry None.

Lemma XtraTaskService_init_eq (cfg : Config) :
  XtraTaskService_init stack (Some cfg) (XtraTaskService_new "XtraTaskService") =
    Done (bool_decide (is_Some (service_conf cfg)), mkXtraTaskService "XtraTaskService" (service_conf cfg)).
Proof.
  unfold service_conf, XtraTaskService_init, conf_entry.
  destruct (lookup_setting cfg "rpc.services") as [l|]; [|done]. rewrite init_loop_eq. simpl.
  destruct (find_entry _ _) as [entry|]; [|done]. simpl. unfold accept_conf. by case_bool_decide.
Qed.

Lemma register_then_init (b : Boot) (c : ExecutorConf) :
  assert_stops && (exec_thread_number_ c <=? 0) = false ->
  exists d1 d,
    register_service XTRA_TASK_SERVICE (mkXtraTaskService "XtraTaskService" (Some c))
      (exec_threads_ok b) (add_timer_ok b) Dispatcher_new = Done (tt, d1) /\
    Dispatcher_init d1 = Done (true, d) /\
    Dispatcher.initialized_ d = true /\ dp_calls d = [CallAttachRuntime "Dispatcher"] /\
    if registered b c
    then exists e, services_ d = {[ XTRA_TASK_SERVICE := e ]} /\ conf_ e = c /\ rpc_queue_ e = EQ_new /\
           service_impl_ e = mkXtraTaskService "XtraTaskService" (Some c) /\
           last (ex_calls e) = Some CallStartThreads
    else services_ d = ∅.
Proof.
  intros Hc. set (s := mkXtraTaskService _ _).
  destruct (Executor_init_eq s c (exec_threads_ok b) (add_timer_ok b)) as (e & He & Himpl & Hconf & Hq);
    [done|done|].
  unfold register_service, mbind, M_bind, gets, lift. simpl. rewrite He.
  fold (registered b c). simpl. destruct (registered b c); simpl;
    (eexists _, _; split; [reflexivity|]; split; [reflexivity|]); simpl.
  - split; [done|]. split; [done|]. eexists. split; [done|]. split_and!; [done..|]. cbn. by rewrite last_snoc.
  - done.
Qed.

(** What a start comes to. *)
Definition start_of (b : Boot) : start_result Config :=
  match framework_of b with
  | FrameworkFails => StartFails
  | FrameworkAborts => StartAborts
  | FrameworkStarts cfg =>
      match service_conf cfg with
      | None => StartFails
      | Some conf =>
          if assert_stops && (exec_thread_number_ conf <=? 0) || negb (listen_ok b)
          then StartAborts else StartServes cfg conf
      end
  end.

(** The settings of a start that serves. *)
Definition start_confs (b : Boot) : option (Config * ExecutorConf) :=
  match start_of b with StartServes cfg conf => Some (cfg, conf) | _ => None end.

(** The server of a started program. *)
Definition server_ready (cfg : Config) (s : NetServer) : Prop :=
  accepting s = 1%nat /\ ns_conns s = ∅ /\ current_concurrency_ s = 0 /\
  ns_calls s = [CallInitThreads (io_thread_number_ (server_conf cfg));
    CallAttachRuntime "NetServer"; CallAttachStatus "NetServer"; CallStartThreads] /\
  exists timer, ns_conf s = set_timed_feed_token_ timer (server_conf cfg) /\
    (timer = None <-> service_speed_ (server_conf cfg) = 0).

(** The services of a started program: the demo service with its configuration, its
    executor started. *)
Definition services_ready (b : Boot) (conf : ExecutorConf) (d : Dispatcher XtraTaskService) : Prop :=
  if registered b conf
  then exists e, services_ d = {[ XTRA_TASK_SERVICE := e ]} /\ conf_ e = conf /\ rpc_queue_ e = EQ_new /\
         service_impl_ e = mkXtraTaskService "XtraTaskService" (Some conf) /\
         last (ex_calls e) = Some CallStartThreads
  else services_ d = ∅.

Lemma Captain_init_services (b : Boot) (c : Captain) (cfg : Config) :
  init_framework b Captain_new = Done (true, c) -> setting_ptr_ c = Some (Some cfg) ->
  Captain_init stack b (Captain_new, Dispatcher_new) =
    match service_conf cfg with
    | None => Done (false, (c, Dispatcher_new))
    | Some conf =>
        (_ ← on_dispatcher (register_service XTRA_TASK_SERVICE
                (mkXtraTaskService "XtraTaskService" (Some conf)) (exec_threads_ok b) (add_timer_ok b));
         ok ← on_dispatcher Dispatcher_init;
         if negb (ok : bool) then mret false else
         _ ← on_captain (on_net_server (service (listen_ok b)));
         _ ← on_captain (modify (set_cap_initialized true));
         mret true) (c, Dispatcher_new)
    end.
Proof.
  intros Hf Hset. unfold Captain_init.
  assert (captain_setting c = Done (Some cfg, c)) as Hcs
    by (unfold captain_setting, mbind, M_bind, safe_assert; simpl; by rewrite Hset).
  unfold mbind, M_bind, on_captain, zoom. cbn -[XtraTaskService_init service_conf]. rewrite Hf.
  cbn -[XtraTaskService_init service_conf]. rewrite Hcs. cbn -[service_conf XtraTaskService_init]. unfold lift. rewrite XtraTaskService_init_eq.
  by destruct (service_conf cfg).
Qed.

Lemma Captain_init_again (b : Boot) (c : Captain) d :
  cap_initialized_ c = true -> Captain_init stack b (c, d) = Done (false, (c, d)).
Proof. intros Hc. unfold Captain_init, on_captain, zoom, mbind, M_bind. simpl. by rewrite Hc. Qed.

(** A start that serves. *)
Lemma captain_starts (b : Boot) (cfg : Config) (conf : ExecutorConf) :
  start_of b = StartServes cfg conf ->
  exists c d s, Captain_init stack b (Captain_new, Dispatcher_new) = Done (true, (c, d)) /\
    net_server_ptr_ c = Some s /\ server_ready cfg s /\
    Dispatcher.initialized_ d = true /\ services_ready b conf d /\
    (setting_ptr_ c = Some (Some cfg) /\ status_ptr_ c = true /\ timer_ptr_ c = Some [] /\
     dp_calls d = [CallAttachRuntime "Dispatcher"]) /\
    forall b', Captain_init stack b' (c, d) = Done (false, (c, d)).
Proof.
  unfold start_of. pose proof (init_framework_spec b) as Hf. destruct (framework_of b) as [| |cfg']; [done..|].
  destruct Hf as (c & s & Hf & Hc & Hset & Htp & Hst & Hs & (Hacc & Hconns & Hcount & Hcalls & Htimer)).
  destruct (service_conf cfg') as [conf'|] eqn:Hconf; [|done].
  destruct (assert_stops && _) eqn:Hn; [done|]. destruct (listen_ok b) eqn:Hl; [|done]. intros [= -> ->].
  rewrite (Captain_init_services b c cfg), Hconf by done.
  unfold mbind, M_bind, on_dispatcher, zoom. cbn [fst snd].
  destruct (register_then_init b conf) as (d1 & d & Hr & Hi & Hd & Hdp & Hsv); [done|].
  rewrite Hr. cbn [fst snd]. rewrite Hi. cbn [fst snd negb].
  unfold on_captain, on_net_server, zoom. cbn [fst snd]. rewrite Hs, Hl.
  eexists _, _, _. split; [reflexivity|]. cbn. split; [done|]. split.
  { split_and!; [by rewrite Hacc|done|done|cbn; by rewrite Hcalls|done]. }
  split_and!; [done..|]. by intros b'; apply Captain_init_again.
Qed.

(** A start that fails. *)
Lemma captain_fails (b : Boot) :
  start_of b = StartFails ->
  exists c d, Captain_init stack b (Captain_new, Dispatcher_new) = Done (false, (c, d)) /\
    cap_initialized_ c = false /\ services_ d = ∅ /\
    forall s, net_server_ptr_ c = Some s -> accepting s = 0%nat.
Proof.
  unfold start_of. pose proof (init_framework_spec b) as Hf. destruct (framework_of b) as [| |cfg]; [|done|].
  - destruct Hf as (c & Hf & Hc & Hacc). intros _.
    unfold Captain_init, on_captain, zoom, mbind, M_bind. simpl. rewrite Hf.
    eexists _, _. by split_and!.
  - destruct Hf as (c & s & Hf & Hc & Hset & _ & _ & Hs & (Hacc & _)).
    destruct (service_conf cfg) eqn:Hconf; [by case_match|]. intros _.
    rewrite (Captain_init_services b c cfg), Hconf by done.
    eexists _, _. split_and!; try done. intros s'. rewrite Hs. by intros [= <-].
Qed.

(** A start that ends the process: at the bind address, at the executor of a service without
    threads, or at the endpoint. *)
Lemma captain_aborts (b : Boot) :
  start_of b = StartAborts -> Captain_init stack b (Captain_new, Dispatcher_new) = AssertFailed.
Proof.
  unfold start_of. pose proof (init_framework_spec b) as Hf. destruct (framework_of b) as [| |cfg]; [done|..].
  - intros _. unfold Captain_init, on_captain, zoom, mbind, M_bind. simpl. by rewrite Hf.
  - destruct Hf as (c & s & Hf & Hc & Hset & _ & _ & Hs & _).
    destruct (service_conf cfg) as [conf|] eqn:Hconf; [|done].
    rewrite (Captain_init_services b c cfg), Hconf by done.
    unfold mbind, M_bind, on_dispatcher, zoom. cbn [fst snd].
    destruct (assert_stops && _) eqn:Hn.
    + apply andb_prop in Hn as [Hstop Hn%Z.leb_le]. intros _.
      unfold register_service, mbind, M_bind, gets, lift. cbn. by rewrite (Executor_init_traps _ conf).
    + destruct (listen_ok b) eqn:Hl; [done|]. intros _.
      destruct (register_then_init b conf) as (d1 & d & Hr & Hi & _); [done|].
      rewrite Hr. cbn [fst snd]. rewrite Hi. cbn [fst snd negb].
      unfold on_captain, on_net_server, zoom. cbn [fst snd]. by rewrite Hs.
Qed.

(** C27: start-up. It fails, with no service and nothing accepted, when the timer or the setting
    does not initialise, there is no configuration, its network part is out of range, the
    io threads are refused, or it has no entry for the demo service. It ends the process
    when the bind address is no address or the server cannot listen on the endpoint (asio's
    exceptions, which nothing catches), and, where SAFE_ASSERT stops, when the service's
    entry asks for no threads or has a number out of range (it is then without threads).
    Otherwise it succeeds: the server accepts with the configured settings, the dispatcher
    is initialised, and a second start is refused and changes nothing. It succeeds even
    when the executor's threads or timer are refused; then no service is registered. *)
Theorem captain_init_spec (b : Boot) :
  match start_of b with
  | StartFails => exists c d, Captain_init stack b (Captain_new, Dispatcher_new) = Done (false, (c, d)) /\
      cap_initialized_ c = false /\ services_ d = ∅ /\
      forall s, net_server_ptr_ c = Some s -> accepting s = 0%nat
  | StartAborts => Captain_init stack b (Captain_new, Dispatcher_new) = AssertFailed
  | StartServes cfg conf =>
      exists c d s, Captain_init stack b (Captain_new, Dispatcher_new) = Done (true, (c, d)) /\
        net_server_ptr_ c = Some s /\ server_ready cfg s /\
        Dispatcher.initialized_ d = true /\ services_ready b conf d /\
        forall b', Captain_init stack b' (c, d) = Done (false, (c, d))
  end.
Proof.
  destruct (start_of b) as [| |cfg conf] eqn:Hst; [by apply captain_fails|by apply captain_aborts|].
  destruct (captain_starts b cfg conf Hst) as (c & d & s & ? & ? & ? & ? & ? & _ & ?).
  exists c, d, s. by split_and!.
Qed.
End StartUp.

(** ** Worked example *)

(** A stand-in for the generated protobuf code. *)
#[local] Instance demo_proto : ProtoBuf := {|
  unmarshal_request := fun _ => None;
  marshal_response := fun _ => []
|}.

(** A start with one service entry; the executor's threads are or are not created. *)
Definition demo_config : Config :=
  mkConfig
    [("rpc.network.bind_addr", VString "0.0.0.0"); ("rpc.network.bind_port", VInt 8434)]
    [("rpc.services", [[("instance_name", VString "XtraTaskService"); ("exec_thread_pool_size", VInt 2)]])]%string.
Definition demo_boot (threads : bool) : Boot :=
  mkBoot true true (Some demo_config) true threads true (fun addr => bool_decide (addr = "0.0.0.0")) true.

(** The same with a port in use, and with an entry that asks for too many threads. *)
Definition demo_port_taken : Boot :=
  mkBoot true true (Some demo_config) true true true (fun addr => bool_decide (addr = "0.0.0.0")) false.
Definition demo_many_threads : Boot :=
  mkBoot true true
    (Some (mkConfig [("rpc.network.bind_addr", VString "0.0.0.0"); ("rpc.network.bind_port", VInt 8434)]
      [("rpc.services", [[("instance_name", VString "XtraTaskService"); ("exec_thread_pool_size", VInt 2000)]])]))%string
    true true true (fun addr => bool_decide (addr = "0.0.0.0")) true.

Lemma demo_start_confs threads :
  start_of ServiceConf_new (demo_boot threads) = StartServes demo_config (mkExecutorConf 2 2 0).
Proof. destruct threads; vm_compute; reflexivity. Defined.

Lemma demo_taken_aborts : start_of ServiceConf_new demo_port_taken = StartAborts.
Proof. vm_compute. reflexivity. Defined.

(** Without the executor's threads the program starts, and has no service; with its port in
    use, or an entry out of range, it ends. *)
Lemma captain_init_spec_witness :
  (exists c d s, Captain_init ServiceConf_new (demo_boot false) (Captain_new, Dispatcher_new) = Done (true, (c, d)) /\
    net_server_ptr_ c = Some s /\ server_ready demo_config s /\ services_ d = ∅) /\
  Captain_init ServiceConf_new demo_port_taken (Captain_new, Dispatcher_new) = AssertFailed /\
  Captain_init ServiceConf_new demo_many_threads (Captain_new, Dispatcher_new) = AssertFailed.
Proof.
  split; [|split].
  - pose proof (captain_init_spec ServiceConf_new (demo_boot false)) as Hs.
    rewrite demo_start_confs in Hs. destruct Hs as (c & d & s & E & Hn & Hr & _ & Hd & _).
    exists c, d, s. split; [exact E|]. split; [exact Hn|]. split; [exact Hr|exact Hd].
  - pose proof (captain_init_spec ServiceConf_new demo_port_taken) as Hs.
    rewrite demo_taken_aborts in Hs. exact Hs.
  - pose proof (captain_init_spec ServiceConf_new demo_many_threads) as Hs.
    assert (start_of ServiceConf_new demo_many_threads = StartAborts) as E by (vm_compute; reflexivity).
    rewrite E in Hs. exact Hs.
Defined.
