(* ===== verification/Main.v ===== *)
(** * main.cpp and setup.cpp: the process

    The command line, the fixed buffer of the settings file's name, the start sequence
    with its exit statuses, and the signal handlers. The C library's [getopt] is the list
    of its results; what the SSL set-up, [daemon] and [fopen] answer, and what the
    roo library finds under a file name, are the environment's ([Startup]). The main
    thread's calls are recorded in order. *)

From Stdlib Require Import ZArith Lia Init.Byte.
From stdpp Require Import base list strings gmap.
From S2P Require Import Prelude Endian Message Buffer RpcMessage NetConn External NetConf.
From S2P Require Import RpcInstance Service XtraTaskService Executor Dispatcher Answering Decode ServerConn.
From S2P Require Import ServerSend ServerRead ServerSystem Pending NetServer NetServerProps World WorldInv.
From S2P Require Import Captain.

(** ** Strings of the C library *)

Definition PATH_MAX : Z := 4096.

(** The string at the start of a buffer; [None]: it has no terminator. *)
Fixpoint c_string (buf : bytes) : option bytes :=
  match buf with
  | [] => None
  | b :: buf => if bool_decide (b = x00) then Some [] else cons b <$> c_string buf
  end.

(** [strncpy(dst, src, n)]: writes exactly [n] bytes, a terminator only when it fits. *)
Definition strncpy (src : bytes) (n : Z) : M bytes unit := fun dst =>
  if n <=? len dst then
    Done (tt, ztake n (src ++ replicate (Z.to_nat n) x00) ++ zdrop n dst)
  else Undefined.

(** [strcat(dst, src)] *)
Definition strcat (src : bytes) : M bytes unit := fun dst =>
  match c_string dst with
  | None => Undefined
  | Some s =>
      if len s + len src <? len dst
      then Done (tt, s ++ src ++ [x00] ++ zdrop (len s + len src + 1) dst)
      else Undefined
  end.

(** [memset(dst, 0, sizeof(dst))] *)
Definition clear : M bytes unit := modify (fun dst => replicate (length dst) x00).

(** ** The command line *)

(** What [getopt(argc, argv, "c:dhv")] returns, with [optarg]. *)
Inductive opt := Opt_c (optarg : bytes) | Opt_d | Opt_v | Opt_h | Opt_unknown.

(** What the build put into the program: its name and version, and the state of the
    repository. *)
Record Build := mkBuild {
  program_name : bytes;              (* program_invocation_short_name *)
  PROGRAM_VERSION : bytes;
  build_commit_version : bytes;
  build_commit_branch : bytes;
  build_commit_date : bytes;
  build_commit_author : bytes;
  build_time : bytes
}.

Definition nl : bytes := [x0a].
Definition release_line (b : Build) : bytes :=
  str_bytes " * THIS RELEASE OF " ++ program_name b ++ str_bytes ": ver " ++ PROGRAM_VERSION b ++
  str_bytes " * " ++ nl.

(** What [usage()] prints. *)
Definition usage (b : Build) : bytes :=
  nl ++ release_line b ++ nl ++
  [x09] ++ str_bytes " -c cfgFile  specify config file, or using default " ++ program_name b ++
    str_bytes ".conf. " ++ nl ++
  [x09] ++ str_bytes " -d          daemonize service." ++ nl ++
  [x09] ++ str_bytes " -v          print version info." ++ nl ++ nl.

(** What [show_vcs_info()] prints. *)
Definition show_vcs_info (b : Build) : bytes :=
  let line text := str_bytes "    " ++ text ++ nl in
  nl ++ release_line b ++ nl ++ line (build_commit_version b) ++ line (build_commit_branch b) ++
  line (build_commit_date b) ++ line (build_commit_author b) ++ line (build_time b).

(** What the main thread does. *)
Inductive main_call := Printed (text : bytes) | SslSetup | Daemon | WritePid (ok : bool) | InstallSignals
  | BacktraceInit | JoinAll | SslClean.

Record Main := mkMain {
  cfgFile : bytes;
  daemonize : bool;
  main_calls : list main_call
}.

(** The globals: [char cfgFile[PATH_MAX] {}], [bool daemonize = false]. *)
Definition Main_new : Main := mkMain (replicate (Z.to_nat PATH_MAX) x00) false [].

Definition on_cfgFile {A} (m : M bytes A) : M Main A :=
  zoom cfgFile (fun b st => mkMain b (daemonize st) (main_calls st)) m.
Definition set_daemonize : M Main unit := modify (fun st => mkMain (cfgFile st) true (main_calls st)).
Definition call (k : main_call) : M Main unit :=
  modify (fun st => mkMain (cfgFile st) (daemonize st) (main_calls st ++ [k])).

(** The loop over the options; [Some status]: [exit(status)] was called. *)
Fixpoint parse_options (b : Build) (opts : list opt) : M Main (option Z) :=
  match opts with
  | [] => mret None
  | Opt_c optarg :: opts =>
      _ ← on_cfgFile clear;
      _ ← on_cfgFile (strncpy optarg PATH_MAX);
      parse_options b opts
  | Opt_d :: opts => _ ← set_daemonize; parse_options b opts
  | Opt_v :: opts => _ ← call (Printed (show_vcs_info b)); mret (Some 0)
  | Opt_h :: opts | Opt_unknown :: opts => _ ← call (Printed (usage b)); mret (Some 0)
  end.

(** [std::cout << cfgFile], [std::string(cfgFile)]: reads up to the terminator. *)
Definition cfg_path : M Main bytes := fun st =>
  match c_string (cfgFile st) with
  | Some path => Done (path, st)
  | None => Undefined
  end.

(** ** The start sequence *)

Section Start.
Context `{Host} `{AssertMode} `{SteadyTimer} `{LibConfig} `{BoostString} `{ProtoBuf}
  `{!EQueue RpcInstance} (stack : ExecutorConf).
#[local] Hint Extern 0 (Service XtraTaskService) => exact (xtra_service stack) : typeclass_instances.

(** The environment of a start. [boot_of]: what is found under a file name. *)
Record Startup := mkStartup {
  build : Build;
  options : list opt;
  ssl_ok : bool;               (* roo::Ssl_thread_setup() *)
  daemon_ok : bool;            (* daemon(..) == 0 *)
  pid_file_ok : bool;          (* fopen(pid_file, "w+") *)
  boot_of : bytes -> Boot
}.

Definition EXIT_SUCCESS : Z := 0.
Definition EXIT_FAILURE : Z := 1.

(** [create_process_pid()] *)
Definition create_process_pid (ok : bool) : M Main Z :=
  _ ← call (WritePid ok); mret (if ok then 0 else -1).

Definition default_cfg (e : Startup) : M bytes unit :=
  _ ← strncpy (program_name (build e)) (len (program_name (build e))); strcat (str_bytes ".conf").

Abbreviation Process := (Main * (Captain * Dispatcher XtraTaskService))%type.

Definition on_main {A} (m : M Main A) : M Process A := zoom fst (fun s st => (s, snd st)) m.
Definition on_program {A} (m : M (Captain * Dispatcher XtraTaskService) A) : M Process A :=
  zoom snd (fun s st => (fst st, s)) m.

(** [main] once the options are read. The server runs while the main thread is in
    [service_joinall]. *)
Definition main_run (e : Startup) : M Process Z :=
  path ← on_main cfg_path;
  _ ← on_main (call (Printed (str_bytes "current system cfg file [" ++ path ++ str_bytes "]." ++ nl)));
  _ ← on_main (call (Printed (show_vcs_info (build e))));
  _ ← on_main (call SslSetup);
  if negb (ssl_ok e) then mret EXIT_FAILURE else
  daemonize ← on_main (gets daemonize);
  _ ← on_main (when daemonize (call Daemon));
  if daemonize && negb (daemon_ok e) then mret EXIT_FAILURE else
  _ ← on_main (create_process_pid (pid_file_ok e));
  _ ← on_main (call InstallSignals);
  _ ← on_main (call BacktraceInit);
  ok ← on_program (Captain_init stack (boot_of e path));
  if negb (ok : bool) then mret EXIT_FAILURE else
  _ ← on_main (call JoinAll);
  _ ← on_program (on_captain service_joinall);
  _ ← on_main (call SslClean);
  mret 0.

(** [main]: its exit status. *)
Definition main (e : Startup) : M Process Z :=
  _ ← on_main (on_cfgFile (default_cfg e));
  r ← on_main (parse_options (build e) (options e));
  match r with
  | Some status => mret status
  | None => main_run e
  end.

(** ** Signals *)

Inductive signal := SIGHUP | SIGUSR1 | SIGPIPE | SIG_other.

#[export] Instance pool_call_eq_dec : EqDecision pool_call.
Proof. solve_decision. Defined.

(** [setting_ptr()] and [status_ptr()], then a call through the pointer. *)
Definition setting_ptr_call : M Captain unit :=
  p ← gets setting_ptr_;
  _ ← safe_assert (bool_decide (is_Some p));
  match p with Some _ => mret tt | None => undefined end.
Definition status_ptr_call : M Captain unit :=
  p ← gets status_ptr_;
  _ ← safe_assert p;
  if (p : bool) then mret tt else undefined.

(** The callbacks that were attached; [net_server_ptr_] is set when the server's was. *)
Definition runtime_attached (c : Captain) : bool :=
  match net_server_ptr_ c with
  | Some s => bool_decide (CallAttachRuntime "NetServer" ∈ ns_calls s)
  | None => false
  end.
Definition dispatcher_attached (d : Dispatcher XtraTaskService) : bool :=
  bool_decide (CallAttachRuntime "Dispatcher" ∈ dp_calls d).

(** [roo::Setting::update_runtime_setting()]: with the settings read again, every attached
    callback is called; [None]: they could not be read. *)
Definition update_runtime_setting (reloaded : option Config)
    : M (Captain * Dispatcher XtraTaskService) unit :=
  match reloaded with
  | None => mret tt
  | Some cfg =>
      net ← on_captain (gets runtime_attached);
      _ ← (if (net : bool) then _ ← on_captain (on_net_server (NetServer_module_runtime cfg)); mret tt
           else mret tt);
      disp ← on_dispatcher (gets dispatcher_attached);
      if (disp : bool) then _ ← on_dispatcher (Dispatcher_module_runtime cfg); mret tt else mret tt
  end.

(** [roo::Status::collect_status(output)]: what the attached callbacks report, the
    executors with the sizes of their pools. *)
Definition collect_status (pool_size : Z -> Z) : M (Captain * Dispatcher XtraTaskService) (list (string * string)) :=
  server ← on_captain (gets net_server_ptr_);
  d ← on_dispatcher (gets id);
  let net := match server with
    | Some s => if bool_decide (CallAttachStatus "NetServer" ∈ ns_calls s)
                then [NetServer_module_status "tzrpc_server" s] else []
    | None => [] end in
  mret (net ++ ((fun p => Executor_module_status (pool_size p.1) p.2) <$> map_to_list (services_ d))).

(** [interrupted_callback(signal)]: what SIGUSR1 prints. *)
Definition interrupted_callback (sig : signal) (reloaded : option Config) (pool_size : Z -> Z)
    : M (Captain * Dispatcher XtraTaskService) (list (string * string)) :=
  match sig with
  | SIGHUP =>
      _ ← on_captain setting_ptr_call;
      _ ← update_runtime_setting reloaded;
      mret []
  | SIGUSR1 =>
      _ ← on_captain status_ptr_call;
      collect_status pool_size
  | _ => mret []
  end.

(** [init_signal_handle()]: SIGPIPE is ignored; SIGUSR1 and SIGHUP run the handler. *)
Definition disposition (sig : signal) : option bool :=
  match sig with
  | SIGPIPE => Some false
  | SIGHUP | SIGUSR1 => Some true
  | SIG_other => None
  end.

End Start.
