(* ===== verification/ProgramProps.v ===== *)
(** * Properties of the process

    The exit statuses of [main], what the signals do, and the theorem the whole server
    comes to: a program that was started answers every request once. *)

From Stdlib Require Import ZArith Lia Init.Byte.
From stdpp Require Import base list strings gmap.
From S2P Require Import Prelude Endian Message Buffer RpcMessage NetConn External NetConf.
From S2P Require Import RpcInstance Service XtraTaskService Executor Dispatcher Answering Decode.
From S2P Require Import ServerConn ServerSend ServerRead ServerSystem Pending NetServer NetServerProps.
From S2P Require Import World WorldInv WorldProps Captain Main.

(** ** C strings *)

Definition nul_free (s : bytes) : Prop := x00 ∉ s.

Lemma c_string_stops s rest : nul_free s -> c_string (s ++ x00 :: rest) = Some s.
Proof.
  induction s as [|b s IH]; intros Hs; cbn; [by rewrite bool_decide_true|].
  apply not_elem_of_cons in Hs as [Hb Hs]. rewrite bool_decide_false by congruence. by rewrite IH.
Qed.

Lemma c_string_runs_on s : nul_free s -> c_string s = None.
Proof.
  induction s as [|b s IH]; intros Hs; cbn; [done|].
  apply not_elem_of_cons in Hs as [Hb Hs]. rewrite bool_decide_false by congruence. by rewrite IH.
Qed.

(** A copied name is read back when it and its terminator fit, and read beyond the buffer
    otherwise. *)
Lemma strncpy_c_string s dst :
  nul_free s ->
  exists buf, strncpy s (len dst) dst = Done (tt, buf) /\ len buf = len dst /\
    c_string buf = if len s <? len dst then Some s else None.
Proof.
  intros Hs. pose proof (zlen_nonneg dst). pose proof (zlen_nonneg s).
  unfold strncpy. rewrite (proj2 (Z.leb_le _ _)) by lia.
  rewrite (zdrop_all (len dst)), app_nil_r by lia. eexists. split; [done|].
  assert (len (replicate (Z.to_nat (len dst)) x00) = len dst) as Hr
    by (unfold zlen; rewrite length_replicate; lia).
  split; [rewrite zlen_ztake; rewrite ?zlen_app; lia|].
  destruct (len s <? len dst) eqn:E; bool_prop.
  - unfold ztake. rewrite take_app_ge by (unfold zlen in *; lia). rewrite take_replicate.
    replace (Nat.min _ _) with (S (Z.to_nat (len dst) - length s - 1)) by (unfold zlen in *; lia).
    cbn. by apply c_string_stops.
  - rewrite ztake_app_le by lia. apply c_string_runs_on. intros Hx. by eapply Hs, subseteq_take.
Qed.

(** The default name: the program's with ".conf" after it. *)
Lemma default_name s (n : nat) :
  nul_free s -> len s + 5 < Z.of_nat n ->
  exists buf, (_ ← strncpy s (len s); strcat (str_bytes ".conf")) (replicate n x00) = Done (tt, buf) /\
    len buf = Z.of_nat n /\ c_string buf = Some (s ++ str_bytes ".conf").
Proof.
  intros Hn Hl. unfold mbind, M_bind, strncpy. pose proof (zlen_nonneg s).
  assert (len (replicate n x00) = Z.of_nat n) as Hb by (unfold zlen; by rewrite length_replicate).
  rewrite (proj2 (Z.leb_le _ _)) by lia. rewrite ztake_app_length by done. unfold strcat.
  assert (zdrop (len s) (replicate n x00) = x00 :: replicate (n - length s - 1) x00) as ->.
  { unfold zdrop. rewrite drop_replicate. unfold zlen in *.
    replace (n - _)%nat with (S (n - length s - 1)) by lia. done. }
  rewrite c_string_stops by done. change (len (str_bytes ".conf")) with 5.
  set (dst := s ++ x00 :: replicate (n - length s - 1) x00).
  assert (len dst = Z.of_nat n) as Hd.
  { unfold dst. rewrite zlen_app. unfold zlen in *. cbn [length]. rewrite length_replicate. lia. }
  rewrite Hd, (proj2 (Z.ltb_lt _ _)) by lia. eexists. split; [done|]. split.
  - rewrite !zlen_app, zlen_zdrop, Hd by lia. change (len (str_bytes ".conf")) with 5. unfold zlen at 2. simpl. lia.
  - rewrite app_assoc. apply c_string_stops. unfold nul_free. rewrite not_elem_of_app. split; [done|].
    by apply (bool_decide_eq_true_1 (x00 ∉ str_bytes ".conf")).
Qed.

Lemma default_cfg_eq `{LibConfig} (e : Startup) :
  nul_free (program_name (build e)) -> len (program_name (build e)) + 5 < PATH_MAX ->
  exists buf, default_cfg e (cfgFile Main_new) = Done (tt, buf) /\ len buf = PATH_MAX /\
    c_string buf = Some (program_name (build e) ++ str_bytes ".conf").
Proof.
  intros Hn Hl. destruct (default_name (program_name (build e)) (Z.to_nat PATH_MAX) Hn) as (buf & E & Hb & Hc).
  - by rewrite Z2Nat.id.
  - exists buf. rewrite Z2Nat.id in Hb by done. by split_and!.
Qed.

(** ** The command line, specified *)

(** What the options come to: [None] when one of them ends the program, otherwise the
    settings file's name and whether to go to the background. *)
Fixpoint command (opts : list opt) (path : bytes) (d : bool) : option (bytes * bool) :=
  match opts with
  | [] => Some (path, d)
  | Opt_c optarg :: opts => command opts optarg d
  | Opt_d :: opts => command opts path true
  | _ => None
  end.

(** An argument as the system passes it. *)
Definition opt_ok (o : opt) : Prop := match o with Opt_c optarg => nul_free optarg | _ => True end.

(** The buffer holds [path], cut off without a terminator when it is too long. *)
Definition buffer_holds (st : Main) (path : bytes) : Prop :=
  len (cfgFile st) = PATH_MAX /\
  c_string (cfgFile st) = if len path <? PATH_MAX then Some path else None.

Lemma parse_options_eq b opts path st :
  Forall opt_ok opts -> buffer_holds st path ->
  match command opts path (daemonize st) with
  | None => exists st', parse_options b opts st = Done (Some 0, st')
  | Some (path', d) => exists st', parse_options b opts st = Done (None, st') /\
      buffer_holds st' path' /\ daemonize st' = d
  end.
Proof.
  intros Ho. revert path st. induction Ho as [|o opts Ho _ IH]; intros path st Hb; [by eexists|].
  destruct o as [optarg| | | |]; cbn [command parse_options]; [| |by eexists..].
  - destruct (strncpy_c_string optarg (replicate (length (cfgFile st)) x00) Ho) as (buf & E & Hl & Hc).
    assert (len (replicate (length (cfgFile st)) x00) = PATH_MAX) as Hlen
      by (rewrite <-(proj1 Hb); unfold zlen; by rewrite length_replicate).
    rewrite Hlen in *. unfold mbind, M_bind, on_cfgFile, zoom, clear, modify. cbn [cfgFile]. rewrite E.
    apply (IH optarg (mkMain buf (daemonize st) (main_calls st))). by split.
  - apply (IH path (mkMain (cfgFile st) true (main_calls st))). done.
Qed.

(** ** The start *)

Section Start.
Context `{Host} `{AssertMode} `{SteadyTimer} `{!SteadyTimerLaws} `{LibConfig} `{BoostString}
  `{ProtoBuf} `{!EQueue RpcInstance} `{!EQueueLaws RpcInstance}.
Context (stack : ExecutorConf).
#[local] Hint Extern 0 (Service XtraTaskService) => exact (xtra_service stack) : typeclass_instances.
#[local] Hint Extern 0 (Answering XtraTaskService) => exact (xtra_answering stack) : typeclass_instances.

Abbreviation Program := (Captain * Dispatcher XtraTaskService)%type.
Definition Program_new : Program := (Captain_new, Dispatcher_new).

(** What the start of the program comes to, for the settings file [path]. *)
Definition start_status (e : Startup) (path : bytes) (d : bool) (r : outcome (Z * (Main * Program))) : Prop :=
  if negb (ssl_ok e) || (d && negb (daemon_ok e)) then exists m, r = Done (EXIT_FAILURE, (m, Program_new))
  else
    match start_of stack (boot_of e path) with
    | StartFails => exists m p, r = Done (EXIT_FAILURE, (m, p)) /\
        forall s, net_server_ptr_ (fst p) = Some s -> accepting s = 0%nat
    | StartAborts => r = AssertFailed
    | StartServes _ _ =>
        exists m c d s, r = Done (0, (m, (c, d))) /\ net_server_ptr_ c = Some s /\ accepting s = 1%nat
    end.

Lemma joinall_eq (c : Captain) (s : NetServer) calls :
  timer_ptr_ c = Some calls -> net_server_ptr_ c = Some s ->
  exists c' s', service_joinall c = Done (true, c') /\ net_server_ptr_ c' = Some s' /\ accepting s' = accepting s.
Proof.
  intros Ht Hs. unfold service_joinall, timer_threads_join, on_net_server, zoom, io_service_join, mbind, M_bind, modify.
  rewrite Ht. cbn. rewrite Hs. by eexists _, _.
Qed.

Lemma main_run_status (e : Startup) (st : Main) path d :
  c_string (cfgFile st) = Some path -> daemonize st = d ->
  start_status e path d (main_run stack e (st, Program_new)).
Proof.
  intros Hpath Hdae.
  enough (forall r, main_run stack e (st, Program_new) = r -> start_status e path d r) as Hr by by apply Hr.
  intros r. unfold main_run, start_status.
  unfold mbind at 1 2 3 4, M_bind at 1 2 3 4, on_main at 1 2 3 4, zoom at 1 2 3 4, cfg_path, call at 1 2 3, modify at 1 2 3.
  cbn [fst snd]. rewrite Hpath. cbn [fst snd daemonize].
  destruct (ssl_ok e); cbn [negb orb]; [|by intros <-; eexists].
  unfold mbind at 1 2, M_bind at 1 2, on_main at 1 2, zoom at 1 2, gets at 1. cbn [fst snd daemonize]. rewrite Hdae.
  set (m1 := mkMain _ _ _).
  assert (exists m2, when d (call Daemon) m1 = Done (tt, m2)) as (m2 & Em) by (destruct d; by eexists).
  rewrite Em. cbn [fst snd]. destruct (d && negb (daemon_ok e)); [by intros <-; eexists|].
  unfold create_process_pid, on_main, on_program, call, modify, mbind, M_bind, zoom, mret, M_ret. cbn [fst snd].
  destruct (start_of stack (boot_of e path)) as [| |cfg conf] eqn:Hst.
  { destruct (captain_fails stack _ Hst) as (c & d' & E & _ & _ & Hacc). unfold Program_new. rewrite E.
    intros <-. cbn. by eexists _, (c, d'). }
  { intros <-. unfold Program_new. by rewrite (captain_aborts stack _ Hst). }
  destruct (captain_starts stack _ cfg conf Hst) as (c & d' & s & E & Hs & [Hacc _] & _ & _ & (_ & _ & Htp & _) & _).
  unfold Program_new. rewrite E. cbn [fst snd negb].
  destruct (joinall_eq c s [] Htp Hs) as (c' & s' & Ej & Hs' & Hacc'). unfold on_captain, zoom. cbn [fst snd]. rewrite Ej.
  intros <-. eexists _, _, _, _. split; [done|]. split; [done|]. by rewrite Hacc'.
Qed.


(** ** Signals *)

(** The signal handlers are installed too early. [main] installs them before the Captain
    is initialised; SIGHUP or SIGUSR1 then finds neither settings nor status: the handler's
    assertion fails, and where assertions do not stop the process it goes through a null
    pointer. *)
Lemma early_signal_traps (sig : signal) reloaded pool_size :
  interrupted_callback stack sig reloaded pool_size Program_new =
    match sig with
    | SIGHUP | SIGUSR1 => if assert_stops then AssertFailed else Undefined
    | _ => Done ([], Program_new)
    end.
Proof.
  unfold interrupted_callback, on_captain, zoom, setting_ptr_call, status_ptr_call, safe_assert,
    mbind, M_bind, gets. by destruct sig; cbn; destruct assert_stops.
Qed.

(** A program that was started, with the server [s]. *)
Record started (c : Captain) (s : NetServer) (d : Dispatcher XtraTaskService) : Prop := {
  st_server : net_server_ptr_ c = Some s;
  st_setting : is_Some (setting_ptr_ c);
  st_runtime : CallAttachRuntime "NetServer" ∈ ns_calls s;
  st_dispatcher : CallAttachRuntime "Dispatcher" ∈ dp_calls d
}.

(** SIGHUP is the runtime update. In a started program the signal, with the settings that
    are read again, does to the server and the dispatcher exactly what the update event
    does to the running server, and nothing when they cannot be read. *)
Lemma sighup_updates (c : Captain) (w : World XtraTaskService) reloaded pool_size :
  started c (w_server w) (w_disp w) ->
  interrupted_callback stack SIGHUP reloaded pool_size (c, w_disp w) =
    match reloaded with
    | None => Done ([], (c, w_disp w))
    | Some cfg =>
        match wstep (WRuntime cfg) w with
        | Done w' => Done ([], (set_net_server (Some (w_server w')) c, w_disp w'))
        | AssertFailed => AssertFailed
        | Undefined => Undefined
        | OutOfFuel => OutOfFuel
        end
    end.
Proof.
  intros [Hs [p Hp] Hr Hd].
  assert (on_captain setting_ptr_call (c, w_disp w) = Done (tt, (c, w_disp w))) as E
    by (unfold on_captain, zoom, setting_ptr_call, safe_assert, mbind, M_bind, gets; cbn; by rewrite Hp).
  unfold interrupted_callback. unfold mbind at 1, M_bind at 1. rewrite E.
  destruct reloaded as [cfg|]; [|done]. cbn [wstep]. unfold update_settings, update_runtime_setting.
  unfold mbind, M_bind, on_captain, on_dispatcher, gets, zoom. cbn [fst snd].
  unfold runtime_attached. rewrite Hs, bool_decide_true by done.
  unfold on_net_server, zoom. cbn [fst].
  rewrite Hs.
  destruct (NetServer_module_runtime cfg (w_server w)) as [[ret s']| | |]; try done.
  unfold mret, M_ret. cbn [fst snd]. unfold dispatcher_attached. rewrite bool_decide_true by done.
  cbn [fst snd]. by destruct (Dispatcher_module_runtime cfg (w_disp w)) as [[ret2 d2]| | |].
Qed.

(** ** The server of a started program *)

(** The services a start leaves. *)
Definition known_services (b : Boot) (conf : ExecutorConf) : gset Z :=
  if registered b conf then {[ XTRA_TASK_SERVICE ]} else ∅.

Lemma started_world_ready b cfg conf (s : NetServer) (d : Dispatcher XtraTaskService) :
  server_ready cfg s -> services_ready b conf d -> world_ready (known_services b conf) s d.
Proof.
  intros (_ & Hconns & Hcount & _ & timer & Hconf & Ht) Hsv. unfold known_services, services_ready in *. split; try done.
  - rewrite Hconf. intros Hs. cbn. unfold server_conf in *.
    destruct timer; [by eexists|]. exfalso. apply Hs. cbn. by apply Ht.
  - destruct (registered b conf).
    + destruct Hsv as (e & Es & _ & _ & Himpl & _). split; rewrite Es; [apply dom_singleton_L|].
      apply map_Forall_singleton. rewrite Himpl. by eexists.
    + split; rewrite Hsv; [apply dom_empty_L|apply map_Forall_empty].
  - unfold all_queued. destruct (registered b conf).
    + destruct Hsv as (e & Es & _ & Hq & _). rewrite Es, map_to_list_singleton. cbn. by rewrite Hq, queued_new.
    + by rewrite Hsv, map_to_list_empty.
Qed.

(** C1: the program answers every request once. A start whose steps succeed leaves a server
    that accepts; whatever then happens in whatever order, for every connection the
    messages accepted for sending and the answers still due are, up to order, the answers
    to the requests taken from the peer's bytes: those of the demo service for requests
    to it, a refusal for all others, those over the send limit left out; and no event
    the environment allows traps the process. *)
Theorem program_answers (b : Boot) cfg conf :
  start_confs stack b = Some (cfg, conf) -> 0 < exec_thread_number_ conf ->
  exists c d s, Captain_init stack b Program_new = Done (true, (c, d)) /\ started c s d /\ accepting s = 1%nat /\
    forall w, wreach (fresh_world s d) w ->
      (forall e, wenabled e w = true -> exists w', wstep e w = Done w') /\
      forall id k, ns_conns (w_server w) !! id = Some k ->
        exists wire rcvd ms, w_net w !! id = Some (wire, rcvd) /\
          sent_log k ++ due w id ≡ₚ
            admissible (w_conf w) (reaction (S:=XtraTaskService) (known_services b conf) id <$> ms) /\
          ms `prefix_of` requests w rcvd /\ (live k -> ms = requests w rcvd) /\
          wire `prefix_of` stream (sent_log k).
Proof.
  intros Hst _.
  assert (start_of stack b = StartServes cfg conf) as Hst'
    by (unfold start_confs in Hst; destruct (start_of stack b); by simplify_eq). clear Hst; rename Hst' into Hst.
  destruct (captain_starts stack b cfg conf Hst) as (c & d & s & E & Hs & Hsr & _ & Hsv & (Hset & _ & _ & Hdp) & _).
  exists c, d, s. split; [exact E|]. split; [|split; [apply Hsr|]].
  - destruct Hsr as (_ & _ & _ & Hcalls & _). split; [done|by eexists| |];
      rewrite ?Hcalls, ?Hdp; set_solver.
  - intros w Hw. pose proof (wreach_inv _ s d w (started_world_ready b cfg conf s d Hsr Hsv) Hw) as I. split.
    + intros e He. destruct (wstep_ok _ w e I He) as (w' & Ew & _). by exists w'.
    + intros id k Hk. by apply (account_of_inv (known_services b conf)).
Qed.
End Start.

(** ** Worked examples *)

From S2P Require Import Demo.

(** A stand-in for the generated protobuf code. *)
#[local] Instance demo_proto : ProtoBuf := {|
  unmarshal_request := fun _ => None;
  marshal_response := fun _ => []
|}.

Definition demo_build : Build := mkBuild (str_bytes "tzrpc") (str_bytes "1.0") [] [] [] [] [].

(** [tzrpc -d -c c]: a start in the background, with the settings of [demo_config]. *)
Definition demo_startup : Startup :=
  mkStartup demo_build [Opt_d; Opt_c (str_bytes "c")] true true true (fun _ => demo_boot true).
(** The same with its port in use. *)
Definition demo_taken_startup : Startup :=
  mkStartup demo_build [Opt_d; Opt_c (str_bytes "c")] true true true (fun _ => demo_port_taken).
(** [tzrpc -c cccc..]: a name of 5000 bytes. *)
Definition demo_long_name : Startup :=
  mkStartup demo_build [Opt_c (replicate 5000 x63)] true true true (fun _ => demo_boot true).

Lemma nul_free_letters n : nul_free (replicate n x63).
Proof. unfold nul_free. by intros [? ?]%elem_of_replicate. Defined.


(** A running program, and the signal that makes it read [demo_net_config]. *)
Definition demo_running : World XtraTaskService :=
  fresh_world (add_ns_call (CallAttachRuntime "NetServer") demo_server)
    (mkDispatcher true ∅ [CallAttachRuntime "Dispatcher"]).
Definition demo_captain : Captain :=
  mkCaptain true (Some (w_server demo_running)) (Some (Some demo_config)) true (Some []) None.

Lemma demo_sighup :
  exists w', wstep (Service0:=xtra_service ServiceConf_new) (WRuntime (demo_net_config 7)) demo_running = Done w' /\
    interrupted_callback ServiceConf_new SIGHUP (Some (demo_net_config 7)) (fun _ => 2)
      (demo_captain, w_disp demo_running) = Done ([], (set_net_server (Some (w_server w')) demo_captain, w_disp w')).
Proof.
  assert (started demo_captain (w_server demo_running) (w_disp demo_running)) as Hs.
  { split; [done|by eexists| |]; cbn; set_solver. }
  pose proof (sighup_updates ServiceConf_new demo_captain demo_running (Some (demo_net_config 7)) (fun _ => 2) Hs) as E.
  cbn iota in E. destruct (wstep _ demo_running) as [w'| | |] eqn:Ew.
  - exists w'. split; [done|exact E].
  - by vm_compute in Ew.
  - by vm_compute in Ew.
  - by vm_compute in Ew.
Defined.

Lemma program_answers_witness :
  exists c d s, Captain_init ServiceConf_new (demo_boot true) Program_new = Done (true, (c, d)) /\
    started c s d /\ forall w, wreach (Service0:=xtra_service ServiceConf_new) (fresh_world s d) w ->
      forall e, wenabled e w = true -> exists w', wstep (Service0:=xtra_service ServiceConf_new) e w = Done w'.
Proof.
  destruct (program_answers ServiceConf_new (demo_boot true) demo_config (mkExecutorConf 2 2 0))
    as (c & d & s & E & Hs & _ & Hall); [unfold start_confs; by rewrite demo_start_confs|done|].
  exists c, d, s. split; [exact E|]. split; [exact Hs|]. intros w Hw. by apply Hall.
Defined.
